(* ===== verification/_CoqProject ===== *)
-Q . S2P
Prelude.v
Memory.v
Portio.v
Klib.v
Mutex.v
Kmalloc.v
KmallocStore.v
KmallocProps.v
Heap.v
Context.v
SchedQueue.v
Sched.v
SchedProps.v
SchedInv.v
SchedExample.v
SchedOps.v
SchedHeap.v
SchedStart.v
Ramdisk.v
RamdiskBlocks.v
RamdiskPath.v
RamdiskUnlink.v
RamdiskFile.v
RamdiskOps.v
RamdiskDir.v
Kvideo.v
KvideoProps.v
Console.v
ProtoCr.v
Interrupt.v
StatefulCr.v
Kernel.v
KernelProps.v
KernelInit.v
KernelStart.v
TestRd.v
TestRdProps.v
Keyboard.v
KbdBw.v
KbdProg.v
KbdIrq.v
