(* ===== verification/Prelude.v ===== *)
(** * MemeOS: a verification library for the kernel of src/MemeOS

    MemeOS is a 32-bit kernel without paging: a boot sequence, a first-fit
    allocator, a preemptive round robin scheduler, a spin lock, a text console,
    interrupt set-up, demonstration threads and a Unix-like file system in memory;
    src/primer holds two keyboard modules for Linux.  This library is a
    shallow embedding of its C code in Rocq with the theorems that say what the
    code does, the places where it does not do what it means to included.

    ** How the code is modelled

    There is one flat memory of bytes ([Memory.mem]).  A pointer is a [Z], a
    structure is an address with accessors at the byte offsets of the packed C
    layout, and every C function that reads or writes through pointers is a
    Rocq function from memories to memories.  Static variables that are not
    reached through pointers are records that are passed along
    ([Kmalloc.kmalloc_state], [Sched.sched_state], [Ramdisk.rd_state],
    [Kvideo.video_state]).  Integers are [Z] with the wrap-around of their C type
    written out ([u8], [u16], [u32], [u64], [s8], [s32] below).  A loop without a
    constant bound takes fuel and answers [None] when the fuel runs out; the
    theorems state how much fuel is enough, so they prove termination, or that
    no fuel is enough ([KmallocProps.kmalloc_out_of_memory],
    [KbdIrq.irq_reader_waits]).  What is outside
    the repository is a parameter: the addresses where the compiler puts static
    variables, string literals and local buffers, and the devices behind the
    port instructions ([Portio.device]).

    ** Files, in order

    - Prelude: integers, tactics, fuelled loops.
    - Memory: bytes, words, frames ([same_on], [same_off]), byte sequences, NUL
      terminated strings ([cstr]).
    - Portio: port accesses as a trace; src/timer.c.
    - Klib: src/stdlib.c.
    - Mutex: src/mutex.c, the lock as a function and as a step relation.
    - Kmalloc, KmallocStore, KmallocProps: src/kmalloc.c; the block list in memory
      against lists of (size, free) pairs; the theorems.  Heap: the interface
      [Heap] that the scheduler's proofs use and its instance for the allocator.
      Scheduler and demonstration threads are proved against this class.
    - Context: the register file, the task structure, the assembly macros of
      src/sched.c.
    - SchedQueue, Sched, SchedProps, SchedInv, SchedExample, SchedOps: the circular
      queues, the functions of src/sched.c, src/kthread.c and src/sysutils.c, the
      wait queue, the invariant [sched_ok], a concrete scheduler, the theorems.
      SchedHeap: what allocates or frees: initialisation, registration and
      termination, and [kernel_ok], the invariant of scheduler and heap together.
      SchedStart: the timer interrupts up to the first time slice of a new thread.
    - Ramdisk: src/ramdisk.c and src/vfs.c with the layouts of sys/ufs.h and
      sys/vfs.h.  RamdiskBlocks: initialisation and the block bitmap.
      RamdiskPath: path lookup and creation.  RamdiskUnlink: deletion.  RamdiskFile,
      RamdiskOps: open files.  RamdiskDir: reading a directory.
    - Kvideo, KvideoProps: src/kvideo.c and the reference of [printf].  Console: the
      interface [Console] of its clients (a call prints its text and writes only the
      console's bytes) and its instance.
    - ProtoCr: src/proto_cr.c, coroutines and their own scheduler.
    - Interrupt: src/interrupt.c and sys/interrupt.h.
    - StatefulCr: src/stateful_cr.c, the threads as lists of calls and their
      interleavings as a step relation, and their registration.
    - Kernel, KernelProps, KernelInit: src/kernel.c; [kmain] is split into
      [kmain_devices] and [kmain_threads], [init] into the parts before and after
      its sleep.  The boot composes console, interrupts, allocator and scheduler.
      KernelStart: from [kmain] over the timer to the first time slice of [init].
    - TestRd, TestRdProps: src/test_rd.c, the test of the file system, in a monad with
      early return; it composes the file system, the console and the scheduler.
    - Keyboard, KbdBw, KbdIrq: the keyboard modules of src/primer.  KbdProg: the
      programs that use them, against the interface [Keys], which the polling module
      implements, and the interface [Blocks] of the C allocator.

    ** What the theorems show

    - Allocator: [kmalloc] and [kfree] refine first fit on a list of blocks, with
      splitting and merging; blocks in use keep their contents; the two undo each
      other; a request that cannot be satisfied never returns.
    - Scheduler: queue operations are list operations; selection is the reference
      round robin and fair; every operation keeps [sched_ok] (disjoint queues,
      one running task, saved contexts inside their stacks); which sleepers one
      service of the wait queue wakes; registration and termination keep the heap.
    - Boot: the report is the list of its lines; [kmain] reaches its last loop with
      screen, descriptor table, controllers, heap and scheduler as they should be and
      [init] as the only thread; the fifth timer interrupt then starts [init] at its
      function, which creates the three threads and sleeps.
    - Demonstration threads: the preemptive threads print their rows without mixing
      and can always finish; the cooperative ones print what they should and return,
      after one call through a queue entry that has been freed.
    - Context switch: saving and dispatching is the identity on the registers; a
      new thread starts at its function with interrupts enabled; returning from it
      reaches the finalizer, one word beyond its stack block.
    - Lock: mutual exclusion for all interleavings, progress.
    - File system: a fresh disk; allocation as the head of the list of free
      blocks, and the freeing that frees another block; path lookup equals a
      reference on lists of characters, from which follow that directories cannot
      be looked up and that unknown components are skipped; creation followed by
      lookup; deletion undoes creation byte for byte, and hides every file behind the
      emptied entry, which is why the repository's own test fails at its second
      deletion; a pass over a directory returns all sixteen entries; the first 2048
      bytes of a file are read back as written; reading and
      writing end on every disk; seeking keeps the position in range; the test of
      descriptors and its off-by-one.
    - Console: the cursor stays on the screen and only screen memory is written;
      [printf] equals a reference that maps format and arguments to characters and
      colour changes.
    - Interrupts: every vector decodes to its handler, type and privilege level;
      masks are sets of bits, and after initialisation only the timer is unmasked.
    - Keyboard modules: the character of the first pressed key; a line that stays
      disabled; a reader that waits for a byte that the handler has already taken;
      the program that reads a line into a growing buffer, down to the controller.
    - Library: overlapping copies, comparison and prefix tests, decimal and
      hexadecimal text of every 32-bit integer.

    ** Bounds and fuel

    [itoa_fuel] is 32, the bits of a word.  [rd_fuel] is 5000: a file has at most
    8 + 65 + 64 * 64 blocks on the path of the loops; [RamdiskFile.rounds] counts
    what is left of them.  The loops over strings take a fuel above the length of
    the string; the loop over the block list takes one above the number of blocks;
    those of the boot report take one above the number of modules and of entries of
    the memory map.  [INIT_ROOM], [REGISTER_ROOM] and [BOOT_ROOM] are the bytes of heap
    that initialisation, one thread and the boot need.

    ** Not modelled

    - The programs under test/, older copies of src/test_rd.c and a test of the
      allocator; in src/kernel.c the code under RUN_TEST, which is not compiled.
    - example.c of src/primer/kbd_irq, a copy from a tutorial.
    - asm/ and primer2/: assembly; the handlers appear as addresses.
    - include/elf.h: a copy of the format's definitions that the kernel does not
      use; include/sys/multiboot.h only as far as the boot reads it.
    - src/endoh.c: a file that is one comment.
    - Preemption inside a function: each function is one step; the lock and the
      preemptive threads are also given as step relations, where the interleavings
      matter. *)

From Stdlib Require Export ZArith Lia.
From stdpp Require Export base list gmap.

#[export] Set Default Goal Selector "!".
#[export] Set Warnings "-clear-no-such-hyp".

Declare Scope memeos_scope.
Delimit Scope memeos_scope with meme.
Global Open Scope Z_scope.

(** ** Machine integers

    The kernel is compiled with [-m32]: [int], [long] and pointers are 32 bits
    wide.  Values are kept in [Z] and wrapped where the C code converts. *)

Definition u8 (z : Z) : Z := z mod 256.
Definition u16 (z : Z) : Z := z mod 65536.
Definition u32 (z : Z) : Z := z mod 4294967296.
Definition u64 (z : Z) : Z := z mod 18446744073709551616.
Definition s8 (z : Z) : Z := (z + 128) mod 256 - 128.
Definition s32 (z : Z) : Z := (z + 2147483648) mod 4294967296 - 2147483648.

(** C truth values. *)
Definition c_true (z : Z) : bool := negb (z =? 0).
Definition b2z (b : bool) : Z := if b then 1 else 0.

Ltac dlia := Z.to_euclidean_division_equations; lia.

Create HintDb memeos.
Create Rewrite HintDb mem.

Lemma u8_range z : 0 <= u8 z < 256.
Proof. unfold u8. dlia. Qed.

Lemma u16_range z : 0 <= u16 z < 65536.
Proof. unfold u16. dlia. Qed.

Lemma u32_range z : 0 <= u32 z < 4294967296.
Proof. unfold u32. dlia. Qed.

Lemma s32_range z : -2147483648 <= s32 z < 2147483648.
Proof. unfold s32. dlia. Qed.

Lemma u8_small z : 0 <= z < 256 -> u8 z = z.
Proof. unfold u8. intros. by rewrite Z.mod_small. Qed.

Lemma u16_small z : 0 <= z < 65536 -> u16 z = z.
Proof. unfold u16. intros. by rewrite Z.mod_small. Qed.

Lemma u32_small z : 0 <= z < 4294967296 -> u32 z = z.
Proof. unfold u32. intros. by rewrite Z.mod_small. Qed.

Lemma s32_small z : -2147483648 <= z < 2147483648 -> s32 z = z.
Proof. unfold s32. intros. rewrite Z.mod_small; lia. Qed.

Lemma u8_u8 z : u8 (u8 z) = u8 z.
Proof. apply u8_small, u8_range. Qed.

Lemma u32_u32 z : u32 (u32 z) = u32 z.
Proof. apply u32_small, u32_range. Qed.

Lemma s32_u32 z : s32 (u32 z) = s32 z.
Proof. unfold s32, u32. dlia. Qed.

Lemma c_true_spec z : c_true z = true <-> z <> 0.
Proof. unfold c_true. destruct (Z.eqb_spec z 0); split; simpl; congruence. Qed.

Lemma c_true_nonzero z : z <> 0 -> c_true z = true.
Proof. apply c_true_spec. Qed.

#[export] Hint Resolve u8_range u16_range u32_range s32_range : memeos.

(** Case analysis on the boolean integer comparisons of the model. *)
Ltac case_Z :=
  match goal with
  | |- context [Z.eqb ?a ?b] => destruct (Z.eqb_spec a b)
  | |- context [Z.ltb ?a ?b] => destruct (Z.ltb_spec a b)
  | |- context [Z.leb ?a ?b] => destruct (Z.leb_spec a b)
  | |- context [Z.gtb ?a ?b] => rewrite (Z.gtb_ltb a b); destruct (Z.ltb_spec b a)
  | |- context [Z.geb ?a ?b] => rewrite (Z.geb_leb a b); destruct (Z.leb_spec b a)
  end.

(** Rewrite an integer test that [lia] decides. *)
Lemma eqb_ne a b : a <> b -> (a =? b) = false.
Proof. apply Z.eqb_neq. Qed.

Lemma ltb_ge a b : b <= a -> (a <? b) = false.
Proof. apply Z.ltb_ge. Qed.

Lemma ltb_lt a b : a < b -> (a <? b) = true.
Proof. apply Z.ltb_lt. Qed.

Lemma leb_gt a b : b < a -> (a <=? b) = false.
Proof. apply Z.leb_gt. Qed.

Lemma leb_le a b : a <= b -> (a <=? b) = true.
Proof. apply Z.leb_le. Qed.

(** ** Fuelled loops

    A C loop whose bound is not a constant of the source is a fixpoint on a
    fuel argument; [None] is the result of a run that exhausted it.  The
    theorems that use these loops prove that a stated amount of fuel is
    enough, so they show termination too. *)

Section While.
Context {St : Type} (cond : St -> bool) (body : St -> St).

Fixpoint while (fuel : nat) (s : St) : option St :=
  match fuel with
  | O => None
  | S n => if cond s then while n (body s) else Some s
  end.

(** Total correctness rule: an invariant and a decreasing measure. *)
Lemma while_total (I : St -> Prop) (mu : St -> nat) :
  (forall s, I s -> cond s = true -> I (body s) /\ (mu (body s) < mu s)%nat) ->
  forall fuel s, I s -> (mu s < fuel)%nat ->
  exists s', while fuel s = Some s' /\ I s' /\ cond s' = false.
Proof.
  intros Hstep fuel. induction fuel as [|n IH]; intros s HI Hmu; [lia|].
  simpl. destruct (cond s) eqn:E; [|by eauto].
  destruct (Hstep s HI E) as [HI' Hlt]. apply IH; [done|lia].
Qed.

Lemma while_mono n k s s' :
  while n s = Some s' -> (n <= k)%nat -> while k s = Some s'.
Proof.
  revert k s. induction n as [|n IH]; intros k s H Hle; simpl in *; [done|].
  destruct k as [|k]; [lia|]. simpl. destruct (cond s); [|done].
  apply IH; [done|lia].
Qed.

(** A loop whose condition is preserved for ever never returns. *)
Lemma while_diverges (I : St -> Prop) :
  (forall s, I s -> cond s = true /\ I (body s)) ->
  forall fuel s, I s -> while fuel s = None.
Proof.
  intros Hstep fuel. induction fuel as [|n IH]; intros s HI; simpl; [done|].
  destruct (Hstep s HI) as [-> HI']. by apply IH.
Qed.
End While.
