(* ===== verification/Memory.v ===== *)
(** * Memory: the flat 32-bit physical memory of the machine

    MemeOS runs without paging: every pointer of the C code is a physical
    address and every object (block headers, task structures, inodes, disk
    blocks, the video buffer) is a range of bytes of one memory.  An address
    that was never written holds 0.  Multi-byte accesses are little endian. *)

From S2P Require Import Prelude.

Record mem := Mem { mem_bytes : gmap Z Z }.

Definition mem_zero : mem := Mem ∅.

Definition load8 (m : mem) (a : Z) : Z := u8 (default 0 (mem_bytes m !! a)).

Definition store8 (m : mem) (a v : Z) : mem :=
  Mem (if u8 v =? 0 then delete a (mem_bytes m) else <[a := u8 v]> (mem_bytes m)).

Definition load16 (m : mem) (a : Z) : Z := load8 m a + 256 * load8 m (a + 1).

Definition store16 (m : mem) (a v : Z) : mem :=
  store8 (store8 m a v) (a + 1) (v / 256).

Definition load32 (m : mem) (a : Z) : Z :=
  load16 m a + 65536 * load16 m (a + 2).

Definition store32 (m : mem) (a v : Z) : mem :=
  store16 (store16 m a v) (a + 2) (v / 65536).

Arguments load8 : simpl never.
Arguments store8 : simpl never.
Arguments load16 : simpl never.
Arguments store16 : simpl never.
Arguments load32 : simpl never.
Arguments store32 : simpl never.

(** Memories are compared by what a load returns. *)
#[export] Instance mem_equiv : Equiv mem := fun m1 m2 => forall a, load8 m1 a = load8 m2 a.

#[export] Instance mem_equivalence : Equivalence (≡@{mem}).
Proof.
  split; [intros ?? | intros ???? | intros ????? a]; [done|symmetry; auto|].
  etrans; auto.
Qed.

(** ** Loads of stores *)

Lemma load8_range m a : 0 <= load8 m a < 256.
Proof. apply u8_range. Qed.

Lemma load16_range m a : 0 <= load16 m a < 65536.
Proof.
  unfold load16. pose proof (load8_range m a). pose proof (load8_range m (a + 1)). lia.
Qed.

Lemma load32_range m a : 0 <= load32 m a < 4294967296.
Proof.
  unfold load32. pose proof (load16_range m a). pose proof (load16_range m (a + 2)). lia.
Qed.

#[export] Hint Resolve load8_range load16_range load32_range : memeos.

Lemma load8_store8 m a b v :
  load8 (store8 m a v) b = if decide (a = b) then u8 v else load8 m b.
Proof.
  unfold load8, store8; simpl. case_Z.
  - rewrite lookup_delete. case_decide; simpl; [|done]. rewrite e. done.
  - rewrite lookup_insert. case_decide; simpl; [|done]. apply u8_u8.
Qed.

Lemma load8_store8_eq m a b v : a = b -> load8 (store8 m a v) b = u8 v.
Proof. intros ->. rewrite load8_store8. by rewrite decide_True. Qed.

Lemma load8_store8_ne m a b v : a <> b -> load8 (store8 m a v) b = load8 m b.
Proof. intros. rewrite load8_store8. by rewrite decide_False. Qed.

#[export] Instance load8_proper : Proper ((≡) ==> (=) ==> (=)) load8.
Proof. intros m1 m2 Hm a ? <-. apply Hm. Qed.

#[export] Instance load16_proper : Proper ((≡) ==> (=) ==> (=)) load16.
Proof. intros m1 m2 Hm a ? <-. unfold load16. by rewrite !Hm. Qed.

#[export] Instance load32_proper : Proper ((≡) ==> (=) ==> (=)) load32.
Proof. intros m1 m2 Hm a ? <-. unfold load32. by rewrite !Hm. Qed.

#[export] Instance store8_proper : Proper ((≡) ==> (=) ==> (=) ==> (≡)) store8.
Proof.
  intros m1 m2 Hm a ? <- v ? <- b. rewrite !load8_store8. case_decide; [done|apply Hm].
Qed.

#[export] Instance store16_proper : Proper ((≡) ==> (=) ==> (=) ==> (≡)) store16.
Proof. intros m1 m2 Hm a ? <- v ? <-. unfold store16. by rewrite Hm. Qed.

#[export] Instance store32_proper : Proper ((≡) ==> (=) ==> (=) ==> (≡)) store32.
Proof. intros m1 m2 Hm a ? <- v ? <-. unfold store32. by rewrite Hm. Qed.

(** [b] is not one of the [n] bytes from [a]. *)
Definition off (a n b : Z) : Prop := b < a \/ a + n <= b.

Lemma load8_store16_ne m a b v : off a 2 b -> load8 (store16 m a v) b = load8 m b.
Proof. unfold off, store16. intros. rewrite !load8_store8_ne by lia. done. Qed.

Lemma load8_store32_ne m a b v : off a 4 b -> load8 (store32 m a v) b = load8 m b.
Proof. unfold off, store32. intros. rewrite !load8_store16_ne; unfold off; lia || done. Qed.

(** Two memories that agree on the bytes of a word agree on the word. *)
Lemma load16_ext m m' a :
  (forall i, 0 <= i < 2 -> load8 m' (a + i) = load8 m (a + i)) -> load16 m' a = load16 m a.
Proof.
  intros H. unfold load16. rewrite (H 1) by lia.
  specialize (H 0). rewrite Z.add_0_r in H. rewrite H by lia. done.
Qed.

Lemma load32_ext m m' a :
  (forall i, 0 <= i < 4 -> load8 m' (a + i) = load8 m (a + i)) -> load32 m' a = load32 m a.
Proof.
  intros H. unfold load32. rewrite (load16_ext m m' a), (load16_ext m m' (a + 2)); [done| |].
  - intros i Hi. rewrite <- Z.add_assoc. apply H. lia.
  - intros i Hi. apply H. lia.
Qed.

Lemma load16_store8_ne m a b v : a < b \/ b + 2 <= a -> load16 (store8 m a v) b = load16 m b.
Proof. intros. apply load16_ext. intros. apply load8_store8_ne. lia. Qed.

Lemma load32_store8_ne m a b v : a < b \/ b + 4 <= a -> load32 (store8 m a v) b = load32 m b.
Proof. intros. apply load32_ext. intros. apply load8_store8_ne. lia. Qed.

Lemma load32_store16_ne m a b v :
  a + 2 <= b \/ b + 4 <= a -> load32 (store16 m a v) b = load32 m b.
Proof. intros. apply load32_ext. intros. apply load8_store16_ne. unfold off. lia. Qed.

Lemma load16_store16_ne m a b v :
  a + 2 <= b \/ b + 2 <= a -> load16 (store16 m a v) b = load16 m b.
Proof. intros. apply load16_ext. intros. apply load8_store16_ne. unfold off. lia. Qed.

Lemma load16_store32_ne m a b v :
  a + 4 <= b \/ b + 2 <= a -> load16 (store32 m a v) b = load16 m b.
Proof. intros. apply load16_ext. intros. apply load8_store32_ne. unfold off. lia. Qed.

Lemma load32_store32_ne m a b v :
  a + 4 <= b \/ b + 4 <= a -> load32 (store32 m a v) b = load32 m b.
Proof. intros. apply load32_ext. intros. apply load8_store32_ne. unfold off. lia. Qed.

Lemma load16_store16_eq m a b v : a = b -> load16 (store16 m a v) b = u16 v.
Proof.
  intros ->. unfold load16, store16.
  rewrite load8_store8_ne, !load8_store8_eq by lia. unfold u8, u16. dlia.
Qed.

Lemma load32_store32_eq m a b v : a = b -> load32 (store32 m a v) b = u32 v.
Proof.
  intros ->. unfold load32, store32.
  rewrite load16_store16_ne, !load16_store16_eq by lia. unfold u16, u32. dlia.
Qed.

(** Rewriting of loads over stores whose addresses [lia] can tell apart. *)
#[export] Hint Rewrite load8_store8_eq load8_store8_ne load8_store16_ne load8_store32_ne
  load16_store8_ne load16_store16_eq load16_store16_ne load16_store32_ne
  load32_store8_ne load32_store16_ne load32_store32_eq load32_store32_ne
  using (unfold off; lia) : mem.

Ltac mem_simpl := autorewrite with mem.

(** ** Frames: what an operation leaves alone *)

(** [m'] holds the bytes of [m] at every address satisfying [P]. *)
Definition same_on (P : Z -> Prop) (m m' : mem) : Prop :=
  forall a, P a -> load8 m' a = load8 m a.

(** Only the [n] bytes from [a] may differ. *)
Definition same_off (a n : Z) (m m' : mem) : Prop := same_on (off a n) m m'.

#[export] Instance same_on_preorder P : PreOrder (same_on P).
Proof.
  split; [by intros m a ?|]. intros m1 m2 m3 H12 H23 a Ha. rewrite H23, H12; done.
Qed.

Lemma same_on_weaken (P Q : Z -> Prop) m m' :
  (forall a, Q a -> P a) -> same_on P m m' -> same_on Q m m'.
Proof. intros HPQ H a Ha. apply H. auto. Qed.

Lemma same_off_weaken a n b k m m' :
  b <= a -> a + n <= b + k -> same_off a n m m' -> same_off b k m m'.
Proof. intros ??. apply same_on_weaken. unfold off. lia. Qed.

Lemma same_on_load32 P m m' a :
  same_on P m m' -> (forall i, 0 <= i < 4 -> P (a + i)) -> load32 m' a = load32 m a.
Proof. intros H HP. apply load32_ext. auto. Qed.

Lemma same_on_load16 P m m' a :
  same_on P m m' -> (forall i, 0 <= i < 2 -> P (a + i)) -> load16 m' a = load16 m a.
Proof. intros H HP. apply load16_ext. auto. Qed.

Lemma store8_same_off m a v : same_off a 1 m (store8 m a v).
Proof. intros b Hb. unfold off in Hb. apply load8_store8_ne. lia. Qed.

Lemma store16_same_off m a v : same_off a 2 m (store16 m a v).
Proof. intros b Hb. by apply load8_store16_ne. Qed.

Lemma store32_same_off m a v : same_off a 4 m (store32 m a v).
Proof. intros b Hb. by apply load8_store32_ne. Qed.

(** Same frame reasoning, stated on the predicate of the frame. *)
Lemma store8_same_on P m m' a v :
  same_on P m m' -> (forall b, P b -> off a 1 b) -> same_on P m (store8 m' a v).
Proof. intros H HP b Hb. rewrite store8_same_off by auto. auto. Qed.

Lemma store32_same_on P m m' a v :
  same_on P m m' -> (forall b, P b -> off a 4 b) -> same_on P m (store32 m' a v).
Proof. intros H HP b Hb. rewrite store32_same_off by auto. auto. Qed.

Lemma store16_same_on P m m' a v :
  same_on P m m' -> (forall b, P b -> off a 2 b) -> same_on P m (store16 m' a v).
Proof. intros H HP b Hb. rewrite store16_same_off by auto. auto. Qed.

(** ** Byte sequences *)

Fixpoint load_bytes (m : mem) (a : Z) (n : nat) : list Z :=
  match n with
  | O => []
  | S k => load8 m a :: load_bytes m (a + 1) k
  end.

Fixpoint store_bytes (m : mem) (a : Z) (l : list Z) : mem :=
  match l with
  | [] => m
  | b :: l' => store_bytes (store8 m a b) (a + 1) l'
  end.

Lemma length_load_bytes m a n : length (load_bytes m a n) = n.
Proof. revert a. induction n; intros; simpl; auto. Qed.

Lemma load_bytes_lookup m a n i :
  (i < n)%nat -> load_bytes m a n !! i = Some (load8 m (a + Z.of_nat i)).
Proof.
  revert a i. induction n as [|n IH]; intros a i Hi; [lia|].
  destruct i as [|i]; simpl; [by rewrite Z.add_0_r|].
  rewrite IH by lia. do 2 f_equal. lia.
Qed.

Lemma load_bytes_ext m m' a a' n :
  (forall i, 0 <= i < Z.of_nat n -> load8 m (a + i) = load8 m' (a' + i)) ->
  load_bytes m a n = load_bytes m' a' n.
Proof.
  revert a a'. induction n as [|n IH]; intros a a' H; simpl; [done|].
  f_equal.
  - specialize (H 0). rewrite !Z.add_0_r in H. apply H. lia.
  - apply IH. intros i Hi. rewrite <- !Z.add_assoc. apply H. lia.
Qed.

Lemma load_bytes_app m a n k :
  load_bytes m a (n + k) = load_bytes m a n ++ load_bytes m (a + Z.of_nat n) k.
Proof.
  revert a. induction n as [|n IH]; intros a; simpl; [by rewrite Z.add_0_r|].
  rewrite IH. do 3 f_equal. lia.
Qed.

Lemma store_bytes_same_off m a l : same_off a (Z.of_nat (length l)) m (store_bytes m a l).
Proof.
  revert m a. induction l as [|b l IH]; intros m a c Hc; simpl; [done|].
  unfold off in Hc; simpl in Hc. rewrite IH by (unfold off; lia).
  apply load8_store8_ne. lia.
Qed.

Lemma load8_store_bytes m a l i :
  0 <= i < Z.of_nat (length l) ->
  load8 (store_bytes m a l) (a + i) = u8 (default 0 (l !! Z.to_nat i)).
Proof.
  revert m a i. induction l as [|b l IH]; intros m a i Hi; simpl in *; [lia|].
  destruct (decide (i = 0)) as [->|].
  - rewrite Z.add_0_r. rewrite store_bytes_same_off by (unfold off; lia).
    by rewrite load8_store8_eq.
  - replace (a + i) with (a + 1 + (i - 1)) by lia. rewrite IH by lia.
    replace (Z.to_nat i) with (S (Z.to_nat (i - 1))) by lia. done.
Qed.

(** ** C strings *)

(** The bytes [s], none of them 0, followed by the terminating 0. *)
Fixpoint cstr (m : mem) (p : Z) (s : list Z) : Prop :=
  match s with
  | [] => load8 m p = 0
  | b :: s' => b <> 0 /\ load8 m p = b /\ cstr m (p + 1) s'
  end.

#[export] Instance cstr_dec m p s : Decision (cstr m p s).
Proof.
  revert p. induction s as [|b s IH]; intros p; simpl; [apply _|].
  specialize (IH (p + 1)). apply _.
Defined.

Lemma cstr_ext m m' p s :
  (forall i, 0 <= i <= Z.of_nat (length s) -> load8 m' (p + i) = load8 m (p + i)) ->
  cstr m p s -> cstr m' p s.
Proof.
  revert p. induction s as [|b s IH]; intros p H Hs; simpl in *.
  - specialize (H 0). rewrite Z.add_0_r in H. rewrite H; [done|lia].
  - destruct Hs as (Hb & Hp & Hs). split_and!; [done| |].
    + specialize (H 0). rewrite Z.add_0_r in H. rewrite H; [done|lia].
    + apply IH; [|done]. intros i Hi. rewrite <- Z.add_assoc. apply H. lia.
Qed.

Lemma cstr_lookup m p s i :
  cstr m p s -> 0 <= i < Z.of_nat (length s) ->
  s !! Z.to_nat i = Some (load8 m (p + i)) /\ load8 m (p + i) <> 0.
Proof.
  revert p i. induction s as [|b s IH]; intros p i H Hi; simpl in *; [lia|].
  destruct H as (Hb & Hp & Hs). destruct (decide (i = 0)) as [->|].
  - simpl. rewrite Z.add_0_r. split; congruence.
  - replace (Z.to_nat i) with (S (Z.to_nat (i - 1))) by lia. simpl.
    replace (p + i) with (p + 1 + (i - 1)) by lia. apply IH; [done|lia].
Qed.

Lemma cstr_end m p s : cstr m p s -> load8 m (p + Z.of_nat (length s)) = 0.
Proof.
  revert p. induction s as [|b s IH]; intros p H; simpl in *; [by rewrite Z.add_0_r|].
  destruct H as (_ & _ & H). rewrite <- (IH (p + 1)) by done. f_equal. lia.
Qed.

Lemma cstr_intro m p s :
  (forall i, 0 <= i < Z.of_nat (length s) ->
     s !! Z.to_nat i = Some (load8 m (p + i)) /\ load8 m (p + i) <> 0) ->
  load8 m (p + Z.of_nat (length s)) = 0 -> cstr m p s.
Proof.
  revert p. induction s as [|b s IH]; intros p H He; simpl in *.
  - by rewrite Z.add_0_r in He.
  - destruct (H 0) as [H0 H1]; [lia|]. rewrite Z.add_0_r in H0, H1. simplify_eq/=.
    split_and!; [done|done|]. apply IH.
    + intros i Hi. destruct (H (i + 1)) as [Ha Hb]; [lia|].
      replace (Z.to_nat (i + 1)) with (S (Z.to_nat i)) in Ha by lia. simpl in Ha.
      replace (p + 1 + i) with (p + (i + 1)) by lia. done.
    + rewrite <- He. f_equal. lia.
Qed.

(** The suffix of a string is a string. *)
Lemma cstr_drop m p s n :
  (n <= length s)%nat -> cstr m p s -> cstr m (p + Z.of_nat n) (drop n s).
Proof.
  revert p s. induction n as [|n IH]; intros p s Hn H; [by rewrite Z.add_0_r, drop_0|].
  destruct s as [|b s]; simpl in *; [lia|]. destruct H as (_ & _ & H).
  replace (p + _) with (p + 1 + Z.of_nat n) by lia. apply IH; [lia|done].
Qed.

Lemma cstr_bytes m p s b : cstr m p s -> b ∈ s -> 0 < b < 256.
Proof.
  intros H [i Hi]%list_elem_of_lookup.
  pose proof (lookup_lt_Some _ _ _ Hi).
  destruct (cstr_lookup m p s (Z.of_nat i) H) as [Ha Hb]; [lia|].
  rewrite Nat2Z.id in Ha. simplify_eq. pose proof (load8_range m (p + Z.of_nat i)). lia.
Qed.
