(* ===== verification/Portio.v ===== *)
(** * Portio: port input and output, and the interval timer

    [inb] and [outb] of src/stdlib.c talk to devices outside the program.  A run
    is a trace of port accesses; what a read returns is a function of the trace
    before it, the parameter [dev].  [init_pit] of src/timer.c is here too. *)

From S2P Require Import Prelude.

Inductive port_event :=
  | In (port val : Z)
  | Out (port val : Z).

#[export] Instance port_event_eq_dec : EqDecision port_event.
Proof. solve_decision. Defined.

(** The accesses of a run, the first one first. *)
Definition trace := list port_event.

(** What the device answers to a read of a port. *)
Definition device := trace -> Z -> Z.

Definition inb (dev : device) (t : trace) (port : Z) : trace * Z :=
  let v := u8 (dev t (u16 port)) in (t ++ [In (u16 port) v], v).

Definition outb (t : trace) (port val : Z) : trace := t ++ [Out (u16 port) (u8 val)].

(** ** The interval timer *)

Definition PIT_CHANNEL0_DATA : Z := 0x40.
Definition PIT_COMMAND : Z := 0x43.
Definition PIT_BASE_FRQ : Z := 1193182.
Definition PIT_INT_FRQ : Z := 500.

Definition init_pit (t : trace) : trace :=
  let t := outb t PIT_COMMAND 0x34 in
  let t := outb t PIT_CHANNEL0_DATA (Z.land (PIT_BASE_FRQ / PIT_INT_FRQ) 0xFF) in
  outb t PIT_CHANNEL0_DATA (Z.shiftr (PIT_BASE_FRQ / PIT_INT_FRQ) 8).
