(* ===== verification/Klib.v ===== *)
(** * Klib: the kernel's C library, src/stdlib.c

    Memory, string and number formatting routines, each a function on the
    flat memory.  Loops over strings are bounded by a fuel argument; the
    lemmas show that more fuel than the strings are long is enough. *)

From S2P Require Import Prelude Memory.

(** ** Memory *)

Fixpoint memset_loop (len : nat) (m : mem) (c val : Z) : mem :=
  match len with
  | O => m
  | S n => memset_loop n (store8 m c val) (c + 1) val
  end.

Definition memset (m : mem) (ptr val len : Z) : mem :=
  memset_loop (Z.to_nat (u32 len)) m ptr (u8 val).

Fixpoint memcpy_up (len : nat) (m : mem) (d s : Z) : mem :=
  match len with
  | O => m
  | S n => memcpy_up n (store8 m d (load8 m s)) (d + 1) (s + 1)
  end.

Fixpoint memcpy_down (len : nat) (m : mem) (d s : Z) : mem :=
  match len with
  | O => m
  | S n => memcpy_down n (store8 m d (load8 m s)) (d - 1) (s - 1)
  end.

Definition memcpy (m : mem) (dest source len : Z) : mem :=
  let n := Z.to_nat (u32 len) in
  if source =? dest then m
  else if source >? dest then memcpy_up n m dest source
  else memcpy_down n m (dest + (u32 len - 1)) (source + (u32 len - 1)).

(** ** Strings *)

Fixpoint strcmp (fuel : nat) (m : mem) (str1 str2 : Z) : option bool :=
  match fuel with
  | O => None
  | S n =>
      let c1 := load8 m str1 in
      let c2 := load8 m str2 in
      if c_true c1 && c_true c2 then
        if negb (c1 =? c2) then Some false else strcmp n m (str1 + 1) (str2 + 1)
      else Some (negb (c_true c1) && negb (c_true c2))
  end.

Fixpoint str_is_prefix (fuel : nat) (m : mem) (str prefix : Z) : option bool :=
  match fuel with
  | O => None
  | S n =>
      let p := load8 m prefix in
      let c := load8 m str in
      if c_true p && c_true c then
        if negb (p =? c) then Some false else str_is_prefix n m (str + 1) (prefix + 1)
      else Some (negb (c_true p))
  end.

Fixpoint strlen_loop (fuel : nat) (m : mem) (str size : Z) : option Z :=
  match fuel with
  | O => None
  | S n => if c_true (load8 m str) then strlen_loop n m (str + 1) (u32 (size + 1)) else Some size
  end.

Definition strlen (fuel : nat) (m : mem) (str : Z) : option Z := strlen_loop fuel m str 0.

Fixpoint strcpy (fuel : nat) (m : mem) (source dest : Z) : option mem :=
  match fuel with
  | O => None
  | S n =>
      let c := load8 m source in
      if c_true c then strcpy n (store8 m dest c) (source + 1) (dest + 1)
      else Some (store8 m dest 0)
  end.

(** The [for] loop of [strtok]: is [c] one of [delim[i..delim_len-1]]? *)
Fixpoint strtok_match (n : nat) (m : mem) (c delim : Z) : bool :=
  match n with
  | O => false
  | S k => if c =? load8 m delim then true else strtok_match k m c (delim + 1)
  end.

Fixpoint strtok_loop (fuel : nat) (m : mem) (str delim delim_len : Z) : option Z :=
  match fuel with
  | O => None
  | S n =>
      let c := load8 m str in
      if c_true c then
        if strtok_match (Z.to_nat delim_len) m c delim then Some str
        else strtok_loop n m (str + 1) delim delim_len
      else Some 0
  end.

Definition strtok (fuel : nat) (m : mem) (str delim : Z) : option Z :=
  delim_len ← strlen fuel m delim;
  strtok_loop fuel m str delim delim_len.

(** ** Numbers *)

Definition digit_char (remainder : Z) : Z :=
  if remainder <? 10 then remainder + 48 else remainder + 97 - 10.

(** [do { *p++ = digit; } while (ud /= divisor)]: the memory and the final [p]. *)
Fixpoint itoa_digits (fuel : nat) (m : mem) (p ud divisor : Z) : option (mem * Z) :=
  match fuel with
  | O => None
  | S n =>
      let m := store8 m p (digit_char (ud mod divisor)) in
      let ud := ud / divisor in
      if c_true ud then itoa_digits n m (p + 1) ud divisor else Some (m, p + 1)
  end.

(** [while (p1 < p2)] swap. *)
Fixpoint itoa_reverse (fuel : nat) (m : mem) (p1 p2 : Z) : option mem :=
  match fuel with
  | O => None
  | S n =>
      if p1 <? p2 then
        let tmp := load8 m p1 in
        let m := store8 m p1 (load8 m p2) in
        let m := store8 m p2 tmp in
        itoa_reverse n m (p1 + 1) (p2 - 1)
      else Some m
  end.

(** 32 divisions by at least 2 exhaust a 32-bit number. *)
Definition itoa_fuel : nat := 32.

Definition itoa (m : mem) (buf base d : Z) : option mem :=
  let neg := (base =? 100) && (d <? 0) in
  let m := if neg then store8 m buf 45 else m in
  let p := if neg then buf + 1 else buf in
  let buf := if neg then buf + 1 else buf in
  let ud := if neg then u32 (- d) else u32 d in
  let divisor := if neg then 10 else if base =? 120 then 16 else 10 in
  '(m, p) ← itoa_digits itoa_fuel m p ud divisor;
  let m := store8 m p 0 in
  itoa_reverse itoa_fuel m buf (p - 1).

(** ** Formatting *)

Section Sprintf.
(** [buf]: the local buffer of 20 bytes; [null_str]: the literal "(null)". *)
Context (buf null_str : Z).

(** [for (; p2 < p + pad; p2++) *dest++ = pad0 ? '0' : ' '] *)
Fixpoint sprintf_pad (n : nat) (m : mem) (dest ch : Z) : mem * Z :=
  match n with
  | O => (m, dest)
  | S k => sprintf_pad k (store8 m dest ch) (dest + 1) ch
  end.

(** [while ( *p ) *dest++ = *p++] *)
Fixpoint sprintf_copy (fuel : nat) (m : mem) (dest p : Z) : option (mem * Z) :=
  match fuel with
  | O => None
  | S n =>
      let c := load8 m p in
      if c_true c then sprintf_copy n (store8 m dest c) (dest + 1) (p + 1)
      else Some (m, dest)
  end.

(** The code at the label [string]. *)
Definition sprintf_string (fuel : nat) (m : mem) (dest p pad : Z) (pad0 : bool) :
  option (mem * Z) :=
  len ← strlen fuel m p;
  let '(m, dest) := sprintf_pad (Z.to_nat (pad - len)) m dest (if pad0 then 48 else 32) in
  sprintf_copy fuel m dest p.

Fixpoint sprintf_loop (fuel : nat) (m : mem) (dest format arg : Z) : option (mem * Z) :=
  match fuel with
  | O => None
  | S n =>
      let c := s8 (load8 m format) in
      let format := format + 1 in
      if c =? 0 then Some (m, dest)
      else if negb (c =? 37) then sprintf_loop n (store8 m dest c) (dest + 1) format arg
      else
        let c := s8 (load8 m format) in
        let format := format + 1 in
        let pad0 := c =? 48 in
        let '(c, format) :=
          if pad0 then (s8 (load8 m format), format + 1) else (c, format) in
        let is_digit := (48 <=? c) && (c <=? 57) in
        let pad := if is_digit then c - 48 else 0 in
        let '(c, format) :=
          if is_digit then (s8 (load8 m format), format + 1) else (c, format) in
        if (c =? 100) || (c =? 117) || (c =? 120) then
          m ← itoa m buf c (s32 (load32 m arg));
          '(m, dest) ← sprintf_string n m dest buf pad pad0;
          sprintf_loop n m dest format (arg + 4)
        else if c =? 115 then
          let p := load32 m arg in
          let p := if p =? 0 then null_str else p in
          '(m, dest) ← sprintf_string n m dest p pad pad0;
          sprintf_loop n m dest format (arg + 4)
        else
          sprintf_loop n (store8 m dest (load32 m arg)) (dest + 1) format (arg + 4)
  end.

(** [arg] is the address of the first variadic word, [(char ** )&format + 1]. *)
Definition sprintf (fuel : nat) (m : mem) (dest format arg : Z) : option mem :=
  '(m, _) ← sprintf_loop fuel m dest format arg;
  Some m.
End Sprintf.

(** ** Lemmas: memory *)

Lemma memset_loop_spec n m c v a :
  load8 (memset_loop n m c v) a =
    if decide (c <= a < c + Z.of_nat n) then u8 v else load8 m a.
Proof.
  revert m c. induction n as [|n IH]; intros m c; simpl.
  - rewrite decide_False by lia. done.
  - rewrite IH. repeat case_decide; try lia; rewrite ?load8_store8_eq by lia; try done.
    rewrite load8_store8. by repeat case_decide; try lia.
Qed.

Lemma load8_memset m p v len a :
  0 <= len < 4294967296 ->
  load8 (memset m p v len) a = if decide (p <= a < p + len) then u8 v else load8 m a.
Proof.
  intros H. unfold memset. rewrite memset_loop_spec, u8_u8, u32_small by done.
  rewrite Z2Nat.id by lia. done.
Qed.

Lemma memset_in m p v len a :
  0 <= len < 4294967296 -> p <= a < p + len -> load8 (memset m p v len) a = u8 v.
Proof. intros. rewrite load8_memset by done. by rewrite decide_True. Qed.

Lemma memset_same_off m p v len :
  0 <= len < 4294967296 -> same_off p len m (memset m p v len).
Proof. intros H a Ha. rewrite load8_memset by done. unfold off in Ha. by rewrite decide_False by lia. Qed.

Lemma memcpy_up_spec n m d s a :
  d < s ->
  load8 (memcpy_up n m d s) a =
    if decide (d <= a < d + Z.of_nat n) then load8 m (s + (a - d)) else load8 m a.
Proof.
  revert m d s. induction n as [|n IH]; intros m d s H; simpl.
  - rewrite decide_False by lia. done.
  - rewrite IH by lia. pose proof (load8_range m s). repeat case_decide; try lia.
    + rewrite load8_store8_ne by lia. f_equal. lia.
    + assert (a = d) as -> by lia. rewrite load8_store8_eq, u8_small by lia. f_equal. lia.
    + by rewrite load8_store8_ne by lia.
Qed.

Lemma memcpy_down_spec n m d s a :
  s < d ->
  load8 (memcpy_down n m d s) a =
    if decide (d - Z.of_nat n < a <= d) then load8 m (s - (d - a)) else load8 m a.
Proof.
  revert m d s. induction n as [|n IH]; intros m d s H; simpl.
  - rewrite decide_False by lia. done.
  - rewrite IH by lia. pose proof (load8_range m s). repeat case_decide; try lia.
    + rewrite load8_store8_ne by lia. f_equal. lia.
    + assert (a = d) as -> by lia. rewrite load8_store8_eq, u8_small by lia. f_equal. lia.
    + by rewrite load8_store8_ne by lia.
Qed.

Lemma load8_memcpy m d s len a :
  0 <= len < 4294967296 ->
  load8 (memcpy m d s len) a =
    if decide (d <= a < d + len) then load8 m (s + (a - d)) else load8 m a.
Proof.
  intros H. unfold memcpy. rewrite u32_small by done. repeat case_Z.
  - subst. case_decide; [|done]. f_equal. lia.
  - rewrite memcpy_up_spec, Z2Nat.id by lia. done.
  - rewrite memcpy_down_spec, Z2Nat.id by lia. repeat case_decide; try lia; f_equal; lia.
Qed.

Lemma memcpy_same_off m d s len :
  0 <= len < 4294967296 -> same_off d len m (memcpy m d s len).
Proof. intros H a Ha. rewrite load8_memcpy by done. unfold off in Ha. by rewrite decide_False by lia. Qed.

(** ** Lemmas: strings *)

Lemma strlen_loop_cstr m p s fuel size :
  cstr m p s -> (length s < fuel)%nat -> 0 <= size -> size + Z.of_nat (length s) < 4294967296 ->
  strlen_loop fuel m p size = Some (size + Z.of_nat (length s)).
Proof.
  revert p fuel size. induction s as [|b s IH]; intros p fuel size H Hf Hs Hb;
    (destruct fuel as [|fuel]; simpl in *; [lia|]).
  - rewrite H, Z.add_0_r. done.
  - destruct H as (Hb0 & -> & H). rewrite c_true_nonzero by done.
    rewrite u32_small by lia. rewrite IH by (done || lia). f_equal. lia.
Qed.

Lemma strlen_cstr m p s fuel :
  cstr m p s -> (length s < fuel)%nat -> Z.of_nat (length s) < 4294967296 ->
  strlen fuel m p = Some (Z.of_nat (length s)).
Proof. intros. unfold strlen. by erewrite strlen_loop_cstr by (done || lia). Qed.

Lemma strcmp_cstr m p1 p2 s1 s2 fuel :
  cstr m p1 s1 -> cstr m p2 s2 -> (length s1 < fuel)%nat ->
  strcmp fuel m p1 p2 = Some (bool_decide (s1 = s2)).
Proof.
  revert p1 p2 s2 fuel. induction s1 as [|b s1 IH]; intros p1 p2 s2 fuel H1 H2 Hf;
    (destruct fuel as [|fuel]; simpl in *; [lia|]).
  - rewrite H1. simpl. f_equal. destruct s2 as [|b2 s2]; simpl in H2; [by rewrite H2|].
    destruct H2 as (Hb2 & -> & H2). by rewrite c_true_nonzero.
  - destruct H1 as (Hb1 & -> & H1). rewrite c_true_nonzero by done. simpl.
    destruct s2 as [|b2 s2]; simpl in H2.
    + by rewrite H2.
    + destruct H2 as (Hb2 & -> & H2). rewrite c_true_nonzero by done.
      case_Z; simpl; [subst|].
      * rewrite (IH _ _ s2) by (done || lia). f_equal. apply bool_decide_ext. naive_solver.
      * f_equal. symmetry. apply bool_decide_eq_false. naive_solver.
Qed.

(** [str_is_prefix] decides [prefix] of the two strings. *)
Lemma str_is_prefix_cstr m p q s pre fuel :
  cstr m p s -> cstr m q pre -> (length pre < fuel)%nat ->
  str_is_prefix fuel m p q = Some (bool_decide (pre `prefix_of` s)).
Proof.
  revert p q s fuel. induction pre as [|b pre IH]; intros p q s fuel Hs Hp Hf;
    (destruct fuel as [|fuel]; simpl in *; [lia|]).
  - by rewrite Hp.
  - destruct Hp as (Hb & -> & Hp). rewrite c_true_nonzero by done. simpl.
    destruct s as [|b2 s]; simpl in Hs.
    + by rewrite Hs.
    + destruct Hs as (Hb2 & -> & Hs). rewrite c_true_nonzero by done.
      case_Z; simpl; [subst|].
      * rewrite (IH _ _ s) by (done || lia). f_equal. apply bool_decide_ext.
        split; [by apply prefix_cons|by intros ?%prefix_cons_inv_2].
      * f_equal. symmetry. apply bool_decide_eq_false. by intros ?%prefix_cons_inv_1.
Qed.

(** [strcpy] copies to any destination that does not start inside the source string. *)
Lemma strcpy_cstr m src dst s fuel :
  cstr m src s -> (length s < fuel)%nat ->
  (dst <= src \/ src + Z.of_nat (length s) < dst) ->
  exists m', strcpy fuel m src dst = Some m' /\ cstr m' dst s /\
    same_off dst (Z.of_nat (length s) + 1) m m'.
Proof.
  revert m src dst fuel. induction s as [|b s IH]; intros m src dst fuel H Hf Hd;
    (destruct fuel as [|fuel]; simpl in *; [lia|]).
  - rewrite H. simpl. eexists; split_and!; [done|by rewrite load8_store8_eq|].
    apply store8_same_off.
  - destruct H as (Hb & Hbv & H). rewrite Hbv, c_true_nonzero by done.
    destruct (IH (store8 m dst b) (src + 1) (dst + 1) fuel) as (m' & -> & Hc & Hoff).
    { destruct (decide (dst = src)) as [->|].
      - eapply cstr_ext; [|exact H]. intros i Hi. apply load8_store8_ne. lia.
      - eapply cstr_ext; [|exact H]. intros i Hi. apply load8_store8_ne. lia. }
    { lia. } { lia. }
    exists m'. split_and!; [done|done| |done|].
    + rewrite Hoff by (unfold off; lia). rewrite load8_store8_eq by done.
      pose proof (load8_range m src). apply u8_small. lia.
    + intros a Ha. unfold off in Ha. rewrite Hoff by (unfold off; lia).
      apply load8_store8_ne. lia.
Qed.

Lemma strtok_match_spec n m c delim :
  strtok_match n m c delim = bool_decide (c ∈ load_bytes m delim n).
Proof.
  revert delim. induction n as [|n IH]; intros delim; simpl; [done|].
  case_Z.
  - symmetry. apply bool_decide_eq_true. subst c. constructor.
  - rewrite IH. apply bool_decide_ext. rewrite elem_of_cons. tauto.
Qed.

Lemma cstr_load_bytes m p s : cstr m p s -> load_bytes m p (length s) = s.
Proof.
  revert p. induction s as [|b s IH]; intros p H; simpl in *; [done|].
  destruct H as (_ & -> & H). by rewrite IH.
Qed.

(** [strtok] returns the address of the first delimiter, or NULL if there is none;
    unlike the C library's function it does not split the string. *)
Definition first_delim (delims s : list Z) : option nat :=
  fst <$> list_find (fun c => c ∈ delims) s.

Lemma strtok_loop_cstr m p s q delims fuel :
  cstr m p s -> cstr m q delims -> (length s < fuel)%nat ->
  strtok_loop fuel m p q (Z.of_nat (length delims)) =
    Some (match first_delim delims s with Some i => p + Z.of_nat i | None => 0 end).
Proof.
  intros Hs Hq. revert p Hs fuel. induction s as [|b s IH]; intros p Hs fuel Hf;
    (destruct fuel as [|fuel]; simpl in *; [lia|]).
  - by rewrite Hs.
  - destruct Hs as (Hb & -> & Hs). rewrite c_true_nonzero by done.
    rewrite strtok_match_spec, Nat2Z.id, (cstr_load_bytes _ _ _ Hq).
    unfold first_delim. simpl. case_bool_decide as Hd.
    + rewrite decide_True by done. simpl. f_equal. lia.
    + rewrite decide_False by done. rewrite IH by (done || lia). unfold first_delim.
      destruct (list_find _ s) as [[i x]|]; simpl; [f_equal; lia|done].
Qed.

Lemma strtok_cstr m p s q delims fuel :
  cstr m p s -> cstr m q delims -> (length s < fuel)%nat -> (length delims < fuel)%nat ->
  Z.of_nat (length delims) < 4294967296 ->
  strtok fuel m p q =
    Some (match first_delim delims s with Some i => p + Z.of_nat i | None => 0 end).
Proof.
  intros. unfold strtok. rewrite (strlen_cstr _ _ delims) by done. simpl.
  by apply strtok_loop_cstr.
Qed.

(** ** Lemmas: numbers *)

(** The digits of [ud], least significant first, as [itoa] produces them. *)
Fixpoint digits (fuel : nat) (ud divisor : Z) : list Z :=
  match fuel with
  | O => []
  | S n =>
      digit_char (ud mod divisor) ::
        (if ud / divisor =? 0 then [] else digits n (ud / divisor) divisor)
  end.

(** The text [itoa] leaves in its buffer. *)
Definition itoa_text (base d : Z) : list Z :=
  if (base =? 100) && (d <? 0) then 45 :: rev (digits itoa_fuel (u32 (- d)) 10)
  else rev (digits itoa_fuel (u32 d) (if base =? 120 then 16 else 10)).

Lemma digit_char_range r : 0 <= r < 16 -> 48 <= digit_char r < 103.
Proof. unfold digit_char. intros. case_Z; lia. Qed.

Lemma digits_chars fuel ud divisor :
  0 <= ud -> 2 <= divisor <= 16 -> Forall (fun c => 48 <= c < 103) (digits fuel ud divisor).
Proof.
  revert ud. induction fuel as [|n IH]; intros ud Hu Hd; simpl; constructor.
  - apply digit_char_range. dlia.
  - case_Z; [constructor|]. apply IH; [|done]. apply Z.div_pos; lia.
Qed.

Lemma digits_length_pos fuel ud divisor :
  (0 < fuel)%nat -> (0 < length (digits fuel ud divisor))%nat.
Proof. destruct fuel; simpl; lia. Qed.

Lemma digits_length_bound k fuel ud divisor :
  2 <= divisor -> 0 <= ud < divisor ^ Z.of_nat k -> (0 < k)%nat ->
  (length (digits fuel ud divisor) <= k)%nat.
Proof.
  intros Hd. revert fuel ud. induction k as [|k IH]; intros fuel ud Hu Hk; [lia|].
  destruct fuel as [|fuel]; simpl; [lia|]. case_Z; simpl; [lia|].
  rewrite Nat2Z.inj_succ, Z.pow_succ_r in Hu by lia.
  assert (0 <= ud / divisor < divisor ^ Z.of_nat k) as Hq.
  { split; [apply Z.div_pos; lia|]. apply Z.div_lt_upper_bound; lia. }
  destruct k as [|k]; [simpl in Hq; lia|].
  specialize (IH fuel (ud / divisor) Hq). lia.
Qed.

Lemma itoa_digits_spec fuel m p ud divisor :
  2 <= divisor -> 0 <= ud < 2 ^ Z.of_nat fuel -> (0 < fuel)%nat ->
  itoa_digits fuel m p ud divisor =
    Some (store_bytes m p (digits fuel ud divisor),
          p + Z.of_nat (length (digits fuel ud divisor))).
Proof.
  intros Hd. revert m p ud. induction fuel as [|n IH]; intros m p ud Hu Hf; [lia|].
  cbn [itoa_digits digits store_bytes]. unfold c_true.
  assert (0 <= ud / divisor) by (apply Z.div_pos; lia).
  case_Z; simpl.
  - do 2 f_equal.
  - rewrite Nat2Z.inj_succ, Z.pow_succ_r in Hu by lia.
    assert (ud / divisor < 2 ^ Z.of_nat n).
    { apply Z.div_lt_upper_bound; [lia|]. nia. }
    destruct n as [|n]; [simpl in *; lia|].
    rewrite IH by lia. do 2 f_equal. lia.
Qed.

Lemma itoa_reverse_spec fuel m p1 p2 :
  p2 - p1 < 2 * Z.of_nat fuel - 1 -> (0 < fuel)%nat ->
  exists m', itoa_reverse fuel m p1 p2 = Some m' /\
    forall a, load8 m' a =
      if decide (p1 <= a <= p2) then load8 m (p1 + p2 - a) else load8 m a.
Proof.
  revert m p1 p2. induction fuel as [|n IH]; intros m p1 p2 Hf Hf0; [lia|]. simpl. case_Z.
  - edestruct (IH (store8 (store8 m p1 (load8 m p2)) p2 (load8 m p1)) (p1 + 1) (p2 - 1))
      as (m' & -> & Hm'); [lia|lia|].
    eexists; split; [done|]. intros a. rewrite Hm'.
    pose proof (load8_range m p1). pose proof (load8_range m p2).
    repeat case_decide; try lia.
    + mem_simpl. f_equal. lia.
    + assert (a = p1 \/ a = p2) as [-> | ->] by lia; mem_simpl;
        rewrite u8_small by lia; f_equal; lia.
    + by mem_simpl.
  - exists m. split; [done|]. intros a. case_decide; [|done]. f_equal. lia.
Qed.

Lemma rev_lookup_Z {A} (l : list A) i :
  0 <= i < Z.of_nat (length l) ->
  rev l !! Z.to_nat i = l !! Z.to_nat (Z.of_nat (length l) - 1 - i).
Proof.
  intros Hi. replace (rev l) with (reverse l) by (unfold reverse; by rewrite <- rev_alt).
  rewrite reverse_lookup by lia. f_equal. lia.
Qed.

(** The common part of [itoa]: digits, terminator and reversal. *)
Lemma itoa_number F m buf ud divisor :
  F = 32%nat -> 2 <= divisor <= 16 -> 0 <= ud < 4294967296 ->
  let l := digits F ud divisor in
  exists m', ('(m, p) ← itoa_digits F m buf ud divisor;
              itoa_reverse F (store8 m p 0) buf (p - 1)) = Some m' /\
    cstr m' buf (rev l) /\ same_off buf (Z.of_nat (length l) + 1) m m'.
Proof.
  intros HF Hd Hu l.
  assert ((0 < length l)%nat) by (apply digits_length_pos; lia).
  assert (ud < 2 ^ Z.of_nat F) by (rewrite HF; apply Hu).
  assert ((length l <= 32)%nat).
  { apply digits_length_bound; [lia| |lia]. split; [lia|].
    apply Z.lt_le_trans with (2 ^ 32); [apply Hu|]. apply Z.pow_le_mono_l. lia. }
  pose proof (digits_chars F ud divisor ltac:(lia) Hd) as Hch. fold l in Hch.
  rewrite itoa_digits_spec by lia. fold l. simpl.
  destruct (itoa_reverse_spec F
    (store8 (store_bytes m buf l) (buf + Z.of_nat (length l)) 0)
    buf (buf + Z.of_nat (length l) - 1)) as (m' & -> & Hm'); [lia|lia|].
  exists m'. split_and!; [done| |].
  - apply cstr_intro; rewrite length_rev.
    + intros i Hi. rewrite rev_lookup_Z by done. rewrite Hm', decide_True by lia.
      rewrite load8_store8_ne by lia.
      replace (buf + (buf + Z.of_nat (length l) - 1) - (buf + i))
        with (buf + (Z.of_nat (length l) - 1 - i)) by lia.
      rewrite load8_store_bytes by lia.
      destruct (lookup_lt_is_Some_2 l (Z.to_nat (Z.of_nat (length l) - 1 - i))) as [c Hc];
        [lia|].
      rewrite Hc. simpl. rewrite Forall_lookup in Hch. specialize (Hch _ _ Hc). simpl in Hch.
      rewrite u8_small by lia. split; [done|lia].
    + rewrite Hm', decide_False by lia. by rewrite load8_store8_eq.
  - intros a Ha. unfold off in Ha. rewrite Hm', decide_False by lia.
    rewrite load8_store8_ne by lia. apply store_bytes_same_off. unfold off. lia.
Qed.

(** What [itoa] does, for every base character and every 32-bit number. *)
Lemma itoa_spec m buf base d :
  exists m', itoa m buf base d = Some m' /\ cstr m' buf (itoa_text base d) /\
    same_off buf (Z.of_nat (length (itoa_text base d)) + 1) m m'.
Proof.
  unfold itoa, itoa_text. assert (itoa_fuel = 32%nat) as HF by done. revert HF.
  generalize itoa_fuel. intros F HF. destruct ((base =? 100) && (d <? 0)).
  - destruct (itoa_number F (store8 m buf 45) (buf + 1) (u32 (- d)) 10 HF)
      as (m' & -> & Hc & Hs); [lia|apply u32_range|].
    exists m'. cbn [cstr length]. rewrite length_rev.
    assert (forall a, a < buf \/ buf + 1 + Z.of_nat (length (digits F (u32 (- d)) 10)) < a ->
      load8 m' a = load8 m a) as Hout.
    { intros a Ha. rewrite Hs by (unfold off; lia). apply load8_store8_ne. lia. }
    split_and!; [done|done| |done|].
    + rewrite Hs by (unfold off; lia). by rewrite load8_store8_eq.
    + intros a Ha. unfold off in Ha. apply Hout. lia.
  - rewrite length_rev. apply itoa_number; [done|destruct (base =? 120); lia|apply u32_range].
Qed.

(** Reading a number back. *)
Definition digit_value (c : Z) : Z := if c <? 97 then c - 48 else c - 97 + 10.

Definition parse_number (divisor : Z) (s : list Z) : Z :=
  foldl (fun acc c => acc * divisor + digit_value c) 0 s.

Definition parse_decimal (s : list Z) : Z :=
  match s with
  | 45 :: s' => - parse_number 10 s'
  | _ => parse_number 10 s
  end.

Lemma digit_value_char r : 0 <= r < 16 -> digit_value (digit_char r) = r.
Proof. unfold digit_value, digit_char. intros. repeat case_Z; lia. Qed.

Lemma parse_digits fuel ud divisor :
  2 <= divisor <= 16 -> 0 <= ud < 2 ^ Z.of_nat fuel -> (0 < fuel)%nat ->
  parse_number divisor (rev (digits fuel ud divisor)) = ud.
Proof.
  intros Hd. revert ud. induction fuel as [|n IH]; intros ud Hu Hf; [lia|].
  simpl. unfold parse_number. rewrite foldl_app. simpl.
  rewrite digit_value_char by dlia. case_Z.
  - simpl. dlia.
  - rewrite Nat2Z.inj_succ, Z.pow_succ_r in Hu by lia.
    assert (0 <= ud / divisor) by (apply Z.div_pos; lia).
    assert (ud / divisor < 2 ^ Z.of_nat n).
    { apply Z.div_lt_upper_bound; [lia|]. nia. }
    destruct n as [|n]; [simpl in *; lia|].
    unfold parse_number in IH. rewrite IH by lia.
    rewrite Z.mul_comm. symmetry. apply Z.div_mod. lia.
Qed.

(** The decimal text of a non-negative number starts with no minus sign. *)
Lemma parse_decimal_digits fuel ud :
  0 <= ud < 2 ^ Z.of_nat fuel -> (0 < fuel)%nat ->
  parse_decimal (rev (digits fuel ud 10)) = ud.
Proof.
  intros Hu Hf. pose proof (digits_chars fuel ud 10 ltac:(lia) ltac:(lia)) as Hch.
  pose proof (parse_digits fuel ud 10 ltac:(lia) Hu Hf) as Hp. apply Forall_rev in Hch.
  destruct (rev (digits fuel ud 10)) as [|c l]; [done|]. apply Forall_cons in Hch as [Hc _].
  unfold parse_decimal. by repeat case_match; try lia.
Qed.

Lemma itoa_text_length base d : (length (itoa_text base d) <= 11)%nat.
Proof.
  unfold itoa_text.
  assert (forall x b, 10 <= b -> (length (digits itoa_fuel (u32 x) b) <= 10)%nat) as H.
  { intros x b Hb. apply digits_length_bound; [lia| |lia]. pose proof (u32_range x).
    assert (10 ^ Z.of_nat 10 <= b ^ Z.of_nat 10) by (apply Z.pow_le_mono_l; lia).
    change (10 ^ Z.of_nat 10) with 10000000000 in *. lia. }
  destruct (_ && _); cbn [length]; rewrite length_rev.
  - pose proof (H (- d) 10). lia.
  - destruct (base =? 120); [pose proof (H d 16)|pose proof (H d 10)]; lia.
Qed.

(** ** Properties *)

(** [memcpy] is correct for overlapping regions.  After copying [len] bytes the
    destination holds what the source held before, whichever way the two overlap, and
    nothing else is written. *)
Theorem memcpy_ok m dest source len :
  0 <= len < 4294967296 ->
  let m' := memcpy m dest source len in
  load_bytes m' dest (Z.to_nat len) = load_bytes m source (Z.to_nat len) /\
  same_off dest len m m'.
Proof.
  intros Hlen m'. split; [|by apply memcpy_same_off].
  apply load_bytes_ext. intros i Hi. unfold m'. rewrite load8_memcpy by done.
  rewrite decide_True by lia. f_equal. lia.
Qed.

(** Four bytes moved up by one. *)
Lemma memcpy_ok_witness :
  let m := store_bytes mem_zero 100 [1; 2; 3; 4] in
  load_bytes (memcpy m 101 100 4) 101 4 = load_bytes m 100 4 /\ same_off 101 4 m (memcpy m 101 100 4).
Proof. apply (memcpy_ok (store_bytes mem_zero 100 [1; 2; 3; 4]) 101 100 4). lia. Defined.

(** The string predicates.  On NUL-terminated strings [strcmp] returns whether they
    are equal (true for equal, unlike the C library), [str_is_prefix] whether the
    second is a prefix of the first, and [strlen] the length; each returns after at
    most one pass over its strings. *)
Theorem string_predicates m p1 p2 s1 s2 fuel :
  cstr m p1 s1 -> cstr m p2 s2 -> (length s1 < fuel)%nat -> (length s2 < fuel)%nat ->
  Z.of_nat fuel < 4294967296 ->
  strcmp fuel m p1 p2 = Some (bool_decide (s1 = s2)) /\
  str_is_prefix fuel m p1 p2 = Some (bool_decide (s2 `prefix_of` s1)) /\
  strlen fuel m p1 = Some (Z.of_nat (length s1)).
Proof.
  intros H1 H2 Hf1 Hf2 Hf. split_and!;
    [by apply strcmp_cstr|by apply str_is_prefix_cstr|apply strlen_cstr; (done || lia)].
Qed.

Definition strings_example : mem :=
  store_bytes (store_bytes mem_zero 100 [102; 105; 108; 101; 49; 0]) 200 [102; 105; 0].

Lemma string_predicates_witness :
  strcmp 10 strings_example 100 200 = Some false /\
  str_is_prefix 10 strings_example 100 200 = Some true /\
  strlen 10 strings_example 100 = Some 5.
Proof.
  apply (string_predicates strings_example 100 200 [102; 105; 108; 101; 49] [102; 105] 10).
  - vm_compute. by split_and!.
  - vm_compute. by split_and!.
  - simpl. lia.
  - simpl. lia.
  - lia.
Defined.

(** C40: [itoa] round trip.  For every 32-bit integer, [itoa] returns with a
    NUL-terminated text in its buffer from which the number can be read back: as a signed
    decimal for %d (the most negative integer included), as an unsigned hexadecimal for
    %x and as an unsigned decimal for %u.  It writes at most twelve bytes, so the
    buffer of twenty that [sprintf] and [printf] pass is large enough. *)
Theorem itoa_roundtrip m buf d :
  -2147483648 <= d < 2147483648 ->
  forall base, base = 100 \/ base = 117 \/ base = 120 ->
  exists m' s, itoa m buf base d = Some m' /\ cstr m' buf s /\ (length s < 12)%nat /\
    same_off buf 12 m m' /\
    (base = 100 -> parse_decimal s = d) /\
    (base = 117 -> parse_number 10 s = u32 d) /\
    (base = 120 -> parse_number 16 s = u32 d).
Proof.
  intros Hd base Hb. destruct (itoa_spec m buf base d) as (m' & E & Hc & Hs).
  pose proof (itoa_text_length base d) as Hl. exists m', (itoa_text base d).
  split_and!; [done|done|lia|eapply same_on_weaken; [|exact Hs]; unfold off; lia|..].
  all: intros ->; unfold itoa_text; simpl (_ =? _); cbn [andb].
  all: assert (itoa_fuel = 32%nat) as HF by done; revert HF; generalize itoa_fuel; intros F HF.
  all: pose proof (u32_range d) as Hr; change 4294967296 with (2 ^ 32) in Hr.
  - case_Z.
    + cbn [parse_decimal]. rewrite u32_small by lia.
      rewrite parse_digits; [lia|lia|subst F; simpl; lia|lia].
    + rewrite u32_small by lia. apply parse_decimal_digits; [subst F; simpl; lia|lia].
  - by apply parse_digits; [lia|subst F|lia].
  - by apply parse_digits; [lia|subst F|lia].
Qed.

Lemma itoa_roundtrip_witness :
  exists m' s, itoa mem_zero 100 100 (-2147483648) = Some m' /\ cstr m' 100 s /\
    (length s < 12)%nat /\ parse_decimal s = -2147483648.
Proof.
  destruct (itoa_roundtrip mem_zero 100 (-2147483648) ltac:(lia) 100 ltac:(lia))
    as (m' & s & E & Hc & Hl & _ & Hp & _).
  exists m', s. split_and!; [exact E|exact Hc|exact Hl|by apply Hp].
Defined.

(** The bytes of a format without conversions. *)
Lemma sprintf_loop_literal buf null_str m format s fuel dest arg :
  cstr m format s -> Forall (fun c => c <> 37 /\ c < 128) s -> (length s < fuel)%nat ->
  (dest + Z.of_nat (length s) <= format \/ format + Z.of_nat (length s) < dest) ->
  exists m', sprintf_loop buf null_str fuel m dest format arg = Some (m', dest + Z.of_nat (length s)) /\
    load_bytes m' dest (length s) = s /\ same_off dest (Z.of_nat (length s)) m m'.
Proof.
  revert m format dest fuel. induction s as [|b s IH]; intros m format dest fuel H Hc Hf Hd;
    (destruct fuel as [|fuel]; simpl in *; [lia|]).
  - rewrite H. simpl. exists m. rewrite Z.add_0_r. done.
  - destruct H as (Hb0 & Eb & H). rewrite Eb. apply Forall_cons in Hc as [[Hb1 Hb2] Hc].
    assert (0 < b < 128) as Hb.
    { pose proof (load8_range m format). lia. }
    assert (s8 b = b) as -> by (unfold s8; rewrite Z.mod_small; lia).
    rewrite !eqb_ne by lia. simpl.
    destruct (IH (store8 m dest b) (format + 1) (dest + 1) fuel) as (m' & -> & Hl & Hs).
    { eapply cstr_ext; [|exact H]. intros i Hi. apply load8_store8_ne. lia. }
    { done. } { lia. } { lia. }
    exists m'. split_and!; [f_equal; f_equal; lia| |].
    + rewrite Hl. rewrite Hs by (unfold off; lia). rewrite load8_store8_eq, u8_small by lia. done.
    + intros a Ha. unfold off in Ha. rewrite Hs by (unfold off; lia). apply load8_store8_ne. lia.
Qed.

(** [sprintf] does not terminate its output.  A format without conversions is
    copied to the destination byte by byte, and nothing after it is written: the byte
    where the terminating NUL of a C string belongs keeps its old value. *)
Theorem sprintf_unterminated buf null_str m format s fuel dest arg :
  cstr m format s -> Forall (fun c => c <> 37 /\ c < 128) s -> (length s < fuel)%nat ->
  (dest + Z.of_nat (length s) <= format \/ format + Z.of_nat (length s) < dest) ->
  exists m', sprintf buf null_str fuel m dest format arg = Some m' /\
    load_bytes m' dest (length s) = s /\
    load8 m' (dest + Z.of_nat (length s)) = load8 m (dest + Z.of_nat (length s)).
Proof.
  intros H Hc Hf Hd.
  destruct (sprintf_loop_literal buf null_str m format s fuel dest arg H Hc Hf Hd) as (m' & E & Hl & Hs).
  exists m'. unfold sprintf. rewrite E. split_and!; [done|done|]. apply Hs. unfold off. lia.
Qed.

Lemma sprintf_unterminated_witness :
  exists m', sprintf 500 600 10 (store8 strings_example 305 88) 300 100 400 = Some m' /\
    load_bytes m' 300 5 = [102; 105; 108; 101; 49] /\ load8 m' 305 = 88.
Proof.
  destruct (sprintf_unterminated 500 600 (store8 strings_example 305 88) 100 [102; 105; 108; 101; 49]
    10 300 400) as (m' & E & Hl & Hb).
  - vm_compute. by split_and!.
  - by repeat constructor.
  - simpl. lia.
  - simpl. lia.
  - exists m'. split_and!; [exact E|exact Hl|]. change (300 + Z.of_nat _) with 305 in Hb. rewrite Hb. by vm_compute.
Defined.
