(* ===== verification/Mutex.v ===== *)
(** * Mutex: the spin lock of src/mutex.c

    The compare-and-exchange, the operations of [kthread_mutex_t], and the
    interleaving of threads that take and release one lock as a step
    relation, with mutual exclusion as an invariant of its reachable states. *)

From S2P Require Import Prelude.

(** 1 = unlocked, 0 = locked *)
Record kthread_mutex_t := Mutex { flag : Z }.

#[export] Instance kthread_mutex_eq_dec : EqDecision kthread_mutex_t.
Proof. solve_decision. Defined.

(** [LOCK cmpxchg; setz %al]: the value left in %eax and the mutex.  The
    accumulator holds [old]; on failure it is loaded with the flag. *)
Definition __sync_bool_cmpxchg (mutex : kthread_mutex_t) (old new : Z) : Z * kthread_mutex_t :=
  let zf := flag mutex =? old in
  let eax := if zf then old else flag mutex in
  let mutex := if zf then Mutex new else mutex in
  (eax - u8 eax + b2z zf, mutex).

Definition kthread_mutex_init (mutex : kthread_mutex_t) : kthread_mutex_t := Mutex 1.

Definition kthread_mutex_destroy (mutex : kthread_mutex_t) : kthread_mutex_t := mutex.

(** The spin loop, run by a thread that nobody interrupts. *)
Fixpoint kthread_mutex_lock (fuel : nat) (mutex : kthread_mutex_t) : option kthread_mutex_t :=
  match fuel with
  | O => None
  | S n =>
      let '(r, mutex) := __sync_bool_cmpxchg mutex 1 0 in
      if c_true r then Some mutex else kthread_mutex_lock n mutex
  end.

Definition kthread_mutex_unlock (mutex : kthread_mutex_t) : kthread_mutex_t := Mutex 1.

(** ** The lock seen by one thread *)

Definition unlocked : kthread_mutex_t := Mutex 1.
Definition locked : kthread_mutex_t := Mutex 0.

Lemma cmpxchg_unlocked : __sync_bool_cmpxchg unlocked 1 0 = (1, locked).
Proof. reflexivity. Qed.

Lemma cmpxchg_locked : __sync_bool_cmpxchg locked 1 0 = (0, locked).
Proof. reflexivity. Qed.

Lemma lock_unlocked fuel : (0 < fuel)%nat -> kthread_mutex_lock fuel unlocked = Some locked.
Proof. destruct fuel; [lia|done]. Qed.

Lemma lock_locked fuel : kthread_mutex_lock fuel locked = None.
Proof. induction fuel as [|n IH]; [done|]. simpl. exact IH. Qed.

(** ** Threads contending for one lock *)

(** Where a thread is: outside, in the loop of [kthread_mutex_lock], or between
    [kthread_mutex_lock] and [kthread_mutex_unlock]. *)
Inductive where_t := Outside | Spinning | Critical.

#[export] Instance where_eq_dec : EqDecision where_t.
Proof. solve_decision. Defined.

Record world := World { lk : kthread_mutex_t; pcs : gmap nat where_t }.

(** One atomic step of thread [t]; the spin body is one [cmpxchg] and one [pause]. *)
Inductive step : world -> world -> Prop :=
  | step_call w t :
      pcs w !! t = Some Outside ->
      step w (World (lk w) (<[t := Spinning]> (pcs w)))
  | step_try w t r mutex :
      pcs w !! t = Some Spinning ->
      __sync_bool_cmpxchg (lk w) 1 0 = (r, mutex) ->
      step w (World mutex (<[t := if c_true r then Critical else Spinning]> (pcs w)))
  | step_unlock w t :
      pcs w !! t = Some Critical ->
      step w (World (kthread_mutex_unlock (lk w)) (<[t := Outside]> (pcs w))).

Definition initial (w : world) : Prop :=
  lk w = kthread_mutex_init (lk w) /\ (forall t p, pcs w !! t = Some p -> p = Outside).

Inductive reachable : world -> Prop :=
  | reach_init w : initial w -> reachable w
  | reach_step w w' : reachable w -> step w w' -> reachable w'.

(** The lock is held exactly when some thread is in its critical section, and
    then that thread is alone there. *)
Definition lock_inv (w : world) : Prop :=
  (lk w = unlocked /\ (forall t, pcs w !! t <> Some Critical)) \/
  (lk w = locked /\ exists t, pcs w !! t = Some Critical /\
     forall t', pcs w !! t' = Some Critical -> t' = t).

Lemma lock_inv_initial w : initial w -> lock_inv w.
Proof.
  intros [Hl Hp]. left. split; [done|]. intros t Ht. by specialize (Hp _ _ Ht).
Qed.

(** Moving a thread between two places outside the critical section. *)
Lemma lock_inv_move w t p q :
  lock_inv w -> pcs w !! t = Some p -> p <> Critical -> q <> Critical ->
  lock_inv (World (lk w) (<[t := q]> (pcs w))).
Proof.
  intros [[Hl Hn]|(Hl & o & Ho & Hu)] Ht Hp Hq; [left|right]; (split; [done|]); simpl.
  - intros t'. rewrite lookup_insert. case_decide; [congruence|auto].
  - exists o. rewrite lookup_insert_ne by congruence. split; [done|].
    intros t'. rewrite lookup_insert. case_decide; [congruence|auto].
Qed.

Lemma lock_inv_step w w' : lock_inv w -> step w w' -> lock_inv w'.
Proof.
  intros Hinv Hs. destruct Hs as [w t Ht|w t r mutex Ht Hx|w t Ht].
  - by eapply lock_inv_move.
  - destruct Hinv as [[Hl Hn]|(Hl & o & Ho & Hu)]; rewrite Hl in Hx.
    + rewrite cmpxchg_unlocked in Hx. simplify_eq. right. simpl. split; [done|].
      exists t. rewrite lookup_insert_eq. split; [done|].
      intros t'. rewrite lookup_insert. case_decide; [by subst|]. by intros ?%Hn.
    + rewrite cmpxchg_locked in Hx. simplify_eq. rewrite <- Hl. simpl.
      eapply lock_inv_move; [right; eauto|done|done|done].
  - destruct Hinv as [[Hl Hn]|(Hl & o & Ho & Hu)]; [by apply Hn in Ht|].
    left. simpl. split; [done|]. intros t'. rewrite lookup_insert. case_decide; [done|].
    intros H'. pose proof (Hu _ H'). pose proof (Hu _ Ht). congruence.
Qed.

Lemma lock_inv_reachable w : reachable w -> lock_inv w.
Proof. induction 1; eauto using lock_inv_initial, lock_inv_step. Qed.

(** ** Properties *)

(** C7: mutual exclusion.  In every state reached by any interleaving of threads
    that take the lock with [kthread_mutex_lock] and release it with
    [kthread_mutex_unlock], at most one thread is between the two calls, and the
    flag reads 0 exactly when one is. *)
Theorem mutual_exclusion w :
  reachable w ->
  (forall t1 t2, pcs w !! t1 = Some Critical -> pcs w !! t2 = Some Critical -> t1 = t2) /\
  (flag (lk w) = 0 <-> exists t, pcs w !! t = Some Critical).
Proof.
  intros [[Hl Hn]|(Hl & o & Ho & Hu)]%lock_inv_reachable; rewrite Hl; simpl.
  - split; [by intros t1 t2 ?%Hn|]. split; [done|]. by intros [t ?%Hn].
  - split; [|split; by eauto]. intros t1 t2 H1 H2. by rewrite (Hu _ H1), (Hu _ H2).
Qed.

(** Two threads, one of them in its critical section. *)
Definition world_example : world := World locked {[1%nat := Critical; 2%nat := Spinning]}.

Lemma world_example_reachable : reachable world_example.
Proof.
  pose (w0 := World unlocked {[1%nat := Outside; 2%nat := Outside]}).
  pose (w1 := World unlocked {[1%nat := Spinning; 2%nat := Outside]}).
  pose (w2 := World unlocked {[1%nat := Spinning; 2%nat := Spinning]}).
  assert (reachable w0) as H0.
  { apply reach_init. split; [done|]. intros t p.
    simpl. rewrite lookup_insert, lookup_singleton. repeat case_decide; congruence. }
  assert (reachable w1) as H1.
  { eapply reach_step; [exact H0|]. exact (step_call w0 1%nat eq_refl). }
  assert (reachable w2) as H2.
  { eapply reach_step; [exact H1|]. exact (step_call w1 2%nat eq_refl). }
  eapply reach_step; [exact H2|]. exact (step_try w2 1%nat 1 locked eq_refl eq_refl).
Qed.

Lemma mutual_exclusion_witness :
  reachable world_example /\ flag (lk world_example) = 0.
Proof.
  split; [exact world_example_reachable|].
  apply (mutual_exclusion world_example world_example_reachable). by exists 1%nat.
Defined.

(** Progress of the lock.  A spinning thread enters at its next attempt unless
    some thread is in its critical section; the thread inside can always leave, and
    after it has left the spinning thread's next attempt succeeds. *)
Theorem lock_progress w t :
  reachable w -> pcs w !! t = Some Spinning ->
  step w (World locked (<[t := Critical]> (pcs w))) \/
  exists o, pcs w !! o = Some Critical /\
    let w1 := World unlocked (<[o := Outside]> (pcs w)) in
    step w w1 /\ step w1 (World locked (<[t := Critical]> (pcs w1))).
Proof.
  intros [[Hl Hn]|(Hl & o & Ho & Hu)]%lock_inv_reachable Ht.
  - left. apply (step_try w t 1 locked Ht). by rewrite Hl.
  - right. exists o. split; [done|]. split; [by apply step_unlock|].
    apply (step_try (World unlocked (<[o := Outside]> (pcs w))) t 1 locked); [|done].
    simpl. rewrite lookup_insert_ne; [done|congruence].
Qed.

Lemma lock_progress_witness :
  reachable world_example /\
  (step world_example (World locked (<[2%nat := Critical]> (pcs world_example))) \/
  exists o, pcs world_example !! o = Some Critical /\
    let w1 := World unlocked (<[o := Outside]> (pcs world_example)) in
    step world_example w1 /\ step w1 (World locked (<[2%nat := Critical]> (pcs w1)))).
Proof.
  split; [exact world_example_reachable|].
  apply (lock_progress world_example 2%nat world_example_reachable). reflexivity.
Defined.
