(* ===== verification/Kmalloc.v ===== *)
(** * Kmalloc: the kernel allocator, src/kmalloc.c

    The store is a doubly linked list of blocks in memory, each a 16-byte
    header ([prev], [next], [size], [is_free]) followed by its payload.  This
    file translates the code; KmallocStore.v states what it does. *)

From S2P Require Import Prelude Memory Klib.

(** ** Data *)

Definition BLK_HEADER_SIZE : Z := 16.
Definition STORE_OFFSET : Z := 0x800000.

(** Fields of [struct block_header] at address [h]. *)
Definition hdr_prev (m : mem) (h : Z) : Z := load32 m h.
Definition hdr_next (m : mem) (h : Z) : Z := load32 m (h + 4).
Definition hdr_size (m : mem) (h : Z) : Z := load32 m (h + 8).
Definition hdr_is_free (m : mem) (h : Z) : Z := load32 m (h + 12).
Definition set_prev (m : mem) (h v : Z) : mem := store32 m h v.
Definition set_next (m : mem) (h v : Z) : mem := store32 m (h + 4) v.
Definition set_size (m : mem) (h v : Z) : mem := store32 m (h + 8) v.
Definition set_is_free (m : mem) (h v : Z) : mem := store32 m (h + 12) v.

(** The static variables of the file. *)
Record kmalloc_state := KState {
  __store_global_head : Z;
  __mem_store_base : Z;
  __mem_store_end : Z;
  __mem_store_size : Z
}.

(** ** Initialisation *)

(** [multiboot_info_t]: the two fields the allocator reads. *)
Definition mbi_mmap_length (m : mem) (mbi : Z) : Z := load32 m (mbi + 44).
Definition mbi_mmap_addr (m : mem) (mbi : Z) : Z := load32 m (mbi + 48).

(** [multiboot_memory_map_t], packed: size, addr (64 bits), len (64 bits), type. *)
Definition mmap_size (m : mem) (e : Z) : Z := load32 m e.
Definition mmap_addr (m : mem) (e : Z) : Z := load32 m (e + 4) + 4294967296 * load32 m (e + 8).
Definition mmap_len (m : mem) (e : Z) : Z := load32 m (e + 12) + 4294967296 * load32 m (e + 16).
Definition mmap_type (m : mem) (e : Z) : Z := load32 m (e + 20).

(** The [for] loop over the memory map: the longest region of type 1 so far. *)
Fixpoint mmap_loop (fuel : nat) (m : mem) (mmap stop store_addr store_size : Z) :
  option (Z * Z) :=
  match fuel with
  | O => None
  | S n =>
      if mmap <? stop then
        let '(store_addr, store_size) :=
          if mmap_type m mmap =? 1 then
            let mmap_region_size := u32 (Z.land (mmap_len m mmap) 0xffffffff) in
            if store_size <=? mmap_region_size then
              (u32 (Z.land (mmap_addr m mmap) 0xffffffff), mmap_region_size)
            else (store_addr, store_size)
          else (store_addr, store_size) in
        mmap_loop n m (u32 (mmap + mmap_size m mmap + 4)) stop store_addr store_size
      else Some (store_addr, store_size)
  end.

Definition init_kmalloc (fuel : nat) (m : mem) (mbi : Z) : option (mem * kmalloc_state) :=
  '(store_addr, store_size) ←
    mmap_loop fuel m (mbi_mmap_addr m mbi) (u32 (mbi_mmap_addr m mbi + mbi_mmap_length m mbi)) 0 0;
  let base := store_addr + STORE_OFFSET in
  let st := KState base base (store_addr + store_size) (u32 (store_size - STORE_OFFSET)) in
  let m := set_prev m base 0 in
  let m := set_next m base 0 in
  let m := set_size m base (__mem_store_size st - BLK_HEADER_SIZE) in
  let m := set_is_free m base 1 in
  Some (m, st).

(** ** Block lists *)

Definition __splice_block_out (m : mem) (lo hi : Z) : mem * Z :=
  let m := set_size m lo (hdr_size m lo + (hdr_size m hi + BLK_HEADER_SIZE)) in
  let m :=
    if c_true (hdr_next m hi) then
      let m := set_next m lo (hdr_next m hi) in
      set_prev m (hdr_next m hi) lo
    else set_next m lo 0 in
  (m, lo).

Definition __splice_block_in (m : mem) (current alloc_size : Z) : mem * Z :=
  if hdr_size m current >? u32 (alloc_size + 2 * BLK_HEADER_SIZE) then
    let new := current + alloc_size + BLK_HEADER_SIZE in
    let m := set_prev m new current in
    let m := set_next m new 0 in
    let m :=
      if c_true (hdr_next m current) then
        let m := set_next m new (hdr_next m current) in
        set_prev m (hdr_next m current) new
      else set_next m new 0 in
    let m := set_size m new (hdr_size m current - alloc_size - BLK_HEADER_SIZE) in
    let m := set_is_free m new 1 in
    let m := set_next m current new in
    let m := set_size m current alloc_size in
    (m, current)
  else (m, current).

(** [while (true)] over the list: the header of [buffer], or NULL. *)
Fixpoint get_block_header_loop (fuel : nat) (m : mem) (current lookup_header : Z) : option Z :=
  match fuel with
  | O => None
  | S n =>
      if current =? lookup_header then Some current
      else if negb (c_true (hdr_next m current)) then Some 0
      else get_block_header_loop n m (hdr_next m current) lookup_header
  end.

Definition __get_block_header (fuel : nat) (m : mem) (st : kmalloc_state) (buffer : Z) : option Z :=
  get_block_header_loop fuel m (__store_global_head st) (buffer - BLK_HEADER_SIZE).

(** ** The allocator interface *)

(** First fit: [while (!current || current->size < alloc_size || !current->is_free)]. *)
Fixpoint first_fit (fuel : nat) (m : mem) (current alloc_size : Z) : option Z :=
  match fuel with
  | O => None
  | S n =>
      if negb (c_true current) || (hdr_size m current <? alloc_size)
         || negb (c_true (hdr_is_free m current))
      then first_fit n m (hdr_next m current) alloc_size
      else Some current
  end.

Definition kmalloc (fuel : nat) (m : mem) (st : kmalloc_state) (size : Z) : option (mem * Z) :=
  if size <=? 0 then Some (m, 0)
  else
    current ← first_fit fuel m (__store_global_head st) size;
    if hdr_size m current <? size then Some (m, 0)
    else
      let '(m, current) := __splice_block_in m current size in
      Some (set_is_free m current 0, current + BLK_HEADER_SIZE).

Definition kcalloc (fuel : nat) (m : mem) (st : kmalloc_state) (size : Z) : option (mem * Z) :=
  '(m, region) ← kmalloc fuel m st size;
  if c_true region then Some (memset m region 0 size, region) else Some (m, region).

Definition kfree (fuel : nat) (m : mem) (st : kmalloc_state) (buffer : Z) : option mem :=
  if negb (c_true buffer) || negb (c_true (__store_global_head st)) then Some m
  else
    header ← __get_block_header fuel m st buffer;
    if negb (c_true header) then Some m
    else
      let '(m, header) :=
        if c_true (hdr_next m header) && c_true (hdr_is_free m (hdr_next m header)) then
          __splice_block_out m header (hdr_next m header)
        else (m, header) in
      let '(m, header) :=
        if c_true (hdr_prev m header) && c_true (hdr_is_free m (hdr_prev m header)) then
          __splice_block_out m (hdr_prev m header) header
        else (m, header) in
      Some (set_is_free m header 1).

Definition krealloc (fuel : nat) (m : mem) (st : kmalloc_state) (source new_size : Z) :
  option (mem * Z) :=
  header ← __get_block_header fuel m st source;
  if negb (c_true header) then Some (m, 0)
  else if new_size <=? hdr_size m header then Some (m, source)
  else
    '(m, region) ← kmalloc fuel m st new_size;
    m ← (if c_true region then
           old_region ← __get_block_header fuel m st source;
           Some (memcpy m region source (hdr_size m old_region))
         else Some m);
    m ← kfree fuel m st source;
    Some (m, region).
