(* ===== verification/KmallocStore.v ===== *)
(** * KmallocStore: what the allocator of src/kmalloc.c promises

    The abstract store, its representation in memory, and the refinement of
    the abstract operations by the code of Kmalloc.v. *)

From S2P Require Import Prelude Memory Klib Kmalloc.

(** ** The abstract store

    A store is the list of its blocks in address order, each its payload size
    and whether it is free. *)

Abbreviation store := (list (Z * bool)).

Fixpoint total (l : store) : Z :=
  match l with
  | [] => 0
  | (sz, _) :: l' => 16 + sz + total l'
  end.

(** First fit with splitting: the offset of the payload and the new store. *)
Fixpoint amalloc (n : Z) (l : store) : option (Z * store) :=
  match l with
  | [] => None
  | (sz, fr) :: l' =>
      if fr && (n <=? sz) then
        Some (16, if n + 32 <? sz then (n, false) :: (sz - n - 16, true) :: l'
                  else (sz, false) :: l')
      else
        '(o, r) ← amalloc n l';
        Some (16 + sz + o, (sz, fr) :: r)
  end.

(** Freeing the block of size [sz] in front of [l], merged with a free successor. *)
Definition release (sz : Z) (l : store) : store :=
  match l with
  | (sz2, true) :: l' => (sz + 16 + sz2, true) :: l'
  | _ => (sz, true) :: l
  end.

(** Merging a block of size [sz] with the block in front of [l]. *)
Definition absorb (sz : Z) (l : store) : store :=
  match l with
  | (s, _) :: r => (sz + 16 + s, true) :: r
  | [] => []
  end.

(** Freeing the block whose header is at offset [o]. *)
Fixpoint afree (o : Z) (l : store) : store :=
  match l with
  | [] => []
  | (sz, fr) :: l' =>
      if o =? 0 then release sz l'
      else
        match l' with
        | (sz2, _) :: l'' =>
            if (o =? 16 + sz) && fr then absorb sz (release sz2 l'')
            else (sz, fr) :: afree (o - (16 + sz)) l'
        | [] => (sz, fr) :: afree (o - (16 + sz)) l'
        end
  end.

(** ** The store in memory *)

Record hdr_at (m : mem) (a prev next sz : Z) (fr : bool) : Prop := HdrAt {
  hdr_at_prev : load32 m a = prev;
  hdr_at_next : load32 m (a + 4) = next;
  hdr_at_size : load32 m (a + 8) = sz;
  hdr_at_free : load32 m (a + 12) = b2z fr
}.

(** The address a block points to: its successor's, or [fin] for the last one. *)
Definition nxt (a : Z) (l : store) (fin : Z) : Z :=
  match l with [] => fin | _ => a end.

Fixpoint chain (m : mem) (prev a : Z) (l : store) (fin : Z) : Prop :=
  match l with
  | [] => True
  | (sz, fr) :: l' =>
      hdr_at m a prev (nxt (a + 16 + sz) l' fin) sz fr /\ chain m a (a + 16 + sz) l' fin
  end.

(** The same as a boolean, to evaluate on a concrete memory. *)
Fixpoint chainb (m : mem) (prev a : Z) (l : store) (fin : Z) : bool :=
  match l with
  | [] => true
  | (sz, fr) :: l' =>
      (load32 m a =? prev) && (load32 m (a + 4) =? nxt (a + 16 + sz) l' fin) &&
      (load32 m (a + 8) =? sz) && (load32 m (a + 12) =? b2z fr) &&
      chainb m a (a + 16 + sz) l' fin
  end.

Lemma chainb_chain m prev a l fin : chainb m prev a l fin = true -> chain m prev a l fin.
Proof.
  revert prev a. induction l as [|[sz fr] l IH]; intros prev a H; [done|]. simpl in H.
  rewrite !andb_true_iff, !Z.eqb_eq in H. destruct_and! H. split; [by split|by apply IH].
Qed.

(** The address of the last header, [prev] for the empty list. *)
Fixpoint last_hdr (prev a : Z) (l : store) : Z :=
  match l with
  | [] => prev
  | (sz, _) :: l' => last_hdr a (a + 16 + sz) l'
  end.

(** [x] is a byte of a header. *)
Fixpoint in_hdr (a : Z) (l : store) (x : Z) : Prop :=
  match l with
  | [] => False
  | (sz, _) :: l' => a <= x < a + 16 \/ in_hdr (a + 16 + sz) l' x
  end.

Definition sizes_ok (l : store) : Prop := Forall (fun b => 0 <= fst b) l.

Record store_ok (m : mem) (st : kmalloc_state) (l : store) : Prop := StoreOk {
  ok_nonempty : l <> [];
  ok_head : __store_global_head st = __mem_store_base st;
  ok_base : STORE_OFFSET <= __mem_store_base st;
  ok_total : total l = __mem_store_size st;
  ok_range : __mem_store_base st + __mem_store_size st <= 4294967296;
  ok_sizes : sizes_ok l;
  ok_chain : chain m 0 (__mem_store_base st) l 0
}.

Lemma total_app l1 l2 : total (l1 ++ l2) = total l1 + total l2.
Proof. induction l1 as [|[sz fr] l1 IH]; simpl; [done|]. rewrite IH. lia. Qed.

Lemma total_nonneg l : sizes_ok l -> 0 <= total l.
Proof. induction 1 as [|[sz fr] l Hsz _ IH]; simpl in *; lia. Qed.

Lemma total_pos l : sizes_ok l -> l <> [] -> 16 <= total l.
Proof. intros [|[sz fr] l' Hsz H%total_nonneg] ?; simpl in *; [done|lia]. Qed.

Lemma sizes_ok_app l1 l2 : sizes_ok (l1 ++ l2) <-> sizes_ok l1 /\ sizes_ok l2.
Proof. apply Forall_app. Qed.

Lemma sizes_ok_cons sz fr l : sizes_ok ((sz, fr) :: l) <-> 0 <= sz /\ sizes_ok l.
Proof. unfold sizes_ok. by rewrite Forall_cons. Qed.

Lemma chain_app m prev a l1 l2 fin :
  chain m prev a (l1 ++ l2) fin <->
  chain m prev a l1 (nxt (a + total l1) l2 fin) /\
  chain m (last_hdr prev a l1) (a + total l1) l2 fin.
Proof.
  revert prev a. induction l1 as [|[sz fr] l1 IH]; intros prev a; simpl.
  - rewrite Z.add_0_r. tauto.
  - rewrite IH. replace (a + (16 + sz + total l1)) with (a + 16 + sz + total l1) by lia.
    destruct l1; simpl; rewrite ?Z.add_0_r; tauto.
Qed.

Lemma in_hdr_app a l1 l2 x :
  in_hdr a (l1 ++ l2) x <-> in_hdr a l1 x \/ in_hdr (a + total l1) l2 x.
Proof.
  revert a. induction l1 as [|[sz fr] l1 IH]; intros a; simpl.
  - rewrite Z.add_0_r. tauto.
  - rewrite IH. replace (a + (16 + sz + total l1)) with (a + 16 + sz + total l1) by lia. tauto.
Qed.

Lemma in_hdr_range a l x : sizes_ok l -> in_hdr a l x -> a <= x < a + total l.
Proof.
  intros Hok. revert a. induction Hok as [|[sz fr] l Hsz Hl IH]; intros a; simpl in *; [done|].
  pose proof (total_nonneg l Hl). intros [?|?%IH]; lia.
Qed.

Lemma hdr_at_frame m m' a prev next sz fr :
  (forall x, a <= x < a + 16 -> load8 m' x = load8 m x) ->
  hdr_at m a prev next sz fr -> hdr_at m' a prev next sz fr.
Proof.
  intros Hx [? ? ? ?].
  split; (etrans; [apply load32_ext; intros; apply Hx; lia|done]).
Qed.

Lemma chain_frame m m' prev a l fin :
  same_on (in_hdr a l) m m' -> chain m prev a l fin -> chain m' prev a l fin.
Proof.
  revert prev a. induction l as [|[sz fr] l IH]; intros prev a Hs; simpl; [done|].
  intros [Hh Hc]. split.
  - eapply hdr_at_frame; [|done]. intros x Hx. apply Hs. simpl. by left.
  - apply IH; [|done]. intros x Hx. apply Hs. simpl. by right.
Qed.

(** A chain whose first [prev] link was redirected. *)
Lemma chain_reprev m m' prev prev' a l fin :
  (l <> [] -> load32 m' a = prev') ->
  (forall x, a + 4 <= x -> in_hdr a l x -> load8 m' x = load8 m x) ->
  sizes_ok l -> chain m prev a l fin -> chain m' prev' a l fin.
Proof.
  destruct l as [|[sz fr] l]; simpl; intros Hp Hs Hok; [done|].
  apply sizes_ok_cons in Hok as [Hsz Hok]. intros [[Ha Hb Hc Hd] Hch]. split.
  - split; [by apply Hp| | |];
      (etrans; [apply load32_ext; intros; apply Hs; [lia|left; lia]|done]).
  - eapply chain_frame; [|done]. intros x Hx. pose proof (in_hdr_range _ _ _ Hok Hx).
    apply Hs; [lia|by right].
Qed.

Lemma last_hdr_app prev a l sz fr : last_hdr prev a (l ++ [(sz, fr)]) = a + total l.
Proof.
  revert prev a. induction l as [|[s f] l IH]; intros prev a; simpl; [lia|].
  rewrite IH. lia.
Qed.

(** ** The block operations on memory *)

Ltac unfold_hdr :=
  unfold hdr_prev, hdr_next, hdr_size, hdr_is_free, set_prev, set_next, set_size,
    set_is_free, BLK_HEADER_SIZE in *.

(** The bytes that a splice of the headers at [h1] and [h2] and of the [prev]
    field of [nx] leaves alone. *)
Definition splice_frame (h1 h2 nx x : Z) : Prop :=
  off h1 16 x /\ off h2 16 x /\ (nx = 0 \/ off nx 4 x).

Ltac solve_frame :=
  repeat (first [apply store32_same_on; [|unfold splice_frame, off; intros; lia] | reflexivity]).

Lemma splice_block_in_split m h prev nx sz fr n :
  hdr_at m h prev nx sz fr -> 0 < h -> 0 < n -> n + 32 < sz -> h + 16 + sz <= 4294967296 ->
  (nx = 0 \/ (nx = h + 16 + sz /\ nx < 4294967296)) ->
  let new := h + n + 16 in
  let m' := fst (__splice_block_in m h n) in
  snd (__splice_block_in m h n) = h /\
  hdr_at m' h prev new n fr /\ hdr_at m' new h nx (sz - n - 16) true /\
  (nx <> 0 -> load32 m' nx = new) /\ same_on (splice_frame h new nx) m m'.
Proof.
  intros [Hp Hn Hs Hf] Hh Hpos Hlt Hr Hnx new m'.
  assert (new = h + n + 16) as Hnew by done.
  unfold m', __splice_block_in. unfold_hdr. rewrite Hs, u32_small by lia.
  rewrite Z.gtb_ltb, ltb_lt by lia.
  replace (h + n + 16) with new by done. clearbody new.
  destruct Hnx as [->|[Hnx Hnxr]].
  - mem_simpl. rewrite Hn. simpl. mem_simpl. rewrite Hs.
    split_and!; [done| | |done|solve_frame].
    + split; mem_simpl; rewrite ?u32_small by lia; done.
    + split; mem_simpl; rewrite ?u32_small by lia; done.
  - mem_simpl. rewrite Hn. rewrite c_true_nonzero by lia. simpl. mem_simpl. rewrite Hs.
    split_and!; [done| | | |solve_frame].
    + split; mem_simpl; rewrite ?u32_small by lia; done.
    + split; mem_simpl; rewrite ?u32_small by lia; done.
    + intros _. mem_simpl. apply u32_small. lia.
Qed.

Lemma splice_block_in_whole m h prev nx sz fr n :
  hdr_at m h prev nx sz fr -> sz <= n + 32 -> 0 <= n -> n + 32 < 4294967296 ->
  __splice_block_in m h n = (m, h).
Proof.
  intros [Hp Hn Hs Hf] ???. unfold __splice_block_in. unfold_hdr.
  rewrite Hs, u32_small by lia. by rewrite Z.gtb_ltb, ltb_ge by lia.
Qed.

Lemma splice_block_out_spec m lo hi prev nx s1 s2 f1 f2 :
  hdr_at m lo prev hi s1 f1 -> hdr_at m hi lo nx s2 f2 -> 0 < lo -> 0 <= s1 -> 0 <= s2 ->
  hi = lo + 16 + s1 -> hi + 16 + s2 <= 4294967296 ->
  (nx = 0 \/ (nx = hi + 16 + s2 /\ nx < 4294967296)) ->
  let m' := fst (__splice_block_out m lo hi) in
  snd (__splice_block_out m lo hi) = lo /\
  hdr_at m' lo prev nx (s1 + 16 + s2) f1 /\
  (nx <> 0 -> load32 m' nx = lo) /\ same_on (splice_frame lo lo nx) m m'.
Proof.
  intros [Hp Hn Hs Hf] [Hp2 Hn2 Hs2 Hf2] Hlo ?? Hhi Hr Hnx m'.
  unfold m', __splice_block_out. unfold_hdr.
  destruct Hnx as [->|[Hnx Hnxr]].
  - mem_simpl. rewrite Hn2, Hs, Hs2. simpl. split_and!; [done| |done|solve_frame].
    split; mem_simpl; rewrite ?u32_small by lia; lia.
  - mem_simpl. rewrite Hn2, Hs, Hs2. rewrite c_true_nonzero by lia. simpl. mem_simpl.
    rewrite ?Hn2. split_and!; [done| | |solve_frame].
    + split; mem_simpl; rewrite ?u32_small by lia; lia.
    + intros _. mem_simpl. apply u32_small. lia.
Qed.

(** ** First fit *)

Definition unsuitable (n : Z) (b : Z * bool) : Prop := b.1 < n \/ b.2 = false.

Lemma amalloc_split n l o l' :
  amalloc n l = Some (o, l') ->
  exists l1 sz l2, l = l1 ++ (sz, true) :: l2 /\ Forall (unsuitable n) l1 /\ n <= sz /\
    o = total l1 + 16 /\
    l' = l1 ++ (if n + 32 <? sz then (n, false) :: (sz - n - 16, true) :: l2
                else (sz, false) :: l2).
Proof.
  revert o l'. induction l as [|[sz fr] l IH]; intros o l' H; simpl in H; [done|].
  destruct (fr && (n <=? sz)) eqn:E.
  - apply andb_true_iff in E as [-> ?%Z.leb_le]. simplify_eq.
    exists [], sz, l. split_and!; [done|constructor|done|done|done].
  - destruct (amalloc n l) as [[o1 r]|]; simplify_eq/=.
    destruct (IH o1 r eq_refl) as (l1 & s & l2 & -> & Hf & Hle & -> & ->).
    exists ((sz, fr) :: l1), s, l2. simpl. split_and!; [done| |done|lia|done].
    constructor; [|done]. unfold unsuitable. simpl.
    apply andb_false_iff in E as [->| ?%Z.leb_gt]; [by right|left; lia].
Qed.

Lemma amalloc_None n l : amalloc n l = None -> Forall (unsuitable n) l.
Proof.
  induction l as [|[sz fr] l IH]; simpl; [constructor|].
  destruct (fr && (n <=? sz)) eqn:E; [done|].
  destruct (amalloc n l) as [[? ?]|]; [done|]. intros _. constructor; [|by apply IH].
  unfold unsuitable. simpl.
  apply andb_false_iff in E as [->| ?%Z.leb_gt]; [by right|left; lia].
Qed.

(** The loop passes over a prefix of unsuitable blocks. *)
Lemma first_fit_skip m prev a l1 l2 fin n fuel :
  chain m prev a (l1 ++ l2) fin -> Forall (unsuitable n) l1 -> sizes_ok l1 -> 0 < a ->
  first_fit (length l1 + fuel) m (nxt a (l1 ++ l2) fin) n =
  first_fit fuel m (nxt (a + total l1) l2 fin) n.
Proof.
  intros Hc Hf. revert prev a Hc. induction Hf as [|[sz fr] l1 Hb Hf IH];
    intros prev a Hc Hok Ha; simpl in *; [by rewrite Z.add_0_r|].
  apply sizes_ok_cons in Hok as [Hsz Hok]. destruct Hc as [[Hp Hn Hs Hfr] Hc].
  unfold_hdr. rewrite Hn, Hs, Hfr.
  assert (negb (c_true a) || (sz <? n) || negb (c_true (b2z fr)) = true) as ->.
  { destruct Hb as [Hb|Hb]; simpl in Hb; [rewrite (ltb_lt sz n) by done|subst fr; simpl];
      by rewrite ?orb_true_r. }
  rewrite (IH _ _ Hc) by (done || lia). do 2 f_equal. lia.
Qed.

Lemma first_fit_found m prev a l1 sz l2 fin n fuel :
  chain m prev a (l1 ++ (sz, true) :: l2) fin -> Forall (unsuitable n) l1 ->
  sizes_ok l1 -> 0 < a -> n <= sz -> (length l1 < fuel)%nat ->
  first_fit fuel m a n = Some (a + total l1).
Proof.
  intros Hc Hf Hok Ha Hn Hfuel. pose proof (total_nonneg _ Hok).
  replace fuel with (length l1 + S (fuel - length l1 - 1))%nat by lia.
  replace a with (nxt a (l1 ++ (sz, true) :: l2) fin) at 1 by (by destruct l1).
  rewrite (first_fit_skip _ _ _ _ _ _ _ _ Hc) by done. simpl.
  apply chain_app in Hc as [_ Hc]. simpl in Hc. destruct Hc as [[Hp Hnx Hs Hfr] _].
  unfold_hdr. rewrite Hs, Hfr, c_true_nonzero, ltb_ge by lia. done.
Qed.

(** ** [kmalloc] refines [amalloc] *)

Lemma hdr_at_set_free m h prev nx sz fr fr' :
  hdr_at m h prev nx sz fr -> hdr_at (set_is_free m h (b2z fr')) h prev nx sz fr'.
Proof.
  intros [? ? ? ?]. unfold_hdr. split; mem_simpl; [done|done|done|].
  by destruct fr'.
Qed.

(** Bounds of a block inside a store. *)
Lemma nxt_cases a l (fin hi : Z) :
  sizes_ok l -> a + total l <= hi -> fin = 0 -> nxt a l fin = 0 \/ (nxt a l fin = a /\ nxt a l fin < hi).
Proof.
  intros Hok Hr ->. destruct l as [|b l]; simpl; [by left|right].
  pose proof (total_pos (b :: l) Hok ltac:(done)). split; [done|]. lia.
Qed.

(** Replacing a segment of the store by one of the same extent: enough is that the
    new segment is linked to its neighbours and that nothing else but the [prev]
    field of the next block changed. *)
Lemma store_patch m m' st l1 mid mid' l2 :
  let h := __mem_store_base st + total l1 in
  let a2 := h + total mid in
  store_ok m st (l1 ++ mid ++ l2) -> mid' <> [] -> total mid' = total mid -> sizes_ok mid' ->
  chain m' (last_hdr 0 (__mem_store_base st) l1) h mid' (nxt a2 l2 0) ->
  (l2 <> [] -> load32 m' a2 = last_hdr 0 h mid') ->
  (forall x, x < h \/ a2 + 4 <= x -> load8 m' x = load8 m x) ->
  store_ok m' st (l1 ++ mid' ++ l2).
Proof.
  intros h a2 [Hne Hhd Hb Ht Hr Hok Hc] Hne' Htot Hok' Hc' Hp Hx.
  rewrite !sizes_ok_app in Hok. destruct Hok as (Hok1 & Hokm & Hok2).
  rewrite !total_app in Ht. pose proof (total_pos _ Hok' Hne').
  pose proof (total_nonneg _ Hok1).
  assert (mid <> []) as Hmid by (intros ->; simpl in *; lia).
  split; [|done|done| |done| |].
  - destruct l1; [|done]. by destruct mid'.
  - rewrite !total_app. lia.
  - by rewrite !sizes_ok_app.
  - apply chain_app in Hc as [Hc1 Hc2]. apply chain_app in Hc2 as [_ Hc2].
    assert (forall l : store, l <> [] -> nxt h (l ++ l2) 0 = h) as Hnxt by (by intros [|]).
    fold h in Hc1, Hc2. rewrite Hnxt in Hc1 by done.
    apply chain_app. fold h. rewrite Hnxt by done. split.
    + eapply chain_frame; [|exact Hc1]. intros x Hin%in_hdr_range; [|done].
      apply Hx. unfold h. lia.
    + apply chain_app. rewrite Htot. fold a2. split; [done|].
      eapply chain_reprev; [|intros; apply Hx; by right|done|exact Hc2].
      intros Hl2. rewrite Hp by done. by destruct mid' as [|[? ?] ?].
Qed.

(** What a store knows about a block in its middle. *)
Lemma store_block m st l1 sz fr l2 :
  let h := __mem_store_base st + total l1 in
  store_ok m st (l1 ++ (sz, fr) :: l2) ->
  hdr_at m h (last_hdr 0 (__mem_store_base st) l1) (nxt (h + 16 + sz) l2 0) sz fr /\
  0 <= sz /\ STORE_OFFSET <= h /\ h + 16 + sz <= 4294967296 /\
  (nxt (h + 16 + sz) l2 0 = 0 \/
   (nxt (h + 16 + sz) l2 0 = h + 16 + sz /\ nxt (h + 16 + sz) l2 0 < 4294967296)).
Proof.
  intros h [Hne Hhd Hb Ht Hr Hok Hc].
  apply sizes_ok_app in Hok as [Hok1 [Hsz Hok2]%sizes_ok_cons].
  rewrite total_app in Ht. simpl in Ht.
  pose proof (total_nonneg _ Hok1). pose proof (total_nonneg _ Hok2).
  apply chain_app in Hc as [_ [Hc _]].
  split_and!; [exact Hc|done|unfold h; lia|unfold h; lia|].
  apply nxt_cases; [done|unfold h; lia|done].
Qed.

Lemma store_take_split m st l1 sz l2 n :
  let h := __mem_store_base st + total l1 in
  store_ok m st (l1 ++ (sz, true) :: l2) -> 0 < n -> n + 32 < sz ->
  let l' := l1 ++ (n, false) :: (sz - n - 16, true) :: l2 in
  let m' := set_is_free (fst (__splice_block_in m h n)) h 0 in
  snd (__splice_block_in m h n) = h /\ store_ok m' st l' /\
  same_on (fun x => ~ in_hdr (__mem_store_base st) l' x) m m'.
Proof.
  intros h Hst Hn Hlt l' m'.
  destruct (store_block _ _ _ _ _ _ Hst) as (Hh & Hsz & Hlo & Hhi & Hnx). fold h in Hh, Hlo, Hhi, Hnx.
  unfold STORE_OFFSET in Hlo.
  destruct (splice_block_in_split m h _ _ sz true n Hh) as (E & Hh1 & Hh2 & Hp & Hs);
    [lia|lia|lia|lia|done|].
  assert (forall x, splice_frame h (h + n + 16) (nxt (h + 16 + sz) l2 0) x ->
    load8 m' x = load8 m x) as Hs'.
  { intros x Hx. unfold m'. unfold_hdr. rewrite load8_store32_ne; [by apply Hs|].
    destruct Hx as [Hx _]. unfold off in *. lia. }
  split_and!; [done| |].
  - apply (store_patch m m' st l1 [(sz, true)] [(n, false); (sz - n - 16, true)] l2 Hst);
      fold h; simpl; [done|lia|rewrite !sizes_ok_cons; split_and!; [lia|lia|constructor]| | |].
    + replace (h + 16 + n) with (h + n + 16) by lia.
      replace (h + (16 + sz + 0)) with (h + 16 + sz) by lia. split_and!; [| |done].
      * by apply (hdr_at_set_free _ _ _ _ _ true false).
      * eapply hdr_at_frame; [|exact Hh2]. intros x Hx. unfold m'. unfold_hdr.
        apply load8_store32_ne. unfold off. lia.
    + intros Hl2. replace (h + (16 + sz + 0)) with (h + 16 + sz) by lia.
      replace (h + 16 + n) with (h + n + 16) by lia.
      destruct l2; [done|]. unfold m'. unfold_hdr. rewrite load32_store32_ne by lia.
      apply Hp. simpl. lia.
    + intros x Hx. apply Hs'. unfold splice_frame, off. lia.
  - intros x Hx. apply Hs'. unfold l' in Hx. rewrite in_hdr_app in Hx. simpl in Hx. fold h in Hx.
    replace (h + 16 + n) with (h + n + 16) in Hx by lia.
    replace (h + n + 16 + 16 + (sz - n - 16)) with (h + 16 + sz) in Hx by lia.
    unfold splice_frame, off. destruct l2 as [|[s2 f2] l2]; simpl in Hx |- *; lia.
Qed.

Lemma store_set_free m st l1 sz fr fr' l2 :
  let h := __mem_store_base st + total l1 in
  store_ok m st (l1 ++ (sz, fr) :: l2) ->
  let l' := l1 ++ (sz, fr') :: l2 in
  let m' := set_is_free m h (b2z fr') in
  store_ok m' st l' /\ same_on (fun x => ~ in_hdr (__mem_store_base st) l' x) m m'.
Proof.
  intros h Hst l' m'.
  destruct (store_block _ _ _ _ _ _ Hst) as (Hh & Hsz & Hlo & Hhi & Hnx). fold h in Hh, Hlo, Hhi, Hnx.
  assert (forall x, off h 16 x -> load8 m' x = load8 m x) as Hs'.
  { intros x Hx. unfold m'. unfold_hdr. apply load8_store32_ne. unfold off in *. lia. }
  split.
  - apply (store_patch m m' st l1 [(sz, fr)] [(sz, fr')] l2 Hst);
      fold h; simpl; [done|lia|rewrite sizes_ok_cons; split; [lia|constructor]| | |].
    + replace (h + (16 + sz + 0)) with (h + 16 + sz) by lia. split; [|done].
      by apply (hdr_at_set_free _ _ _ _ _ fr fr').
    + intros Hl2. destruct l2 as [|[s2 f2] l2]; [done|].
      replace (l1 ++ (sz, fr) :: (s2, f2) :: l2) with ((l1 ++ [(sz, fr)]) ++ (s2, f2) :: l2)
        in Hst by (by rewrite <- app_assoc).
      destruct (store_block _ _ _ _ _ _ Hst) as ([Hpv _ _ _] & _).
      rewrite last_hdr_app, total_app in Hpv. simpl in Hpv. rewrite Z.add_assoc in Hpv.
      unfold m'. unfold_hdr. by rewrite load32_store32_ne by lia.
    + intros x Hx. apply Hs'. unfold off. lia.
  - intros x Hx. apply Hs'. unfold l' in Hx. rewrite in_hdr_app in Hx. simpl in Hx. fold h in Hx.
    unfold off. lia.
Qed.

Lemma kmalloc_refines fuel m st l n o l' :
  store_ok m st l -> 0 < n -> (length l < fuel)%nat -> amalloc n l = Some (o, l') ->
  exists m', kmalloc fuel m st n = Some (m', __mem_store_base st + o) /\
    store_ok m' st l' /\ same_on (fun x => ~ in_hdr (__mem_store_base st) l' x) m m'.
Proof.
  intros Hst Hn Hfuel Ha.
  destruct (amalloc_split _ _ _ _ Ha) as (l1 & sz & l2 & -> & Hun & Hle & -> & ->).
  destruct (store_block _ _ _ _ _ _ Hst) as (Hh & Hsz & Hlo & Hhi & Hnx).
  pose proof (ok_chain _ _ _ Hst) as Hc. pose proof (ok_base _ _ _ Hst) as Hb.
  pose proof (ok_sizes _ _ _ Hst) as [Hok1 _]%sizes_ok_app.
  unfold STORE_OFFSET in *. rewrite length_app in Hfuel. simpl in Hfuel.
  unfold kmalloc. rewrite leb_gt, (ok_head _ _ _ Hst) by done.
  rewrite (first_fit_found _ _ _ _ _ _ _ _ _ Hc) by (done || lia). simpl.
  set (h := __mem_store_base st + total l1) in *.
  unfold hdr_size at 1. rewrite (hdr_at_size _ _ _ _ _ _ Hh), ltb_ge by done.
  replace (__mem_store_base st + (total l1 + 16)) with (h + BLK_HEADER_SIZE)
    by (unfold h, BLK_HEADER_SIZE; lia).
  destruct (Z.ltb_spec (n + 32) sz) as [Hlt|Hge].
  - destruct (store_take_split _ _ _ _ _ n Hst Hn Hlt) as (E & Hst' & Hs).
    fold h in E, Hst', Hs. destruct (__splice_block_in m h n) as [m1 cur].
    simpl in E, Hst', Hs. subst cur. by eexists.
  - rewrite (splice_block_in_whole m h _ _ sz true n Hh) by lia.
    destruct (store_set_free _ _ _ _ _ false _ Hst) as [Hst' Hs]. by eexists.
Qed.

(** ** [kfree] refines [afree] *)

(** Is there a block whose header is at offset [o]? *)
Fixpoint block_at (o : Z) (l : store) : bool :=
  match l with
  | [] => false
  | (sz, _) :: l' => (o =? 0) || block_at (o - (16 + sz)) l'
  end.

Lemma block_at_split o l :
  block_at o l = true -> exists l1 sz fr l2, l = l1 ++ (sz, fr) :: l2 /\ o = total l1.
Proof.
  revert o. induction l as [|[sz fr] l IH]; intros o; simpl; [done|].
  intros [->%Z.eqb_eq|(l1 & s & f & l2 & -> & Ho)%IH]%orb_true_iff.
  - by exists [], sz, fr, l.
  - exists ((sz, fr) :: l1), s, f, l2. simpl. split; [done|lia].
Qed.

Lemma block_at_neg o l : sizes_ok l -> o < 0 -> block_at o l = false.
Proof.
  intros Hok. revert o. induction Hok as [|[sz fr] l Hsz Hl IH]; intros o Ho; simpl in *; [done|].
  rewrite eqb_ne by lia. apply IH. lia.
Qed.

Lemma afree_none o l : block_at o l = false -> afree o l = l.
Proof.
  revert o. induction l as [|[sz fr] l IH]; intros o; simpl; [done|].
  intros [Ho Hb]%orb_false_iff. rewrite Ho, (IH _ Hb).
  destruct l as [|[s2 f2] l]; [done|]. simpl in Hb.
  apply orb_false_iff in Hb as [Hb _]. apply Z.eqb_neq in Hb.
  by rewrite eqb_ne by lia.
Qed.

Lemma afree_later l0 s0 f0 sz fr l2 :
  sizes_ok (l0 ++ [(s0, f0)]) ->
  afree (total (l0 ++ [(s0, f0)])) (l0 ++ (s0, f0) :: (sz, fr) :: l2) =
    l0 ++ (if f0 then absorb s0 (release sz l2) else (s0, f0) :: release sz l2).
Proof.
  induction l0 as [|[s f] l0 IH]; intros Hok; simpl in Hok; apply sizes_ok_cons in Hok as [Hs Hok].
  - simpl. rewrite eqb_ne, Z.add_0_r, Z.eqb_refl, Z.sub_diag by lia. by destruct f0.
  - cbn [app total afree]. pose proof (total_pos _ Hok ltac:(by destruct l0)).
    rewrite eqb_ne by lia.
    replace (16 + s + total (l0 ++ [(s0, f0)]) - (16 + s)) with (total (l0 ++ [(s0, f0)])) by lia.
    rewrite (IH Hok).
    destruct l0 as [|[s' f'] l0]; simpl in *; rewrite eqb_ne by lia; done.
Qed.

Lemma afree_snoc l0 s0 f0 sz fr l2 :
  sizes_ok (l0 ++ [(s0, f0)]) ->
  afree (total (l0 ++ [(s0, f0)])) ((l0 ++ [(s0, f0)]) ++ (sz, fr) :: l2) =
    l0 ++ (if f0 then absorb s0 (release sz l2) else (s0, f0) :: release sz l2).
Proof. intros. rewrite <- app_assoc. by apply afree_later. Qed.

Lemma get_block_header_found m prev a l1 b l2 fin fuel :
  chain m prev a (l1 ++ b :: l2) fin -> sizes_ok l1 -> 0 < a -> (length l1 < fuel)%nat ->
  get_block_header_loop fuel m a (a + total l1) = Some (a + total l1).
Proof.
  revert prev a fuel. induction l1 as [|[sz fr] l1 IH]; intros prev a fuel Hc Hok Ha Hf;
    (destruct fuel as [|fuel]; simpl in *; [lia|]).
  - by rewrite Z.add_0_r, Z.eqb_refl.
  - apply sizes_ok_cons in Hok as [Hsz Hok]. pose proof (total_nonneg _ Hok).
    rewrite eqb_ne by lia. destruct Hc as [[Hp Hn Hs Hfr] Hc]. unfold_hdr. rewrite Hn.
    assert (nxt (a + 16 + sz) (l1 ++ b :: l2) fin = a + 16 + sz) as -> by (by destruct l1).
    rewrite c_true_nonzero by lia. simpl.
    replace (a + (16 + sz + total l1)) with (a + 16 + sz + total l1) by lia.
    apply (IH _ _ _ Hc Hok); lia.
Qed.

Lemma get_block_header_missing m prev a l o fuel :
  chain m prev a l 0 -> sizes_ok l -> 0 < a -> (length l < fuel)%nat -> l <> [] ->
  block_at o l = false -> get_block_header_loop fuel m a (a + o) = Some 0.
Proof.
  revert prev a o fuel. induction l as [|[sz fr] l IH]; intros prev a o fuel Hc Hok Ha Hf Hne Hb;
    [done|]. destruct fuel as [|fuel]; simpl in *; [lia|].
  apply orb_false_iff in Hb as [Hb0%Z.eqb_neq Hb]. rewrite eqb_ne by lia.
  apply sizes_ok_cons in Hok as [Hsz Hok]. destruct Hc as [[Hp Hn Hs Hfr] Hc].
  unfold_hdr. rewrite Hn. destruct l as [|b l]; [done|]. simpl nxt.
  rewrite c_true_nonzero by lia. simpl negb. cbn [negb].
  replace (a + o) with (a + 16 + sz + (o - (16 + sz))) by lia.
  apply (IH _ _ _ _ Hc Hok); [lia|simpl in *; lia|done|done].
Qed.

(** Merging two neighbours, wherever the list is cut. *)
Lemma store_merge m st l1 s1 f1 s2 f2 l2 :
  let lo := __mem_store_base st + total l1 in
  let l := l1 ++ (s1, f1) :: (s2, f2) :: l2 in
  store_ok m st l ->
  let r := __splice_block_out m lo (lo + 16 + s1) in
  snd r = lo /\ store_ok (fst r) st (l1 ++ (s1 + 16 + s2, f1) :: l2) /\
  same_on (fun x => ~ in_hdr (__mem_store_base st) l x) m (fst r).
Proof.
  intros lo l Hst r.
  destruct (store_block _ _ _ _ _ _ Hst) as (Hh & Hs1 & Hlo & Hhi & _). fold lo in Hh, Hlo, Hhi.
  assert (l = (l1 ++ [(s1, f1)]) ++ (s2, f2) :: l2) as El by (unfold l; by rewrite <- app_assoc).
  pose proof Hst as Hst2. rewrite El in Hst2.
  destruct (store_block _ _ _ _ _ _ Hst2) as (Hh2 & Hs2 & _ & Hhi2 & Hnx).
  rewrite last_hdr_app in Hh2. fold lo in Hh2. rewrite total_app in Hh2, Hhi2, Hnx.
  simpl in Hh2, Hhi2, Hnx.
  replace (__mem_store_base st + (total l1 + (16 + s1 + 0))) with (lo + 16 + s1)
    in Hh2, Hhi2, Hnx by (unfold lo; lia).
  unfold STORE_OFFSET in Hlo. simpl in Hh.
  destruct (splice_block_out_spec m lo (lo + 16 + s1) _ _ s1 s2 f1 f2 Hh Hh2)
    as (E & Hh' & Hp & Hs); [lia|lia|lia|done|lia|done|]. fold r in E, Hh', Hp, Hs.
  split_and!; [done| |].
  - apply (store_patch m (fst r) st l1 [(s1, f1); (s2, f2)] [(s1 + 16 + s2, f1)] l2 Hst);
      fold lo; simpl; [done|lia|rewrite sizes_ok_cons; split; [lia|constructor]| | |];
      replace (lo + (16 + s1 + (16 + s2 + 0))) with (lo + 16 + s1 + 16 + s2) by lia.
    + split; [|done]. done.
    + intros Hl2. destruct l2; [done|]. apply Hp. simpl. lia.
    + intros x Hx. apply Hs. unfold splice_frame, off. lia.
  - intros x Hx. apply Hs. unfold l in Hx. rewrite in_hdr_app in Hx. simpl in Hx. fold lo in Hx.
    unfold splice_frame, off. destruct l2 as [|[s3 f3] l2]; simpl in Hx |- *; lia.
Qed.

Lemma in_hdr_merge a l1 s1 f1 s2 f2 f l2 x :
  in_hdr a (l1 ++ (s1 + 16 + s2, f) :: l2) x -> in_hdr a (l1 ++ (s1, f1) :: (s2, f2) :: l2) x.
Proof.
  rewrite !in_hdr_app. simpl.
  replace (a + total l1 + 16 + (s1 + 16 + s2)) with (a + total l1 + 16 + s1 + 16 + s2) by lia.
  tauto.
Qed.

Lemma in_hdr_flag a l1 s f f' l2 x :
  in_hdr a (l1 ++ (s, f) :: l2) x <-> in_hdr a (l1 ++ (s, f') :: l2) x.
Proof. by rewrite !in_hdr_app. Qed.

(** The two merging steps of [kfree]. *)
Definition merge_next (m : mem) (h : Z) : mem * Z :=
  if c_true (hdr_next m h) && c_true (hdr_is_free m (hdr_next m h)) then
    __splice_block_out m h (hdr_next m h)
  else (m, h).

Definition merge_prev (m : mem) (h : Z) : mem * Z :=
  if c_true (hdr_prev m h) && c_true (hdr_is_free m (hdr_prev m h)) then
    __splice_block_out m (hdr_prev m h) h
  else (m, h).

Lemma c_true_b2z b : c_true (b2z b) = b.
Proof. by destruct b. Qed.

Lemma store_second m st l1 s1 f1 s2 f2 l2 :
  store_ok m st (l1 ++ (s1, f1) :: (s2, f2) :: l2) ->
  let lo := __mem_store_base st + total l1 in
  hdr_at m (lo + 16 + s1) lo (nxt (lo + 16 + s1 + 16 + s2) l2 0) s2 f2.
Proof.
  intros Hst lo.
  replace (l1 ++ (s1, f1) :: (s2, f2) :: l2) with ((l1 ++ [(s1, f1)]) ++ (s2, f2) :: l2) in Hst
    by (by rewrite <- app_assoc).
  destruct (store_block _ _ _ _ _ _ Hst) as [H _].
  rewrite last_hdr_app, total_app in H. fold lo in H. simpl in H.
  by replace (__mem_store_base st + (total l1 + (16 + s1 + 0))) with (lo + 16 + s1) in H
    by (unfold lo; lia).
Qed.

Lemma merge_next_spec m st l1 sz fr l2 :
  let h := __mem_store_base st + total l1 in
  let l := l1 ++ (sz, fr) :: l2 in
  store_ok m st l ->
  exists m1 sz' l2', merge_next m h = (m1, h) /\ release sz l2 = (sz', true) :: l2' /\
    store_ok m1 st (l1 ++ (sz', fr) :: l2') /\
    same_on (fun x => ~ in_hdr (__mem_store_base st) l x) m m1 /\
    (forall x, in_hdr (__mem_store_base st) (l1 ++ (sz', fr) :: l2') x ->
       in_hdr (__mem_store_base st) l x).
Proof.
  intros h l Hst. destruct (store_block _ _ _ _ _ _ Hst) as ([_ Hn _ _] & Hsz & Hlo & _).
  fold h in Hn, Hlo. unfold STORE_OFFSET in Hlo. unfold merge_next. unfold_hdr. rewrite Hn.
  destruct l2 as [|[s2 f2] l2]; [simpl; exists m, sz, []; done|]. simpl nxt.
  rewrite c_true_nonzero by lia.
  pose proof (store_second _ _ _ _ _ _ _ _ Hst) as [_ _ _ Hf]. fold h in Hf.
  rewrite Hf, c_true_b2z. destruct f2; simpl.
  - destruct (store_merge _ _ _ _ _ _ _ _ Hst) as (E & Hst' & Hs).
    fold h in E, Hst', Hs. fold l in Hs.
    destruct (__splice_block_out m h (h + 16 + sz)) as [m1 h1]. simpl in *. subst h1.
    exists m1, (sz + 16 + s2), l2. split_and!; [done|done|done|done|].
    intros x. apply in_hdr_merge.
  - exists m, sz, ((s2, false) :: l2). done.
Qed.

Lemma merge_prev_spec m st l0 s0 f0 sz fr l2 :
  let lo := __mem_store_base st + total l0 in
  let h := lo + 16 + s0 in
  let l := l0 ++ (s0, f0) :: (sz, fr) :: l2 in
  store_ok m st l ->
  if f0 then
    exists m1, merge_prev m h = (m1, lo) /\
      store_ok m1 st (l0 ++ (s0 + 16 + sz, true) :: l2) /\
      same_on (fun x => ~ in_hdr (__mem_store_base st) l x) m m1
  else merge_prev m h = (m, h).
Proof.
  intros lo h l Hst.
  destruct (store_block _ _ _ _ _ _ Hst) as ([_ _ _ Hf] & Hsz & Hlo & _). fold lo in Hf, Hlo.
  pose proof (store_second _ _ _ _ _ _ _ _ Hst) as [Hp _ _ _]. fold lo h in Hp.
  unfold STORE_OFFSET in Hlo. unfold merge_prev. unfold_hdr. rewrite Hp, Hf, c_true_b2z.
  rewrite c_true_nonzero by lia. destruct f0; simpl; [|done].
  destruct (store_merge _ _ _ _ _ _ _ _ Hst) as (E & Hst' & Hs). fold lo h in E, Hst', Hs.
  fold l in Hs. destruct (__splice_block_out m lo h) as [m1 h1]. simpl in *. subst h1.
  by exists m1.
Qed.

(** Step 3, and the whole body of [kfree] after the header was found. *)
Lemma kfree_body_refines m st l1 sz fr l2 :
  let h := __mem_store_base st + total l1 in
  let l := l1 ++ (sz, fr) :: l2 in
  store_ok m st l ->
  exists m' m1 m2 h2, merge_next m h = (m1, h) /\ merge_prev m1 h = (m2, h2) /\
    m' = set_is_free m2 h2 1 /\ store_ok m' st (afree (total l1) l) /\
    same_on (fun x => ~ in_hdr (__mem_store_base st) l x) m m'.
Proof.
  intros h l Hst.
  destruct (merge_next_spec _ _ _ _ _ _ Hst) as (m1 & sz' & l2' & E1 & Er & Hst1 & Hs1 & Hin).
  fold h in E1. fold l in Hs1, Hin. rewrite E1.
  destruct l1 as [|b0 l0 _] using rev_ind.
  - destruct (store_block _ _ _ _ _ _ Hst1) as ([Hp _ _ _] & _).
    assert (merge_prev m1 h = (m1, h)) as E2.
    { unfold merge_prev. unfold_hdr. unfold h. rewrite Hp. done. }
    destruct (store_set_free _ _ _ _ _ true _ Hst1) as [Hst2 Hs2].
    do 4 eexists. split_and!; [done|exact E2|done| |].
    + simpl. unfold l. simpl. rewrite Er. exact Hst2.
    + etrans; [exact Hs1|]. eapply same_on_weaken; [|exact Hs2].
      intros x Hx Hi. apply Hx, Hin. by eapply in_hdr_flag.
  - destruct b0 as [s0 f0].
    pose proof (ok_sizes _ _ _ Hst) as [Hok _]%sizes_ok_app.
    assert (h = __mem_store_base st + total l0 + 16 + s0) as Eh
      by (unfold h; rewrite total_app; simpl; lia).
    assert (afree (total (l0 ++ [(s0, f0)])) l =
      l0 ++ (if f0 then absorb s0 (release sz l2) else (s0, f0) :: release sz l2)) as ->
      by (by apply afree_snoc).
    rewrite <- app_assoc in Hst1. simpl in Hst1.
    pose proof (merge_prev_spec _ _ _ _ _ _ _ _ Hst1) as HB. rewrite <- Eh in HB.
    rewrite Er. destruct f0.
    + destruct HB as (m2 & E2 & Hst2 & Hs2).
      destruct (store_set_free _ _ _ _ _ true _ Hst2) as [Hst3 Hs3].
      do 4 eexists. split_and!; [done|exact E2|done|exact Hst3|].
      etrans; [exact Hs1|]. etrans; (eapply same_on_weaken; [|eassumption]).
      * intros x Hx Hi. apply Hx, Hin. by rewrite <- app_assoc.
      * intros x Hx Hi. apply Hx, Hin. rewrite <- app_assoc. by eapply in_hdr_merge.
    + change ((s0, false) :: (sz', fr) :: l2') with ([(s0, false)] ++ (sz', fr) :: l2') in Hst1.
      rewrite app_assoc in Hst1.
      destruct (store_set_free _ _ (l0 ++ [(s0, false)]) _ _ true _ Hst1) as [Hst3 Hs3].
      fold h in Hst3, Hs3. do 4 eexists. split_and!; [done|exact HB|done| |].
      * rewrite <- app_assoc in Hst3. exact Hst3.
      * etrans; [exact Hs1|]. eapply same_on_weaken; [|exact Hs3].
        intros x Hx Hi. apply Hx, Hin. by eapply in_hdr_flag.
Qed.

Lemma kfree_refines fuel m st l p :
  store_ok m st l -> (length l < fuel)%nat ->
  exists m', kfree fuel m st p = Some m' /\
    store_ok m' st (afree (p - 16 - __mem_store_base st) l) /\
    same_on (fun x => ~ in_hdr (__mem_store_base st) l x) m m'.
Proof.
  intros Hst Hfuel. pose proof (ok_base _ _ _ Hst) as Hb. unfold STORE_OFFSET in Hb.
  pose proof (ok_sizes _ _ _ Hst) as Hok. pose proof (ok_chain _ _ _ Hst) as Hc.
  unfold kfree. rewrite (ok_head _ _ _ Hst). rewrite (c_true_nonzero (__mem_store_base st)) by lia.
  rewrite orb_false_r. unfold __get_block_header, BLK_HEADER_SIZE. rewrite (ok_head _ _ _ Hst).
  set (o := p - 16 - __mem_store_base st).
  replace (p - 16) with (__mem_store_base st + o) by (unfold o; lia).
  destruct (decide (p = 0)) as [->|Hp].
  { exists m. simpl. rewrite afree_none by (apply block_at_neg; [done|unfold o; lia]). done. }
  rewrite (c_true_nonzero p) by done. simpl.
  destruct (block_at o l) eqn:Eb.
  - destruct (block_at_split _ _ Eb) as (l1 & sz & fr & l2 & -> & ->).
    rewrite length_app in Hfuel. apply sizes_ok_app in Hok as [Hok1 _].
    pose proof (total_nonneg _ Hok1).
    rewrite (get_block_header_found _ _ _ _ _ _ _ _ Hc) by (done || lia). simpl.
    rewrite c_true_nonzero by lia. simpl.
    destruct (kfree_body_refines _ _ _ _ _ _ Hst) as (m' & m1 & m2 & h2 & E1 & E2 & -> & Hst' & Hs).
    unfold merge_next in E1. rewrite E1. unfold merge_prev in E2. rewrite E2. by eexists.
  - rewrite (get_block_header_missing _ _ _ l _ _ Hc) by (done || lia || apply Hst).
    simpl. exists m. rewrite afree_none by done. done.
Qed.
