(* ===== verification/KmallocProps.v ===== *)
(** * KmallocProps: the properties of the allocator

    Consequences of the refinement of KmallocStore.v for the clients of
    src/kmalloc.c: fresh blocks, preserved payloads, coalescing, the
    allocate/free and reallocate laws, initialisation, and running out of
    memory. *)

From S2P Require Import Prelude Memory Klib Kmalloc KmallocStore.

(** ** Payloads in use *)

(** [x] is a payload byte of a block in use. *)
Fixpoint in_used (a : Z) (l : store) (x : Z) : Prop :=
  match l with
  | [] => False
  | (sz, fr) :: l' => (fr = false /\ a + 16 <= x < a + 16 + sz) \/ in_used (a + 16 + sz) l' x
  end.

Lemma in_used_app a l1 l2 x :
  in_used a (l1 ++ l2) x <-> in_used a l1 x \/ in_used (a + total l1) l2 x.
Proof.
  revert a. induction l1 as [|[sz fr] l1 IH]; intros a; simpl.
  - rewrite Z.add_0_r. tauto.
  - rewrite IH. replace (a + (16 + sz + total l1)) with (a + 16 + sz + total l1) by lia. tauto.
Qed.

Lemma in_used_range a l x : sizes_ok l -> in_used a l x -> a + 16 <= x < a + total l.
Proof.
  intros Hok. revert a. induction Hok as [|[sz fr] l Hsz Hl IH]; intros a; simpl in *; [done|].
  pose proof (total_nonneg l Hl). intros [[_ ?]|?%IH]; lia.
Qed.

(** Headers and payloads do not overlap. *)
Lemma in_used_not_hdr a l x : sizes_ok l -> in_used a l x -> ~ in_hdr a l x.
Proof.
  intros Hok. revert a. induction Hok as [|[sz fr] l Hsz Hl IH]; intros a; simpl in *; [done|].
  intros [[_ ?]|Hu] [?|Hh].
  - lia.
  - apply in_hdr_range in Hh; [lia|done].
  - apply in_used_range in Hu; [lia|done].
  - by eapply IH.
Qed.

Lemma length_total l : sizes_ok l -> 16 * Z.of_nat (length l) <= total l.
Proof. induction 1 as [|[sz fr] l Hsz Hl IH]; simpl in *; lia. Qed.

(** A fuel that bounds the number of blocks any store of this size can have. *)
Definition enough_fuel (fuel : nat) (st : kmalloc_state) : Prop :=
  __mem_store_size st < 16 * Z.of_nat fuel.

Lemma enough_fuel_length fuel m st l :
  store_ok m st l -> enough_fuel fuel st -> (length l < fuel)%nat.
Proof.
  intros [_ _ _ Ht _ Hok _] Hf. unfold enough_fuel in Hf.
  pose proof (length_total _ Hok). lia.
Qed.

(** The effect of an allocation on the payloads. *)
Lemma amalloc_used n l o l' a x :
  amalloc n l = Some (o, l') -> sizes_ok l -> 0 < n ->
  (a + o <= x < a + o + n -> ~ in_used a l x /\ in_used a l' x) /\
  (in_used a l x -> in_used a l' x).
Proof.
  intros (l1 & sz & l2 & -> & Hun & Hle & -> & ->)%amalloc_split Hok Hn.
  apply sizes_ok_app in Hok as [Hok1 [Hsz Hok2]%sizes_ok_cons].
  rewrite !in_used_app. simpl. split.
  - intros Hx. split.
    + intros [H|[[H _]|H]]; [apply in_used_range in H; [lia|done]|done|].
      apply in_used_range in H; [lia|done].
    + right. case_Z; simpl; left; split; [done|lia|done|lia].
  - intros [H|[[H _]|H]]; [by left|done|]. right. case_Z; simpl; [|by right].
    right. right. by replace (a + total l1 + 16 + n + 16 + (sz - n - 16))
      with (a + total l1 + 16 + sz) by lia.
Qed.

Lemma amalloc_sizes n l o l' : amalloc n l = Some (o, l') -> sizes_ok l -> 0 < n -> sizes_ok l'.
Proof.
  intros (l1 & sz & l2 & -> & Hun & Hle & -> & ->)%amalloc_split Hok Hn.
  apply sizes_ok_app in Hok as [Hok1 [Hsz Hok2]%sizes_ok_cons].
  apply sizes_ok_app. split; [done|]. case_Z; rewrite ?sizes_ok_cons; split_and!; (done || lia).
Qed.

Lemma amalloc_bounds n l o l' :
  amalloc n l = Some (o, l') -> sizes_ok l -> 16 <= o /\ o + n <= total l.
Proof.
  intros (l1 & sz & l2 & -> & Hun & Hle & -> & ->)%amalloc_split Hok.
  apply sizes_ok_app in Hok as [Hok1%total_nonneg [Hsz Hok2%total_nonneg]%sizes_ok_cons].
  rewrite total_app. simpl. lia.
Qed.

(** ** No two neighbouring free blocks *)

Fixpoint coalesced (l : store) : Prop :=
  match l with
  | (_, f1) :: ((_, f2) :: _) as l' => ~ (f1 = true /\ f2 = true) /\ coalesced l'
  | _ => True
  end.

Lemma coalesced_app l1 b l2 :
  coalesced (l1 ++ b :: l2) <-> coalesced (l1 ++ [b]) /\ coalesced (b :: l2).
Proof.
  induction l1 as [|[s1 f1] l1 IH]; [simpl; destruct b; tauto|].
  destruct l1 as [|[s2 f2] l1]; simpl in *; destruct b; [tauto|]. rewrite IH. tauto.
Qed.

(** The payload size does not matter for coalescing. *)
Lemma coalesced_resize l1 s s' f l2 :
  coalesced (l1 ++ (s, f) :: l2) <-> coalesced (l1 ++ (s', f) :: l2).
Proof.
  induction l1 as [|[s1 f1] l1 IH]; [by destruct l2|].
  destruct l1 as [|[s2 f2] l1]; simpl in *; [tauto|]. by rewrite IH.
Qed.

(** Turning a free block into a used one. *)
Lemma coalesced_use l1 s f l2 : coalesced (l1 ++ (s, f) :: l2) -> coalesced (l1 ++ (s, false) :: l2).
Proof.
  induction l1 as [|[s1 f1] l1 IH].
  - destruct l2 as [|[s2 f2] l2]; simpl; [done|]. intros [_ ?]. split; [by intros []|done].
  - destruct l1 as [|[s2 f2] l1]; simpl in *.
    + intros [_ ?]. split; [by intros [_ ?]|by apply IH].
    + intros [? ?]. split; [done|by apply IH].
Qed.

Lemma amalloc_coalesced n l o l' : amalloc n l = Some (o, l') -> coalesced l -> coalesced l'.
Proof.
  intros (l1 & sz & l2 & -> & Hun & Hle & -> & ->)%amalloc_split Hc.
  pose proof Hc as Hu%coalesced_use.
  case_Z; [|done].
  apply coalesced_app. apply coalesced_app in Hu as [Hu _]. split.
  - by apply (coalesced_resize l1 sz n false []).
  - apply coalesced_app in Hc as [_ Hc]. split; [by intros []|].
    by destruct l2 as [|[s2 f2] l2].
Qed.

(** Allocating and freeing at once restores a coalesced store. *)
Lemma amalloc_afree n l o l' :
  amalloc n l = Some (o, l') -> sizes_ok l -> coalesced l -> afree (o - 16) l' = l.
Proof.
  intros (l1 & sz & l2 & -> & Hun & Hle & -> & ->)%amalloc_split Hok Hc.
  replace (total l1 + 16 - 16) with (total l1) by lia.
  apply sizes_ok_app in Hok as [Hok1 _].
  assert (release n ((sz - n - 16, true) :: l2) = (sz, true) :: l2) as Er.
  { simpl. do 2 f_equal. lia. }
  assert (release sz l2 = (sz, true) :: l2) as Er2.
  { apply coalesced_app in Hc as [_ Hc]. destruct l2 as [|[s2 [|]] l2]; simpl in *; [done| |done].
    destruct Hc as [Hc _]. by destruct Hc. }
  destruct l1 as [|[s0 f0] l0 _] using rev_ind.
  - simpl. case_Z; simpl; [exact Er|exact Er2].
  - assert (f0 = false) as ->.
    { rewrite <- app_assoc in Hc. apply coalesced_app in Hc as [_ Hc].
      destruct f0; [|done]. destruct Hc as [Hc _]. by destruct Hc. }
    case_Z; rewrite afree_snoc by done; rewrite ?Er, ?Er2; by rewrite <- app_assoc.
Qed.

Lemma release_shape sz l2 : exists s' l2', release sz l2 = (s', true) :: l2'.
Proof. destruct l2 as [|[s2 [|]] l2]; simpl; eauto. Qed.

Lemma release_coalesced sz fr l2 : coalesced ((sz, fr) :: l2) -> coalesced (release sz l2).
Proof.
  destruct l2 as [|[s2 [|]] l2]; simpl; [done| |].
  - intros [_ H]. by destruct l2 as [|[s3 f3] l2].
  - intros [_ H]. split; [by intros [_ ?]|done].
Qed.

Lemma afree_coalesced o l : sizes_ok l -> coalesced l -> coalesced (afree o l).
Proof.
  intros Hok Hc. destruct (block_at o l) eqn:Eb; [|by rewrite afree_none].
  apply block_at_split in Eb as (l1 & sz & fr & l2 & -> & ->).
  apply sizes_ok_app in Hok as [Hok1 _].
  apply coalesced_app in Hc as [Hc1 Hr%release_coalesced].
  destruct (release_shape sz l2) as (s' & l2' & Es). rewrite Es in Hr.
  destruct l1 as [|[s0 f0] l0 _] using rev_ind; [simpl; by rewrite Es|].
  rewrite afree_snoc, Es by done. rewrite <- app_assoc in Hc1. simpl in Hc1.
  apply coalesced_app in Hc1 as [Hc0 _]. destruct f0; simpl; apply coalesced_app.
  - split; [by eapply coalesced_resize|]. by destruct l2' as [|[? ?] ?].
  - split; [done|]. split; [by intros []|done].
Qed.

(** Freeing keeps every other payload in use. *)
Lemma afree_used l1 sz fr l2 a x :
  sizes_ok (l1 ++ (sz, fr) :: l2) ->
  in_used a (l1 ++ (sz, fr) :: l2) x ->
  ~ (a + total l1 + 16 <= x < a + total l1 + 16 + sz) ->
  in_used a (afree (total l1) (l1 ++ (sz, fr) :: l2)) x.
Proof.
  intros Hok Hu Hx. apply sizes_ok_app in Hok as [Hok1 _].
  assert (forall b, in_used b ((sz, fr) :: l2) x -> ~ (b + 16 <= x < b + 16 + sz) ->
    in_used b (release sz l2) x) as Hrel.
  { intros b Hb Hn. simpl in Hb. destruct Hb as [[_ Hb]|Hb]; [lia|].
    destruct l2 as [|[s2 [|]] l2]; simpl in *; [done| |by right].
    destruct Hb as [[? _]|Hb]; [done|]. right.
    by replace (b + 16 + (sz + 16 + s2)) with (b + 16 + sz + 16 + s2) by lia. }
  apply in_used_app in Hu. destruct l1 as [|[s0 f0] l0 _] using rev_ind.
  - simpl in *. rewrite !Z.add_0_r in *. destruct Hu as [[]|Hu]. by apply Hrel.
  - rewrite afree_snoc by done. rewrite total_app in *. simpl in *.
    rewrite in_used_app in *. destruct Hu as [[Hu|Hu]|Hu].
    + by left.
    + right. destruct Hu as [[-> Hu]|[]]. simpl. by left.
    + right. replace (a + (total l0 + (16 + s0 + 0))) with (a + total l0 + 16 + s0) in * by lia.
      apply Hrel in Hu; [|lia]. destruct f0; simpl; [|by right].
      destruct (release_shape sz l2) as (s' & l2' & Es). rewrite Es in *. simpl in *.
      destruct Hu as [[? _]|Hu]; [done|]. right.
      by replace (a + total l0 + 16 + (s0 + 16 + s')) with (a + total l0 + 16 + s0 + 16 + s') by lia.
Qed.

(** ** Running out of memory

    With no block that fits, the search follows [next] past the end of the
    list: it reads the header fields of the NULL pointer.  If the word at
    address 4 is 0 the loop never ends. *)

Lemma first_fit_null fuel m n : hdr_next m 0 = 0 -> first_fit fuel m 0 n = None.
Proof. intros H. induction fuel as [|k IH]; simpl; [done|]. by rewrite H. Qed.

Lemma first_fit_exhausted fuel m prev a l n :
  chain m prev a l 0 -> Forall (unsuitable n) l -> sizes_ok l -> 0 < a -> l <> [] ->
  hdr_next m 0 = 0 -> first_fit fuel m a n = None.
Proof.
  intros Hc Hun Hok Ha Hne H0.
  destruct (first_fit fuel m a n) as [r|] eqn:E; [|done].
  assert (forall k, first_fit (fuel + k) m a n = Some r) as Hmono.
  { clear -E. revert a r E. induction fuel as [|f IH]; intros a r E k; simpl in *; [done|].
    destruct (negb (c_true a) || _ || _); [|done]. by apply IH. }
  pose proof (first_fit_skip m prev a l [] 0 n fuel) as Hs. rewrite app_nil_r in Hs.
  specialize (Hs Hc Hun Hok Ha). simpl in Hs.
  assert (nxt a l 0 = a) as Ea by (by destruct l). rewrite Ea in Hs.
  rewrite first_fit_null in Hs by done.
  specialize (Hmono (length l)). rewrite Nat.add_comm in Hmono. congruence.
Qed.

Lemma kmalloc_exhausted fuel m st l n :
  store_ok m st l -> 0 < n -> Forall (unsuitable n) l -> load32 m 4 = 0 ->
  kmalloc fuel m st n = None.
Proof.
  intros Hst Hn Ha H4. unfold kmalloc. rewrite leb_gt, (ok_head _ _ _ Hst) by done.
  pose proof (ok_base _ _ _ Hst). unfold STORE_OFFSET in *.
  rewrite (first_fit_exhausted _ _ _ _ _ _ (ok_chain _ _ _ Hst) Ha (ok_sizes _ _ _ Hst));
    [done|lia|apply Hst|done].
Qed.

(** ** Initialisation *)

(** A multiboot memory map entry: [size], base address, length and type. *)
Record mmap_entry := MmapEntry { e_size : Z; e_addr : Z; e_len : Z; e_type : Z }.

(** The entries [es] lie in memory from [a] to [stop]. *)
Fixpoint mmap_at (m : mem) (a stop : Z) (es : list mmap_entry) : Prop :=
  match es with
  | [] => a = stop
  | e :: es' =>
      mmap_size m a = e_size e /\ mmap_addr m a = e_addr e /\ mmap_len m a = e_len e /\
      mmap_type m a = e_type e /\ mmap_at m (a + e_size e + 4) stop es'
  end.

(** The region [init_kmalloc] settles on: the last one of the longest of type 1. *)
Definition pick (acc : Z * Z) (e : mmap_entry) : Z * Z :=
  if (e_type e =? 1) && (acc.2 <=? e_len e) then (e_addr e, e_len e) else acc.

(** Entries below 4 GB. *)
Definition entry_ok (e : mmap_entry) : Prop :=
  0 <= e_addr e < 4294967296 /\ 0 <= e_len e < 4294967296 /\ 0 <= e_size e.

Lemma land_32 z : 0 <= z < 4294967296 -> u32 (Z.land z 0xffffffff) = z.
Proof.
  intros H. change 0xffffffff with (Z.ones 32). rewrite Z.land_ones by lia.
  change (2 ^ 32) with 4294967296. rewrite Z.mod_small by done. by apply u32_small.
Qed.

Lemma mmap_at_le m a stop es : Forall entry_ok es -> mmap_at m a stop es -> a <= stop.
Proof.
  intros Hok. revert a. induction Hok as [|e es He Hes IH]; intros a; simpl; [lia|].
  intros (_ & _ & _ & _ & H%IH). destruct He as (_ & _ & ?). lia.
Qed.

Lemma mmap_loop_spec fuel m a stop es addr size :
  mmap_at m a stop es -> Forall entry_ok es -> 0 <= a -> stop < 4294967296 ->
  (length es < fuel)%nat ->
  mmap_loop fuel m a stop addr size = Some (foldl pick (addr, size) es).
Proof.
  intros Hm Hok. revert fuel a addr size Hm.
  induction Hok as [|e es (Ha & Hl & Hs) Hes IH]; intros fuel a addr size Hm Ha0 Hst Hf;
    (destruct fuel as [|fuel]; simpl in *; [lia|]).
  - subst. by rewrite Z.ltb_irrefl.
  - destruct Hm as (E1 & E2 & E3 & E4 & Hm). pose proof (mmap_at_le _ _ _ _ Hes Hm).
    rewrite ltb_lt by lia. rewrite E1, E2, E3, E4, !land_32 by done.
    rewrite (u32_small (a + e_size e + 4)) by lia.
    unfold pick at 2. simpl. destruct (e_type e =? 1); simpl; [destruct (size <=? e_len e)|];
      apply IH; (done || lia).
Qed.

(** The picked region is at least as long as every usable one. *)
Lemma foldl_pick_longest es acc e :
  e ∈ es -> e_type e = 1 -> e_len e <= (foldl pick acc es).2.
Proof.
  assert (forall es acc, acc.2 <= (foldl pick acc es).2) as Hmono.
  { clear. intros es. induction es as [|e es IH]; intros acc; simpl; [done|].
    etrans; [|apply IH]. unfold pick. destruct ((e_type e =? 1) && (acc.2 <=? e_len e)) eqn:E; simpl; [|lia].
    apply andb_true_iff in E as [_ ?%Z.leb_le]. done. }
  revert acc. induction es as [|e' es IH]; intros acc He Ht; [by apply not_elem_of_nil in He|].
  simpl. apply elem_of_cons in He as [<-|He]; [|by apply IH].
  etrans; [|apply Hmono]. unfold pick. rewrite Ht. simpl.
  destruct (Z.leb_spec acc.2 (e_len e)); simpl; lia.
Qed.

(** ** Reallocation *)

Lemma hdr_size_store m st l1 sz fr l2 :
  store_ok m st (l1 ++ (sz, fr) :: l2) -> hdr_size m (__mem_store_base st + total l1) = sz.
Proof. intros Hst. by destruct (store_block _ _ _ _ _ _ Hst) as ([_ _ H _] & _). Qed.

Lemma get_header_used fuel m st l1 sz fr l2 :
  store_ok m st (l1 ++ (sz, fr) :: l2) -> enough_fuel fuel st ->
  __get_block_header fuel m st (__mem_store_base st + total l1 + 16) =
    Some (__mem_store_base st + total l1).
Proof.
  intros Hst Hf. pose proof (enough_fuel_length _ _ _ _ Hst Hf) as Hlen.
  rewrite length_app in Hlen. pose proof (ok_sizes _ _ _ Hst) as [Hok _]%sizes_ok_app.
  pose proof (ok_base _ _ _ Hst). unfold STORE_OFFSET in *.
  unfold __get_block_header, BLK_HEADER_SIZE. rewrite (ok_head _ _ _ Hst).
  replace (_ + 16 - 16) with (__mem_store_base st + total l1) by lia.
  apply (get_block_header_found _ _ _ _ _ _ _ _ (ok_chain _ _ _ Hst)); (done || lia).
Qed.

(** A used block keeps its place when another block is allocated. *)
Lemma amalloc_keeps_used n l1 sz l2 o l' :
  amalloc n (l1 ++ (sz, false) :: l2) = Some (o, l') ->
  exists l1' l2', l' = l1' ++ (sz, false) :: l2' /\ total l1' = total l1.
Proof.
  revert o l'. induction l1 as [|[s f] l1 IH]; intros o l' H; simpl in H.
  - destruct (amalloc n l2) as [[o1 r]|]; simplify_eq/=. by exists [], r.
  - destruct (f && (n <=? s)) eqn:E.
    + simplify_eq. case_Z.
      * exists ((n, false) :: (s - n - 16, true) :: l1), l2. simpl. split; [done|lia].
      * by exists ((s, false) :: l1), l2.
    + destruct (amalloc n (l1 ++ (sz, false) :: l2)) as [[o1 r]|]; simplify_eq/=.
      destruct (IH _ _ eq_refl) as (l1' & l2' & -> & Et).
      exists ((s, f) :: l1'), l2'. simpl. split; [done|lia].
Qed.

(** ** Properties *)

(** A machine whose memory map at 0x2000 has one usable region of 0x801000 bytes
    at 0x100000, described by the multiboot structure at 0x1000. *)
Definition boot_mem : mem :=
  let m := store32 mem_zero (0x1000 + 44) 24 in
  let m := store32 m (0x1000 + 48) 0x2000 in
  let m := store32 m 0x2000 20 in
  let m := store32 m (0x2000 + 4) 0x100000 in
  let m := store32 m (0x2000 + 12) 0x801000 in
  store32 m (0x2000 + 20) 1.

Definition boot_entries : list mmap_entry := [MmapEntry 20 0x100000 0x801000 1].

Definition heap_st : kmalloc_state := KState 0x900000 0x900000 0x901000 0x1000.

(** The memory after initialisation, and after one allocation of 64 bytes. *)
Definition heap_mem : mem :=
  match init_kmalloc 2 boot_mem 0x1000 with Some (m, _) => m | None => mem_zero end.

Definition heap_mem1 : mem :=
  match kmalloc 3 heap_mem heap_st 64 with Some (m, _) => m | None => mem_zero end.

Lemma heap_mem_ok : store_ok heap_mem heap_st [(0xff0, true)].
Proof.
  split; [done|done|done|done|done|by repeat constructor|].
  apply chainb_chain. by vm_compute.
Qed.

Lemma heap_mem1_ok : store_ok heap_mem1 heap_st [(64, false); (0xfa0, true)].
Proof.
  split; [done|done|done|done|done|by repeat constructor|].
  apply chainb_chain. by vm_compute.
Qed.

(** The heap that [init_kmalloc] sets up in the region it picks. *)
Definition boot_heap (addr size : Z) : kmalloc_state :=
  KState (addr + STORE_OFFSET) (addr + STORE_OFFSET) (addr + size) (size - STORE_OFFSET).

(** What [init_kmalloc] leaves. *)
Lemma init_kmalloc_store fuel m mbi es addr size :
  mmap_at m (mbi_mmap_addr m mbi) (mbi_mmap_addr m mbi + mbi_mmap_length m mbi) es ->
  Forall entry_ok es -> mbi_mmap_addr m mbi + mbi_mmap_length m mbi < 4294967296 ->
  (length es < fuel)%nat -> foldl pick (0, 0) es = (addr, size) ->
  STORE_OFFSET + 16 <= size -> 0 <= addr -> addr + size <= 4294967296 ->
  exists m', init_kmalloc fuel m mbi = Some (m', boot_heap addr size) /\
    store_ok m' (boot_heap addr size) [(size - STORE_OFFSET - 16, true)] /\
    same_off (addr + STORE_OFFSET) 16 m m'.
Proof.
  intros Hm Hok Hst Hf Hp Hsz Ha Hr. unfold init_kmalloc.
  pose proof (load32_range m (mbi + 48)). unfold mbi_mmap_addr, mbi_mmap_length in *.
  pose proof (load32_range m (mbi + 44)).
  rewrite (u32_small (load32 m (mbi + 48) + _)) by lia.
  rewrite (mmap_loop_spec _ _ _ _ es) by (done || lia). rewrite Hp. simpl.
  unfold boot_heap, STORE_OFFSET in *. rewrite (u32_small (size - _)) by lia. unfold_hdr.
  eexists. split_and!; [done| |].
  - split; simpl; [done|done|unfold STORE_OFFSET; lia|lia|lia| |].
    + constructor; [simpl; lia|constructor].
    + split; [|done]. split; mem_simpl; rewrite ?u32_small by lia; done.
  - intros x Hx. unfold off in Hx. by mem_simpl.
Qed.

(** Initialisation.  For a multiboot memory map whose entries lie below 4 GB,
    [init_kmalloc] chooses a region at least as long as every region of type 1,
    skips the first [STORE_OFFSET] bytes of it, and leaves a well-formed store of
    one free block that fills the rest; it writes nothing but that header. *)
Theorem init_kmalloc_ok fuel m mbi es addr size :
  mmap_at m (mbi_mmap_addr m mbi) (mbi_mmap_addr m mbi + mbi_mmap_length m mbi) es ->
  Forall entry_ok es -> mbi_mmap_addr m mbi + mbi_mmap_length m mbi < 4294967296 ->
  (length es < fuel)%nat -> foldl pick (0, 0) es = (addr, size) ->
  STORE_OFFSET + 16 <= size -> 0 <= addr -> addr + size <= 4294967296 ->
  exists m' st, init_kmalloc fuel m mbi = Some (m', st) /\
    store_ok m' st [(size - STORE_OFFSET - 16, true)] /\
    __mem_store_base st = addr + STORE_OFFSET /\
    same_off (addr + STORE_OFFSET) 16 m m' /\
    (forall e, e ∈ es -> e_type e = 1 -> e_len e <= size).
Proof.
  intros Hm Hok Hst Hf Hp Hsz Ha Hr.
  destruct (init_kmalloc_store fuel m mbi es addr size Hm Hok Hst Hf Hp Hsz Ha Hr) as (m' & E & H1 & H2).
  exists m', (boot_heap addr size). split_and!; [done..|]. intros e He Ht.
  pose proof (foldl_pick_longest es (0, 0) e He Ht) as Hl. by rewrite Hp in Hl.
Qed.

Lemma init_kmalloc_ok_witness :
  exists m' st, init_kmalloc 2 boot_mem 0x1000 = Some (m', st) /\
    store_ok m' st [(0x801000 - STORE_OFFSET - 16, true)] /\
    __mem_store_base st = 0x100000 + STORE_OFFSET /\
    same_off (0x100000 + STORE_OFFSET) 16 boot_mem m' /\
    (forall e, e ∈ boot_entries -> e_type e = 1 -> e_len e <= 0x801000).
Proof.
  apply (init_kmalloc_ok 2 boot_mem 0x1000 boot_entries).
  - vm_compute. by split_and!.
  - by repeat constructor.
  - by vm_compute.
  - simpl. lia.
  - reflexivity.
  - by vm_compute.
  - lia.
  - lia.
Defined.

(** C1: allocation.  Whenever some free block is large enough, [kmalloc] returns a
    block of at least [size] bytes that overlaps no block in use and lies inside the
    store, leaves every payload in use intact, and keeps the block list well formed
    (the headers tile the store) and without two neighbouring free blocks. *)
Theorem kmalloc_ok fuel m st l n o l' :
  store_ok m st l -> coalesced l -> 0 < n -> enough_fuel fuel st -> amalloc n l = Some (o, l') ->
  exists m' p, kmalloc fuel m st n = Some (m', p) /\ store_ok m' st l' /\ coalesced l' /\
    __mem_store_base st < p /\ p + n <= __mem_store_base st + __mem_store_size st /\
    (forall x, p <= x < p + n ->
       ~ in_used (__mem_store_base st) l x /\ in_used (__mem_store_base st) l' x) /\
    (forall x, in_used (__mem_store_base st) l x ->
       in_used (__mem_store_base st) l' x /\ load8 m' x = load8 m x).
Proof.
  intros Hst Hc Hn Hf Ha.
  destruct (kmalloc_refines fuel m st l n o l' Hst Hn) as (m' & E & Hst' & Hs);
    [by eapply enough_fuel_length|done|].
  pose proof (ok_sizes _ _ _ Hst) as Hok. pose proof (amalloc_bounds _ _ _ _ Ha Hok).
  rewrite (ok_total _ _ _ Hst) in *.
  exists m', (__mem_store_base st + o).
  split_and!; [done|done|by eapply amalloc_coalesced|lia|lia| |].
  - intros x Hx. by apply (amalloc_used n l o l' _ x Ha Hok Hn).
  - intros x Hx.
    assert (in_used (__mem_store_base st) l' x) as Hx'
      by (by apply (amalloc_used n l o l' _ x Ha Hok Hn)).
    split; [done|]. apply Hs, in_used_not_hdr; [by eapply amalloc_sizes|done].
Qed.

Lemma kmalloc_ok_witness :
  exists m' p, kmalloc 257 heap_mem heap_st 64 = Some (m', p) /\
    store_ok m' heap_st [(64, false); (0xfa0, true)] /\ coalesced [(64, false); (0xfa0, true)] /\
    0x900000 < p /\ p + 64 <= 0x900000 + 0x1000 /\
    (forall x, p <= x < p + 64 ->
       ~ in_used 0x900000 [(0xff0, true)] x /\ in_used 0x900000 [(64, false); (0xfa0, true)] x) /\
    (forall x, in_used 0x900000 [(0xff0, true)] x ->
       in_used 0x900000 [(64, false); (0xfa0, true)] x /\ load8 m' x = load8 heap_mem x).
Proof.
  apply (kmalloc_ok 257 heap_mem heap_st [(0xff0, true)] 64 16 [(64, false); (0xfa0, true)]).
  - exact heap_mem_ok.
  - exact I.
  - lia.
  - reflexivity.
  - reflexivity.
Defined.

(** C2: freeing.  [kfree] of a block in use returns, leaves every other payload in
    use intact, and yields the store with that block released and merged with its
    free neighbours on both sides: well formed and again without two neighbouring
    free blocks. *)
Theorem kfree_ok fuel m st l1 sz l2 :
  let l := l1 ++ (sz, false) :: l2 in
  let p := __mem_store_base st + total l1 + 16 in
  store_ok m st l -> coalesced l -> enough_fuel fuel st ->
  exists m' l', kfree fuel m st p = Some m' /\ store_ok m' st l' /\ coalesced l' /\
    l' = afree (total l1) l /\
    (forall x, in_used (__mem_store_base st) l x -> ~ (p <= x < p + sz) ->
       in_used (__mem_store_base st) l' x /\ load8 m' x = load8 m x).
Proof.
  intros l p Hst Hc Hf. pose proof (ok_sizes _ _ _ Hst) as Hok.
  destruct (kfree_refines fuel m st l p Hst) as (m' & E & Hst' & Hs);
    [by eapply enough_fuel_length|].
  replace (p - 16 - __mem_store_base st) with (total l1) in Hst' by (unfold p; lia).
  exists m', (afree (total l1) l). split_and!; [done|done|by apply afree_coalesced|done|].
  intros x Hx Hn. split; [by apply afree_used|]. by apply Hs, in_used_not_hdr.
Qed.

Lemma kfree_ok_witness :
  exists m' l', kfree 257 heap_mem1 heap_st 0x900010 = Some m' /\ store_ok m' heap_st l' /\
    coalesced l' /\ l' = [(0xff0, true)] /\
    (forall x, in_used 0x900000 [(64, false); (0xfa0, true)] x -> ~ (0x900010 <= x < 0x900010 + 64) ->
       in_used 0x900000 l' x /\ load8 m' x = load8 heap_mem1 x).
Proof.
  apply (kfree_ok 257 heap_mem1 heap_st [] 64 [(0xfa0, true)]).
  - exact heap_mem1_ok.
  - simpl. split; [by intros []|done].
  - reflexivity.
Defined.

(** Allocate then free is the identity.  Freeing a block right after allocating it
    restores the store exactly: the same blocks, sizes and free marks as before. *)
Theorem kmalloc_kfree_roundtrip fuel m st l n o l' :
  store_ok m st l -> coalesced l -> 0 < n -> enough_fuel fuel st -> amalloc n l = Some (o, l') ->
  exists m1 p m2, kmalloc fuel m st n = Some (m1, p) /\ kfree fuel m1 st p = Some m2 /\
    store_ok m2 st l.
Proof.
  intros Hst Hc Hn Hf Ha. pose proof (ok_sizes _ _ _ Hst) as Hok.
  destruct (kmalloc_refines fuel m st l n o l' Hst Hn) as (m1 & E & Hst1 & _);
    [by eapply enough_fuel_length|done|].
  destruct (kfree_refines fuel m1 st l' (__mem_store_base st + o) Hst1) as (m2 & E2 & Hst2 & _);
    [by eapply enough_fuel_length|].
  replace (__mem_store_base st + o - 16 - __mem_store_base st) with (o - 16) in Hst2 by lia.
  rewrite (amalloc_afree _ _ _ _ Ha Hok Hc) in Hst2. by exists m1, (__mem_store_base st + o), m2.
Qed.

Lemma kmalloc_kfree_roundtrip_witness :
  exists m1 p m2, kmalloc 257 heap_mem1 heap_st 100 = Some (m1, p) /\
    kfree 257 m1 heap_st p = Some m2 /\ store_ok m2 heap_st [(64, false); (0xfa0, true)].
Proof.
  apply (kmalloc_kfree_roundtrip 257 heap_mem1 heap_st [(64, false); (0xfa0, true)] 100 (80 + 16)
           [(64, false); (100, false); (0xfa0 - 116, true)]).
  - exact heap_mem1_ok.
  - simpl. split; [by intros []|done].
  - lia.
  - reflexivity.
  - reflexivity.
Defined.

(** C35: reallocation.  Growing a block with [krealloc] moves it to a new block of the
    requested size whose first bytes are the old contents, and releases the old one;
    a request that the block already satisfies returns the same pointer and changes
    nothing. *)
Theorem krealloc_ok fuel m st l1 sz l2 n :
  let l := l1 ++ (sz, false) :: l2 in
  let p := __mem_store_base st + total l1 + 16 in
  store_ok m st l -> enough_fuel fuel st -> 0 < n ->
  (n <= sz -> krealloc fuel m st p n = Some (m, p)) /\
  (forall o l', sz < n -> amalloc n l = Some (o, l') ->
     exists m' q, krealloc fuel m st p n = Some (m', q) /\ q = __mem_store_base st + o /\
       store_ok m' st (afree (total l1) l') /\
       forall i, 0 <= i < sz -> load8 m' (q + i) = load8 m (p + i)).
Proof.
  intros l p Hst Hf Hn. unfold krealloc. pose proof (get_header_used _ _ _ _ _ _ _ Hst Hf) as Hh.
  fold p in Hh. rewrite Hh. simpl. pose proof (ok_sizes _ _ _ Hst) as Hok.
  pose proof Hok as [Hok1%total_nonneg _]%sizes_ok_app.
  pose proof (ok_base _ _ _ Hst). unfold STORE_OFFSET in *.
  rewrite (c_true_nonzero (_ + _)) by lia. simpl. rewrite (hdr_size_store _ _ _ _ _ _ Hst).
  split; [by intros; rewrite leb_le by done|]. intros o l' Hlt Ha. rewrite leb_gt by done.
  destruct (kmalloc_refines fuel m st l n o l' Hst Hn) as (m1 & -> & Hst1 & Hs1);
    [by eapply enough_fuel_length|done|]. simpl.
  pose proof (amalloc_bounds _ _ _ _ Ha Hok). rewrite c_true_nonzero by lia.
  destruct (amalloc_keeps_used _ _ _ _ _ _ Ha) as (l1' & l2' & -> & Et).
  pose proof (get_header_used _ _ _ _ _ _ _ Hst1 Hf) as Hh1. rewrite Et in Hh1. fold p in Hh1.
  pose proof (hdr_size_store _ _ _ _ _ _ Hst1) as Hs2. rewrite Et in Hs2.
  rewrite Hh1. simpl. rewrite Hs2.
  set (q := __mem_store_base st + o). set (l' := l1' ++ (sz, false) :: l2') in *.
  pose proof (ok_sizes _ _ _ Hst1) as Hok'. pose proof (ok_range _ _ _ Hst).
  assert (0 <= sz < 4294967296) as Hsz by (destruct (store_block _ _ _ _ _ _ Hst) as (_ & ? & _ & ? & _); lia).
  assert (forall x, q <= x < q + n -> in_used (__mem_store_base st) l' x) as Hq.
  { intros x Hx. apply (proj1 (amalloc_used n l o l' _ x Ha Hok Hn) Hx). }
  assert (forall x, p <= x < p + sz -> in_used (__mem_store_base st) l x) as Hp.
  { intros x Hx. apply in_used_app. right. left. split; [done|]. unfold p in Hx. lia. }
  assert (store_ok (memcpy m1 q p sz) st l') as Hst2.
  { destruct Hst1 as [? ? ? ? ? ? Hc1]. split; [done..|].
    eapply chain_frame; [|exact Hc1]. intros x Hx. apply memcpy_same_off; [done|].
    destruct (decide (q <= x < q + sz)) as [Hin|]; [|unfold off; lia].
    exfalso. eapply in_used_not_hdr; [exact Hok'| |exact Hx]. apply Hq. lia. }
  destruct (kfree_refines fuel _ st l' p Hst2) as (m3 & E3 & Hst3 & Hs3);
    [by eapply enough_fuel_length|].
  rewrite E3. simpl. exists m3, q.
  replace (p - 16 - __mem_store_base st) with (total l1) in Hst3 by (unfold p; lia).
  split_and!; [done|done|done|]. intros i Hi.
  rewrite Hs3 by (apply in_used_not_hdr; [done|]; apply Hq; lia).
  rewrite load8_memcpy, decide_True by lia. replace (p + (q + i - q)) with (p + i) by lia.
  apply Hs1. apply in_used_not_hdr; [done|].
  apply (proj2 (amalloc_used n l o l' _ (p + i) Ha Hok Hn)). apply Hp. lia.
Qed.

Lemma krealloc_ok_witness :
  (64 <= 64 -> krealloc 257 heap_mem1 heap_st 0x900010 64 = Some (heap_mem1, 0x900010)) /\
  exists m' q, krealloc 257 heap_mem1 heap_st 0x900010 100 = Some (m', q) /\ q = 0x900060.
Proof.
  split.
  - apply (krealloc_ok 257 heap_mem1 heap_st [] 64 [(0xfa0, true)] 64);
      [exact heap_mem1_ok|reflexivity|lia].
  - destruct (proj2 (krealloc_ok 257 heap_mem1 heap_st [] 64 [(0xfa0, true)] 100
      heap_mem1_ok eq_refl eq_refl) 96 [(64, false); (100, false); (0xfa0 - 116, true)]
      eq_refl eq_refl) as (m' & q & H1 & H2 & _).
    exists m', q. split; [exact H1|exact H2].
Defined.


