(* ===== verification/Heap.v ===== *)
(** * Heap: what the allocator promises to the rest of the kernel

    The scheduler and the threads call [kmalloc] and [kfree] and rely on these
    facts: a new block overlaps no live block, the contents of blocks survive
    allocation and freeing (a freed block keeps its bytes too), a live block and the
    bytes outside the heap can be written freely, blocks lie in the heap's area, the
    heap writes only there, a request that fits in a free block is served, and
    freeing a live block returns.  They are the laws of the class [Heap]; the
    allocator of src/kmalloc.c is an instance. *)

From S2P Require Import Prelude Memory Klib Kmalloc KmallocStore KmallocProps.

(** A live block: its address and its length. *)
Abbreviation live_t := (list (Z * Z)).

Definition in_block (b : Z * Z) (x : Z) : Prop := b.1 <= x < b.1 + b.2.

Definition disjoint_blocks (b c : Z * Z) : Prop := b.1 + b.2 <= c.1 \/ c.1 + c.2 <= b.1.

Definition in_live (live : live_t) (x : Z) : Prop := exists b, b ∈ live /\ in_block b x.

Class Heap (alloc : mem -> Z -> option (mem * Z)) (free : mem -> Z -> option mem) := {
  (** The heap is well formed and the blocks of the list are allocated. *)
  heap_inv : mem -> live_t -> Prop;
  (** The bytes that the allocator reads or writes. *)
  heap_area : Z -> Prop;
  heap_live m live x : heap_inv m live -> in_live live x -> heap_area x;
  heap_frame m m' live :
    heap_inv m live -> same_on (fun x => heap_area x /\ ~ in_live live x) m m' -> heap_inv m' live;
  heap_alloc m live n m' p :
    heap_inv m live -> 0 < n -> alloc m n = Some (m', p) ->
    heap_inv m' ((p, n) :: live) /\ 0 < p /\ p + n <= 4294967296 /\
    (forall b, b ∈ live -> disjoint_blocks (p, n) b) /\
    (forall x, in_block (p, n) x -> heap_area x) /\
    same_on (in_live live) m m' /\ same_on (fun x => ~ heap_area x) m m';
  (** A free block of some size, from which smaller requests can be served. *)
  heap_room : mem -> Z -> Prop;
  heap_room_frame m m' live k :
    heap_inv m live -> heap_room m k ->
    same_on (fun x => heap_area x /\ ~ in_live live x) m m' -> heap_room m' k;
  heap_room_alloc m live k n :
    heap_inv m live -> heap_room m k -> 0 < n -> n + 32 < k ->
    exists m' p, alloc m n = Some (m', p) /\ heap_room m' (k - n - 16);
  heap_free m live p n :
    heap_inv m live -> (p, n) ∈ live ->
    exists m', free m p = Some m' /\ heap_inv m' (filter (fun b => b.1 <> p) live) /\
      same_on (in_live live) m m' /\ same_on (fun x => ~ heap_area x) m m'
}.

Lemma in_live_cons b live x : in_live (b :: live) x <-> in_block b x \/ in_live live x.
Proof.
  unfold in_live. split.
  - intros (c & [->|Hc]%elem_of_cons & Hx); [by left|right; eauto].
  - intros [Hx|(c & Hc & Hx)]; [exists b|exists c]; (split; [|done]); set_solver.
Qed.

(** A byte outside the live blocks is off each of them. *)
Lemma block_off p n live a : ~ in_live ((p, n) :: live) a -> off p n a.
Proof. rewrite in_live_cons. unfold in_block, off. simpl. intros H. lia. Qed.

Lemma in_live_sub live live' x : live ⊆ live' -> in_live live x -> in_live live' x.
Proof. intros H (b & Hb & Hx). exists b. split; [by apply H|done]. Qed.

Lemma same_on_sub live live' m m' :
  live ⊆ live' -> same_on (in_live live') m m' -> same_on (in_live live) m m'.
Proof. intros H. apply same_on_weaken. intros x. by apply in_live_sub. Qed.

Lemma live_filter (P : Z * Z -> Prop) `{!forall b, Decision (P b)} (live : live_t) :
  filter P live ⊆ live.
Proof. intros b [_ Hb]%list_elem_of_filter. done. Qed.

(** ** The instance *)

(** Each live block is (a prefix of) the payload of a block in use. *)
Definition is_live (base : Z) (l : store) (b : Z * Z) : Prop :=
  exists l1 sz l2, l = l1 ++ (sz, false) :: l2 /\ b.1 = base + total l1 + 16 /\ 0 < b.2 <= sz.

Record kmalloc_live (fuel : nat) (st : kmalloc_state) (m : mem) (live : live_t) : Prop := {
  kl_store : exists l, store_ok m st l /\ forall b, b ∈ live -> is_live (__mem_store_base st) l b;
  kl_fuel : enough_fuel fuel st;
  kl_null : load32 m 4 = 0
}.

Lemma is_live_used base l b x : is_live base l b -> in_block b x -> in_used base l x.
Proof.
  intros (l1 & sz & l2 & -> & Hb & Hs) Hx. unfold in_block in Hx. apply in_used_app. right. left.
  split; [done|]. lia.
Qed.

(** Two blocks in use with different addresses are disjoint. *)
Lemma is_live_disjoint base l b c :
  sizes_ok l -> is_live base l b -> is_live base l c -> b.1 <> c.1 -> disjoint_blocks b c.
Proof.
  intros Hok (l1 & s1 & l2 & -> & Hb & Hbs) (k1 & s2 & k2 & El & Hc & Hcs) Hne.
  apply sizes_ok_app in Hok as [Hok1 [_ Hok2]%sizes_ok_cons].
  revert base k1 Hok1 El Hb Hc. induction l1 as [|[s f] l1 IH]; intros base k1 Hok1 El Hb Hc.
  - destruct k1 as [|[s' f'] k1]; simplify_eq/=; [lia|]. unfold disjoint_blocks. 
    apply sizes_ok_app in Hok2 as [Hok2%total_nonneg _]. lia.
  - apply sizes_ok_cons in Hok1 as [Hs Hok1].
    destruct k1 as [|[s' f'] k1]; simplify_eq/=.
    + unfold disjoint_blocks. apply total_nonneg in Hok1. lia.
    + apply (IH (base + 16 + s') k1); [done|done|lia|lia].
Qed.

Lemma amalloc_live n l o l' base b :
  amalloc n l = Some (o, l') -> sizes_ok l -> 0 < n ->
  is_live base l b -> is_live base l' b /\ disjoint_blocks (base + o, n) b.
Proof.
  intros Ha Hok Hn Hb. split.
  - destruct Hb as (l1 & sz & l2 & -> & Hb & Hs).
    destruct (amalloc_keeps_used _ _ _ _ _ _ Ha) as (l1' & l2' & -> & Et).
    exists l1', sz, l2'. split_and!; [done|lia|lia|lia].
  - destruct (decide (disjoint_blocks (base + o, n) b)) as [|Hd]; [done|exfalso].
    unfold disjoint_blocks in Hd. simpl in Hd. pose proof Hb as (_ & _ & _ & _ & _ & Hpos & _).
    assert (exists x, base + o <= x < base + o + n /\ in_block b x) as (x & Hx & Hxb).
    { unfold in_block. exists (Z.max (base + o) b.1). lia. }
    destruct (amalloc_used n l o l' base x Ha Hok Hn) as [[Hnu _] _]; [done|].
    by eapply Hnu, is_live_used.
Qed.

Lemma amalloc_new n l o l' base :
  amalloc n l = Some (o, l') -> 0 < n -> is_live base l' (base + o, n).
Proof.
  intros (l1 & sz & l2 & -> & _ & Hle & -> & ->)%amalloc_split Hn.
  case_Z; [exists l1, n, ((sz - n - 16, true) :: l2)|exists l1, sz, l2];
    (split_and!; [done|simpl; lia|simpl; lia|simpl; lia]).
Qed.

Lemma release_live base sz l2 b :
  is_live (base + 16 + sz) l2 b -> is_live base (release sz l2) b.
Proof.
  intros (k1 & s & k2 & -> & Hb & Hs).
  destruct k1 as [|[s2 [|]] k1]; simpl in *.
  - exists [(sz, true)], s, k2. simpl. split_and!; [done|lia|lia|lia].
  - exists ((sz + 16 + s2, true) :: k1), s, k2. simpl. split_and!; [done|lia|lia|lia].
  - exists ((sz, true) :: (s2, false) :: k1), s, k2. simpl. split_and!; [done|lia|lia|lia].
Qed.

Lemma is_live_cons base sz f l b : is_live (base + 16 + sz) l b -> is_live base ((sz, f) :: l) b.
Proof.
  intros (k1 & s & k2 & -> & Hb & Hs). exists ((sz, f) :: k1), s, k2. simpl.
  split_and!; [done|lia|lia|lia].
Qed.

Lemma is_live_cons_inv base sz f l b :
  is_live base ((sz, f) :: l) b -> b.1 <> base + 16 -> is_live (base + 16 + sz) l b.
Proof.
  intros ([|[s' f'] k1] & s & k2 & E & Hb & Hs) Hne; simplify_eq/=; [lia|].
  exists k1, s, k2. split_and!; [done|lia|lia|lia].
Qed.

(** Freeing one block keeps the others live. *)
Lemma afree_live base l o b :
  sizes_ok l -> is_live base l b -> b.1 <> base + o + 16 -> is_live base (afree o l) b.
Proof.
  revert base o. induction l as [|[sz fr] l IH]; intros base o Hok Hb Hne; [done|].
  apply sizes_ok_cons in Hok as [Hsz Hok]. simpl. case_Z; [subst|].
  { apply release_live. apply (is_live_cons_inv _ _ _ _ _ Hb). lia. }
  assert (is_live base ((sz, fr) :: afree (o - (16 + sz)) l) b) as Hdef.
  { destruct (decide (b.1 = base + 16)) as [E|E].
    - destruct Hb as (k1 & s & k2 & El & Hb & Hs). destruct k1 as [|[s' f'] k1]; simplify_eq/=.
      + exists [], s, (afree (o - (16 + s)) k2). simpl. split_and!; [done|lia|lia|lia].
      + apply sizes_ok_app in Hok as [Hok%total_nonneg _]. lia.
    - apply is_live_cons. apply IH; [done|by eapply is_live_cons_inv|lia]. }
  destruct l as [|[sz2 f2] l]; [done|].
  destruct ((o =? 16 + sz) && fr) eqn:E; [|done].
  apply andb_true_iff in E as [->%Z.eqb_eq ->].
  destruct (decide (b.1 = base + 16)) as [E|E].
  { destruct Hb as (k1 & s & k2 & El & Hb & Hs). destruct k1 as [|[s' f'] k1]; simplify_eq/=.
    apply sizes_ok_cons in Hok as [? Hok].
    destruct k1 as [|[s'' f''] k1]; simplify_eq/=; [lia|].
    apply sizes_ok_app in Hok as [Hok%total_nonneg _]. lia. }
  apply is_live_cons_inv in Hb; [|done]. apply is_live_cons_inv in Hb; [|lia].
  apply release_live in Hb. destruct (release_shape sz2 l) as (s' & r & Er). rewrite Er in *.
  destruct Hb as (k1 & s & k2 & El & Hb & Hs). destruct k1 as [|[? ?] k1]; simplify_eq/=.
  eexists ((_, true) :: k1), s, k2. simpl. split_and!; [done|lia|lia|lia].
Qed.

Lemma live_used base live l x :
  (forall b, b ∈ live -> is_live base l b) -> in_live live x -> in_used base l x.
Proof. intros Hl (b & Hb & Hx). eapply is_live_used; eauto. Qed.

(** The low word that ends the search of an exhausted heap is no heap byte. *)
Lemma null_word m m' st l :
  store_ok m st l -> same_on (fun x => x < STORE_OFFSET) m m' -> load32 m 4 = 0 -> load32 m' 4 = 0.
Proof.
  intros Hst Hs H4. rewrite <- H4. eapply same_on_load32; [exact Hs|].
  intros i Hi. unfold STORE_OFFSET. lia.
Qed.

Lemma not_hdr_low m st l l' x :
  store_ok m st l -> sizes_ok l' -> x < STORE_OFFSET -> ~ in_hdr (__mem_store_base st) l' x.
Proof.
  intros Hst Hok Hx Hin%in_hdr_range; [|done]. pose proof (ok_base _ _ _ Hst). lia.
Qed.

(** The store, and the word at 4 that a search through NULL reads. *)
Definition kmalloc_area (st : kmalloc_state) (x : Z) : Prop :=
  4 <= x < 8 \/ __mem_store_base st <= x < __mem_store_base st + __mem_store_size st.

Lemma in_hdr_area m st l l' x :
  store_ok m st l -> sizes_ok l' -> total l' = __mem_store_size st ->
  in_hdr (__mem_store_base st) l' x -> kmalloc_area st x.
Proof. intros Hst Hok Ht Hx%in_hdr_range; [|done]. right. lia. Qed.

Lemma kmalloc_live_area fuel st m live x :
  kmalloc_live fuel st m live -> in_live live x -> kmalloc_area st x.
Proof.
  intros [(l & Hst & Hl) _ _] Hx. right. rewrite <- (ok_total _ _ _ Hst).
  apply (live_used _ _ _ _ Hl), in_used_range in Hx; [lia|apply (ok_sizes _ _ _ Hst)].
Qed.

Lemma kmalloc_live_frame fuel st m m' live :
  kmalloc_live fuel st m live -> same_on (fun x => kmalloc_area st x /\ ~ in_live live x) m m' ->
  kmalloc_live fuel st m' live.
Proof.
  intros Hk Hs. pose proof Hk as [(l & Hst & Hl) Hf H4]. pose proof (ok_sizes _ _ _ Hst) as Hok.
  assert (forall x, in_live live x -> in_used (__mem_store_base st) l x) as Hu
    by (intros x; by eapply live_used).
  split; [|done|].
  - exists l. split; [|done]. destruct Hst as [? ? ? ? ? ? Hc]. split; [done..|].
    eapply chain_frame; [|exact Hc]. intros x Hx. apply Hs. split.
    + by eapply in_hdr_area.
    + intros Hl'%Hu. by eapply in_used_not_hdr.
  - rewrite <- H4. eapply same_on_load32; [exact Hs|]. intros i Hi. split; [left; lia|].
    intros Hl'%Hu%in_used_range; [|done]. pose proof (ok_base _ _ _ Hst). unfold STORE_OFFSET in *. lia.
Qed.

Lemma kmalloc_live_alloc fuel st m live n m' p :
  kmalloc_live fuel st m live -> 0 < n -> kmalloc fuel m st n = Some (m', p) ->
  kmalloc_live fuel st m' ((p, n) :: live) /\ 0 < p /\ p + n <= 4294967296 /\
  (forall b, b ∈ live -> disjoint_blocks (p, n) b) /\
  (forall x, in_block (p, n) x -> kmalloc_area st x) /\
  same_on (in_live live) m m' /\ same_on (fun x => ~ kmalloc_area st x) m m'.
Proof.
  intros Hk Hn E. pose proof Hk as [(l & Hst & Hl) Hf H4]. pose proof (ok_sizes _ _ _ Hst) as Hok.
  destruct (amalloc n l) as [[o l']|] eqn:Ha;
    [|by rewrite (kmalloc_exhausted _ _ _ _ _ Hst Hn (amalloc_None _ _ Ha) H4) in E].
  destruct (kmalloc_refines fuel m st l n o l' Hst Hn) as (m1 & E1 & Hst' & Hs);
    [by eapply enough_fuel_length|done|]. rewrite E in E1. simplify_eq.
  pose proof (amalloc_sizes _ _ _ _ Ha Hok Hn) as Hok'.
  pose proof (amalloc_bounds _ _ _ _ Ha Hok). pose proof (ok_base _ _ _ Hst).
  pose proof (ok_range _ _ _ Hst). rewrite (ok_total _ _ _ Hst) in *. unfold STORE_OFFSET in *.
  split_and!; [|lia|lia| | | |].
  - split; [|done|].
    + exists l'. split; [done|]. intros b [->|Hb]%elem_of_cons; [by eapply amalloc_new|].
      apply (amalloc_live n l o l' _ b Ha Hok Hn (Hl _ Hb)).
    + eapply null_word; [exact Hst| |done]. intros x Hx. apply Hs.
      eapply not_hdr_low; [exact Hst|done|exact Hx].
  - intros b Hb. apply (amalloc_live n l o l' _ b Ha Hok Hn (Hl _ Hb)).
  - intros x Hx. unfold in_block in Hx. simpl in Hx. right. lia.
  - intros x Hx. apply Hs. apply in_used_not_hdr; [done|].
    apply (proj2 (amalloc_used n l o l' _ x Ha Hok Hn)). by eapply live_used.
  - intros x Hx. apply Hs. contradict Hx. eapply in_hdr_area; [exact Hst|exact Hok'| |exact Hx].
    exact (ok_total _ _ _ Hst').
Qed.

Lemma kmalloc_live_free fuel st m live p n :
  kmalloc_live fuel st m live -> (p, n) ∈ live ->
  exists m', kfree fuel m st p = Some m' /\
    kmalloc_live fuel st m' (filter (fun b => b.1 <> p) live) /\
    same_on (in_live live) m m' /\ same_on (fun x => ~ kmalloc_area st x) m m'.
Proof.
  intros Hk Hp. pose proof Hk as [(l & Hst & Hl) Hf H4]. pose proof (ok_sizes _ _ _ Hst) as Hok.
  destruct (kfree_refines fuel m st l p Hst) as (m' & E & Hst' & Hs);
    [by eapply enough_fuel_length|].
  exists m'. split_and!; [done| | |].
  - split; [|done|].
    + exists (afree (p - 16 - __mem_store_base st) l). split; [done|].
      intros b [Hne Hb]%list_elem_of_filter. apply afree_live; [done|by apply Hl|lia].
    + eapply null_word; [exact Hst| |done]. intros x Hx. apply Hs.
      eapply not_hdr_low; [exact Hst|done|exact Hx].
  - intros x (b & Hb & Hx). apply Hs. apply in_used_not_hdr; [done|].
    eapply is_live_used; [by apply Hl|done].
  - intros x Hx. apply Hs. contradict Hx. eapply in_hdr_area; [exact Hst|done| |exact Hx].
    exact (ok_total _ _ _ Hst).
Qed.

(** Some free block has at least [k] bytes, and no live block is needed to see it. *)
Definition kmalloc_room (st : kmalloc_state) (m : mem) (k : Z) : Prop :=
  exists l sz, store_ok m st l /\ (sz, true) ∈ l /\ k <= sz.

Lemma amalloc_room n k sz l :
  (sz, true) ∈ l -> k <= sz -> n + 32 < k -> 0 < n ->
  exists o l' sz', amalloc n l = Some (o, l') /\ (sz', true) ∈ l' /\ k - n - 16 <= sz'.
Proof.
  intros Hin Hk Hn H0. destruct (amalloc n l) as [[o l']|] eqn:E.
  - exists o, l'. apply amalloc_split in E as (l1 & s & l2 & -> & _ & _ & _ & ->).
    apply elem_of_app in Hin as [Hin|[[= ->]|Hin]%elem_of_cons].
    + exists sz. split_and!; [done|set_solver|lia].
    + rewrite ltb_lt by lia. exists (s - n - 16). split_and!; [done|set_solver|lia].
    + exists sz. split_and!; [done| |lia]. case_match; set_solver.
  - apply amalloc_None in E. rewrite Forall_forall in E. apply E in Hin as [H|H]; simpl in H; [lia|done].
Qed.

(** Two stores that describe the same memory are the same. *)
Lemma chain_unique m prev a l1 l2 :
  chain m prev a l1 0 -> chain m prev a l2 0 -> sizes_ok l1 -> sizes_ok l2 -> 0 <= a ->
  (l1 = [] <-> l2 = []) -> l1 = l2.
Proof.
  revert prev a l2. induction l1 as [|[s1 f1] l1 IH]; intros prev a l2 H1 H2 K1 K2 Ha He.
  - symmetry. by apply He.
  - destruct l2 as [|[s2 f2] l2]; [by discriminate (proj2 He eq_refl)|].
    destruct H1 as [[_ N1 S1 F1] H1], H2 as [[_ N2 S2 F2] H2].
    apply sizes_ok_cons in K1 as [? K1]. apply sizes_ok_cons in K2 as [? K2].
    assert (s1 = s2) as -> by congruence. assert (f1 = f2) as -> by (rewrite F1 in F2; by destruct f1, f2).
    f_equal. apply (IH a (a + 16 + s2)); [done..|lia|].
    rewrite N1 in N2. destruct l1, l2; simpl in N2; split; (done || lia).
Qed.

Lemma store_unique m st l1 l2 : store_ok m st l1 -> store_ok m st l2 -> l1 = l2.
Proof.
  intros [E1 _ Hb _ _ K1 C1] [E2 _ _ _ _ K2 C2]. unfold STORE_OFFSET in Hb.
  apply (chain_unique m 0 (__mem_store_base st)); try done; lia.
Qed.

Lemma kmalloc_room_frame fuel st m m' live k :
  kmalloc_live fuel st m live -> kmalloc_room st m k ->
  same_on (fun x => kmalloc_area st x /\ ~ in_live live x) m m' -> kmalloc_room st m' k.
Proof.
  intros Hk (l & sz & Hst & Hin & Hle) Hs.
  pose proof (kmalloc_live_frame fuel st m m' live Hk Hs) as Hk'.
  pose proof Hk as [(l0 & Hst0 & Hl0) _ _]. rewrite (store_unique _ _ _ _ Hst Hst0) in *.
  exists l0, sz. split; [|done]. destruct Hst0 as [? ? ? ? ? Hok Hc]. split; [done..|].
  eapply chain_frame; [|exact Hc]. intros x Hx. apply Hs. split.
  - by eapply in_hdr_area.
  - intros Hl'%(live_used _ _ _ _ Hl0). by eapply in_used_not_hdr.
Qed.

Lemma kmalloc_room_alloc fuel st m live k n :
  kmalloc_live fuel st m live -> kmalloc_room st m k -> 0 < n -> n + 32 < k ->
  exists m' p, kmalloc fuel m st n = Some (m', p) /\ kmalloc_room st m' (k - n - 16).
Proof.
  intros [_ Hf _] (l & sz & Hst & Hin & Hle) Hn Hk.
  destruct (amalloc_room n k sz l Hin Hle Hk Hn) as (o & l' & sz' & E & Hin' & Hle').
  destruct (kmalloc_refines fuel m st l n o l' Hst Hn) as (m' & Em & Hst' & _);
    [by eapply enough_fuel_length|done|].
  exists m', (__mem_store_base st + o). split; [done|]. by exists l', sz'.
Qed.

#[export] Instance kmalloc_heap fuel st :
  Heap (fun m n => kmalloc fuel m st n) (fun m p => kfree fuel m st p) := {|
  heap_inv := kmalloc_live fuel st;
  heap_area := kmalloc_area st;
  heap_live := kmalloc_live_area fuel st;
  heap_frame := kmalloc_live_frame fuel st;
  heap_alloc := kmalloc_live_alloc fuel st;
  heap_room := kmalloc_room st;
  heap_room_frame := kmalloc_room_frame fuel st;
  heap_room_alloc := kmalloc_room_alloc fuel st;
  heap_free := kmalloc_live_free fuel st
|}.
