(* ===== verification/Context.v ===== *)
(** * Context: the context switch of src/sched.c

    The register file of the processor and the inline assembly macros
    [SETUP_NEW_THREAD], [START_NEW_THREAD], [SAVE_CONTEXT] and [DISPATCH], one
    instruction at a time, and the structure of a task control block. *)

From S2P Require Import Prelude Memory.

(** ** [task_struct_t], packed *)

Definition TASK_SIZE : Z := 112.
Definition NUM_MAX_FD : Z := 0x10.

Definition t_esp (m : mem) (t : Z) : Z := load32 m t.
Definition t_stack (m : mem) (t : Z) : Z := load32 m (t + 4).
Definition t_callable (m : mem) (t : Z) : Z := load32 m (t + 8).
Definition t_arg (m : mem) (t : Z) : Z := load32 m (t + 12).
Definition t_retval (m : mem) (t : Z) : Z := load32 m (t + 16).
Definition t_tid (m : mem) (t : Z) : Z := load32 m (t + 20).
Definition t_utime (m : mem) (t : Z) : Z := load32 m (t + 24).
Definition t_sleep_time (m : mem) (t : Z) : Z := load32 m (t + 28).
Definition t_priority (m : mem) (t : Z) : Z := load32 m (t + 32).
Definition t_status (m : mem) (t : Z) : Z := load32 m (t + 36).
Definition t_fd (m : mem) (t i : Z) : Z := load32 m (t + 40 + 4 * i).
Definition t_prev (m : mem) (t : Z) : Z := load32 m (t + 104).
Definition t_next (m : mem) (t : Z) : Z := load32 m (t + 108).

Definition set_esp (m : mem) (t v : Z) : mem := store32 m t v.
Definition set_stack (m : mem) (t v : Z) : mem := store32 m (t + 4) v.
Definition set_callable (m : mem) (t v : Z) : mem := store32 m (t + 8) v.
Definition set_arg (m : mem) (t v : Z) : mem := store32 m (t + 12) v.
Definition set_retval (m : mem) (t v : Z) : mem := store32 m (t + 16) v.
Definition set_tid (m : mem) (t v : Z) : mem := store32 m (t + 20) v.
Definition set_utime (m : mem) (t v : Z) : mem := store32 m (t + 24) v.
Definition set_sleep_time (m : mem) (t v : Z) : mem := store32 m (t + 28) v.
Definition set_priority (m : mem) (t v : Z) : mem := store32 m (t + 32) v.
Definition set_status (m : mem) (t v : Z) : mem := store32 m (t + 36) v.
Definition set_fd (m : mem) (t i v : Z) : mem := store32 m (t + 40 + 4 * i) v.
Definition set_tprev (m : mem) (t v : Z) : mem := store32 m (t + 104) v.
Definition set_tnext (m : mem) (t v : Z) : mem := store32 m (t + 108) v.

(** [enum TASK_STATUS] *)
Definition NEW : Z := 0.
Definition READY : Z := 1.
Definition RUNNING : Z := 2.
Definition BLOCKED : Z := 3.
Definition EXITED : Z := 4.

Ltac unfold_task :=
  unfold t_esp, t_stack, t_callable, t_arg, t_retval, t_tid, t_utime, t_sleep_time, t_priority,
    t_status, t_fd, t_prev, t_next, set_esp, set_stack, set_callable, set_arg, set_retval, set_tid,
    set_utime, set_sleep_time, set_priority, set_status, set_fd, set_tprev, set_tnext in *.

(** ** The processor *)

Record cpu := Cpu {
  eax : Z; ebx : Z; ecx : Z; edx : Z; esi : Z; edi : Z; ebp : Z; esp : Z;
  eflags : Z; ss : Z; ds : Z; es : Z; fs : Z; gs : Z
}.

Definition with_esp (c : cpu) (v : Z) : cpu :=
  Cpu (eax c) (ebx c) (ecx c) (edx c) (esi c) (edi c) (ebp c) v (eflags c)
    (ss c) (ds c) (es c) (fs c) (gs c).

(** The bit IF of EFLAGS. *)
Definition FLAG_IF : Z := 0x200.

Definition push (mc : mem * cpu) (v : Z) : mem * cpu :=
  let '(m, c) := mc in
  (store32 m (esp c - 4) v, with_esp c (esp c - 4)).

Definition top (m : mem) (sp : Z) (k : Z) : Z := load32 m (sp + 4 * k).

(** [pushf], the seven general registers, the five segment registers; then
    [current->esp] receives the stack pointer. *)
Definition SAVE_CONTEXT (m : mem) (c : cpu) (current : Z) : mem * cpu :=
  let s := push (m, c) (eflags c) in
  let s := push s (eax c) in
  let s := push s (ebx c) in
  let s := push s (ecx c) in
  let s := push s (edx c) in
  let s := push s (esi c) in
  let s := push s (edi c) in
  let s := push s (ebp c) in
  let s := push s (ss c) in
  let s := push s (ds c) in
  let s := push s (es c) in
  let s := push s (fs c) in
  let '(m, c) := push s (gs c) in
  (set_esp m current (esp c), c).

(** [movl next->esp, %esp] and the pops in the opposite order. *)
Definition DISPATCH (m : mem) (c : cpu) (next : Z) : cpu :=
  let sp := t_esp m next in
  Cpu (top m sp 11) (top m sp 10) (top m sp 9) (top m sp 8) (top m sp 7) (top m sp 6)
    (top m sp 5) (sp + 4 * 13) (top m sp 12)
    (top m sp 4) (top m sp 3) (top m sp 2) (top m sp 1) (top m sp 0).

(** Up to the [call]: the stack of the new thread holds the argument on top of the
    finalizer, on top of a zero; interrupts are enabled. *)
Definition START_NEW_THREAD (m : mem) (c : cpu) (current exit_routine : Z) : mem * cpu :=
  let sp := t_esp m current in
  let c := Cpu (eax c) (ebx c) (ecx c) (edx c) (esi c) (edi c) sp sp (eflags c)
             (ss c) (ds c) (es c) (fs c) (gs c) in
  let s := push (m, c) 0 in
  let s := push s exit_routine in
  let '(m, c) := push s (t_arg m current) in
  (m, Cpu (eax c) (ebx c) (ecx c) (edx c) (esi c) (edi c) (ebp c) (esp c)
        (Z.lor (eflags c) FLAG_IF) (ss c) (ds c) (es c) (fs c) (gs c)).

(** The end of [START_NEW_THREAD], after the thread function has returned: the return
    value goes to the fourth word of the frame, the argument is popped and [ret] takes
    the finalizer's address.  The third component is the new instruction pointer. *)
Definition THREAD_RETURN (m : mem) (c : cpu) : mem * cpu * Z :=
  let m := store32 m (esp c + 12) (eax c) in
  let c := Cpu (top m (esp c) 0) (ebx c) (ecx c) (edx c) (esi c) (edi c) (ebp c) (esp c + 4)
             (eflags c) (ss c) (ds c) (es c) (fs c) (gs c) in
  let eip := top m (esp c) 0 in
  (m, with_esp c (esp c + 4), eip).

(** The fake context of a thread that has never run (used under
    [THREAD_DUMMY_CONTEXT_START]); [new->esp] ends below it.  The frame pointer
    pushed fourth is the address of the finalizer's slot. *)
Definition SETUP_NEW_THREAD (m : mem) (c : cpu) (new finalizer : Z) : mem :=
  let s := (m, with_esp c (t_esp m new)) in
  let s := push s (t_arg m new) in
  let s := push s finalizer in
  let s := push s (t_callable m new) in
  let s := push s (esp s.2 + 4) in
  let s := push s 0 in
  let s := push s 0 in
  let s := push s 0x200 in
  let s := push s 0 in
  let s := push s 0 in
  let s := push s 0 in
  let s := push s 0 in
  let s := push s 0 in
  let s := push s 0 in
  let s := push s 0 in
  let s := push s (ss c) in
  let s := push s (ds c) in
  let s := push s (es c) in
  let s := push s (fs c) in
  let '(m, c) := push s (gs c) in
  set_esp m new (esp c).

(** Register contents are 32-bit values. *)
Definition cpu_ok (c : cpu) : Prop :=
  Forall (fun v => 0 <= v < 4294967296)
    [eax c; ebx c; ecx c; edx c; esi c; edi c; ebp c; esp c; eflags c; ss c; ds c; es c; fs c; gs c].

(** ** Sequences of pushes *)

Fixpoint push_list (s : mem * cpu) (vs : list Z) : mem * cpu :=
  match vs with
  | [] => s
  | v :: vs' => push_list (push s v) vs'
  end.

Lemma push_list_spec vs m c :
  let n := Z.of_nat (length vs) in
  let '(m', c') := push_list (m, c) vs in
  c' = with_esp c (esp c - 4 * n) /\ same_off (esp c - 4 * n) (4 * n) m m' /\
  forall i v, vs !! i = Some v -> load32 m' (esp c - 4 * (Z.of_nat i + 1)) = u32 v.
Proof.
  revert m c. induction vs as [|v vs IH]; intros m c; simpl.
  - rewrite Z.sub_0_r. destruct c. split_and!; [done|done|]. by intros i v.
  - specialize (IH (store32 m (esp c - 4) v) (with_esp c (esp c - 4))).
    destruct (push_list _ vs) as [m' c']. simpl in IH. destruct IH as (-> & Hs & Hl).
    split_and!.
    + unfold with_esp. simpl. f_equal. lia.
    + intros x Hx. unfold off in Hx. rewrite Hs by (unfold off; lia).
      apply load8_store32_ne. unfold off. lia.
    + intros [|i] w Hi; simplify_eq/=.
      * rewrite (same_on_load32 _ _ _ _ Hs) by (unfold off; intros; lia).
        by rewrite load32_store32_eq by lia.
      * rewrite <- (Hl i w Hi). f_equal. lia.
Qed.

(** The words of a saved context, in the order of the pushes. *)
Definition context_words (c : cpu) : list Z :=
  [eflags c; eax c; ebx c; ecx c; edx c; esi c; edi c; ebp c; ss c; ds c; es c; fs c; gs c].

Lemma SAVE_CONTEXT_pushes m c current :
  SAVE_CONTEXT m c current =
    let '(m', c') := push_list (m, c) (context_words c) in (set_esp m' current (esp c'), c').
Proof. reflexivity. Qed.

(** Rewrite the [k]-th word of a frame whose words, by push order [i], are known. *)
Ltac slot H i k :=
  let E := fresh "E" in
  pose proof (H i _ eq_refl) as E; change (12 - Z.of_nat i) with k in E;
  rewrite E by done; clear E.

(** ** Properties *)

(** C6: a context switch restores the processor.  Saving the context of a task and
    dispatching the same task later gives back every register, the flags, the segment
    registers and the stack pointer, provided nothing wrote to the 52 bytes of the
    saved frame or to the task's [esp] field in between (memory [m2]); the save
    writes nothing else. *)
Theorem save_dispatch m c current m1 c1 m2 c2 :
  cpu_ok c -> 52 <= esp c -> (current + 4 <= esp c - 52 \/ esp c <= current) ->
  SAVE_CONTEXT m c current = (m1, c1) ->
  same_on (fun x => esp c - 52 <= x < esp c \/ current <= x < current + 4) m1 m2 ->
  DISPATCH m2 c2 current = c /\
  same_on (fun x => off (esp c - 52) 52 x /\ off current 4 x) m m1.
Proof.
  intros Hc Hesp Hd E Hs. rewrite SAVE_CONTEXT_pushes in E.
  pose proof (push_list_spec (context_words c) m c) as Hp. simpl length in Hp.
  destruct (push_list (m, c) (context_words c)) as [m0 c0]. destruct Hp as (-> & Hoff & Hw).
  simplify_eq. simpl (Z.of_nat 13) in *. simpl in Hs.
  unfold cpu_ok in Hc. rewrite !Forall_cons in Hc. destruct_and! Hc.
  assert (forall i v, context_words c !! i = Some v -> 0 <= v < 4294967296 ->
    top m2 (esp c - 52) (12 - Z.of_nat i) = v) as Ht.
  { intros i v Hi Hv. pose proof (lookup_lt_Some _ _ _ Hi) as Hlen. simpl in Hlen.
    rewrite <- (u32_small v Hv), <- (Hw i v Hi). unfold top.
    replace (esp c - 52 + 4 * (12 - Z.of_nat i)) with (esp c - 4 * (Z.of_nat i + 1)) by lia.
    rewrite (same_on_load32 _ _ _ _ Hs) by (intros; lia).
    unfold set_esp. apply load32_store32_ne. lia. }
  split.
  - unfold DISPATCH.
    assert (t_esp m2 current = esp c - 52) as ->.
    { unfold t_esp. rewrite (same_on_load32 _ _ _ _ Hs) by (intros; lia).
      unfold set_esp. rewrite load32_store32_eq by done. apply u32_small. lia. }
    destruct c as [a1 a2 a3 a4 a5 a6 a7 sp a9 a10 a11 a12 a13 a14]. simpl in *.
    slot Ht 0%nat 12; slot Ht 1%nat 11; slot Ht 2%nat 10; slot Ht 3%nat 9; slot Ht 4%nat 8.
    slot Ht 5%nat 7; slot Ht 6%nat 6; slot Ht 7%nat 5; slot Ht 8%nat 4; slot Ht 9%nat 3.
    slot Ht 10%nat 2; slot Ht 11%nat 1; slot Ht 12%nat 0. f_equal. lia.
  - unfold set_esp. apply store32_same_on; [|intros b [_ ?]; done].
    eapply same_on_weaken; [|exact Hoff]. intros x [? _]. done.
Qed.

(** A processor state with distinct registers, and the frame saved from it. *)
Definition cpu_example : cpu := Cpu 1 2 3 4 5 6 7 0x8000 0x202 16 17 18 19 20.

Definition saved_example : mem * cpu := SAVE_CONTEXT mem_zero cpu_example 0x9000.

Lemma save_dispatch_witness :
  DISPATCH saved_example.1 saved_example.2 0x9000 = cpu_example /\
  same_on (fun x => off (0x8000 - 52) 52 x /\ off 0x9000 4 x) mem_zero saved_example.1.
Proof.
  apply (save_dispatch mem_zero cpu_example 0x9000 saved_example.1 saved_example.2
           saved_example.1 saved_example.2).
  - by repeat constructor.
  - simpl. lia.
  - simpl. lia.
  - reflexivity.
  - reflexivity.
Defined.

(** A thread that has never run.  The context that [SETUP_NEW_THREAD] fakes,
    dispatched, starts with every general register zero, interrupts enabled, and a
    stack on which two scratch words and the frame pointer precede the thread
    function, then the finalizer it returns to and its argument. *)
Theorem setup_dispatch m c new finalizer c2 :
  let sp := t_esp m new in
  let m' := SETUP_NEW_THREAD m c new finalizer in
  cpu_ok c -> 76 <= sp -> (new + 16 <= sp - 76 \/ sp <= new) -> 0 <= finalizer < 4294967296 ->
  let c' := DISPATCH m' c2 new in
  (eax c', ebx c', ecx c', edx c', esi c', edi c', ebp c') = (0, 0, 0, 0, 0, 0, 0) /\
  eflags c' = FLAG_IF /\ esp c' = sp - 24 /\
  top m' (esp c') 0 = 0 /\ top m' (esp c') 1 = 0 /\ top m' (esp c') 2 = sp - 8 /\
  top m' (esp c') 3 = t_callable m new /\ top m' (esp c') 4 = finalizer /\
  top m' (esp c') 5 = t_arg m new.
Proof.
  intros sp m' Hc Hsp Hd Hf c'.
  set (vs := [t_arg m new; finalizer; t_callable m new; sp - 12 + 4; 0; 0; 0x200; 0; 0; 0; 0; 0; 0; 0;
              ss c; ds c; es c; fs c; gs c]).
  assert (m' = set_esp (push_list (m, with_esp c sp) vs).1 new
                 (esp (push_list (m, with_esp c sp) vs).2)) as Em.
  { unfold m', SETUP_NEW_THREAD, vs. fold sp. simpl.
    replace (sp - 4 - 4 - 4 + 4) with (sp - 12 + 4) by lia. done. }
  pose proof (push_list_spec vs m (with_esp c sp)) as Hp. simpl length in Hp.
  destruct (push_list (m, with_esp c sp) vs) as [m0 c0]. destruct Hp as (-> & Hoff & Hw).
  simpl in Em, Hoff, Hw.
  pose proof (load32_range m (new + 12)). pose proof (load32_range m (new + 8)).
  pose proof (load32_range m new) as Hsp2. fold (t_esp m new) in Hsp2. fold sp in Hsp2.
  assert (t_esp m' new = sp - 76) as Esp.
  { rewrite Em. unfold set_esp, t_esp. rewrite load32_store32_eq by done. apply u32_small. lia. }
  assert (forall i v, vs !! i = Some v -> 0 <= v < 4294967296 ->
    load32 m' (sp - 4 * (Z.of_nat i + 1)) = v) as Ht.
  { intros i v Hi Hv. pose proof (lookup_lt_Some _ _ _ Hi) as Hlen. simpl in Hlen.
    rewrite <- (u32_small v Hv), <- (Hw i v Hi), Em. unfold set_esp.
    apply load32_store32_ne. lia. }
  assert (forall k i v, vs !! i = Some v -> 0 <= v < 4294967296 -> k = 18 - Z.of_nat i ->
    top m' (sp - 76) k = v) as Hk.
  { intros k i v Hi Hv ->. rewrite <- (Ht i v Hi Hv). unfold top. f_equal. lia. }
  assert (forall k i v, vs !! i = Some v -> 0 <= v < 4294967296 -> k = 5 - Z.of_nat i ->
    top m' (sp - 24) k = v) as Hk2.
  { intros k i v Hi Hv ->. rewrite <- (Ht i v Hi Hv). unfold top. f_equal. lia. }
  assert (esp c' = sp - 24) as Ee by (unfold c', DISPATCH; rewrite Esp; simpl; lia).
  rewrite Ee. unfold c', DISPATCH. rewrite Esp. simpl.
  unfold t_arg, t_callable.
  rewrite (Hk 11 7%nat 0), (Hk 10 8%nat 0), (Hk 9 9%nat 0), (Hk 8 10%nat 0), (Hk 7 11%nat 0),
    (Hk 6 12%nat 0), (Hk 5 13%nat 0) by (done || lia).
  split_and!; [done| |done|..].
  - by apply (Hk 12 6%nat).
  - by apply (Hk2 0 5%nat).
  - by apply (Hk2 1 4%nat).
  - apply (Hk2 2 3%nat); [unfold vs; simpl; f_equal; lia|lia|done].
  - by apply (Hk2 3 2%nat).
  - by apply (Hk2 4 1%nat).
  - by apply (Hk2 5 0%nat).
Qed.

Definition new_thread_example : mem :=
  set_arg (set_callable (set_esp mem_zero 0x9000 0x8000) 0x9000 0x100) 0x9000 0x200.

Lemma setup_dispatch_witness :
  eflags (DISPATCH (SETUP_NEW_THREAD new_thread_example cpu_example 0x9000 0x300) cpu_example 0x9000)
    = FLAG_IF.
Proof.
  apply (setup_dispatch new_thread_example cpu_example 0x9000 0x300 cpu_example).
  - by repeat constructor.
  - by vm_compute.
  - vm_compute. by right.
  - lia.
Defined.

(** A thread's return value reaches the finalizer.  When the thread function
    returns with its frame intact and the stack pointer where the call left it,
    control passes to the exit routine with the return value as its argument, the word
    above its return address.  That word is the one at the initial stack pointer, and
    it is the only one written. *)
Theorem thread_return_ok m c current exit_routine m1 c1 m2 c2 :
  let sp := t_esp m current in
  START_NEW_THREAD m c current exit_routine = (m1, c1) ->
  12 <= sp -> 0 <= exit_routine < 4294967296 -> 0 <= eax c2 < 4294967296 ->
  same_on (fun x => sp - 12 <= x < sp) m1 m2 -> esp c2 = esp c1 ->
  let '(m3, c3, eip) := THREAD_RETURN m2 c2 in
  eip = exit_routine /\ top m3 (esp c3) 1 = eax c2 /\ esp c3 = sp - 4 /\ same_off sp 4 m2 m3.
Proof.
  intros sp E Hsp Hx Hr Hs Ee.
  pose proof (push_list_spec [0; exit_routine; t_arg m current] m (with_esp c sp)) as Hp.
  simpl length in Hp. simpl (Z.of_nat 3) in Hp.
  unfold START_NEW_THREAD in E. fold sp in E.
  assert (esp c1 = sp - 12 /\ load32 m1 (sp - 8) = exit_routine) as [E1 E2].
  { simpl in Hp, E. destruct Hp as (_ & _ & Hw). simplify_eq. simpl. split; [lia|].
    specialize (Hw 1%nat _ eq_refl). simpl in Hw. rewrite u32_small in Hw by done.
    exact Hw. }
  unfold THREAD_RETURN. simpl. rewrite Ee, E1. unfold top.
  replace (sp - 12 + 12) with sp by lia.
  rewrite (load32_store32_ne _ sp (sp - 12 + 4 + 4 * 0)) by lia.
  replace (sp - 12 + 4 + 4 * 0) with (sp - 8) by lia.
  replace (sp - 12 + 4 + 4 + 4 * 1) with sp by lia.
  rewrite (same_on_load32 _ _ _ _ Hs) by (intros; lia).
  split_and!; [done|by rewrite load32_store32_eq, u32_small by done|lia|apply store32_same_off].
Qed.

Definition started_example : mem * cpu :=
  START_NEW_THREAD new_thread_example cpu_example 0x9000 0x300.

Lemma thread_return_ok_witness :
  let '(m3, c3, eip) := THREAD_RETURN started_example.1 started_example.2 in
  eip = 0x300 /\ top m3 (esp c3) 1 = eax started_example.2 /\
  esp c3 = t_esp new_thread_example 0x9000 - 4 /\
  same_off (t_esp new_thread_example 0x9000) 4 started_example.1 m3.
Proof.
  apply (thread_return_ok new_thread_example cpu_example 0x9000 0x300 started_example.1
           started_example.2 started_example.1 started_example.2).
  - reflexivity.
  - by vm_compute.
  - lia.
  - by vm_compute.
  - reflexivity.
  - reflexivity.
Defined.
