(* ===== verification/SchedQueue.v ===== *)
(** * SchedQueue: the circular task queues of src/sched.c

    [splice_inq] and [splice_outq] on the [prev]/[next] links of the task
    structures, the representation of a queue as the list of its tasks, and
    what the two operations do to that list. *)

From S2P Require Import Prelude Memory Context.

(** ** The operations *)

(** [*head_ptr] is passed and returned by value. *)
Definition splice_inq (m : mem) (head element : Z) : mem * Z :=
  if c_true head then
    let m := set_tnext m element head in
    let m := set_tprev m element (t_prev m head) in
    let m := set_tnext m (t_prev m head) element in
    let m := set_tprev m head element in
    (m, head)
  else
    let head := element in
    let m := set_tnext m head element in
    let m := set_tprev m head element in
    (m, head).

Definition splice_outq (m : mem) (head element : Z) : mem * Z :=
  if negb (c_true head) then (m, head)
  else if (element =? head) && (head =? t_next m head) then (m, 0)
  else
    let head := if element =? head then t_next m element else head in
    let m := set_tnext m (t_prev m element) (t_next m element) in
    let m := set_tprev m (t_next m element) (t_prev m element) in
    let m := set_tnext m element 0 in
    let m := set_tprev m element 0 in
    (m, head).

(** ** Rings of links *)

Section Ring.
Context (nx pv : Z -> Z).

(** [x] is followed by the elements of [l], linked both ways. *)
Fixpoint linked (x : Z) (l : list Z) : Prop :=
  match l with
  | [] => True
  | y :: l' => nx x = y /\ pv y = x /\ linked y l'
  end.

Definition ring (l : list Z) : Prop :=
  match l with
  | [] => True
  | h :: t => linked h (t ++ [h])
  end.

Lemma linked_app x l1 y l2 :
  linked x (l1 ++ y :: l2) <-> linked x (l1 ++ [y]) /\ linked y l2.
Proof.
  revert x. induction l1 as [|z l1 IH]; intros x; simpl; [tauto|]. rewrite IH. tauto.
Qed.

Fixpoint lst (x : Z) (l : list Z) : Z :=
  match l with [] => x | y :: l' => lst y l' end.

Lemma lst_in x l : lst x l ∈ x :: l.
Proof. revert x. induction l as [|y l IH]; intros x; simpl; [by left|]. right. apply IH. Qed.

Lemma lst_snoc x l y : lst x (l ++ [y]) = y.
Proof. revert x. induction l as [|z l IH]; intros x; simpl; auto. Qed.

Lemma linked_last x l y :
  linked x (l ++ [y]) <-> linked x l /\ nx (lst x l) = y /\ pv y = lst x l.
Proof.
  revert x. induction l as [|z l IH]; intros x; simpl; [tauto|]. rewrite IH. tauto.
Qed.

Lemma ring_rotate l1 l2 : ring (l1 ++ l2) -> ring (l2 ++ l1).
Proof.
  destruct l1 as [|x l1]; [by rewrite app_nil_r|].
  destruct l2 as [|y l2]; [by rewrite app_nil_r|]. simpl.
  rewrite <- !app_assoc. simpl. rewrite (linked_app x l1 y (l2 ++ [x])), (linked_app y l2 x (l1 ++ [y])). tauto.
Qed.

(** The links at both ends of a ring. *)
Lemma ring_ends h t : ring (h :: t) <-> linked h t /\ nx (lst h t) = h /\ pv h = lst h t.
Proof. apply linked_last. Qed.
End Ring.

(** Links that were not redirected. *)
Lemma linked_ext nx pv nx' pv' x l :
  NoDup (x :: l) ->
  (forall y, y ∈ x :: l -> y <> lst x l -> nx' y = nx y) -> (forall y, y ∈ l -> pv' y = pv y) ->
  linked nx pv x l -> linked nx' pv' x l.
Proof.
  revert x. induction l as [|y l IH]; intros x Hnd Hn Hp; simpl in *; [done|].
  apply NoDup_cons in Hnd as [Hx Hnd]. intros (E1 & E2 & H). split_and!.
  - rewrite Hn; [done|set_solver|]. intros ->. apply Hx. apply lst_in.
  - rewrite Hp; [done|set_solver].
  - apply IH; [done|intros; apply Hn; set_solver|intros; apply Hp; set_solver|done].
Qed.

Lemma ring_insert nx pv nx' pv' e h t :
  NoDup (h :: t) -> ring nx pv (h :: t) ->
  nx' (lst h t) = e -> pv' e = lst h t -> nx' e = h -> pv' h = e ->
  (forall y, y ∈ h :: t -> y <> lst h t -> nx' y = nx y) ->
  (forall y, y ∈ h :: t -> y <> h -> pv' y = pv y) ->
  ring nx' pv' ((h :: t) ++ [e]).
Proof.
  intros Hnd [Hl _]%ring_ends E1 E2 E3 E4 Hn Hp. apply ring_rotate. simpl.
  split_and!; [done|done|]. apply linked_last. split_and!; [|done|done].
  eapply linked_ext; [done|exact Hn| |exact Hl].
  intros y Hy. apply Hp; [set_solver|]. apply NoDup_cons in Hnd as [? _]. by intros ->.
Qed.

Lemma ring_remove nx pv nx' pv' l1 e l2 h t :
  NoDup (l1 ++ e :: l2) -> ring nx pv (l1 ++ e :: l2) -> l2 ++ l1 = h :: t ->
  nx' (lst h t) = h -> pv' h = lst h t ->
  (forall y, y ∈ l1 ++ l2 -> y <> lst h t -> nx' y = nx y) ->
  (forall y, y ∈ l1 ++ l2 -> y <> h -> pv' y = pv y) ->
  ring nx' pv' (l1 ++ l2).
Proof.
  intros Hnd Hr%ring_rotate E E1 E2 Hn Hp. simpl in Hr. rewrite E in Hr. simpl in Hr.
  destruct Hr as (_ & _ & Hr). apply linked_last in Hr as [Hr _].
  apply ring_rotate. rewrite E. apply ring_ends. split_and!; [|done|done].
  assert (NoDup (h :: t)) as Hnd'.
  { rewrite <- E. apply NoDup_app in Hnd as (? & Hd & [? ?]%NoDup_cons).
    apply NoDup_app. split_and!; [done| |done]. intros x Hx Hx'. by eapply Hd; [|right]. }
  assert (forall y, y ∈ h :: t -> y ∈ l1 ++ l2) as Hin by (rewrite <- E; set_solver).
  eapply linked_ext; [done| | |exact Hr].
  - intros y Hy. apply Hn; auto.
  - intros y Hy. apply Hp; [apply Hin; set_solver|]. apply NoDup_cons in Hnd' as [? _]. by intros ->.
Qed.

(** The neighbours of a ring element. *)
Lemma ring_neighbours nx pv l1 e l2 h t :
  ring nx pv (l1 ++ e :: l2) -> l2 ++ l1 = h :: t -> nx e = h /\ pv e = lst h t.
Proof.
  intros Hr%ring_rotate E. simpl in Hr. rewrite E in Hr. simpl in Hr.
  destruct Hr as (E1 & _ & Hr). apply linked_last in Hr as (_ & _ & E2). done.
Qed.

(** ** Queues in memory *)

(** The task structures at the addresses of [T] are in range and do not overlap. *)
Record tasks (T : list Z) : Prop := Tasks {
  tasks_range x : x ∈ T -> 0 < x /\ x + TASK_SIZE <= 4294967296;
  tasks_sep x y : x ∈ T -> y ∈ T -> x = y \/ x + TASK_SIZE <= y \/ y + TASK_SIZE <= x
}.

Lemma tasks_incl T T' : T' ⊆ T -> tasks T -> tasks T'.
Proof. intros Hs [Hr Hd]. split; intros; [apply Hr|apply Hd]; by apply Hs. Qed.

Record queue (m : mem) (head : Z) (l : list Z) : Prop := Queue {
  q_head : head = hd 0 l;
  q_nodup : NoDup l;
  q_ring : ring (t_next m) (t_prev m) l
}.

(** Writing a link field of one task, seen through the link fields of the others. *)
Section Links.
Context (T : list Z) (HT : tasks T).

Ltac by_sep a x := destruct (tasks_sep _ HT x a) as [|[|]]; [done|done|..]; unfold TASK_SIZE in *.

Lemma next_set_next m a v x :
  a ∈ T -> x ∈ T ->
  t_next (set_tnext m a v) x = if decide (x = a) then u32 v else t_next m x.
Proof. intros. unfold_task. case_decide; [mem_simpl; done|]. by_sep a x; mem_simpl; done. Qed.

Lemma prev_set_prev m a v x :
  a ∈ T -> x ∈ T ->
  t_prev (set_tprev m a v) x = if decide (x = a) then u32 v else t_prev m x.
Proof. intros. unfold_task. case_decide; [mem_simpl; done|]. by_sep a x; mem_simpl; done. Qed.

Lemma next_set_prev m a v x : a ∈ T -> x ∈ T -> t_next (set_tprev m a v) x = t_next m x.
Proof. intros. unfold_task. by_sep a x; subst; mem_simpl; done. Qed.

Lemma prev_set_next m a v x : a ∈ T -> x ∈ T -> t_prev (set_tnext m a v) x = t_prev m x.
Proof. intros. unfold_task. by_sep a x; subst; mem_simpl; done. Qed.
End Links.

(** The bytes outside the link fields of the tasks [T]. *)
Definition link_frame (T : list Z) (x : Z) : Prop := forall t, t ∈ T -> off (t + 104) 8 x.

Lemma set_tnext_frame T m m' a v :
  same_on (link_frame T) m m' -> a ∈ T -> same_on (link_frame T) m (set_tnext m' a v).
Proof.
  intros H Ha. apply store32_same_on; [done|]. intros b Hb. specialize (Hb a Ha). unfold off in *. lia.
Qed.

Lemma set_tprev_frame T m m' a v :
  same_on (link_frame T) m m' -> a ∈ T -> same_on (link_frame T) m (set_tprev m' a v).
Proof.
  intros H Ha. apply store32_same_on; [done|]. intros b Hb. specialize (Hb a Ha). unfold off in *. lia.
Qed.

(** A queue whose link bytes did not change. *)
Lemma queue_frame m m' head l :
  (forall t x, t ∈ l -> t + 104 <= x < t + 112 -> load8 m' x = load8 m x) ->
  queue m head l -> queue m' head l.
Proof.
  intros Hx [Hh Hnd Hr]. split; [done|done|].
  assert (forall t, t ∈ l -> t_next m' t = t_next m t) as En.
  { intros t Ht. apply load32_ext. intros. apply (Hx t); [done|lia]. }
  assert (forall t, t ∈ l -> t_prev m' t = t_prev m t) as Ep.
  { intros t Ht. apply load32_ext. intros. apply (Hx t); [done|lia]. }
  destruct l as [|h t]; [done|]. apply ring_ends in Hr as (Hl & E1 & E2). apply ring_ends.
  rewrite En, Ep by (apply lst_in || by left). split_and!; [|done|done].
  eapply linked_ext; [done| | |exact Hl]; intros y Hy; intros; [apply En|apply Ep]; set_solver.
Qed.

(** [splice_inq] appends at the tail of the queue, just before its head. *)
Lemma splice_inq_spec m head l e m' head' :
  queue m head l -> tasks (e :: l) -> e ∉ l -> splice_inq m head e = (m', head') ->
  queue m' head' (l ++ [e]) /\ same_on (link_frame (e :: l)) m m'.
Proof.
  intros [Hh Hnd Hr] HT He E. unfold splice_inq in E.
  assert (e ∈ e :: l) as He' by set_solver. pose proof (tasks_range _ HT e He') as Hre.
  unfold TASK_SIZE in *. destruct l as [|h t]; simpl in Hh; subst head.
  - simpl in E. simplify_eq. split.
    + split; [done|by repeat constructor; set_solver|]. simpl. split_and!; [| |done].
      * rewrite (next_set_prev _ HT), (next_set_next _ HT), decide_True by done. apply u32_small. lia.
      * rewrite (prev_set_prev _ HT), decide_True by done. apply u32_small. lia.
    + by apply set_tprev_frame; [apply set_tnext_frame|].
  - assert (h ∈ e :: h :: t) as Hh' by set_solver. pose proof (tasks_range _ HT h Hh') as Hrh.
    rewrite c_true_nonzero in E by lia.
    pose proof Hr as (Hl & Elast & Efirst)%ring_ends.
    set (z := lst h t) in *. assert (z ∈ h :: t) as Hz by apply lst_in.
    assert (z ∈ e :: h :: t) as Hz' by set_solver. pose proof (tasks_range _ HT z Hz') as Hrz.
    unfold TASK_SIZE in *.
    rewrite (prev_set_prev _ HT), !(prev_set_next _ HT) in E by done.
    rewrite decide_False in E by set_solver. rewrite Efirst in E. injection E as <- <-.
    split.
    + split; [done|apply NoDup_app; split_and!; [done|set_solver|by repeat constructor; set_solver]|].
      eapply ring_insert; [exact Hnd|exact Hr|..]; fold z.
      * rewrite (next_set_prev _ HT), (next_set_next _ HT), decide_True by done. apply u32_small. lia.
      * rewrite (prev_set_prev _ HT), decide_False, (prev_set_next _ HT), (prev_set_prev _ HT),
          decide_True by set_solver. apply u32_small. lia.
      * rewrite (next_set_prev _ HT), (next_set_next _ HT), decide_False, (next_set_prev _ HT),
          (next_set_next _ HT), decide_True by set_solver. apply u32_small. lia.
      * rewrite (prev_set_prev _ HT), decide_True by done. apply u32_small. lia.
      * intros y Hy Hyz.
        by rewrite (next_set_prev _ HT), (next_set_next _ HT), decide_False, (next_set_prev _ HT),
          (next_set_next _ HT), decide_False by set_solver.
      * intros y Hy Hyh.
        by rewrite (prev_set_prev _ HT), decide_False, (prev_set_next _ HT), (prev_set_prev _ HT),
          decide_False, (prev_set_next _ HT) by set_solver.
    + apply set_tprev_frame; [|done]. apply set_tnext_frame; [|done].
      apply set_tprev_frame; [|done]. apply set_tnext_frame; [|done]. done.
Qed.

(** The list of a queue is rotated by no operation: the new head after removing the
    first task is its successor. *)
Lemma splice_outq_head m l1 e l2 h t :
  queue m (hd 0 (l1 ++ e :: l2)) (l1 ++ e :: l2) -> l2 ++ l1 = h :: t ->
  (if e =? hd 0 (l1 ++ e :: l2) then t_next m e else hd 0 (l1 ++ e :: l2)) = hd 0 (l1 ++ l2).
Proof.
  intros [_ Hnd Hr] E. destruct (ring_neighbours _ _ _ _ _ _ _ Hr E) as [-> _].
  destruct l1 as [|x l1]; simpl.
  - rewrite Z.eqb_refl. rewrite app_nil_r in E. by subst.
  - rewrite eqb_ne; [done|]. intros ->. apply NoDup_cons in Hnd as [Hx _]. set_solver.
Qed.

(** [splice_outq] removes a task from the queue it is in. *)
Lemma splice_outq_spec m head l1 e l2 m' head' :
  queue m head (l1 ++ e :: l2) -> tasks (l1 ++ e :: l2) -> splice_outq m head e = (m', head') ->
  queue m' head' (l1 ++ l2) /\ same_on (link_frame (l1 ++ e :: l2)) m m'.
Proof.
  intros Hq HT E. pose proof Hq as [Hh Hnd Hr]. unfold splice_outq in E.
  assert (head ∈ l1 ++ e :: l2) as Hhin by (subst head; destruct l1; set_solver).
  assert (e ∈ l1 ++ e :: l2) as He by set_solver.
  pose proof (tasks_range _ HT head Hhin) as Hrh. unfold TASK_SIZE in *.
  rewrite c_true_nonzero in E by lia. cbn [negb] in E.
  destruct (l2 ++ l1) as [|h t] eqn:Ek.
  - apply app_eq_nil in Ek as [-> ->]. simpl in Hh, Hr. subst head. destruct Hr as (En & _).
    rewrite En, Z.eqb_refl in E. simpl in E. simplify_eq. split; [|done].
    split; [done|constructor|done].
  - destruct (ring_neighbours _ _ _ _ _ _ _ Hr Ek) as [En Ep].
    assert (forall x, x ∈ h :: t -> x ∈ l1 ++ e :: l2 /\ x <> e) as Hin.
    { intros x Hx. rewrite <- Ek in Hx. apply NoDup_app in Hnd as (? & Hd & [? ?]%NoDup_cons).
      split; [set_solver|]. intros ->. apply elem_of_app in Hx as [?|?]; [done|].
      eapply Hd; [done|by left]. }
    destruct (Hin h) as [Hh1 Hh2]; [by left|]. destruct (Hin (lst h t) (lst_in _ _)) as [Hz1 Hz2].
    pose proof (tasks_range _ HT h Hh1). pose proof (tasks_range _ HT (lst h t) Hz1).
    unfold TASK_SIZE in *.
    assert ((e =? head) && (head =? t_next m head) = false) as Ec.
    { apply andb_false_iff. destruct (Z.eqb_spec e head) as [->|]; [right|by left].
      rewrite En. by apply eqb_ne. }
    rewrite Ec in E. subst head. rewrite (splice_outq_head m l1 e l2 h t Hq Ek) in E.
    rewrite En, Ep, (next_set_next _ HT), (prev_set_next _ HT), decide_False in E by done.
    rewrite En, Ep in E. injection E as <- <-. split.
    + split; [done| |].
      * apply NoDup_app in Hnd as (? & Hd & [? ?]%NoDup_cons). apply NoDup_app.
        split_and!; [done|set_solver|done].
      * assert (forall y, y ∈ l1 ++ l2 -> y ∈ l1 ++ e :: l2 /\ y <> e) as Hin2.
        { intros y Hy. apply Hin. rewrite <- Ek. set_solver. }
        eapply ring_remove; [exact Hnd|exact Hr|exact Ek|..].
        -- rewrite (next_set_prev _ HT), (next_set_next _ HT), decide_False, (next_set_prev _ HT),
             (next_set_next _ HT), decide_True by done. apply u32_small. lia.
        -- rewrite (prev_set_prev _ HT), decide_False, (prev_set_next _ HT), (prev_set_prev _ HT),
             decide_True by done. apply u32_small. lia.
        -- intros y [Hy Hye]%Hin2 Hyz.
           by rewrite (next_set_prev _ HT), (next_set_next _ HT), decide_False, (next_set_prev _ HT),
             (next_set_next _ HT), decide_False by done.
        -- intros y [Hy Hye]%Hin2 Hyh.
           by rewrite (prev_set_prev _ HT), decide_False, (prev_set_next _ HT), (prev_set_prev _ HT),
             decide_False, (prev_set_next _ HT) by done.
    + apply set_tprev_frame; [|done]. apply set_tnext_frame; [|done].
      apply set_tprev_frame; [|done]. apply set_tnext_frame; [|done]. done.
Qed.
