(* ===== verification/Sched.v ===== *)
(** * Sched: the scheduler of src/sched.c

    The static variables of the file as a record, and its functions on that
    record, the memory and the processor.  [kmalloc] and [kfree] are
    parameters, instantiated by the allocator of Kmalloc.v. *)

From S2P Require Import Prelude Memory Portio Klib Mutex Context SchedQueue.

(** ** State *)

Definition THREAD_STACK_SIZE : Z := 0x2000.
Definition MAX_THREADCOUNT : Z := 0x10.

(** sys/sched.h *)
Definition SCHED_TIMESLICE_MS : Z := 10.
Definition SCHED_TIMESLICE_TICKS : Z :=
  if (SCHED_TIMESLICE_MS * PIT_INT_FRQ) / 1000 <? 1 then 1
  else (SCHED_TIMESLICE_MS * PIT_INT_FRQ) / 1000.

Record sched_state := SchedState {
  __global_sched_lock : kthread_mutex_t;
  __thread_count : Z;
  __tid_counter : Z;
  jiffies : Z;
  __idle_task : Z;
  __current_task : Z;
  __runq_head : Z;
  __waitq_head : Z;
  __doneq_head : Z
}.

Definition upd_lock (s : sched_state) (v : kthread_mutex_t) : sched_state :=
  SchedState v (__thread_count s) (__tid_counter s) (jiffies s) (__idle_task s)
    (__current_task s) (__runq_head s) (__waitq_head s) (__doneq_head s).
Definition upd_thread_count (s : sched_state) (v : Z) : sched_state :=
  SchedState (__global_sched_lock s) v (__tid_counter s) (jiffies s) (__idle_task s)
    (__current_task s) (__runq_head s) (__waitq_head s) (__doneq_head s).
Definition upd_tid_counter (s : sched_state) (v : Z) : sched_state :=
  SchedState (__global_sched_lock s) (__thread_count s) v (jiffies s) (__idle_task s)
    (__current_task s) (__runq_head s) (__waitq_head s) (__doneq_head s).
Definition upd_jiffies (s : sched_state) (v : Z) : sched_state :=
  SchedState (__global_sched_lock s) (__thread_count s) (__tid_counter s) v (__idle_task s)
    (__current_task s) (__runq_head s) (__waitq_head s) (__doneq_head s).
Definition upd_idle (s : sched_state) (v : Z) : sched_state :=
  SchedState (__global_sched_lock s) (__thread_count s) (__tid_counter s) (jiffies s) v
    (__current_task s) (__runq_head s) (__waitq_head s) (__doneq_head s).
Definition upd_current (s : sched_state) (v : Z) : sched_state :=
  SchedState (__global_sched_lock s) (__thread_count s) (__tid_counter s) (jiffies s)
    (__idle_task s) v (__runq_head s) (__waitq_head s) (__doneq_head s).
Definition upd_runq (s : sched_state) (v : Z) : sched_state :=
  SchedState (__global_sched_lock s) (__thread_count s) (__tid_counter s) (jiffies s)
    (__idle_task s) (__current_task s) v (__waitq_head s) (__doneq_head s).
Definition upd_waitq (s : sched_state) (v : Z) : sched_state :=
  SchedState (__global_sched_lock s) (__thread_count s) (__tid_counter s) (jiffies s)
    (__idle_task s) (__current_task s) (__runq_head s) v (__doneq_head s).
Definition upd_doneq (s : sched_state) (v : Z) : sched_state :=
  SchedState (__global_sched_lock s) (__thread_count s) (__tid_counter s) (jiffies s)
    (__idle_task s) (__current_task s) (__runq_head s) (__waitq_head s) v.

(** How [schedule] leaves the processor: in a resumed thread, or at the entry of a
    thread function. *)
Inductive dispatch := Resumed | Started (entry : Z).

Section Sched.
Context (kmalloc : mem -> Z -> option (mem * Z)) (kfree : mem -> Z -> option mem).
(** Addresses of code: [do_idle] and [sched_finalize_thread]. *)
Context (do_idle finalizer : Z).

(** ** Initialisation and registration *)

Definition init_sched (m : mem) (s : sched_state) : option (mem * sched_state) :=
  '(m, t) ← kmalloc m TASK_SIZE;
  let s := upd_idle s t in
  let m := set_status m t NEW in
  let m := set_callable m t do_idle in
  let m := set_arg m t 0 in
  '(m, stack) ← kmalloc m 0x100;
  let m := set_stack m t stack in
  let m := set_esp m t (t_stack m t + 0x100 - 1) in
  Some (m, upd_lock s (kthread_mutex_init (__global_sched_lock s))).

Definition sched_register_thread (m : mem) (s : sched_state) (callable arg : Z) :
  option (mem * sched_state * Z) :=
  if __thread_count s =? MAX_THREADCOUNT then Some (m, s, -1)
  else
    '(m, ts) ← kmalloc m TASK_SIZE;
    let m := set_tid m ts (__tid_counter s) in
    let s := upd_tid_counter s (u32 (__tid_counter s + 1)) in
    let m := set_status m ts NEW in
    let m := set_priority m ts 0 in
    let m := set_utime m ts 0 in
    let m := set_callable m ts callable in
    let m := set_arg m ts arg in
    '(m, stack) ← kmalloc m THREAD_STACK_SIZE;
    let m := set_stack m ts stack in
    let m := set_esp m ts (t_stack m ts + THREAD_STACK_SIZE - 1) in
    let m := memset m (ts + 40) 0 (NUM_MAX_FD * 4) in
    let s := if negb (c_true (__current_task s)) then upd_current s ts else s in
    let '(m, head) := splice_inq m (__runq_head s) ts in
    let s := upd_runq s head in
    let s := upd_thread_count s (u32 (__thread_count s + 1)) in
    Some (m, s, s32 (t_tid m ts)).

(** ** Waking sleepers *)

(** The [do ... while] loop; [waitq] is the loop variable. *)
Fixpoint service_waitq_loop (fuel : nat) (m : mem) (s : sched_state) (waitq : Z) :
  option (mem * sched_state) :=
  match fuel with
  | O => None
  | S n =>
      let '(m, s, waitq) :=
        if t_sleep_time m waitq <=? t_utime m waitq then
          let tmp := t_next m waitq in
          let m := set_status m waitq READY in
          let m := set_sleep_time m waitq 0 in
          let '(m, head) := splice_outq m (__waitq_head s) waitq in
          let s := upd_waitq s head in
          let '(m, head) := splice_inq m (__runq_head s) waitq in
          let s := upd_runq s head in
          (m, s, tmp)
        else (m, s, t_next m waitq) in
      if c_true (__waitq_head s) && negb (waitq =? __waitq_head s)
      then service_waitq_loop n m s waitq
      else Some (m, s)
  end.

Definition service_waitq (fuel : nat) (m : mem) (s : sched_state) : option (mem * sched_state) :=
  service_waitq_loop fuel m s (__waitq_head s).

(** ** Picking the next task *)

(** [while (i++ != __thread_count + 1)]: the new [__current_task] and the result. *)
Fixpoint rr_loop (n : nat) (m : mem) (idle current : Z) : Z * Z :=
  match n with
  | O => (current, idle)
  | S k =>
      let current := t_next m current in
      if negb (t_status m current =? EXITED) && negb (t_status m current =? BLOCKED)
      then (current, current)
      else rr_loop k m idle current
  end.

Definition sched_select_next_rr (m : mem) (s : sched_state) : sched_state * Z :=
  let s := if __current_task s =? __idle_task s then upd_current s (__runq_head s) else s in
  if negb (c_true (__runq_head s)) then (s, __idle_task s)
  else
    let '(current, task) :=
      rr_loop (Z.to_nat (u32 (__thread_count s + 1))) m (__idle_task s) (__current_task s) in
    (upd_current s current, task).

Definition schedule (fuel : nat) (m : mem) (s : sched_state) (c : cpu) :
  option (mem * sched_state * cpu * dispatch) :=
  let '(m, c) :=
    if negb (t_status m (__current_task s) =? NEW) then SAVE_CONTEXT m c (__current_task s)
    else (m, c) in
  let m :=
    if t_status m (__current_task s) =? RUNNING then set_status m (__current_task s) READY
    else m in
  '(m, s) ← (if c_true (__waitq_head s) then service_waitq fuel m s else Some (m, s));
  let s :=
    if negb (t_status m (__current_task s) =? NEW) then
      let '(s, task) := sched_select_next_rr m s in upd_current s task
    else s in
  let task := __current_task s in
  if t_status m task =? NEW then
    let m := set_status m task RUNNING in
    let '(m, c) := START_NEW_THREAD m c task finalizer in
    Some (m, s, c, Started (t_callable m task))
  else
    let m := set_status m task RUNNING in
    Some (m, s, DISPATCH m c task, Resumed).

(** ** The end of a thread *)

(** Up to the call of [schedule]. *)
Definition finalize_current (fuel : nat) (m : mem) (s : sched_state) (retval : Z) :
  option (mem * sched_state) :=
  lock ← kthread_mutex_lock fuel (__global_sched_lock s);
  let s := upd_lock s lock in
  let curr_cpy := __current_task s in
  m ← kfree m (t_stack m curr_cpy);
  let m := set_status m curr_cpy EXITED in
  let m := set_retval m curr_cpy retval in
  let '(m, head) := splice_outq m (__runq_head s) curr_cpy in
  let s := upd_runq s head in
  let '(m, head) := splice_inq m (__doneq_head s) curr_cpy in
  let s := upd_doneq s head in
  let s := upd_thread_count s (u32 (__thread_count s - 1)) in
  Some (m, upd_lock s (kthread_mutex_unlock (__global_sched_lock s))).

Definition sched_finalize_thread (fuel : nat) (m : mem) (s : sched_state) (c : cpu)
  (retval : Z) : option (mem * sched_state * cpu * dispatch) :=
  '(m, s) ← finalize_current fuel m s retval;
  schedule fuel m s c.

(** ** The timer interrupt *)

(** [do { ++waitq_itr->utime; waitq_itr = waitq_itr->next; } while (waitq_itr != head)] *)
Fixpoint tick_waitq (fuel : nat) (m : mem) (head waitq_itr : Z) : option mem :=
  match fuel with
  | O => None
  | S n =>
      let m := set_utime m waitq_itr (t_utime m waitq_itr + 1) in
      let waitq_itr := t_next m waitq_itr in
      if negb (waitq_itr =? head) then tick_waitq n m head waitq_itr else Some m
  end.

(** [None] in the result: the interrupted thread goes on. *)
Definition do_timer (fuel : nat) (m : mem) (s : sched_state) (c : cpu) :
  option (mem * sched_state * option (cpu * dispatch)) :=
  m ← (if c_true (__waitq_head s) then tick_waitq fuel m (__waitq_head s) (__waitq_head s)
       else Some m);
  let s := upd_jiffies s (u64 (jiffies s + 1)) in
  let m := set_utime m (__current_task s) (t_utime m (__current_task s) + 1) in
  if t_utime m (__current_task s) <? SCHED_TIMESLICE_TICKS then Some (m, s, None)
  else
    let m := set_utime m (__current_task s) 0 in
    '(m, s, c, d) ← schedule fuel m s c;
    Some (m, s, Some (c, d)).

(** ** Sleeping *)

(** [__sleep_on] up to its wait loop: the current task goes to the wait queue. *)
Definition sleep_begin (fuel : nat) (m : mem) (s : sched_state) (systicks : Z) :
  option (mem * sched_state) :=
  lock ← kthread_mutex_lock fuel (__global_sched_lock s);
  let s := upd_lock s lock in
  let curr_cpy := __current_task s in
  let m := set_status m curr_cpy BLOCKED in
  let m := set_utime m curr_cpy 0 in
  let m := set_sleep_time m curr_cpy systicks in
  let '(m, head) := splice_outq m (__runq_head s) curr_cpy in
  let s := upd_runq s head in
  let '(m, head) := splice_inq m (__waitq_head s) curr_cpy in
  let s := upd_waitq s head in
  Some (m, upd_lock s (kthread_mutex_unlock (__global_sched_lock s))).

(** The condition of the wait loop, which the timer interrupt changes. *)
Definition sleep_waits (m : mem) (curr_cpy : Z) : bool :=
  negb (t_sleep_time m curr_cpy =? 0).

(** The end of [__sleep_on], when the task runs again. *)
Definition sleep_end (m : mem) (s : sched_state) : mem :=
  let m := set_utime m (__current_task s) 0 in
  set_sleep_time m (__current_task s) 0.

(** src/sysutils.c and src/kthread.c *)
Definition msleep_ticks (milliseconds : Z) : Z := u32 (milliseconds * PIT_INT_FRQ) / 1000.

Definition msleep_begin (fuel : nat) (m : mem) (s : sched_state) (milliseconds : Z) :
  option (mem * sched_state) :=
  sleep_begin fuel m s (msleep_ticks milliseconds).

Definition kthread_create (m : mem) (s : sched_state) (callable arg : Z) :
  option (mem * sched_state * Z) :=
  sched_register_thread m s callable arg.
End Sched.
