(* ===== verification/SchedProps.v ===== *)
(** * SchedProps: the properties of the scheduler

    The wait queue service, the round robin choice, registration and
    termination of threads, sleeping and the timer tick, proved against the
    queue lemmas of SchedQueue.v and the [Heap] interface. *)

From S2P Require Import Prelude Memory Klib Mutex Context SchedQueue Sched Heap.

(** ** Fields of separate tasks *)

Lemma field_store T a x i j m v :
  tasks T -> a ∈ T -> x ∈ T -> 0 <= i <= 108 -> 0 <= j <= 108 ->
  (i = j \/ i + 4 <= j \/ j + 4 <= i) ->
  load32 (store32 m (a + i) v) (x + j) =
    if decide (a = x /\ i = j) then u32 v else load32 m (x + j).
Proof.
  intros HT Ha Hx Hi Hj Hij.
  destruct (tasks_sep _ HT a x Ha Hx) as [|[|]]; unfold TASK_SIZE in *; case_decide as Hd;
    mem_simpl; (done || lia).
Qed.

(** A field outside the links survives what respects [link_frame]. *)
Lemma link_frame_field U T m m' x j :
  tasks U -> T ⊆ U -> x ∈ U -> 0 <= j <= 100 -> same_on (link_frame T) m m' ->
  load32 m' (x + j) = load32 m (x + j).
Proof.
  intros HU HT Hx Hj Hs. apply (same_on_load32 _ _ _ _ Hs). intros i Hi t Ht.
  destruct (tasks_sep _ HU t x (HT _ Ht) Hx) as [|[|]]; unfold off, TASK_SIZE in *; lia.
Qed.

(** ** Waking sleepers *)

Definition expired (m : mem) (t : Z) : bool := t_sleep_time m t <=? t_utime m t.

(** Bytes that the wait queue service may not touch. *)
Definition wake_frame (U : list Z) (x : Z) : Prop :=
  forall t, t ∈ U -> off (t + 28) 4 x /\ off (t + 36) 4 x /\ off (t + 104) 8 x.

(** The tasks [W] were woken between [m] and [m']; nothing else happened to [U]. *)
Record woken (U W : list Z) (m m' : mem) : Prop := Woken {
  woken_status t : t ∈ U -> t_status m' t = if decide (t ∈ W) then READY else t_status m t;
  woken_sleep t : t ∈ U -> t_sleep_time m' t = if decide (t ∈ W) then 0 else t_sleep_time m t;
  woken_utime t : t ∈ U -> t_utime m' t = t_utime m t;
  woken_frame : same_on (wake_frame U) m m'
}.

Lemma woken_refl U m : woken U [] m m.
Proof. split; intros; try rewrite decide_False by set_solver; done. Qed.

Lemma woken_trans U W1 W2 m1 m2 m3 :
  woken U W1 m1 m2 -> woken U W2 m2 m3 -> woken U (W1 ++ W2) m1 m3.
Proof.
  intros [S1 P1 T1 F1] [S2 P2 T2 F2]. split.
  - intros t Ht. rewrite S2, S1 by done. repeat case_decide; set_solver.
  - intros t Ht. rewrite P2, P1 by done. repeat case_decide; set_solver.
  - intros t Ht. by rewrite T2, T1.
  - by etrans.
Qed.

(** The body of the loop for an expired task. *)
Definition wake (m : mem) (s : sched_state) (waitq : Z) : mem * sched_state :=
  let m := set_status m waitq READY in
  let m := set_sleep_time m waitq 0 in
  let '(m, head) := splice_outq m (__waitq_head s) waitq in
  let s := upd_waitq s head in
  let '(m, head) := splice_inq m (__runq_head s) waitq in
  (m, upd_runq s head).

Definition queues (m : mem) (s : sched_state) (run wait : list Z) : Prop :=
  queue m (__runq_head s) run /\ queue m (__waitq_head s) wait.

Lemma link_to_wake_frame U T m m' : T ⊆ U -> same_on (link_frame T) m m' -> same_on (wake_frame U) m m'.
Proof.
  intros HT. apply same_on_weaken. intros x Hx t Ht. by destruct (Hx t (HT _ Ht)) as (_ & _ & ?).
Qed.

Lemma queue_set_field m head l U a i v :
  tasks U -> a ∈ U -> l ⊆ U -> 0 <= i <= 100 -> queue m head l -> queue (store32 m (a + i) v) head l.
Proof.
  intros HU Ha Hl Hi. apply queue_frame. intros t x Ht Hx. apply load8_store32_ne.
  destruct (tasks_sep _ HU a t Ha (Hl _ Ht)) as [|[|]]; unfold off, TASK_SIZE in *; lia.
Qed.

(** A queue none of whose tasks were relinked. *)
Lemma queue_other m m' head l T U :
  tasks U -> l ⊆ U -> T ⊆ U -> (forall x, x ∈ l -> x ∉ T) ->
  same_on (link_frame T) m m' -> queue m head l -> queue m' head l.
Proof.
  intros HU Hl HT Hd Hs. apply queue_frame. intros t x Ht Hx. apply Hs. intros t' Ht'.
  destruct (tasks_sep _ HU t t' (Hl _ Ht) (HT _ Ht')) as [->|[|]];
    [by apply Hd in Ht|unfold off, TASK_SIZE in *; lia..].
Qed.

(** A task leaves one queue and enters another. *)
Lemma move_spec U m h1 h2 l1 x l2 other m1 k1 m2 k2 :
  queue m h1 (l1 ++ x :: l2) -> queue m h2 other -> NoDup (other ++ l1 ++ x :: l2) ->
  tasks U -> other ++ l1 ++ x :: l2 ⊆ U ->
  splice_outq m h1 x = (m1, k1) -> splice_inq m1 h2 x = (m2, k2) ->
  queue m2 k1 (l1 ++ l2) /\ queue m2 k2 (other ++ [x]) /\
  same_on (link_frame (other ++ l1 ++ x :: l2)) m m2.
Proof.
  intros Hq1 Hq2 Hnd HU Hsub E1 E2.
  assert (l1 ++ x :: l2 ⊆ U) as HwU by set_solver.
  assert (x :: other ⊆ U) as HxU by set_solver.
  destruct (splice_outq_spec _ _ _ _ _ _ _ Hq1 (tasks_incl _ _ HwU HU) E1) as [Hq1' Hf1].
  apply NoDup_app in Hnd as (Hno & Hd & Hnw). pose proof Hnw as (_ & Hd2 & [Hx2 _]%NoDup_cons)%NoDup_app.
  assert (queue m1 h2 other) as Hq2' by (eapply (queue_other m m1 _ other (l1 ++ x :: l2) U); [done|set_solver|done..]).
  assert (x ∉ other) as Hxo by (intros Hx; apply (Hd x Hx); set_solver).
  destruct (splice_inq_spec _ _ _ _ _ _ Hq2' (tasks_incl _ _ HxU HU) Hxo E2) as [Hq2'' Hf2].
  split_and!; [|done|].
  - apply (queue_other m1 m2 _ (l1 ++ l2) (x :: other) U); [done|set_solver|done| |done|done].
    intros y Hy [->|Hr]%elem_of_cons; [|apply (Hd y Hr); set_solver].
    apply elem_of_app in Hy as [Hy|Hy]; [|done]. apply (Hd2 x Hy). by left.
  - transitivity m1; (eapply same_on_weaken; [|done]; intros a Ha t Ht; apply Ha; set_solver).
Qed.

Lemma wake_spec U m s run l1 x l2 m' s' :
  queues m s run (l1 ++ x :: l2) -> NoDup (run ++ l1 ++ x :: l2) -> tasks U ->
  run ++ l1 ++ x :: l2 ⊆ U -> wake m s x = (m', s') ->
  queues m' s' (run ++ [x]) (l1 ++ l2) /\ woken U [x] m m'.
Proof.
  intros [Hqr Hqw] Hnd HU Hsub E. unfold wake in E.
  assert (x ∈ U) as HxU by set_solver. assert (l1 ++ x :: l2 ⊆ U) as HwU by set_solver.
  assert (run ⊆ U) as HrU by set_solver.
  set (m1 := set_sleep_time (set_status m x READY) x 0) in *.
  assert (forall h l, l ⊆ U -> queue m h l -> queue m1 h l) as Hq.
  { intros h l Hl Hm. apply (queue_set_field _ _ _ U); [done|done|done|lia|].
    by apply (queue_set_field _ _ _ U). }
  destruct (splice_outq m1 (__waitq_head s) x) as [m2 h2] eqn:E2. simpl in E.
  destruct (splice_inq m2 (__runq_head s) x) as [m3 h3] eqn:E3. simplify_eq.
  destruct (move_spec U m1 _ _ l1 x l2 run m2 h2 m' h3 (Hq _ _ HwU Hqw) (Hq _ _ HrU Hqr) Hnd HU Hsub E2 E3)
    as (Hw & Hr & Hl).
  split; [done|].
  assert (forall t j, t ∈ U -> 0 <= j <= 100 -> load32 m' (t + j) = load32 m1 (t + j)) as Hf.
  { intros t j Ht Hj. by apply (link_frame_field U (run ++ l1 ++ x :: l2)). }
  split.
  - intros t Ht. unfold t_status. rewrite Hf by (done || lia). unfold m1. unfold_task.
    rewrite !(field_store U) by (done || lia). repeat case_decide; set_solver.
  - intros t Ht. unfold t_sleep_time. rewrite Hf by (done || lia). unfold m1. unfold_task.
    rewrite !(field_store U) by (done || lia). repeat case_decide; set_solver.
  - intros t Ht. unfold t_utime. rewrite Hf by (done || lia). unfold m1. unfold_task.
    rewrite !(field_store U) by (done || lia). repeat case_decide; set_solver.
  - transitivity m1; [|exact (link_to_wake_frame U _ _ _ Hsub Hl)].
    unfold m1. unfold_task. repeat (apply store32_same_on; [|intros b Hb; by apply Hb]). done.
Qed.

Lemma service_waitq_loop_S n m s x :
  service_waitq_loop (S n) m s x =
    let '(m', s') := if expired m x then wake m s x else (m, s) in
    if c_true (__waitq_head s') && negb (t_next m x =? __waitq_head s')
    then service_waitq_loop n m' s' (t_next m x) else Some (m', s').
Proof.
  simpl. unfold expired, wake. destruct (_ <=? _); [|done].
  destruct (splice_outq _ _ _) as [m2 h2]. destruct (splice_inq _ _ _) as [m3 h3]. done.
Qed.

(** What the wait queue service leaves alone in the scheduler's variables. *)
Definition same_but_queues (s s' : sched_state) : Prop :=
  s' = upd_runq (upd_waitq s (__waitq_head s')) (__runq_head s').

Lemma wake_same m s x m' s' : wake m s x = (m', s') -> same_but_queues s s'.
Proof.
  unfold wake. destruct (splice_outq _ _ _) as [m2 h2]. simpl.
  destruct (splice_inq _ _ _) as [m3 h3]. intros. by simplify_eq.
Qed.

Lemma same_but_queues_trans s1 s2 s3 :
  same_but_queues s1 s2 -> same_but_queues s2 s3 -> same_but_queues s1 s3.
Proof. unfold same_but_queues. intros -> ->. done. Qed.

Lemma queue_next m head l1 x l2 :
  queue m head (l1 ++ x :: l2) -> t_next m x = hd (hd x l1) l2.
Proof.
  intros [_ _ Hr]. destruct (l2 ++ l1) as [|h t] eqn:E.
  - apply app_eq_nil in E as [-> ->]. simpl in *. by destruct Hr.
  - destruct (ring_neighbours _ _ _ _ _ _ _ Hr E) as [-> _].
    destruct l2; simplify_eq/=; [|done]. by subst.
Qed.

Lemma woken_expired U W m m' t :
  woken U W m m' -> t ∈ U -> t ∉ W -> expired m' t = expired m t.
Proof.
  intros Hw Ht Hn. unfold expired.
  by rewrite (woken_utime _ _ _ _ Hw), (woken_sleep _ _ _ _ Hw), decide_False by done.
Qed.

(** One pass of the loop body at [x]. *)
Lemma service_body_spec U m s run l1 x l2 m' s' :
  queues m s run (l1 ++ x :: l2) -> NoDup (run ++ l1 ++ x :: l2) -> tasks U ->
  run ++ l1 ++ x :: l2 ⊆ U -> (if expired m x then wake m s x else (m, s)) = (m', s') ->
  queues m' s' (run ++ filter (expired m) [x]) ((l1 ++ filter (fun t => ~ expired m t) [x]) ++ l2) /\
  woken U (filter (expired m) [x]) m m' /\ same_but_queues s s'.
Proof.
  intros Hq Hnd HU Hsub E. rewrite !filter_cons, !filter_nil. destruct (expired m x) eqn:Ex.
  - rewrite decide_True, decide_False by naive_solver. rewrite app_nil_r.
    destruct (wake_spec _ _ _ _ _ _ _ _ _ Hq Hnd HU Hsub E) as [? ?].
    split_and!; [done|done|by eapply wake_same].
  - rewrite decide_False, decide_True by naive_solver. simplify_eq.
    rewrite app_nil_r, <- app_assoc. split_and!; [done|apply woken_refl|]. by destruct s'.
Qed.

Lemma NoDup_wake_step (P : Z -> Prop) `{!forall t, Decision (P t)} run l1 x l2 :
  NoDup (run ++ l1 ++ x :: l2) ->
  NoDup ((run ++ filter P [x]) ++ (l1 ++ filter (fun t => ~ P t) [x]) ++ l2).
Proof.
  rewrite !filter_cons, !filter_nil. case_decide; [rewrite decide_False by tauto|rewrite decide_True by tauto];
    rewrite ?app_nil_r; [|by rewrite <- app_assoc].
  intros Hnd. assert ((run ++ [x]) ++ l1 ++ l2 ≡ₚ run ++ l1 ++ x :: l2) as -> by solve_Permutation.
  done.
Qed.

Lemma list_filter_ext {A} (P Q : A -> Prop) `{!forall t, Decision (P t), !forall t, Decision (Q t)} (l : list A) :
  (forall t, t ∈ l -> P t <-> Q t) -> filter P l = filter Q l.
Proof.
  induction l as [|x l IH]; intros Hpq; [done|]. rewrite !filter_cons, IH by set_solver.
  specialize (Hpq x). repeat case_decide; set_solver.
Qed.

Lemma filter_woken U W m m' l :
  woken U W m m' -> l ⊆ U -> (forall t, t ∈ l -> t ∉ W) ->
  filter (expired m') l = filter (expired m) l /\
  filter (fun t => ~ expired m' t) l = filter (fun t => ~ expired m t) l.
Proof.
  intros Hw Hl Hd. split; apply list_filter_ext; intros t Ht;
    by rewrite (woken_expired U W m m') by auto.
Qed.

(** The loop from the task [x] on, with a head [w] that stays in the queue. *)
Lemma service_waitq_loop_spec U w rest :
  tasks U -> w ∈ U ->
  forall x fuel m s run kept,
  queues m s run ((w :: kept) ++ x :: rest) -> NoDup (run ++ (w :: kept) ++ x :: rest) ->
  run ++ (w :: kept) ++ x :: rest ⊆ U -> (length (x :: rest) <= fuel)%nat ->
  exists m' s', service_waitq_loop fuel m s x = Some (m', s') /\
    queues m' s' (run ++ filter (expired m) (x :: rest))
      ((w :: kept) ++ filter (fun t => ~ expired m t) (x :: rest)) /\
    woken U (filter (expired m) (x :: rest)) m m' /\ same_but_queues s s'.
Proof.
  intros HU Hw. assert (w ≠ 0) as Hw0 by (pose proof (tasks_range _ HU w Hw); lia).
  induction rest as [|y rest IH]; intros x [|fuel] m s run kept Hq Hnd Hsub Hfuel;
    try (simpl in Hfuel; lia);
    rewrite service_waitq_loop_S, (queue_next _ _ _ _ _ (proj2 Hq));
    destruct (if expired m x then wake m s x else (m, s)) as [m1 s1] eqn:E1;
    destruct (service_body_spec U _ _ _ _ _ _ _ _ Hq Hnd HU Hsub E1) as (Hq1 & Hw1 & Hs1);
    pose proof (q_head _ _ _ (proj2 Hq1)) as Hh; simpl in Hh; rewrite Hh, c_true_nonzero by done;
    simpl hd; cbn [andb].
  - rewrite Z.eqb_refl. rewrite !app_nil_r in Hq1. by exists m1, s1.
  - assert (y ∉ w :: x :: rest) as Hy.
    { apply NoDup_app in Hnd as (_ & _ & Hnd). simpl in Hnd.
      apply NoDup_cons in Hnd as [Hwn Hnd]. apply NoDup_app in Hnd as (_ & _ & Hnd).
      rewrite !NoDup_cons in Hnd. set_solver. }
    rewrite eqb_ne by set_solver. cbn [negb].
    apply (NoDup_wake_step (expired m)) in Hnd as Hnd1.
    edestruct (filter_woken U _ _ _ (y :: rest) Hw1) as [F1 F2]; [set_solver| |].
    { intros t Ht Hx%list_elem_of_filter. apply NoDup_app in Hnd as (_ & _ & Hnd).
      apply NoDup_app in Hnd as (_ & _ & Hnd). apply NoDup_cons in Hnd as [Hnd _].
      set_solver. }
    replace (x :: y :: rest) with ([x] ++ y :: rest) by done. rewrite !filter_app.
    destruct (IH y fuel m1 s1 _ _ Hq1 Hnd1) as (m' & s' & E & Hq' & Hw' & Hs').
    + intros t Ht. apply Hsub. rewrite !filter_cons, !filter_nil in Ht. revert Ht.
      repeat case_decide; set_solver.
    + simpl in *. lia.
    + rewrite F1, F2 in *. rewrite <- app_assoc in Hq'. rewrite (app_assoc (w :: kept)).
      exists m', s'. split_and!; [done|done|by eapply woken_trans|by eapply same_but_queues_trans].
Qed.

(** The tasks that one run of [service_waitq] wakes, and those it leaves. *)
Definition wakes (m : mem) (wait : list Z) : list Z :=
  match wait with
  | [] => []
  | w :: ws => if expired m w then [w] else filter (expired m) ws
  end.

Definition stays (m : mem) (wait : list Z) : list Z :=
  match wait with
  | [] => []
  | w :: ws => if expired m w then ws else w :: filter (fun t => ~ expired m t) ws
  end.

Lemma service_waitq_spec U fuel m s run w ws :
  queues m s run (w :: ws) -> NoDup (run ++ w :: ws) -> tasks U -> run ++ w :: ws ⊆ U ->
  (length (w :: ws) <= fuel)%nat ->
  exists m' s', service_waitq fuel m s = Some (m', s') /\
    queues m' s' (run ++ wakes m (w :: ws)) (stays m (w :: ws)) /\
    woken U (wakes m (w :: ws)) m m' /\ same_but_queues s s'.
Proof.
  intros Hq Hnd HU Hsub Hfuel. unfold service_waitq.
  rewrite (q_head _ _ _ (proj2 Hq)). simpl hd.
  destruct fuel as [|fuel]; [simpl in Hfuel; lia|].
  rewrite service_waitq_loop_S, (queue_next m (__waitq_head s) [] w ws (proj2 Hq)). simpl hd.
  destruct (if expired m w then wake m s w else (m, s)) as [m1 s1] eqn:E1.
  destruct (service_body_spec U m s run [] w ws m1 s1 Hq Hnd HU Hsub E1) as (Hq1 & Hw1 & Hs1).
  simpl in Hq1, Hw1. revert Hq1 Hw1. rewrite !filter_cons, !filter_nil. unfold wakes, stays.
  destruct (expired m w) eqn:Ex.
  - rewrite decide_True, decide_False by naive_solver. cbn [app]. intros Hq1 Hw1.
    rewrite (q_head _ _ _ (proj2 Hq1)).
    assert (c_true (hd 0 ws) && negb (hd w ws =? hd 0 ws) = false) as ->.
    { destruct ws; [done|]. simpl. rewrite Z.eqb_refl. apply andb_false_r. }
    by exists m1, s1.
  - rewrite decide_False, decide_True by naive_solver. simplify_eq. rewrite app_nil_r.
    intros Hq1 Hw1. rewrite (q_head _ _ _ (proj2 Hq1)). simpl.
    destruct ws as [|x ws].
    + rewrite Z.eqb_refl, andb_false_r. rewrite filter_nil, app_nil_r. by exists m1, s1.
    + simpl. assert (w ∈ U) as Hw by set_solver. pose proof (tasks_range _ HU w Hw).
      rewrite c_true_nonzero by lia. rewrite eqb_ne; cycle 1.
      { apply NoDup_app in Hnd as (_ & _ & [Hn _]%NoDup_cons). set_solver. }
      destruct (service_waitq_loop_spec U w ws HU Hw x fuel m1 s1 run [] Hq1 Hnd Hsub)
        as (m' & s' & E & Hq' & Hw' & Hs'); [simpl in *; lia|].
      by exists m', s'.
Qed.

(** ** Properties *)

(** Three task structures in a fresh memory, queued one after the other. *)
Definition queue_example : mem * Z :=
  let '(m, h) := splice_inq mem_zero 0 0x1000 in
  let '(m, h) := splice_inq m h 0x2000 in
  splice_inq m h 0x3000.

Lemma tasks_example : tasks [0x1000; 0x2000; 0x3000; 0x4000].
Proof. split; unfold TASK_SIZE; intros; set_unfold; lia. Qed.

Lemma queue_example_ok : queue queue_example.1 queue_example.2 [0x1000; 0x2000; 0x3000].
Proof. split; [done|by apply (bool_decide_unpack _)|by vm_compute]. Qed.

(** C23: the task queues are queues.  On a ring that holds the tasks [l] in order,
    [splice_inq] gives a ring that holds [l] followed by the new element, with the
    same head when there was one; [splice_outq] of any element of the ring gives the
    ring of the others in their order, with a NULL head when none is left.  Neither
    writes outside the [prev] and [next] fields of the queue's tasks. *)
Theorem splice_queue m head l e l1 x l2 :
  queue m head l -> tasks (e :: l) -> e ∉ l -> l = l1 ++ x :: l2 ->
  (let '(m', head') := splice_inq m head e in
   queue m' head' (l ++ [e]) /\ same_on (link_frame (e :: l)) m m') /\
  (let '(m', head') := splice_outq m head x in
   queue m' head' (l1 ++ l2) /\ same_on (link_frame l) m m').
Proof.
  intros Hq HT He ->. split.
  - destruct (splice_inq m head e) as [m' head'] eqn:E. by eapply splice_inq_spec.
  - destruct (splice_outq m head x) as [m' head'] eqn:E. eapply splice_outq_spec; [done| |done].
    eapply tasks_incl; [|exact HT]. set_solver.
Qed.

Lemma splice_queue_witness :
  let '(m', head') := splice_outq queue_example.1 queue_example.2 0x1000 in
  queue m' head' [0x2000; 0x3000] /\
  same_on (link_frame [0x1000; 0x2000; 0x3000]) queue_example.1 m'.
Proof.
  apply (splice_queue queue_example.1 queue_example.2 [0x1000; 0x2000; 0x3000] 0x4000
           [] 0x1000 [0x2000; 0x3000]).
  - exact queue_example_ok.
  - eapply tasks_incl; [|exact tasks_example]. set_solver.
  - by apply (bool_decide_unpack _).
  - reflexivity.
Defined.

(** C31: the wait queue service.  It returns after at most one pass over the queue.
    If the first waiting task has not slept its time, every task that has is made
    READY, has its sleep time cleared, and moves in order to the tail of the run
    queue, and no other task changes.  If the first waiting task is due, it is woken
    and the loop stops there: the rest of the queue is not examined, so a second due
    task stays blocked until the next service. *)
Theorem service_waitq_ok U fuel m s run w ws :
  queues m s run (w :: ws) -> NoDup (run ++ w :: ws) -> tasks U -> run ++ w :: ws ⊆ U ->
  (length (w :: ws) <= fuel)%nat ->
  let W := if expired m w then [w] else filter (expired m) ws in
  let rest := if expired m w then ws else w :: filter (fun t => ~ expired m t) ws in
  exists m' s', service_waitq fuel m s = Some (m', s') /\
    queues m' s' (run ++ W) rest /\ same_but_queues s s' /\
    (forall t, t ∈ W -> t_status m' t = READY /\ t_sleep_time m' t = 0) /\
    (forall t, t ∈ U -> t ∉ W ->
       t_status m' t = t_status m t /\ t_sleep_time m' t = t_sleep_time m t) /\
    same_on (wake_frame U) m m'.
Proof.
  intros Hq Hnd HU Hsub Hfuel W rest.
  destruct (service_waitq_spec U fuel m s run w ws Hq Hnd HU Hsub Hfuel)
    as (m' & s' & E & Hq' & [Hst Hsl _ Hf] & Hs).
  assert (W ⊆ U) as HW.
  { intros t Ht. apply Hsub. unfold W in Ht. destruct (expired m w); [set_solver|].
    apply list_elem_of_filter in Ht as [_ Ht]. set_solver. }
  exists m', s'. split_and!; [done|done|done| | |done].
  - intros t Ht. by rewrite Hst, Hsl, !decide_True by auto.
  - intros t Ht Hn. by rewrite Hst, Hsl, !decide_False by auto.
Qed.

(** Three sleepers, of which the first and the third are due. *)
Definition sleepers_example : mem :=
  let m := queue_example.1 in
  let m := set_sleep_time (set_status m 0x1000 BLOCKED) 0x1000 3 in
  let m := set_sleep_time (set_status m 0x2000 BLOCKED) 0x2000 9 in
  let m := set_sleep_time (set_status m 0x3000 BLOCKED) 0x3000 4 in
  set_utime (set_utime (set_utime m 0x1000 5) 0x2000 5) 0x3000 5.

Definition sleepers_state : sched_state := SchedState unlocked 3 3 0 0x8000 0x8000 0 0x1000 0.

Lemma service_waitq_ok_witness :
  exists m' s', service_waitq 3 sleepers_example sleepers_state = Some (m', s') /\
    queues m' s' [0x1000] [0x2000; 0x3000].
Proof.
  destruct (service_waitq_ok [0x1000; 0x2000; 0x3000] 3 sleepers_example sleepers_state []
              0x1000 [0x2000; 0x3000]) as (m' & s' & E & Hq & _).
  - split; (split; [done|by apply (bool_decide_unpack _)|by vm_compute]).
  - by apply (bool_decide_unpack _).
  - eapply tasks_incl; [|exact tasks_example]. set_solver.
  - done.
  - simpl. lia.
  - exists m', s'. split; [exact E|]. revert Hq.
    assert (expired sleepers_example 0x1000 = true) as -> by (by vm_compute). done.
Defined.
