(* ===== verification/SchedInv.v ===== *)
(** * SchedInv: the invariant of the scheduler

    [sched_ok] ties the three queues, the thread count, the current task, the
    task states and the stacks of threads that have never run together.  The
    round robin choice is characterised under it, and every entry point of
    the scheduler (registration, termination, sleeping, the timer tick and
    [schedule] itself) is shown to preserve it. *)

From S2P Require Import Prelude Memory Klib Mutex Context SchedQueue Sched SchedProps Heap.

(** ** The invariant *)

Definition all_tasks (s : sched_state) (run wait done_ : list Z) : list Z :=
  __idle_task s :: run ++ wait ++ done_.

Definition runnable (st : Z) : Prop := st = NEW \/ st = READY \/ st = RUNNING.

(** The [n] bytes from [a] lie outside every task structure of [U]. *)
Definition off_tasks (U : list Z) (a n : Z) : Prop :=
  forall t, t ∈ U -> a + n <= t \/ t + TASK_SIZE <= a.

Record sched_ok (m : mem) (s : sched_state) (run wait done_ : list Z) : Prop := SchedOk {
  so_run : queue m (__runq_head s) run;
  so_wait : queue m (__waitq_head s) wait;
  so_done : queue m (__doneq_head s) done_;
  so_nodup : NoDup (all_tasks s run wait done_);
  so_tasks : tasks (all_tasks s run wait done_);
  so_count : __thread_count s = Z.of_nat (length run + length wait);
  so_max : (length run + length wait <= 16)%nat;
  so_lock : __global_sched_lock s = unlocked;
  (** Only the current task is marked as running. *)
  so_running t : t ∈ all_tasks s run wait done_ -> t_status m t = RUNNING -> t = __current_task s;
  so_run_st t : t = __idle_task s \/ t ∈ run -> runnable (t_status m t);
  so_wait_st t : t ∈ wait -> t_status m t = BLOCKED;
  so_done_st t : t ∈ done_ -> t_status m t = EXITED;
  (** The first words of a thread that has never run do not fall into a task structure. *)
  so_stacks t : t ∈ all_tasks s run wait done_ -> t_status m t = NEW ->
    12 <= t_esp m t /\ off_tasks (all_tasks s run wait done_) (t_esp m t - 12) 12
}.

(** The invariant reads the link, status and stack pointer fields. *)
Definition task_view (U : list Z) (m m' : mem) : Prop :=
  forall t, t ∈ U -> t_next m' t = t_next m t /\ t_prev m' t = t_prev m t /\
    t_status m' t = t_status m t /\ (t_status m t = NEW -> t_esp m' t = t_esp m t).

Lemma queue_ext m m' head l :
  (forall t, t ∈ l -> t_next m' t = t_next m t /\ t_prev m' t = t_prev m t) ->
  queue m head l -> queue m' head l.
Proof.
  intros Hx [Hh Hnd Hr]. split; [done|done|].
  destruct l as [|h t]; [done|]. apply ring_ends in Hr as (Hl & E1 & E2). apply ring_ends.
  destruct (Hx h) as [_ Eh]; [by left|]. destruct (Hx (lst h t) (lst_in _ _)) as [El _].
  rewrite El, Eh. split_and!; [|done|done].
  eapply linked_ext; [done| | |exact Hl]; intros y Hy; intros; apply Hx; set_solver.
Qed.

Lemma sched_ok_view m m' s run wait done_ :
  sched_ok m s run wait done_ -> task_view (all_tasks s run wait done_) m m' ->
  sched_ok m' s run wait done_.
Proof.
  intros [Hr Hw Hd Hnd Ht Hc Hm Hl Hrn Hrs Hws Hds Hst] Hv. unfold all_tasks in *.
  split; try done.
  - apply (queue_ext m); [|done]. intros t Hin. destruct (Hv t) as (? & ? & _); [set_solver|done].
  - apply (queue_ext m); [|done]. intros t Hin. destruct (Hv t) as (? & ? & _); [set_solver|done].
  - apply (queue_ext m); [|done]. intros t Hin. destruct (Hv t) as (? & ? & _); [set_solver|done].
  - intros t Hin. destruct (Hv t Hin) as (_ & _ & -> & _). by apply Hrn.
  - intros t Hin. destruct (Hv t) as (_ & _ & -> & _); [set_solver|by apply Hrs].
  - intros t Hin. destruct (Hv t) as (_ & _ & -> & _); [set_solver|by apply Hws].
  - intros t Hin. destruct (Hv t) as (_ & _ & -> & _); [set_solver|by apply Hds].
  - intros t Hin. destruct (Hv t Hin) as (_ & _ & -> & He). intros Hn. rewrite He by done. by apply Hst.
Qed.

(** Writes outside the task structures are invisible to it. *)
Lemma task_view_off U m m' a n : off_tasks U a n -> same_off a n m m' -> task_view U m m'.
Proof.
  intros Ho Hs t Ht. specialize (Ho t Ht). unfold_task. unfold TASK_SIZE in *.
  split_and!; intros; apply (same_on_load32 _ _ _ _ Hs); unfold off; lia.
Qed.

Lemma task_view_field U m a i v :
  tasks U -> a ∈ U -> 4 <= i <= 100 -> i <> 36 -> (i <= 32 \/ 40 <= i) ->
  task_view U m (store32 m (a + i) v).
Proof.
  intros HU Ha Hi Hne Hi' t Ht.
  split_and!; unfold_task; try (rewrite (field_store U) by (done || lia); by rewrite decide_False by lia).
  intros _. rewrite <- (Z.add_0_r t) at 1. rewrite (field_store U), decide_False by (done || lia). by rewrite Z.add_0_r.
Qed.

Lemma task_view_refl U m : task_view U m m.
Proof. by intros t. Qed.

Lemma task_view_trans U m1 m2 m3 : task_view U m1 m2 -> task_view U m2 m3 -> task_view U m1 m3.
Proof.
  intros H1 H2 t Ht.
  destruct (H1 t Ht) as (E1 & E2 & E3 & E4). destruct (H2 t Ht) as (-> & -> & -> & E5).
  split_and!; [done..|]. intros Hn. rewrite E5 by congruence. by apply E4.
Qed.

(** ** The round robin choice *)

(** The task after [x] in the circular list [l]. *)
Fixpoint after (x : Z) (l : list Z) (d : Z) : Z :=
  match l with
  | [] => d
  | y :: l' => if y =? x then hd d l' else after x l' d
  end.

Definition succ_of (l : list Z) (x : Z) : Z := after x l (hd 0 l).

(** The reference policy. *)
Definition rr_pick (idle current : Z) (run : list Z) : Z :=
  if decide (current ∈ run) then succ_of run current
  else if current =? idle then match run with [] => idle | h :: _ => succ_of run h end
  else idle.

Lemma after_app x l1 l2 d : x ∉ l1 -> after x (l1 ++ x :: l2) d = hd d l2.
Proof.
  induction l1 as [|y l1 IH]; intros Hn; simpl; [by rewrite Z.eqb_refl|].
  rewrite eqb_ne by set_solver. apply IH. set_solver.
Qed.

Lemma queue_succ m head l x : queue m head l -> x ∈ l -> t_next m x = succ_of l x.
Proof.
  intros Hq (l1 & l2 & ->)%list_elem_of_split. rewrite (queue_next _ _ _ _ _ Hq).
  assert (x ∉ l1).
  { destruct Hq as [_ (_ & Hd & _)%NoDup_app _]. intros Hx. apply (Hd x Hx). by left. }
  unfold succ_of. rewrite after_app by done. destruct l1; done.
Qed.

Lemma succ_of_in l x : x ∈ l -> succ_of l x ∈ l.
Proof.
  intros Hx. unfold succ_of. assert (hd 0 l ∈ l) as Hh by (destruct l; set_solver).
  revert Hh. generalize (hd 0 l). intros d Hd. clear Hx.
  assert (forall k, k ⊆ l -> after x k d ∈ l) as Hk; [|by apply Hk].
  induction k as [|y k IH]; intros Hs; simpl; [done|]. case_Z; [|apply IH; set_solver].
  destruct k; set_solver.
Qed.

(** No task of the queue can run: the search ends with the idle task. *)
Lemma rr_loop_none n m idle head l x :
  queue m head l -> x ∈ l ->
  (forall t, t ∈ l -> t_status m t = EXITED \/ t_status m t = BLOCKED) ->
  exists y, rr_loop n m idle x = (y, idle) /\ y ∈ l.
Proof.
  intros Hq Hx Hst. revert x Hx. induction n as [|n IH]; intros x Hx; simpl; [by exists x|].
  rewrite (queue_succ _ _ _ _ Hq Hx). pose proof (succ_of_in _ _ Hx) as Hs.
  destruct (Hst _ Hs) as [-> | ->]; apply IH; done.
Qed.

Lemma rr_loop_some n m idle head l x :
  queue m head l -> x ∈ l -> (forall t, t ∈ l -> runnable (t_status m t)) -> (0 < n)%nat ->
  rr_loop n m idle x = (succ_of l x, succ_of l x).
Proof.
  intros Hq Hx Hst Hn. destruct n as [|n]; [lia|]. simpl.
  rewrite (queue_succ _ _ _ _ Hq Hx).
  by destruct (Hst _ (succ_of_in _ _ Hx)) as [-> | [-> | ->]].
Qed.

Lemma select_spec m s run wait done_ :
  sched_ok m s run wait done_ -> __current_task s ∈ all_tasks s run wait done_ ->
  exists c, sched_select_next_rr m s = (upd_current s c, rr_pick (__idle_task s) (__current_task s) run).
Proof.
  intros Hok Hcur. pose proof Hok as [Hr Hw Hd Hnd Ht Hc Hm _ _ Hrs Hws Hds _].
  unfold all_tasks in *. apply NoDup_cons in Hnd as [Hi Hnd].
  unfold sched_select_next_rr, rr_pick.
  set (n := Z.to_nat (u32 (__thread_count s + 1))).
  assert (0 < n)%nat as Hn by (unfold n; rewrite Hc, u32_small by lia; lia).
  destruct (Z.eqb_spec (__current_task s) (__idle_task s)) as [Ei|Ei].
  - rewrite decide_False by (rewrite Ei; set_solver). simpl. fold n. rewrite (q_head _ _ _ Hr).
    destruct run as [|h run']; simpl; [by exists 0|].
    pose proof (tasks_range _ Ht h ltac:(set_solver)). rewrite c_true_nonzero by lia. simpl.
    rewrite (rr_loop_some _ _ _ _ _ _ Hr); [by eexists|set_solver|set_solver|done].
  - case_decide as Hin.
    + rewrite (q_head _ _ _ Hr). destruct run as [|h run']; [set_solver|]. simpl hd.
      pose proof (tasks_range _ Ht h ltac:(set_solver)). rewrite c_true_nonzero by lia. cbn [negb]. fold n.
      rewrite (rr_loop_some _ _ _ _ _ _ Hr); [by eexists|set_solver|set_solver|done].
    + destruct (c_true (__runq_head s)) eqn:Er; cbn [negb]; fold n; [|exists (__current_task s); by destruct s].
      assert (exists y, rr_loop n m (__idle_task s) (__current_task s)
        = (y, __idle_task s)) as [y ->]; [|by exists y].
      apply elem_of_cons in Hcur as [?|Hcur]; [done|].
      rewrite !elem_of_app in Hcur. destruct Hcur as [?|[Hcur|Hcur]]; [done|..].
      * destruct (rr_loop_none n m (__idle_task s) _ _ _ Hw Hcur) as (y & -> & _); eauto.
      * destruct (rr_loop_none n m (__idle_task s) _ _ _ Hd Hcur) as (y & -> & _); eauto.
Qed.

(** [n] selections in a row, with nothing else happening. *)
Fixpoint picks (n : nat) (m : mem) (s : sched_state) : list Z :=
  match n with
  | O => []
  | S k => let '(s', t) := sched_select_next_rr m s in t :: picks k m (upd_current s' t)
  end.

(** Following the links of runnable tasks. *)
Lemma picks_linked m idle l :
  idle ∉ l -> (forall t, t ∈ l -> runnable (t_status m t)) ->
  forall s x, linked (t_next m) (t_prev m) x l -> __idle_task s = idle ->
  __current_task s = x -> x <> idle -> __runq_head s <> 0 ->
  0 <= __thread_count s < 4294967295 -> picks (length l) m s = l.
Proof.
  intros Hi Hst. induction l as [|y l IH]; intros s x Hl Es Ec Hx Hq Hn; [done|].
  destruct Hl as (En & _ & Hl). simpl. unfold sched_select_next_rr.
  rewrite Es, Ec, eqb_ne, c_true_nonzero by done. cbn [negb].
  assert (exists k, Z.to_nat (u32 (__thread_count s + 1)) = S k) as [k ->].
  { rewrite u32_small by lia. exists (Z.to_nat (__thread_count s)). lia. }
  simpl. rewrite ?Ec, En.
  assert (negb (t_status m y =? EXITED) && negb (t_status m y =? BLOCKED) = true) as ->
    by (by destruct (Hst y) as [-> | [-> | ->]]; [by left|..]).
  f_equal. apply IH with (x := y); simpl; set_solver.
Qed.

(** ** The steps of [schedule] *)

Definition none_running (m : mem) (U : list Z) : Prop := forall t, t ∈ U -> t_status m t <> RUNNING.

Lemma status_set_status U m x st t :
  tasks U -> x ∈ U -> t ∈ U ->
  t_status (set_status m x st) t = if decide (x = t) then u32 st else t_status m t.
Proof.
  intros HU Hx Ht. unfold_task. rewrite (field_store U) by (done || lia).
  repeat case_decide; try lia; done.
Qed.

Lemma sched_ok_set_status m s run wait done_ x st :
  sched_ok m s run wait done_ -> x = __idle_task s \/ x ∈ run ->
  st = READY \/ (st = RUNNING /\ x = __current_task s) ->
  sched_ok (set_status m x st) s run wait done_.
Proof.
  intros [Hr Hw Hd Hnd Ht Hc Hm Hl Hrn Hrs Hws Hds Hst] Hx Hs.
  assert (x ∈ all_tasks s run wait done_) as Hxa by (unfold all_tasks; set_solver).
  assert (run ⊆ all_tasks s run wait done_ /\ wait ⊆ all_tasks s run wait done_ /\
    done_ ⊆ all_tasks s run wait done_) as (Sr & Sw & Sd) by (unfold all_tasks; set_solver).
  assert (u32 st = st) as Eu by (apply u32_small; unfold READY, RUNNING in *; lia).
  assert (forall t, t ∈ all_tasks s run wait done_ ->
    t_status (set_status m x st) t = if decide (x = t) then st else t_status m t) as E.
  { intros t Hin. by rewrite (status_set_status (all_tasks s run wait done_)), Eu by done. }
  assert (forall head l, l ⊆ all_tasks s run wait done_ -> queue m head l ->
    queue (set_status m x st) head l) as Q by (intros head l Hsub; by apply (queue_set_field _ _ _ (all_tasks s run wait done_))).
  assert (x ∉ wait ++ done_) as Hxn.
  { unfold all_tasks in Hnd. apply NoDup_cons in Hnd as [Hni (_ & Hdj & _)%NoDup_app].
    destruct Hx as [->|Hx]; [set_solver|by apply Hdj]. }
  split; auto.
  - intros t Hin. rewrite E by done. case_decide; [|by apply Hrn]. subst. unfold READY, RUNNING in *. naive_solver.
  - intros t Hin. rewrite E by (unfold all_tasks; set_solver). case_decide; [|by apply Hrs].
    unfold runnable. naive_solver.
  - intros t Hin. rewrite E by auto. rewrite decide_False by set_solver. by apply Hws.
  - intros t Hin. rewrite E by auto. rewrite decide_False by set_solver. by apply Hds.
  - intros t Hin. rewrite E by done. case_decide as Hd'; [unfold NEW, READY, RUNNING in *; lia|].
    intros Hn. assert (t_esp (set_status m x st) t = t_esp m t) as ->; [|by apply Hst].
    unfold_task. rewrite <- (Z.add_0_r t) at 1.
    rewrite (field_store (all_tasks s run wait done_)), decide_False by (done || lia). by rewrite Z.add_0_r.
Qed.

Lemma sched_ok_upd_current m s run wait done_ x :
  sched_ok m s run wait done_ -> none_running m (all_tasks s run wait done_) ->
  sched_ok m (upd_current s x) run wait done_.
Proof.
  intros [Hr Hw Hd Hnd Ht Hc Hm Hl Hrn Hrs Hws Hds Hst] Hn. split; try done.
  intros t Hin Hs. by destruct (Hn t).
Qed.

(** Fields that the wait queue service does not touch. *)
Lemma wake_frame_field U U' m m' t j :
  tasks U -> U' ⊆ U -> t ∈ U -> ((t ∉ U') /\ 0 <= j <= 108 \/ 0 <= j <= 24) ->
  same_on (wake_frame U') m m' -> load32 m' (t + j) = load32 m (t + j).
Proof.
  intros HU HU' Ht Hj Hs. apply (same_on_load32 _ _ _ _ Hs). intros i Hi u Hu.
  destruct (tasks_sep _ HU u t (HU' _ Hu) Ht) as [->|[|]]; unfold off, TASK_SIZE in *;
    [|lia..]. destruct Hj as [[? _]|]; [done|lia].
Qed.

Lemma wakes_in m wait : wakes m wait ⊆ wait.
Proof.
  destruct wait as [|w ws]; [done|]. simpl. destruct (expired m w); [set_solver|].
  intros t [_ Ht]%list_elem_of_filter. by right.
Qed.

Lemma filter_partition (P : Z -> Prop) `{!forall t, Decision (P t)} (l : list Z) :
  l ≡ₚ filter P l ++ filter (fun t => ~ P t) l.
Proof.
  induction l as [|x l IH]; [done|]. rewrite !filter_cons.
  case_decide; [rewrite decide_False by tauto|rewrite decide_True by tauto]; simpl; [by f_equiv|].
  rewrite <- Permutation_middle. by f_equiv.
Qed.

Lemma wakes_stays m wait : wait ≡ₚ wakes m wait ++ stays m wait.
Proof.
  destruct wait as [|w ws]; [done|]. simpl. destruct (expired m w); [done|].
  rewrite <- Permutation_middle. f_equiv. apply (filter_partition (expired m)).
Qed.

Lemma woken_status_all U U' W m m' t :
  tasks U -> U' ⊆ U -> W ⊆ U' -> t ∈ U -> woken U' W m m' ->
  t_status m' t = if decide (t ∈ W) then READY else t_status m t.
Proof.
  intros HU HU' HW Ht Hw. destruct (decide (t ∈ U')) as [Hin|Hin].
  - by apply (woken_status _ _ _ _ Hw).
  - rewrite decide_False by auto. unfold t_status.
    apply (wake_frame_field U U'); [done|done|done|left; split; [done|lia]|apply Hw].
Qed.

Lemma woken_esp U U' W m m' t :
  tasks U -> U' ⊆ U -> t ∈ U -> woken U' W m m' -> t_esp m' t = t_esp m t.
Proof.
  intros HU HU' Ht Hw. unfold t_esp. rewrite <- (Z.add_0_r t).
  apply (wake_frame_field U U'); [done|done|done|right; lia|apply Hw].
Qed.

Lemma all_tasks_service m s s' run wait done_ :
  same_but_queues s s' ->
  all_tasks s' (run ++ wakes m wait) (stays m wait) done_ ≡ₚ all_tasks s run wait done_.
Proof.
  unfold all_tasks. intros ->. simpl. f_equiv. rewrite (wakes_stays m wait) at 3.
  by rewrite <- !app_assoc.
Qed.

(** Waiting tasks are in no other queue, and those that stay are not woken. *)
Lemma waiting_apart m s run wait done_ :
  NoDup (all_tasks s run wait done_) ->
  (forall t, t ∈ wait -> t ∉ __idle_task s :: run ++ done_) /\
  (forall t, t ∈ stays m wait -> t ∈ wait /\ t ∉ wakes m wait).
Proof.
  intros Hnd. pose proof (wakes_stays m wait) as HP. unfold all_tasks in Hnd.
  apply NoDup_cons in Hnd as [Hni (_ & Hd1 & (Hnw & Hd2 & _)%NoDup_app)%NoDup_app]. split.
  - intros t Hin. rewrite elem_of_cons, elem_of_app. intros [->|[Hin'|Hin']];
      [set_solver|by apply (Hd1 t); set_solver|by apply (Hd2 t)].
  - intros t Hin. split; [rewrite HP; set_solver|].
    rewrite HP in Hnw. apply NoDup_app in Hnw as (_ & Hd & _). intros Hx. by apply (Hd t).
Qed.

(** Waking the tasks that are due keeps the invariant, given what it does to the queues
    and the fields. *)
Lemma sched_ok_wake m s run wait done_ m' s' :
  let U := all_tasks s run wait done_ in
  let run' := run ++ wakes m wait in
  let wait' := stays m wait in
  sched_ok m s run wait done_ -> same_but_queues s s' ->
  queue m' (__runq_head s') run' -> queue m' (__waitq_head s') wait' ->
  woken (run ++ wait) (wakes m wait) m m' ->
  (forall t, t ∈ U -> t_status m' t = if decide (t ∈ wakes m wait) then READY else t_status m t) ->
  all_tasks s' run' wait' done_ ≡ₚ U -> sched_ok m' s' run' wait' done_.
Proof.
  intros U run' wait' [Hr Hw Hd Hnd Ht Hc Hm Hl Hrn Hrs Hws Hds Hst] Hs Hqr Hqw Hwk Est HA.
  destruct (waiting_apart m s run wait done_ Hnd) as [Hdj Hst'].
  assert (run ++ wait ⊆ U) as Hsub by (unfold U, all_tasks; set_solver).
  pose proof (Permutation_length (wakes_stays m wait)) as HL. rewrite length_app in HL.
  assert (__idle_task s' = __idle_task s /\ __current_task s' = __current_task s /\
    __doneq_head s' = __doneq_head s /\ __thread_count s' = __thread_count s /\
    __global_sched_lock s' = __global_sched_lock s) as (Ei & Ec & Ed & Et & El) by (by rewrite Hs).
  split; rewrite ?Ei, ?Ec; try done.
  - rewrite Ed. apply (queue_ext m); [|done]. intros t Hin. unfold t_next, t_prev.
    assert (t ∉ run ++ wait).
    { rewrite elem_of_app. intros [Hx|Hx]; [|by apply Hdj in Hx; set_solver].
      unfold all_tasks in Hnd. apply NoDup_cons in Hnd as [_ (_ & Hd1 & _)%NoDup_app].
      apply (Hd1 t Hx). set_solver. }
    assert (t ∈ U) by (unfold U, all_tasks; set_solver).
    split; apply (wake_frame_field U (run ++ wait));
      (done || (left; split; [done|lia]) || apply Hwk).
  - by rewrite HA.
  - eapply tasks_incl; [|exact Ht]. intros t. by rewrite HA.
  - rewrite Et, Hc. f_equal. unfold run', wait'. rewrite length_app. lia.
  - unfold run', wait'. rewrite length_app. lia.
  - by rewrite El.
  - intros t Hin. rewrite HA in Hin. rewrite Est by done. case_decide; [done|by apply Hrn].
  - intros t Hin. unfold run' in Hin. rewrite elem_of_app in Hin. pose proof (wakes_in m wait).
    rewrite Est by (unfold U, all_tasks; set_solver).
    case_decide; [by right; left|]. apply Hrs. naive_solver.
  - intros t Hin. destruct (Hst' t Hin) as [Hin1 Hin2].
    rewrite Est, decide_False by (done || unfold U, all_tasks; set_solver). by apply Hws.
  - intros t Hin. rewrite Est by (unfold U, all_tasks; set_solver).
    rewrite decide_False; [by apply Hds|]. intros Hx%(wakes_in m wait)%Hdj. set_solver.
  - intros t Hin. rewrite HA in Hin. rewrite Est by done. case_decide; [done|]. intros HN.
    rewrite (woken_esp U (run ++ wait) _ m m') by done.
    destruct (Hst t Hin HN) as [? Ho]. split; [done|]. intros u Hu. apply Ho. by rewrite HA in Hu.
Qed.

Lemma sched_ok_service fuel m s run wait done_ :
  sched_ok m s run wait done_ -> none_running m (all_tasks s run wait done_) ->
  (length wait <= fuel)%nat ->
  let run' := run ++ wakes m wait in
  let wait' := stays m wait in
  exists m' s',
    (if c_true (__waitq_head s) then service_waitq fuel m s else Some (m, s)) = Some (m', s') /\
    sched_ok m' s' run' wait' done_ /\ none_running m' (all_tasks s' run' wait' done_) /\
    same_but_queues s s' /\ woken (run ++ wait) (wakes m wait) m m'.
Proof.
  intros Hok Hn Hfuel run' wait'.
  pose proof Hok as [Hr Hw Hd Hnd Ht Hc Hm Hl Hrn Hrs Hws Hds Hst].
  destruct wait as [|w ws].
  { exists m, s. rewrite (q_head _ _ _ Hw). unfold run', wait'. simpl. rewrite app_nil_r.
    split_and!; [done|done|done|by destruct s|apply woken_refl]. }
  assert (w ∈ all_tasks s run (w :: ws) done_) as Hwa by (unfold all_tasks; set_solver).
  pose proof (tasks_range _ Ht w Hwa). rewrite (q_head _ _ _ Hw), c_true_nonzero by (simpl; lia).
  assert (run ++ w :: ws ⊆ all_tasks s run (w :: ws) done_) as Hsub by (unfold all_tasks; set_solver).
  assert (NoDup (run ++ w :: ws)) as Hnd1.
  { unfold all_tasks in Hnd. apply NoDup_cons in Hnd as [_ Hnd].
    rewrite app_assoc in Hnd. by apply NoDup_app in Hnd as [? _]. }
  destruct (service_waitq_spec (run ++ w :: ws) fuel m s run w ws) as (m' & s' & E & [Hqr Hqw] & Hwk & Hs);
    [done|done|by eapply tasks_incl|done|done|].
  pose proof (all_tasks_service m s s' run (w :: ws) done_ Hs) as HA.
  assert (forall t, t ∈ all_tasks s run (w :: ws) done_ ->
    t_status m' t = if decide (t ∈ wakes m (w :: ws)) then READY else t_status m t) as Est.
  { intros t Hin. pose proof (wakes_in m (w :: ws)).
    apply (woken_status_all (all_tasks s run (w :: ws) done_) (run ++ w :: ws)); [done|done|set_solver|done|done]. }
  fold run' wait' in Hqr, Hqw, HA. exists m', s'. split_and!; [done| | |done|done].
  - by apply (sched_ok_wake m s).
  - intros t Hin. rewrite HA in Hin. rewrite Est by done. case_decide; [done|by apply Hn].
Qed.

(** Saving the context of a task that has run is invisible to the invariant. *)
Lemma save_view U m c x m' c' :
  tasks U -> x ∈ U -> t_status m x <> NEW -> off_tasks U (esp c - 52) 52 ->
  SAVE_CONTEXT m c x = (m', c') ->
  task_view U m m' /\
  (forall t, t ∈ U -> t_utime m' t = t_utime m t /\ t_sleep_time m' t = t_sleep_time m t).
Proof.
  intros HU Hx HN Ho E. rewrite SAVE_CONTEXT_pushes in E.
  pose proof (push_list_spec (context_words c) m c) as Hp. simpl length in Hp.
  destruct (push_list (m, c) (context_words c)) as [m0 c0]. destruct Hp as (_ & Hoff & _).
  simplify_eq. simpl (Z.of_nat 13) in *.
  assert (forall t j, t ∈ U -> 0 <= j <= 108 -> (t <> x \/ 4 <= j) ->
    load32 (set_esp m0 x (esp c')) (t + j) = load32 m (t + j)) as E.
  { intros t j Ht Hj Hne. unfold set_esp. rewrite load32_store32_ne; cycle 1.
    { destruct (tasks_sep _ HU x t Hx Ht) as [|[|]]; unfold TASK_SIZE in *; lia. }
    apply (same_on_load32 _ _ _ _ Hoff). specialize (Ho t Ht). unfold off, TASK_SIZE in *. lia. }
  split; [|intros t Ht; split; apply E; done || lia].
  intros t Ht. split_and!; [by apply E; [|lia..]..|]. intros HNt.
  unfold t_esp. rewrite <- (Z.add_0_r t). apply E; [done|lia|left; congruence].
Qed.

(** The context is saved and a running task becomes ready. *)
Lemma sched_ok_save m s c run wait done_ m' c' :
  sched_ok m s run wait done_ ->
  let U := all_tasks s run wait done_ in
  __current_task s ∈ U ->
  (t_status m (__current_task s) <> NEW -> off_tasks U (esp c - 52) 52) ->
  (if negb (t_status m (__current_task s) =? NEW) then SAVE_CONTEXT m c (__current_task s)
   else (m, c)) = (m', c') ->
  let m'' := if t_status m' (__current_task s) =? RUNNING
             then set_status m' (__current_task s) READY else m' in
  sched_ok m'' s run wait done_ /\ none_running m'' U /\
  (forall t, t ∈ U -> (t_status m'' t = NEW <-> t_status m t = NEW) /\
     (t_status m t = NEW -> t_esp m'' t = t_esp m t) /\
     t_utime m'' t = t_utime m t /\ t_sleep_time m'' t = t_sleep_time m t).
Proof.
  intros Hok U Hcur Hoff E m''. set (x := __current_task s) in *.
  pose proof (so_tasks _ _ _ _ _ Hok) as HU. fold U in HU.
  assert (task_view U m m' /\
    (forall t, t ∈ U -> t_utime m' t = t_utime m t /\ t_sleep_time m' t = t_sleep_time m t)) as [Hv Ht].
  { destruct (Z.eqb_spec (t_status m x) NEW) as [|HN]; simpl in E; [simplify_eq; by split|].
    eapply save_view; [done|exact Hcur|done|by apply Hoff|exact E]. }
  pose proof (sched_ok_view _ _ _ _ _ _ Hok Hv) as Hok1.
  assert (forall t, t ∈ U -> t_status m' t = t_status m t) as Est
    by (intros t Hin; by destruct (Hv t Hin) as (_ & _ & ? & _)).
  unfold m''. destruct (Z.eqb_spec (t_status m' x) RUNNING) as [ER|ER].
  - assert (x = __idle_task s \/ x ∈ run) as Hx.
    { unfold U, all_tasks in Hcur. rewrite elem_of_cons, !elem_of_app in Hcur.
      destruct Hcur as [?|[?|[Hw|Hd]]]; [by left|by right|..].
      - apply (so_wait_st _ _ _ _ _ Hok1) in Hw. by rewrite Hw in ER.
      - apply (so_done_st _ _ _ _ _ Hok1) in Hd. by rewrite Hd in ER. }
    split_and!; [apply sched_ok_set_status; [done|done|by left]| |].
    + intros t Hin. rewrite (status_set_status U) by done. case_decide as Hxt; [done|].
      intros Hr. apply Hxt. symmetry. by apply (so_running _ _ _ _ _ Hok1).
    + intros t Hin. rewrite (status_set_status U) by done. split_and!.
      * rewrite <- Est by done. case_decide; [subst t; rewrite ER; done|done].
      * intros HNt. destruct (Hv t Hin) as (_ & _ & _ & He). rewrite <- He by done. unfold_task.
        rewrite <- (Z.add_0_r t) at 1. rewrite (field_store U), decide_False by (done || lia).
        by rewrite Z.add_0_r.
      * destruct (Ht t Hin) as [<- _]. unfold_task. by rewrite (field_store U), decide_False by (done || lia).
      * destruct (Ht t Hin) as [_ <-]. unfold_task. by rewrite (field_store U), decide_False by (done || lia).
  - split_and!; [done| |].
    + intros t Hin Hr. apply ER. apply (so_running _ _ _ _ _ Hok1) in Hr as Hr'; [by subst t|done].
    + intros t Hin. rewrite Est by done. destruct (Hv t Hin) as (_ & _ & _ & He). by destruct (Ht t Hin).
Qed.

Lemma start_frame m c x fin m' c' :
  START_NEW_THREAD m c x fin = (m', c') -> same_off (t_esp m x - 12) 12 m m'.
Proof.
  intros E.
  pose proof (push_list_spec [0; fin; t_arg m x] m (with_esp c (t_esp m x))) as Hp.
  unfold START_NEW_THREAD in E. simpl in E, Hp. destruct Hp as (_ & Hoff & _). by simplify_eq.
Qed.

Lemma rr_pick_in idle current run : rr_pick idle current run ∈ idle :: run.
Proof.
  unfold rr_pick. case_decide as Hin; [right; by apply succ_of_in|].
  destruct (current =? idle); [|by left]. destruct run as [|h run]; [by left|].
  right. apply succ_of_in. by left.
Qed.

Lemma wakes_ext m m' wait :
  (forall t, t ∈ wait -> expired m' t = expired m t) ->
  wakes m' wait = wakes m wait /\ stays m' wait = stays m wait.
Proof.
  intros He. destruct wait as [|w ws]; [done|]. simpl. rewrite He by (by left).
  destruct (expired m w); [done|].
  split; [|f_equal]; apply list_filter_ext; intros t Ht; by rewrite He by (by right).
Qed.

(** Part 3 of [schedule]: the chosen task runs. *)
Lemma sched_ok_switch m s c run wait done_ finalizer x :
  sched_ok m s run wait done_ -> none_running m (all_tasks s run wait done_) ->
  x = __idle_task s \/ x ∈ run ->
  let s1 := upd_current s x in
  exists m' c',
    (if t_status m x =? NEW then
       let m := set_status m x RUNNING in
       let '(m, c) := START_NEW_THREAD m c x finalizer in
       Some (m, s1, c, Started (t_callable m x))
     else
       let m := set_status m x RUNNING in Some (m, s1, DISPATCH m c x, Resumed))
    = Some (m', s1, c', if t_status m x =? NEW then Started (t_callable m' x) else Resumed) /\
    sched_ok m' s1 run wait done_ /\ t_status m' x = RUNNING.
Proof.
  intros Hok Hn Hx s1.
  assert (x ∈ all_tasks s run wait done_) as Hxa by (unfold all_tasks; set_solver).
  pose proof (so_tasks _ _ _ _ _ Hok) as HU.
  assert (sched_ok (set_status m x RUNNING) s1 run wait done_) as Hok1.
  { apply sched_ok_set_status; [by apply sched_ok_upd_current|done|by right]. }
  assert (t_status (set_status m x RUNNING) x = RUNNING) as Er
    by (by rewrite (status_set_status _ _ _ _ _ HU), decide_True).
  destruct (Z.eqb_spec (t_status m x) NEW) as [HN|HN]; [|by eexists _, _].
  destruct (so_stacks _ _ _ _ _ Hok x Hxa HN) as [H12 Ho].
  cbv zeta. destruct (START_NEW_THREAD (set_status m x RUNNING) c x finalizer) as [m' c'] eqn:E.
  apply start_frame in E. exists m', c'.
  assert (t_esp (set_status m x RUNNING) x = t_esp m x) as Ee
    by (unfold_task; by rewrite load32_store32_ne by lia).
  rewrite Ee in E. pose proof (task_view_off _ _ _ _ _ Ho E) as Hv.
  split_and!; [done|by apply (sched_ok_view _ _ _ _ _ _ Hok1)|].
  by destruct (Hv x Hxa) as (_ & _ & -> & _).
Qed.

Lemma schedule_spec finalizer fuel m s c run wait done_ :
  let U := all_tasks s run wait done_ in
  sched_ok m s run wait done_ -> __current_task s ∈ U ->
  (t_status m (__current_task s) <> NEW -> off_tasks U (esp c - 52) 52) ->
  (length wait <= fuel)%nat ->
  let run' := run ++ wakes m wait in
  let next := if t_status m (__current_task s) =? NEW then __current_task s
              else rr_pick (__idle_task s) (__current_task s) run' in
  exists m' s' c', schedule finalizer fuel m s c
      = Some (m', s', c', if t_status m next =? NEW then Started (t_callable m' next) else Resumed) /\
    sched_ok m' s' run' (stays m wait) done_ /\
    __idle_task s' = __idle_task s /\ __current_task s' = next /\ t_status m' next = RUNNING.
Proof.
  intros U Hok Hcur Hoff Hfuel run' next. unfold schedule.
  destruct (if negb (t_status m (__current_task s) =? NEW) then _ else _) as [m1 c1] eqn:E1.
  destruct (sched_ok_save m s c run wait done_ m1 c1 Hok Hcur Hoff E1) as (Hok2 & Hn2 & Ht2).
  set (m2 := if t_status m1 (__current_task s) =? RUNNING then _ else _) in *. fold U in Ht2.
  destruct (wakes_ext m m2 wait) as [Ew Es].
  { intros t Ht. unfold expired. destruct (Ht2 t) as (_ & _ & -> & ->); [|done].
    unfold U, all_tasks. set_solver. }
  destruct (sched_ok_service fuel m2 s run wait done_ Hok2 Hn2 Hfuel)
    as (m3 & s3 & E3 & Hok3 & Hn3 & Hs3 & Hw3).
  rewrite Ew, Es in *. fold run' in Hok3, Hn3. rewrite E3. simpl.
  assert (__idle_task s3 = __idle_task s /\ __current_task s3 = __current_task s) as [Ei Ec]
    by (by rewrite Hs3).
  assert (forall t, t ∈ U -> t_status m3 t = NEW <-> t_status m t = NEW) as HN.
  { intros t Ht. destruct (Ht2 t Ht) as [<- _].
    assert (run ++ wait ⊆ U) as HsU by (unfold U, all_tasks; clear; set_solver).
    pose proof (wakes_in m wait) as HW.
    assert (wakes m wait ⊆ run ++ wait) as HW' by (clear -HW; set_solver).
    rewrite (woken_status_all U _ _ m2 m3 t (so_tasks _ _ _ _ _ Hok) HsU HW' Ht Hw3).
    case_decide as Hin; [|done]. apply wakes_in in Hin.
    split; [done|]. rewrite (so_wait_st _ _ _ _ _ Hok2 t Hin). done. }
  assert (forall t, t ∈ U -> (t_status m3 t =? NEW) = (t_status m t =? NEW)) as HNb.
  { intros t Ht. specialize (HN t Ht). repeat case_Z; tauto. }
  assert (__current_task s3 ∈ all_tasks s3 run' (stays m wait) done_) as Hcur3.
  { rewrite Ec. unfold run'. by rewrite (all_tasks_service m s s3) by done. }
  assert (next = __idle_task s \/ next ∈ run') as Hnext.
  { unfold next. destruct (Z.eqb_spec (t_status m (__current_task s)) NEW) as [HNc|HNc].
    - unfold U, all_tasks in Hcur. rewrite elem_of_cons, !elem_of_app in Hcur.
      destruct Hcur as [?|[?|[Hw|Hd]]]; [by left|right; set_solver|..].
      + apply (so_wait_st _ _ _ _ _ Hok) in Hw. by rewrite Hw in HNc.
      + apply (so_done_st _ _ _ _ _ Hok) in Hd. by rewrite Hd in HNc.
    - by pose proof (rr_pick_in (__idle_task s) (__current_task s) run') as [?|?]%elem_of_cons; auto. }
  assert ((if negb (t_status m3 (__current_task s3) =? NEW)
    then let '(s, task) := sched_select_next_rr m3 s3 in upd_current s task else s3)
    = upd_current s3 next) as Hsel.
  { rewrite Ec, HNb by done. unfold next. destruct (t_status m (__current_task s) =? NEW); simpl.
    - rewrite <- Ec. by destruct s3.
    - destruct (select_spec _ _ _ _ _ Hok3 Hcur3) as [c' ->]. by rewrite Ei, Ec. }
  rewrite Hsel. simpl.
  destruct (sched_ok_switch m3 s3 c1 run' (stays m wait) done_ finalizer next Hok3 Hn3)
    as (m' & c' & E & Hok' & Hr'); [by rewrite Ei|].
  exists m', (upd_current s3 next), c'. rewrite <- (HNb next).
  - split_and!; [exact E|done|done|done|done].
  - unfold U. rewrite <- (all_tasks_service m s s3 run wait done_ Hs3). fold run'. unfold all_tasks.
    rewrite Ei. set_solver.
Qed.
