(* ===== verification/SchedExample.v ===== *)
(** * SchedExample: a kernel with three threads

    Concrete states reached by running the modelled code: the heap is
    initialised from a memory map, the scheduler is initialised and three
    threads are registered through the allocator of Kmalloc.v, and the first
    one is started.  They instantiate the hypotheses of the theorems on the
    scheduler. *)

From S2P Require Import Prelude Memory Klib Mutex Kmalloc KmallocStore KmallocProps Heap.
From S2P Require Import Context SchedQueue Sched SchedProps SchedInv.

(** ** The states *)

Definition ex_fuel : nat := Z.to_nat 0x2100.
Definition ex_st : kmalloc_state := KState 0x900000 0x900000 0x920000 0x20000.
Definition ex_kmalloc (m : mem) (n : Z) : option (mem * Z) := kmalloc ex_fuel m ex_st n.
Definition ex_kfree (m : mem) (p : Z) : option mem := kfree ex_fuel m ex_st p.

#[export] Instance ex_heap : Heap ex_kmalloc ex_kfree := kmalloc_heap ex_fuel ex_st.

Definition ex_mem0 : mem :=
  match init_kmalloc 2 (store32 boot_mem (0x2000 + 12) 0x820000) 0x1000 with
  | Some (m, _) => m
  | None => mem_zero
  end.

Definition ex_sched0 : sched_state := SchedState unlocked 0 0 0 0 0 0 0 0.

Definition ex_ret (x : option (mem * sched_state)) : mem * sched_state :=
  default (mem_zero, ex_sched0) x.

Definition ex_register (p : mem * sched_state) (f a : Z) : mem * sched_state :=
  ex_ret ('(m, s, _) ← sched_register_thread ex_kmalloc p.1 p.2 f a; Some (m, s)).

(** The idle task's structure and the threads'. *)
Definition ex_idle : Z := 0x900010.
Definition ex_A : Z := 0x9001a0.
Definition ex_B : Z := 0x902230.
Definition ex_C : Z := 0x9042c0.

Definition ex_init : mem * sched_state := ex_ret (init_sched ex_kmalloc 0x5000 ex_mem0 ex_sched0).
Definition ex_three : mem * sched_state :=
  ex_register (ex_register (ex_register ex_init 0x6000 1) 0x6100 2) 0x6200 3.

(** The processor when the kernel calls [schedule] for the first time, on the boot stack. *)
Definition ex_cpu : cpu := Cpu 0 0 0 0 0 0 0 0x8000 0 0 0 0 0 0.

Definition ex_started : mem * sched_state * cpu :=
  default (ex_three, ex_cpu) ('(m, s, c, _) ← schedule 0x7000 3 ex_three.1 ex_three.2 ex_cpu; Some (m, s, c)).

Definition ex_run : list Z := [ex_A; ex_B; ex_C].

(** Structure and stack of the idle task and of the threads. *)
Definition ex_live : live_t :=
  [(0x904340, 0x2000); (ex_C, 112); (0x9022b0, 0x2000); (ex_B, 112); (0x900220, 0x2000); (ex_A, 112); (0x900090, 0x100); (ex_idle, 112)].

(** ** They satisfy the invariants *)

Ltac each_task :=
  match goal with
  | |- forall t, t ∈ ?l -> @?P t =>
      apply (proj1 (Forall_forall P l)); repeat (apply Forall_cons; split); [..|by apply Forall_nil]
  end.

Ltac eval_esp :=
  match goal with
  | |- context [t_esp ?m ?t] =>
      let v := eval vm_compute in (t_esp m t) in
      replace (t_esp m t) with v by (by vm_compute)
  end.

Lemma ex_tasks : tasks [ex_idle; ex_A; ex_B; ex_C].
Proof. split; unfold TASK_SIZE, ex_idle, ex_A, ex_B, ex_C; intros; set_unfold; lia. Qed.

Lemma ex_stack_off a :
  a + 12 <= 0x900010 \/ 0x900080 <= a /\ a + 12 <= 0x9001a0 \/
  0x900210 <= a /\ a + 12 <= 0x902230 \/ 0x9022a0 <= a /\ a + 12 <= 0x9042c0 \/ 0x904330 <= a ->
  off_tasks [ex_idle; ex_A; ex_B; ex_C] a 12.
Proof.
  unfold off_tasks, TASK_SIZE, ex_idle, ex_A, ex_B, ex_C. intros Ha t Ht. set_unfold. lia.
Qed.

(** [m] and [s] have the three threads in the run queue. *)
Lemma ex_sched_ok m s :
  (__idle_task s, __runq_head s, __waitq_head s, __doneq_head s) = (ex_idle, ex_A, 0, 0) ->
  __thread_count s = 3 -> __global_sched_lock s = unlocked ->
  ring (t_next m) (t_prev m) ex_run ->
  (forall t, t ∈ [ex_idle; ex_A; ex_B; ex_C] -> t_status m t = NEW \/
     t_status m t = RUNNING /\ t = __current_task s) ->
  (forall t, t ∈ [ex_idle; ex_A; ex_B; ex_C] -> t_status m t = NEW ->
     12 <= t_esp m t /\ off_tasks [ex_idle; ex_A; ex_B; ex_C] (t_esp m t - 12) 12) ->
  sched_ok m s ex_run [] [].
Proof.
  intros E Hc Hl Hr Hst Hstk. injection E as Ei Eq Ew Ed.
  split; unfold all_tasks, ex_run; simpl; rewrite ?Ei, ?Eq, ?Ew, ?Ed; try done.
  - split; [done|by apply (bool_decide_unpack _)|done].
  - by split; [|constructor|].
  - by split; [|constructor|].
  - by apply (bool_decide_unpack _).
  - exact ex_tasks.
  - lia.
  - intros t Ht Hrun. destruct (Hst t Ht) as [Hn|[_ ?]]; [by rewrite Hn in Hrun|done].
  - intros t Ht. destruct (Hst t) as [->|[-> _]]; [set_solver|by left|by right; right].
  - intros t Ht. by apply elem_of_nil in Ht.
  - intros t Ht. by apply elem_of_nil in Ht.
Qed.

Lemma ex_three_ok : sched_ok ex_three.1 ex_three.2 ex_run [] [].
Proof.
  apply ex_sched_ok; [by vm_compute|by vm_compute|by vm_compute|by vm_compute|..].
  - each_task; left; by vm_compute.
  - each_task; intros _; eval_esp; (split; [lia|]); apply ex_stack_off; lia.
Qed.

Lemma ex_started_ok : sched_ok ex_started.1.1 ex_started.1.2 ex_run [] [].
Proof.
  apply ex_sched_ok; [by vm_compute|by vm_compute|by vm_compute|by vm_compute|..].
  - each_task; by vm_compute; auto.
  - each_task; intros Hn; [|vm_compute in Hn; discriminate|..]; clear Hn;
      eval_esp; (split; [lia|]); apply ex_stack_off; lia.
Qed.

(** The heap blocks, in the order of the addresses. *)
Definition ex_store : store :=
  [(112, false); (0x100, false); (112, false); (0x2000, false); (112, false); (0x2000, false);
   (112, false); (0x2000, false); (0x20000 - 128 - 0x110 - 3 * (128 + 0x2010) - 16, true)].

Lemma is_live_lookup base l k sz b :
  l !! k = Some (sz, false) -> b.1 = base + total (take k l) + 16 -> 0 < b.2 <= sz ->
  is_live base l b.
Proof.
  intros Hk Hb Hs. exists (take k l), sz, (drop (S k) l). split_and!; [|done|lia..].
  symmetry. by apply take_drop_middle.
Qed.

Ltac live_at k :=
  match goal with
  | |- is_live _ ?l _ => apply (is_live_lookup _ l k _ _ eq_refl); [by vm_compute|simpl; lia]
  end.

Lemma ex_fuel_enough : enough_fuel ex_fuel ex_st.
Proof. unfold enough_fuel, ex_fuel. rewrite Z2Nat.id by lia. by vm_compute. Qed.

Lemma ex_started_heap : heap_inv ex_started.1.1 ex_live.
Proof.
  split; [exists ex_store; split|exact ex_fuel_enough|by vm_compute].
  - split; [done|done|done|by vm_compute|done|by repeat constructor|].
    apply chainb_chain. by vm_compute.
  - unfold ex_live. each_task;
      [live_at 7%nat|live_at 6%nat|live_at 5%nat|live_at 4%nat|live_at 3%nat|live_at 2%nat|
       live_at 1%nat|live_at 0%nat].
Qed.

Lemma ex_started_room : heap_room ex_started.1.1 0x18000.
Proof.
  exists ex_store, (0x20000 - 128 - 0x110 - 3 * (128 + 0x2010) - 16).
  split; [|split; [by apply (bool_decide_unpack _); vm_compute|by vm_compute]].
  split; [done|done|done|by vm_compute|done|by repeat constructor|]. apply chainb_chain. by vm_compute.
Qed.

Lemma ex_started_tasks : all_tasks ex_started.1.2 ex_run [] [] = [ex_idle; ex_A; ex_B; ex_C].
Proof. by vm_compute. Qed.

Lemma ex_started_current : __current_task ex_started.1.2 ∈ all_tasks ex_started.1.2 ex_run [] [].
Proof.
  rewrite ex_started_tasks. assert (__current_task ex_started.1.2 = ex_A) as -> by (by vm_compute).
  by apply (bool_decide_unpack _).
Qed.

Lemma ex_started_live :
  forall t, t ∈ all_tasks ex_started.1.2 ex_run [] [] -> (t, TASK_SIZE) ∈ ex_live.
Proof.
  rewrite ex_started_tasks.
  each_task; by apply (bool_decide_unpack _).
Qed.

(** The frame that saves the running thread's context is in its stack. *)
Lemma ex_started_frame :
  off_tasks (all_tasks ex_started.1.2 ex_run [] []) (esp ex_started.2 - 52) 52.
Proof.
  rewrite ex_started_tasks.
  assert (esp ex_started.2 = 0x902213) as -> by (by vm_compute).
  unfold off_tasks, TASK_SIZE, ex_idle, ex_A, ex_B, ex_C. intros t Ht. set_unfold. lia.
Qed.
