(* ===== verification/SchedOps.v ===== *)
(** * SchedOps: the entry points of the scheduler preserve its invariant

    The timer tick, sleeping, what a task that enters the run queue needs, and the
    properties of [schedule] and of the round robin choice. *)

From S2P Require Import Prelude Memory Klib Mutex Context SchedQueue Sched SchedProps SchedInv Heap.
From S2P Require Import SchedExample.

(** ** Choosing and switching *)

(** The picker implements round robin.  Under the invariant, the task that
    [sched_select_next_rr] returns is the circular successor, in the run queue, of the
    current task; from the idle task it is the successor of the queue's head (the head
    itself when alone), and the idle task when the queue is empty; when the current
    task has gone to sleep or has exited it is the idle task.  Only [__current_task]
    is changed. *)
Theorem select_round_robin m s run wait done_ :
  sched_ok m s run wait done_ -> __current_task s ∈ all_tasks s run wait done_ ->
  exists c, sched_select_next_rr m s
    = (upd_current s c, rr_pick (__idle_task s) (__current_task s) run).
Proof. apply select_spec. Qed.

Lemma select_round_robin_witness :
  exists c, sched_select_next_rr ex_started.1.1 ex_started.1.2 = (upd_current ex_started.1.2 c, ex_B).
Proof.
  destruct (select_round_robin ex_started.1.1 ex_started.1.2 ex_run [] []) as [c E].
  - exact ex_started_ok.
  - exact ex_started_current.
  - exists c. rewrite E. by vm_compute.
Defined.

(** C22: round robin is fair.  From a current task in a run queue of [n] tasks, [n]
    selections in a row return every task of the queue exactly once, in queue order,
    ending with the current task itself. *)
Theorem round_robin_fair m s l1 x l2 wait done_ :
  sched_ok m s (l1 ++ x :: l2) wait done_ -> __current_task s = x ->
  let order := picks (length (l1 ++ x :: l2)) m s in
  order = l2 ++ l1 ++ [x] /\ order ≡ₚ l1 ++ x :: l2.
Proof.
  intros Hok Hx order. pose proof Hok as [[Hh Hnq Hr] _ _ Hnd Ht Hc Hm _ _ Hrs _ _ _].
  assert (l2 ++ l1 ++ [x] ≡ₚ l1 ++ x :: l2) as HP by solve_Permutation.
  enough (order = l2 ++ l1 ++ [x]) as -> by done.
  apply ring_rotate in Hr. simpl in Hr. rewrite <- app_assoc in Hr.
  unfold order. rewrite <- HP.
  unfold all_tasks in Hnd. apply NoDup_cons in Hnd as [Hni _].
  apply (picks_linked m (__idle_task s) (l2 ++ l1 ++ [x])) with (x := x); try done.
  - rewrite HP. set_solver.
  - intros t Hin. rewrite HP in Hin. apply Hrs. by right.
  - set_solver.
  - assert (__runq_head s ∈ all_tasks s (l1 ++ x :: l2) wait done_) as Hin%(tasks_range _ Ht); [|lia].
    rewrite Hh. unfold all_tasks. destruct l1; set_solver.
  - lia.
Qed.

Lemma round_robin_fair_witness :
  picks 3 ex_started.1.1 ex_started.1.2 = [ex_B; ex_C; ex_A].
Proof.
  apply (round_robin_fair ex_started.1.1 ex_started.1.2 [] ex_A [ex_B; ex_C] [] []).
  - exact ex_started_ok.
  - by vm_compute.
Defined.

(** C3: a context switch keeps the scheduler consistent.  From any state that satisfies
    the invariant, with the current stack clear of the task structures, [schedule]
    returns; the due sleepers are back in the run queue; the task that runs next is the
    round robin choice (the current task itself if it has never run), it is the only
    one marked as RUNNING, and it is started at its function if it was NEW and resumed
    otherwise; the invariant holds again. *)
Theorem schedule_ok finalizer fuel m s c run wait done_ :
  let U := all_tasks s run wait done_ in
  sched_ok m s run wait done_ -> __current_task s ∈ U ->
  (t_status m (__current_task s) <> NEW -> off_tasks U (esp c - 52) 52) ->
  (length wait <= fuel)%nat ->
  let run' := run ++ wakes m wait in
  let next := if t_status m (__current_task s) =? NEW then __current_task s
              else rr_pick (__idle_task s) (__current_task s) run' in
  exists m' s' c', schedule finalizer fuel m s c
      = Some (m', s', c', if t_status m next =? NEW then Started (t_callable m' next) else Resumed) /\
    sched_ok m' s' run' (stays m wait) done_ /\ __current_task s' = next /\
    (forall t, t ∈ all_tasks s' run' (stays m wait) done_ -> t_status m' t = RUNNING <-> t = next).
Proof.
  intros U Hok Hcur Hoff Hfuel run' next. unfold next, run'.
  destruct (schedule_spec finalizer fuel m s c run wait done_ Hok Hcur Hoff Hfuel)
    as (m' & s' & c' & E & Hok' & Ei & Ec & Hr).
  exists m', s', c'. split_and!; [done|done|done|]. intros t Ht. split; [|by intros ->].
  intros Hrt. rewrite <- Ec. by apply (so_running _ _ _ _ _ Hok').
Qed.

Lemma schedule_ok_witness :
  exists m' s' c', schedule 0x7000 3 ex_started.1.1 ex_started.1.2 ex_started.2
      = Some (m', s', c', Started (t_callable m' ex_B)) /\
    sched_ok m' s' ex_run [] [].
Proof.
  destruct (schedule_ok 0x7000 3 ex_started.1.1 ex_started.1.2 ex_started.2 ex_run [] [])
    as (m' & s' & c' & E & Hok & _).
  - exact ex_started_ok.
  - exact ex_started_current.
  - intros _. exact ex_started_frame.
  - simpl. lia.
  - exists m', s', c'. split; [exact E|exact Hok].
Defined.

(** ** The timer tick *)

Definition utime_frame (U : list Z) (x : Z) : Prop := forall t, t ∈ U -> off (t + 24) 4 x.

Lemma set_utime_frame U m m' a v :
  same_on (utime_frame U) m m' -> a ∈ U -> same_on (utime_frame U) m (set_utime m' a v).
Proof. intros H Ha. apply store32_same_on; [done|]. intros b Hb. by apply Hb. Qed.

Lemma utime_frame_field U m m' t j :
  tasks U -> t ∈ U -> 0 <= j <= 108 -> (j + 4 <= 24 \/ 28 <= j) ->
  same_on (utime_frame U) m m' -> load32 m' (t + j) = load32 m (t + j).
Proof.
  intros HU Ht Hj Hj' Hs. apply (same_on_load32 _ _ _ _ Hs). intros i Hi u Hu.
  destruct (tasks_sep _ HU u t Hu Ht) as [->|[|]]; unfold off, TASK_SIZE in *; lia.
Qed.

Lemma utime_frame_view U m m' : tasks U -> same_on (utime_frame U) m m' -> task_view U m m'.
Proof.
  intros HU Hs t Ht. split_and!; [by apply (utime_frame_field U); [..|lia|lia|]..|].
  intros _. unfold t_esp. rewrite <- (Z.add_0_r t).
  apply (utime_frame_field U); [done|done|lia|lia|done].
Qed.

Lemma utime_set_utime U m x v t :
  tasks U -> x ∈ U -> t ∈ U ->
  t_utime (set_utime m x v) t = if decide (x = t) then u32 v else t_utime m t.
Proof.
  intros HU Hx Ht. unfold_task. rewrite (field_store U) by (done || lia).
  repeat case_decide; try lia; done.
Qed.

Lemma tick_waitq_spec U head l2 :
  tasks U -> forall fuel m l1 x,
  queue m head (l1 ++ x :: l2) -> l1 ++ x :: l2 ⊆ U -> (length (x :: l2) <= fuel)%nat ->
  exists m', tick_waitq fuel m head x = Some m' /\ same_on (utime_frame U) m m' /\
    forall t, t ∈ U ->
      t_utime m' t = if decide (t ∈ x :: l2) then u32 (t_utime m t + 1) else t_utime m t.
Proof.
  intros HU. induction l2 as [|y l2 IH]; intros [|fuel] m l1 x Hq Hsub Hfuel;
    try (simpl in Hfuel; lia);
    assert (x ∈ U) as Hx by set_solver; simpl;
    set (m1 := set_utime m x (t_utime m x + 1));
    assert (same_on (utime_frame U) m m1) as Hs1 by (by apply set_utime_frame);
    assert (queue m1 head (l1 ++ x :: _)) as Hq1
      by (apply (queue_set_field _ _ _ U); [done|done|done|lia|exact Hq]);
    rewrite (queue_next _ _ _ _ _ Hq1); simpl;
    pose proof (q_head _ _ _ Hq) as Hh; pose proof (q_nodup _ _ _ Hq) as Hnd.
  - replace (hd x l1) with head by (rewrite Hh; by destruct l1).
    rewrite Z.eqb_refl. exists m1. split_and!; [done|done|]. intros t Ht.
    unfold m1. rewrite (utime_set_utime U) by done. repeat case_decide; set_solver.
  - assert (y ∉ l1 ++ x :: l2) as Hy.
    { apply NoDup_app in Hnd as (_ & Hd & Hnd). rewrite !NoDup_cons in Hnd.
      rewrite elem_of_app. intros [Hy|Hy]; [|set_solver]. apply (Hd y Hy). set_solver. }
    rewrite eqb_ne; cycle 1. { intros ->. rewrite Hh in Hy. destruct l1; set_solver. }
    simpl. destruct (IH fuel m1 (l1 ++ [x]) y) as (m' & E & Hs & Ht).
    + by rewrite <- app_assoc.
    + by rewrite <- app_assoc.
    + simpl in *. lia.
    + exists m'. split_and!; [done|by etrans|]. intros t Hin. rewrite Ht by done.
      assert (x ∉ y :: l2) as Hxn
        by (by apply NoDup_app in Hnd as (_ & _ & [? _]%NoDup_cons)).
      unfold m1. rewrite (utime_set_utime U) by done. destruct (decide (x = t)) as [<-|Hne].
      * by rewrite decide_False, decide_True by (done || by left).
      * rewrite (decide_ext (t ∈ x :: y :: l2) (t ∈ y :: l2)); [done|].
        rewrite elem_of_cons. naive_solver.
Qed.

Lemma sched_ok_jiffies m s run wait done_ j :
  sched_ok m s run wait done_ -> sched_ok m (upd_jiffies s j) run wait done_.
Proof. by intros [? ? ? ? ? ? ? ? ? ? ? ? ?]; split. Qed.

(** The bookkeeping of [do_timer]: the waiting tasks, then the current one. *)
Lemma tick_spec fuel m s run wait done_ :
  let U := all_tasks s run wait done_ in
  sched_ok m s run wait done_ -> __current_task s ∈ U -> (length wait <= fuel)%nat ->
  exists m0,
    (if c_true (__waitq_head s) then tick_waitq fuel m (__waitq_head s) (__waitq_head s)
     else Some m) = Some m0 /\
    let m1 := set_utime m0 (__current_task s) (t_utime m0 (__current_task s) + 1) in
    same_on (utime_frame U) m m1 /\
    forall t, t ∈ U ->
      t_utime m1 t = u32 (t_utime m t + b2z (bool_decide (t ∈ wait)) + b2z (t =? __current_task s)).
Proof.
  intros U Hok Hcur Hfuel. pose proof (so_tasks _ _ _ _ _ Hok) as HU. fold U in HU.
  assert (exists m0,
    (if c_true (__waitq_head s) then tick_waitq fuel m (__waitq_head s) (__waitq_head s)
     else Some m) = Some m0 /\ same_on (utime_frame U) m m0 /\
    forall t, t ∈ U -> t_utime m0 t = u32 (t_utime m t + b2z (bool_decide (t ∈ wait))))
    as (m0 & E & Hs & Ht).
  { pose proof (so_wait _ _ _ _ _ Hok) as Hw. destruct wait as [|w ws].
    - rewrite (q_head _ _ _ Hw). exists m. split_and!; [done|done|]. intros t Ht.
      rewrite bool_decide_eq_false_2 by set_solver. simpl. rewrite Z.add_0_r, u32_small; [done|].
      apply load32_range.
    - assert (w :: ws ⊆ U) as Hsub by (unfold U, all_tasks; set_solver).
      pose proof (tasks_range _ HU w ltac:(set_solver)).
      destruct (tick_waitq_spec U (__waitq_head s) ws HU fuel m [] w Hw Hsub Hfuel) as (m' & E & Hs & Ht).
      pose proof (q_head _ _ _ Hw) as Hh. simpl in Hh. rewrite Hh, c_true_nonzero by lia.
      rewrite Hh in E. exists m'. split_and!; [done|done|]. intros t Hin. rewrite Ht by done.
      case_decide as Hin'; [by rewrite bool_decide_eq_true_2|].
      rewrite bool_decide_eq_false_2 by done. simpl. rewrite Z.add_0_r, u32_small; [done|].
      apply load32_range. }
  exists m0. split; [done|]. split; [by apply set_utime_frame|]. intros t Hin.
  rewrite (utime_set_utime U) by done. case_decide as Hd.
  - subst t. rewrite Ht, Z.eqb_refl by done. unfold u32. simpl. by rewrite Zplus_mod_idemp_l.
  - rewrite Ht, eqb_ne by done. simpl. by rewrite Z.add_0_r.
Qed.

(** C32: the timer tick.  Under the scheduler's invariant, [do_timer] charges one tick
    to every waiting task and one to the current task (so a sleeper that still holds
    the processor is charged twice), touches nothing but the [utime] fields and counts
    the interrupt.  Before the time slice is used up it returns to the interrupted
    thread; otherwise the current task's counter restarts at zero, the due sleepers are
    woken and the processor goes to the round robin successor of the current task.
    The invariant holds again in both cases. *)
Theorem do_timer_ok finalizer fuel m s c run wait done_ :
  let U := all_tasks s run wait done_ in
  let cur := __current_task s in
  sched_ok m s run wait done_ -> cur ∈ U -> t_status m cur <> NEW ->
  off_tasks U (esp c - 52) 52 -> (length wait <= fuel)%nat ->
  let s1 := upd_jiffies s (u64 (jiffies s + 1)) in
  exists m1,
    same_on (utime_frame U) m m1 /\
    (forall t, t ∈ U -> t_utime m1 t =
       u32 (t_utime m t + b2z (bool_decide (t ∈ wait)) + b2z (t =? cur))) /\
    if t_utime m1 cur <? 5 then
      do_timer finalizer fuel m s c = Some (m1, s1, None) /\ sched_ok m1 s1 run wait done_
    else
      let m2 := set_utime m1 cur 0 in
      let run' := run ++ wakes m2 wait in
      let next := rr_pick (__idle_task s) cur run' in
      exists m' s' c' d, do_timer finalizer fuel m s c = Some (m', s', Some (c', d)) /\
        sched_ok m' s' run' (stays m2 wait) done_ /\
        __current_task s' = next /\ t_status m' next = RUNNING.
Proof.
  intros U cur Hok Hcur HN Hoff Hfuel s1. pose proof (so_tasks _ _ _ _ _ Hok) as HU. fold U in HU.
  destruct (tick_spec fuel m s run wait done_ Hok Hcur Hfuel) as (m0 & E0 & Hs & Ht).
  cbv zeta in Hs, Ht. fold cur in Hs, Ht. set (m1 := set_utime m0 cur _) in Hs, Ht.
  pose proof (utime_frame_view _ _ _ HU Hs) as Hv.
  pose proof (sched_ok_jiffies m1 s run wait done_ (u64 (jiffies s + 1))
    (sched_ok_view _ _ _ _ _ _ Hok Hv)) as Hok1. fold s1 in Hok1.
  exists m1. split_and!; [done|done|]. unfold do_timer. rewrite E0.
  cbn [mbind option_bind __current_task upd_jiffies]. fold cur m1.
  change SCHED_TIMESLICE_TICKS with 5. destruct (t_utime m1 cur <? 5); [done|].
  set (m2 := set_utime m1 cur 0). change (upd_jiffies s _) with s1.
  assert (task_view U m1 m2) as Hv2 by (apply task_view_field; done || lia).
  pose proof (sched_ok_view _ _ _ _ _ _ Hok1 Hv2) as Hok2.
  assert (t_status m2 cur = t_status m cur) as Est.
  { destruct (Hv cur Hcur) as (_ & _ & <- & _). by destruct (Hv2 cur Hcur) as (_ & _ & -> & _). }
  destruct (schedule_spec finalizer fuel m2 s1 c run wait done_ Hok2 Hcur (fun _ => Hoff) Hfuel)
    as (m' & s' & c' & E & Hok' & _ & Ec & Er).
  cbn [__current_task __idle_task upd_jiffies s1] in Ec, Er, E. fold cur in Ec, Er, E.
  rewrite Est, (eqb_ne _ _ HN) in Ec, Er, E. eexists m', s', c', _. rewrite E. by split_and!.
Qed.

Lemma do_timer_ok_witness :
  exists m1,
    do_timer 0x7000 3 ex_started.1.1 ex_started.1.2 ex_started.2
      = Some (m1, upd_jiffies ex_started.1.2 1, None) /\
    sched_ok m1 (upd_jiffies ex_started.1.2 1) ex_run [] [] /\ t_utime m1 ex_A = 1.
Proof.
  destruct (do_timer_ok 0x7000 3 ex_started.1.1 ex_started.1.2 ex_started.2 ex_run [] [])
    as (m1 & _ & Hu & H).
  - exact ex_started_ok.
  - exact ex_started_current.
  - by vm_compute.
  - exact ex_started_frame.
  - simpl. lia.
  - exists m1. pose proof (Hu _ ex_started_current) as E.
    assert (t_utime m1 (__current_task ex_started.1.2) = 1) as Eu by (rewrite E; by vm_compute).
    assert ((t_utime m1 (__current_task ex_started.1.2) <? 5) = true) as El by (by rewrite Eu).
    rewrite El in H. destruct H as [H1 H2].
    assert (u64 (jiffies ex_started.1.2 + 1) = 1) as Ej by (by vm_compute).
    rewrite Ej in H1, H2. split_and!; [exact H1|exact H2|].
    assert (__current_task ex_started.1.2 = ex_A) as Ec by (by vm_compute). by rewrite <- Ec.
Defined.

(** ** The current task leaves the run queue *)

(** Where it goes: to the wait queue as BLOCKED, or to the done queue as EXITED. *)
Definition leaves (x st : Z) (wait done_ wait' done' : list Z) : Prop :=
  (st = BLOCKED /\ wait' = wait ++ [x] /\ done' = done_) \/
  (st = EXITED /\ wait' = wait /\ done' = done_ ++ [x]).

Lemma all_tasks_leaves s s' l1 x l2 st wait done_ wait' done' :
  leaves x st wait done_ wait' done' -> __idle_task s' = __idle_task s ->
  all_tasks s' (l1 ++ l2) wait' done' ≡ₚ all_tasks s (l1 ++ x :: l2) wait done_.
Proof.
  intros Hl Ei. unfold all_tasks. rewrite Ei. f_equiv.
  destruct Hl as [(_ & -> & ->)|(_ & -> & ->)]; solve_Permutation.
Qed.

Lemma sched_ok_leave m s l1 x l2 wait done_ m' s' st wait' done' :
  let U := all_tasks s (l1 ++ x :: l2) wait done_ in
  sched_ok m s (l1 ++ x :: l2) wait done_ -> leaves x st wait done_ wait' done' ->
  queue m' (__runq_head s') (l1 ++ l2) -> queue m' (__waitq_head s') wait' ->
  queue m' (__doneq_head s') done' ->
  (forall t, t ∈ U -> t_status m' t = (if decide (x = t) then st else t_status m t) /\
     (x <> t -> t_esp m' t = t_esp m t)) ->
  __idle_task s' = __idle_task s -> __current_task s' = x -> __current_task s = x ->
  __global_sched_lock s' = unlocked ->
  __thread_count s' = Z.of_nat (length (l1 ++ l2) + length wait') ->
  sched_ok m' s' (l1 ++ l2) wait' done'.
Proof.
  intros U Hok Hlv Q1 Q2 Q3 Hst Ei Ec Ec' El Et.
  pose proof Hok as [_ _ _ Hnd Ht _ Hm _ Hrn Hrs Hws Hds Hstk].
  pose proof (all_tasks_leaves s s' l1 x l2 st wait done_ wait' done' Hlv Ei) as HA.
  assert (forall t, t ∈ l1 ++ l2 -> t ∈ U /\ x <> t /\ t ∈ l1 ++ x :: l2) as HR.
  { intros t Hin. assert (t ∈ l1 ++ x :: l2) as Hin' by set_solver.
    split_and!; [unfold U, all_tasks; set_solver| |done]. intros ->.
    unfold all_tasks in Hnd. apply NoDup_cons in Hnd as [_ (Hnr & _)%NoDup_app].
    apply NoDup_app in Hnr as (_ & Hd & [Hn _]%NoDup_cons).
    apply elem_of_app in Hin as [Hin|Hin]; [|done]. apply (Hd t Hin). by left. }
  assert (x <> __idle_task s /\ (x ∉ wait ++ done_)) as [Hxi Hxn].
  { unfold all_tasks in Hnd. apply NoDup_cons in Hnd as [Hn (_ & Hd & _)%NoDup_app].
    split; [set_solver|]. apply Hd. set_solver. }
  assert (st <> NEW /\ st <> RUNNING) as [Hn1 Hn2] by (by destruct Hlv as [(-> & _)|(-> & _)]).
  assert (forall t, t ∈ wait' -> t ∈ U /\ (t ∈ wait /\ x <> t \/ t = x /\ st = BLOCKED)) as HW.
  { unfold U, all_tasks. destruct Hlv as [(-> & -> & _)|(_ & -> & _)]; set_solver. }
  assert (forall t, t ∈ done' -> t ∈ U /\ (t ∈ done_ /\ x <> t \/ t = x /\ st = EXITED)) as HD.
  { unfold U, all_tasks. destruct Hlv as [(_ & _ & ->)|(-> & _ & ->)]; set_solver. }
  split; try done.
  - by rewrite HA.
  - eapply tasks_incl; [|exact Ht]. intros t. by rewrite HA.
  - rewrite length_app in *. simpl in *. destruct Hlv as [(_ & -> & _)|(_ & -> & _)];
      rewrite ?length_app; simpl; lia.
  - intros t Hin. rewrite HA in Hin. destruct (Hst t Hin) as [-> _]. case_decide; [done|].
    intros Hr. by rewrite Ec, <- Ec', (Hrn t Hin Hr).
  - intros t Hin. rewrite Ei in Hin.
    assert (t ∈ U /\ x <> t /\ (t = __idle_task s \/ t ∈ l1 ++ x :: l2)) as (Hu & Hne & Hin').
    { destruct Hin as [->|Hin]; [|destruct (HR t Hin); naive_solver].
      split_and!; [unfold U, all_tasks; set_solver|done|by left]. }
    destruct (Hst t Hu) as [-> _]. rewrite decide_False by done. by apply Hrs.
  - intros t Hin. destruct (HW t Hin) as [Hu Hcase]. destruct (Hst t Hu) as [-> _].
    destruct Hcase as [[? ?]|[-> ->]]; [rewrite decide_False by done; by apply Hws|by rewrite decide_True].
  - intros t Hin. destruct (HD t Hin) as [Hu Hcase]. destruct (Hst t Hu) as [-> _].
    destruct Hcase as [[? ?]|[-> ->]]; [rewrite decide_False by done; by apply Hds|by rewrite decide_True].
  - intros t Hin. rewrite HA in Hin. destruct (Hst t Hin) as [-> He]. case_decide; [done|].
    intros Hn. rewrite He by done. destruct (Hstk t Hin Hn) as [? Ho]. split; [done|].
    intros u Hu. apply Ho. by rewrite HA in Hu.
Qed.

Lemma esp_field m t : t_esp m t = load32 m (t + 0).
Proof. unfold t_esp. by rewrite Z.add_0_r. Qed.

Lemma leave_links U m h1 h2 h3 l1 x l2 other third m1 k1 m2 k2 :
  queue m h1 (l1 ++ x :: l2) -> queue m h2 other -> queue m h3 third ->
  NoDup (third ++ other ++ l1 ++ x :: l2) -> tasks U -> third ++ other ++ l1 ++ x :: l2 ⊆ U ->
  splice_outq m h1 x = (m1, k1) -> splice_inq m1 h2 x = (m2, k2) ->
  queue m2 k1 (l1 ++ l2) /\ queue m2 k2 (other ++ [x]) /\ queue m2 h3 third /\
  same_on (link_frame U) m m2.
Proof.
  intros Q1 Q2 Q3 (_ & Hd & Hnd)%NoDup_app HU Hsub E1 E2.
  assert (other ++ l1 ++ x :: l2 ⊆ U) as Hsub' by set_solver.
  destruct (move_spec U _ _ _ _ _ _ _ _ _ _ _ Q1 Q2 Hnd HU Hsub' E1 E2) as (Q1' & Q2' & Hl).
  split_and!; [done|done| |].
  - eapply (queue_other m m2 _ third (other ++ l1 ++ x :: l2) U); [done|set_solver|done|done|done|done].
  - eapply same_on_weaken; [|exact Hl]. intros a Ha t Ht. apply Ha. by apply Hsub'.
Qed.

(** The fields that [sleep_begin] sets before it moves the task. *)
Definition asleep_fields (m : mem) (x systicks : Z) : mem :=
  set_sleep_time (set_utime (set_status m x BLOCKED) x 0) x systicks.

Lemma asleep_other U m x systicks t j :
  tasks U -> x ∈ U -> t ∈ U -> 0 <= j <= 100 -> t <> x ->
  load32 (asleep_fields m x systicks) (t + j) = load32 m (t + j).
Proof.
  intros HU Hx Ht Hj Hne. unfold asleep_fields. unfold_task.
  destruct (tasks_sep _ HU t x Ht Hx) as [?|Hs]; [done|]. unfold TASK_SIZE in Hs.
  by rewrite !load32_store32_ne by lia.
Qed.

Lemma asleep_self m x systicks :
  let m' := asleep_fields m x systicks in
  t_status m' x = BLOCKED /\ t_utime m' x = 0 /\ t_sleep_time m' x = u32 systicks.
Proof. cbv zeta. unfold asleep_fields, t_status, t_utime, t_sleep_time. unfold_task. by mem_simpl. Qed.

Lemma asleep_frame m x systicks : same_off x TASK_SIZE m (asleep_fields m x systicks).
Proof.
  unfold asleep_fields. unfold_task.
  repeat (apply store32_same_on; [|intros b Hb; unfold off, TASK_SIZE in *; lia]). done.
Qed.

(** The bytes of no task. *)
Definition outside (U : list Z) (a : Z) : Prop := forall t, t ∈ U -> off t TASK_SIZE a.

(** Going to sleep, field by field. *)
Lemma sleep_begin_spec fuel m s l1 x l2 wait done_ systicks :
  let U := all_tasks s (l1 ++ x :: l2) wait done_ in
  sched_ok m s (l1 ++ x :: l2) wait done_ -> __current_task s = x -> (0 < fuel)%nat ->
  exists m' s', sleep_begin fuel m s systicks = Some (m', s') /\
    sched_ok m' s' (l1 ++ l2) (wait ++ [x]) done_ /\ __current_task s' = x /\
    __tid_counter s' = __tid_counter s /\ __idle_task s' = __idle_task s /\
    __thread_count s' = __thread_count s /\
    (forall t j, t ∈ U -> 0 <= j <= 100 -> load32 m' (t + j) = load32 (asleep_fields m x systicks) (t + j)) /\
    same_on (outside U) m m'.
Proof.
  intros U Hok Hx Hfuel. pose proof Hok as [Q1 Q2 Q3 Hnd HU Hc _ Hl _ _ _ _ _]. fold U in HU.
  unfold sleep_begin. rewrite Hl, lock_unlocked by done. cbn [mbind option_bind].
  cbn [__current_task __runq_head __waitq_head upd_lock upd_runq upd_waitq]. rewrite Hx.
  fold (asleep_fields m x systicks). set (m1 := asleep_fields m x systicks).
  assert (x ∈ U) as HxU by (unfold U, all_tasks; set_solver).
  assert (l1 ++ x :: l2 ⊆ U /\ wait ⊆ U /\ done_ ⊆ U) as (Sr & Sw & Sd)
    by (unfold U, all_tasks; set_solver).
  assert (forall h l, l ⊆ U -> queue m h l -> queue m1 h l) as HQ.
  { intros h l Hs Hq. unfold m1, asleep_fields. unfold_task.
    by repeat (apply (queue_set_field _ _ _ U); [done|done|done|lia|]). }
  destruct (splice_outq m1 (__runq_head s) x) as [m2 k2] eqn:E2.
  cbn [__current_task __runq_head __waitq_head upd_lock upd_runq upd_waitq].
  destruct (splice_inq m2 (__waitq_head s) x) as [m3 k3] eqn:E3.
  destruct (leave_links U m1 _ _ (__doneq_head s) l1 x l2 wait done_ m2 k2 m3 k3
    (HQ _ _ Sr Q1) (HQ _ _ Sw Q2) (HQ _ _ Sd Q3)) as (Q1' & Q2' & Q3' & Hf); try done.
  { unfold all_tasks in Hnd. apply NoDup_cons in Hnd as [_ Hnd].
    assert (done_ ++ wait ++ l1 ++ x :: l2 ≡ₚ (l1 ++ x :: l2) ++ wait ++ done_) as ->
      by solve_Permutation. done. }
  { set_solver. }
  assert (forall t j, t ∈ U -> 0 <= j <= 100 -> load32 m3 (t + j) = load32 m1 (t + j)) as Hfld
    by (intros; by apply (link_frame_field U U)).
  eexists m3, _. split; [reflexivity|]. split_and!; [|exact Hx|done..|exact Hfld|].
  - eapply sched_ok_leave; [exact Hok|by left|exact Q1'|exact Q2'|exact Q3'|..]; try done.
    + intros t Ht. rewrite (esp_field m3 t), (esp_field m t), (Hfld t 0) by (done || lia).
      unfold t_status. rewrite Hfld by (done || lia). case_decide as Hd.
      * subst t. split; [apply asleep_self|done].
      * unfold m1. by rewrite !(asleep_other U) by (done || lia).
    + simpl. rewrite Hc, !length_app. simpl. lia.
  - transitivity m1.
    + eapply same_on_weaken; [|apply asleep_frame]. intros a Ha. by apply Ha.
    + eapply same_on_weaken; [|exact Hf]. intros a Ha t Ht. specialize (Ha t Ht). unfold off, TASK_SIZE in *. lia.
Qed.

(** Going to sleep.  The current task, wherever it is in the run queue, moves to
    the tail of the wait queue, is marked as BLOCKED with a fresh tick counter and the
    requested number of ticks, and stays current until the next [schedule]; the order
    of both queues is kept, no other task's clock changes, the scheduler's lock is free
    again and the invariant holds. *)
Theorem sleep_begin_ok fuel m s l1 x l2 wait done_ systicks :
  let U := all_tasks s (l1 ++ x :: l2) wait done_ in
  sched_ok m s (l1 ++ x :: l2) wait done_ -> __current_task s = x -> (0 < fuel)%nat ->
  exists m' s', sleep_begin fuel m s systicks = Some (m', s') /\
    sched_ok m' s' (l1 ++ l2) (wait ++ [x]) done_ /\ __current_task s' = x /\
    t_utime m' x = 0 /\ t_sleep_time m' x = u32 systicks /\
    forall t, t ∈ U -> t <> x ->
      t_utime m' t = t_utime m t /\ t_sleep_time m' t = t_sleep_time m t.
Proof.
  intros U Hok Hx Hfuel.
  destruct (sleep_begin_spec fuel m s l1 x l2 wait done_ systicks Hok Hx Hfuel)
    as (m' & s' & E & Hok' & Hc & _ & _ & _ & Hf & _). fold U in Hf.
  assert (x ∈ U) as HxU by (unfold U, all_tasks; set_solver).
  destruct (asleep_self m x systicks) as (_ & Hu & Hs). exists m', s'.
  split_and!; [done|done|done| | |intros t Ht Hne; split];
    unfold t_utime, t_sleep_time in *; rewrite Hf by (done || lia); try done;
    apply (asleep_other U); (done || lia || apply Hok).
Qed.

Lemma sleep_begin_ok_witness :
  exists m' s', sleep_begin 1 ex_started.1.1 ex_started.1.2 7 = Some (m', s') /\
    sched_ok m' s' [ex_B; ex_C] [ex_A] [] /\ t_sleep_time m' ex_A = 7.
Proof.
  destruct (sleep_begin_ok 1 ex_started.1.1 ex_started.1.2 [] ex_A [ex_B; ex_C] [] [] 7)
    as (m' & s' & E & Hok & _ & _ & Hs & _).
  - exact ex_started_ok.
  - by vm_compute.
  - lia.
  - exists m', s'. split_and!; [exact E|exact Hok|exact Hs].
Defined.

(** ** A task enters the run queue *)

Lemma sched_ok_add m s run wait done_ ts m' s' :
  let U := all_tasks s run wait done_ in
  sched_ok m s run wait done_ -> (ts ∉ U) -> tasks (ts :: U) -> t_status m ts = NEW ->
  12 <= t_esp m ts -> off_tasks (ts :: U) (t_esp m ts - 12) 12 ->
  (forall t, t ∈ U -> t_status m t = NEW ->
     t_esp m t <= ts \/ ts + TASK_SIZE <= t_esp m t - 12) ->
  (length run + length wait < 16)%nat ->
  splice_inq m (__runq_head s) ts = (m', __runq_head s') ->
  __waitq_head s' = __waitq_head s -> __doneq_head s' = __doneq_head s ->
  __idle_task s' = __idle_task s -> __thread_count s' = __thread_count s + 1 ->
  __global_sched_lock s' = unlocked ->
  (__current_task s' = __current_task s \/ none_running m U) ->
  sched_ok m' s' (run ++ [ts]) wait done_.
Proof.
  intros U Hok Hn HT HN H12 Ho Hos Hmax E Ew Ed Ei Et El Ecur.
  pose proof Hok as [Q1 Q2 Q3 Hnd HU Hc _ _ Hrn Hrs Hws Hds Hstk]. fold U in HU.
  assert (run ⊆ U /\ wait ⊆ U /\ done_ ⊆ U) as (Sr & Sw & Sd) by (unfold U, all_tasks; set_solver).
  assert (ts :: run ⊆ ts :: U) as Str by set_solver.
  destruct (splice_inq_spec _ _ _ _ _ _ Q1 (tasks_incl _ _ Str HT) ltac:(set_solver) E) as [Q1' Hf].
  assert (forall t j, t ∈ ts :: U -> 0 <= j <= 100 -> load32 m' (t + j) = load32 m (t + j)) as Hfld
    by (intros; by apply (link_frame_field (ts :: U) (ts :: run))).
  assert (forall t, t ∈ ts :: U -> t_status m' t = t_status m t) as Est
    by (intros; apply Hfld; [done|lia]).
  assert (forall t, t ∈ ts :: U -> t_esp m' t = t_esp m t) as Ee
    by (intros t Ht; rewrite (esp_field m' t), (esp_field m t); apply Hfld; [done|lia]).
  assert (all_tasks s' (run ++ [ts]) wait done_ ≡ₚ ts :: U) as HA
    by (unfold U, all_tasks; rewrite Ei; solve_Permutation).
  assert (forall l h, l ⊆ U -> (forall t, t ∈ l -> t ∉ run) -> queue m h l -> queue m' h l) as HQ.
  { intros l h Hl Hd. eapply (queue_other m m' h l (ts :: run) (ts :: U)); [done|set_solver|set_solver| |done].
    intros t Ht. specialize (Hd t Ht). set_solver. }
  assert (forall t, t ∈ wait ++ done_ -> t ∉ run) as Hdj.
  { unfold all_tasks in Hnd. apply NoDup_cons in Hnd as [_ (_ & Hd & _)%NoDup_app].
    intros t Ht Hr. by apply (Hd t). }
  split; try done.
  - rewrite Ew. apply HQ; [done| |done]. intros t Ht. apply Hdj. set_solver.
  - rewrite Ed. apply HQ; [done| |done]. intros t Ht. apply Hdj. set_solver.
  - rewrite HA. by constructor.
  - eapply tasks_incl; [|exact HT]. intros t. by rewrite HA.
  - rewrite Et, Hc, length_app. simpl. lia.
  - rewrite length_app. simpl. lia.
  - intros t Ht. rewrite HA in Ht. rewrite Est by done. intros Hr.
    apply elem_of_cons in Ht as [->|Ht]; [by rewrite HN in Hr|].
    destruct Ecur as [->|Hnr]; [by apply Hrn|by destruct (Hnr t Ht)].
  - intros t Ht. rewrite Ei, elem_of_app, elem_of_cons in Ht. rewrite Est by (unfold U, all_tasks; set_solver).
    destruct (decide (t = ts)) as [->|]; [by left|]. apply Hrs. set_solver.
  - intros t Ht. rewrite Est by set_solver. by apply Hws.
  - intros t Ht. rewrite Est by set_solver. by apply Hds.
  - intros t Ht. rewrite HA in Ht. rewrite Est, Ee by done. intros Hnt.
    apply elem_of_cons in Ht as [->|Ht].
    + split; [done|]. intros u Hu. apply Ho. by rewrite HA in Hu.
    + destruct (Hstk t Ht Hnt) as [? Ho']. split; [done|]. intros u Hu. rewrite HA in Hu.
      apply elem_of_cons in Hu as [->|Hu]; [|by apply Ho']. specialize (Hos t Ht Hnt). lia.
Qed.

(** ** Threads and the heap *)

Lemma tasks_cons x T :
  tasks T -> 0 < x -> x + TASK_SIZE <= 4294967296 ->
  (forall t, t ∈ T -> disjoint_blocks (x, TASK_SIZE) (t, TASK_SIZE)) -> tasks (x :: T).
Proof.
  intros [Hr Hs] H1 H2 Hd. unfold disjoint_blocks in Hd. simpl in Hd. split.
  - intros y [->|Hy]%elem_of_cons; [done|by apply Hr].
  - intros y z [->|Hy]%elem_of_cons [->|Hz]%elem_of_cons; [by left|..].
    + right. by apply Hd.
    + specialize (Hd y Hy). right. lia.
    + by apply Hs.
Qed.

(** A returning thread writes past its stack.  With the stack pointer that
    [sched_register_thread] sets up, one byte below the end of the stack block, the
    word that receives the return value starts at the block's last byte: its three
    upper bytes land behind the block, in the header of the next heap block. *)
Theorem thread_return_overruns m c ts exit_routine m1 c1 c2 :
  let end_ := t_stack m ts + THREAD_STACK_SIZE in
  t_esp m ts = end_ - 1 ->
  START_NEW_THREAD m c ts exit_routine = (m1, c1) -> esp c2 = esp c1 ->
  let '(m3, _, _) := THREAD_RETURN m1 c2 in
  load8 m3 end_ = eax c2 / 256 mod 256 /\ load8 m3 (end_ + 1) = eax c2 / 65536 mod 256 /\
  load8 m3 (end_ + 2) = eax c2 / 16777216 mod 256.
Proof.
  intros end_ Hesp E Ee. unfold START_NEW_THREAD in E. simpl in E. rewrite Hesp in E. simplify_eq.
  unfold THREAD_RETURN. rewrite Ee. simpl.
  replace (end_ - 1 - 4 - 4 - 4 + 12) with (end_ - 1) by lia.
  unfold store32, store16.
  rewrite !load8_store8. split_and!.
  - rewrite decide_False, decide_False, decide_True by lia. done.
  - rewrite decide_False, decide_True by lia. done.
  - rewrite decide_True, Z.div_div by lia. done.
Qed.

(** A thread of the example that returns 0x12345678. *)
Definition ex_returning : cpu :=
  let c := (START_NEW_THREAD ex_three.1 ex_cpu ex_A 0x7000).2 in
  Cpu 0x12345678 (ebx c) (ecx c) (edx c) (esi c) (edi c) (ebp c) (esp c) (eflags c)
    (ss c) (ds c) (es c) (fs c) (gs c).

Lemma thread_return_overruns_witness :
  let '(m3, _, _) := THREAD_RETURN (START_NEW_THREAD ex_three.1 ex_cpu ex_A 0x7000).1 ex_returning in
  load8 m3 (t_stack ex_three.1 ex_A + THREAD_STACK_SIZE) = eax ex_returning / 256 mod 256 /\
  load8 m3 (t_stack ex_three.1 ex_A + THREAD_STACK_SIZE + 1) = eax ex_returning / 65536 mod 256 /\
  load8 m3 (t_stack ex_three.1 ex_A + THREAD_STACK_SIZE + 2) = eax ex_returning / 16777216 mod 256.
Proof.
  apply (thread_return_overruns ex_three.1 ex_cpu ex_A 0x7000
    (START_NEW_THREAD ex_three.1 ex_cpu ex_A 0x7000).1
    (START_NEW_THREAD ex_three.1 ex_cpu ex_A 0x7000).2 ex_returning).
  - by vm_compute.
  - reflexivity.
  - reflexivity.
Defined.
