(* ===== verification/SchedHeap.v ===== *)
(** * SchedHeap: threads and their blocks on the heap

    Registration allocates the task structure and the stack of a thread, the end of
    a thread frees the stack.  The theorems hold for every allocator that keeps the
    promises of [Heap]; the witnesses use the allocator of Kmalloc.v. *)

From S2P Require Import Prelude Memory Klib Mutex Kmalloc KmallocStore KmallocProps Heap.
From S2P Require Import Context SchedQueue Sched SchedProps SchedInv SchedExample SchedOps.

Section WithHeap.
Context {kmalloc : mem -> Z -> option (mem * Z)} {kfree : mem -> Z -> option mem}.
Context `{!Heap kmalloc kfree}.

(** Task structures are live heap blocks. *)
Definition live_tasks (U : list Z) (live : live_t) : Prop :=
  forall t, t ∈ U -> (t, TASK_SIZE) ∈ live.

Lemma live_tasks_view U live m m' :
  live_tasks U live -> same_on (in_live live) m m' -> task_view U m m'.
Proof.
  intros Hl Hs t Ht. unfold_task.
  split_and!; intros; apply (same_on_load32 _ _ _ _ Hs); intros i Hi;
    exists (t, TASK_SIZE); (split; [by apply Hl|]); unfold in_block, TASK_SIZE; simpl; lia.
Qed.

Lemma live_outside U live a : live_tasks U live -> ~ in_live live a -> outside U a.
Proof.
  intros Hl Ha t Ht. destruct (decide (off t TASK_SIZE a)) as [|Hn]; [done|exfalso].
  apply Ha. exists (t, TASK_SIZE). split; [by apply Hl|]. unfold in_block, off in *. simpl. lia.
Qed.

(** Writes to task structures keep the heap well formed. *)
Lemma heap_task_writes U live m m' :
  live_tasks U live -> heap_inv m live -> same_on (outside U) m m' -> heap_inv m' live.
Proof.
  intros Hl Hi Hs. eapply heap_frame; [exact Hi|]. eapply same_on_weaken; [|exact Hs].
  intros a [_ Ha]. by eapply live_outside.
Qed.

(** C34: the end of a thread.  The current task's stack is freed, the task moves from
    the run queue to the tail of the done queue with its return value and the status
    EXITED, the thread count drops by one, the lock is free again, and both the
    scheduler's and the heap's invariants hold, for any allocator that keeps the
    promises of [Heap]. *)
Theorem finalize_current_ok fuel m s l1 x l2 wait done_ retval live n :
  let U := all_tasks s (l1 ++ x :: l2) wait done_ in
  let live' := filter (fun b => b.1 <> t_stack m x) live in
  sched_ok m s (l1 ++ x :: l2) wait done_ -> __current_task s = x -> (0 < fuel)%nat ->
  heap_inv m live -> (t_stack m x, n) ∈ live -> live_tasks U live' ->
  exists m' s', finalize_current kfree fuel m s retval = Some (m', s') /\
    sched_ok m' s' (l1 ++ l2) wait (done_ ++ [x]) /\ heap_inv m' live' /\
    __thread_count s' = __thread_count s - 1 /\ __current_task s' = x /\
    t_retval m' x = u32 retval.
Proof.
  intros U live' Hok Hx Hfuel Hi Hst Hlt.
  destruct (heap_free m live _ n Hi Hst) as (m0 & E0 & Hi0 & Hs0 & _). fold live' in Hi0.
  apply (same_on_sub live') in Hs0; [|apply live_filter].
  pose proof (sched_ok_view _ _ _ _ _ _ Hok (live_tasks_view U live' m m0 Hlt Hs0)) as Hok0.
  pose proof Hok0 as [Q1 Q2 Q3 Hnd HU Hc _ Hl _ _ _ _ _]. fold U in HU.
  unfold finalize_current. rewrite Hl, lock_unlocked by done. cbn [mbind option_bind].
  cbn [__current_task __runq_head __doneq_head upd_lock upd_runq upd_doneq]. rewrite Hx, E0.
  cbn [mbind option_bind]. set (m1 := set_retval _ x retval).
  assert (x ∈ U) as HxU by (unfold U, all_tasks; set_solver).
  assert (l1 ++ x :: l2 ⊆ U /\ wait ⊆ U /\ done_ ⊆ U) as (Sr & Sw & Sd)
    by (unfold U, all_tasks; set_solver).
  assert (forall h l, l ⊆ U -> queue m0 h l -> queue m1 h l) as HQ.
  { intros h l Hs Hq. unfold m1. unfold_task.
    by repeat (apply (queue_set_field _ _ _ U); [done|done|done|lia|]). }
  destruct (splice_outq m1 (__runq_head s) x) as [m2 k2] eqn:E2.
  cbn [__current_task __runq_head __doneq_head upd_lock upd_runq upd_doneq].
  destruct (splice_inq m2 (__doneq_head s) x) as [m3 k3] eqn:E3.
  destruct (leave_links U m1 _ _ (__waitq_head s) l1 x l2 done_ wait m2 k2 m3 k3
    (HQ _ _ Sr Q1) (HQ _ _ Sd Q3) (HQ _ _ Sw Q2)) as (Q1' & Q3' & Q2' & Hf); try done.
  { unfold all_tasks in Hnd. apply NoDup_cons in Hnd as [_ Hnd].
    assert (wait ++ done_ ++ l1 ++ x :: l2 ≡ₚ (l1 ++ x :: l2) ++ wait ++ done_) as ->
      by solve_Permutation. done. }
  { set_solver. }
  assert (forall t j, t ∈ U -> 0 <= j <= 100 -> load32 m3 (t + j) = load32 m1 (t + j)) as Hfld
    by (intros; by apply (link_frame_field U U)).
  assert (u32 (__thread_count s - 1) = Z.of_nat (length (l1 ++ l2) + length wait)) as Hc'
    by (rewrite length_app in *; simpl in *; pose proof (so_max _ _ _ _ _ Hok0) as Hm;
        rewrite length_app in Hm; simpl in Hm; rewrite Hc, u32_small; lia).
  eexists m3, _. split; [reflexivity|]. split_and!; [| |simpl|exact Hx|].
  - eapply sched_ok_leave; [exact Hok0|by right|exact Q1'|exact Q2'|exact Q3'|..]; try done.
    intros t Ht. rewrite (esp_field m3 t), (esp_field m0 t). unfold t_status.
    rewrite !Hfld by (done || lia).
    unfold m1. unfold_task. rewrite !(field_store U) by (done || lia).
    split; [|intros Hne]; repeat case_decide; lia || done.
  - eapply heap_task_writes; [exact Hlt|exact Hi0|]. transitivity m1.
    + unfold m1. unfold_task. repeat (apply store32_same_on; [|intros b Hb; specialize (Hb x HxU);
        unfold off, TASK_SIZE in *; lia]). done.
    + eapply same_on_weaken; [|exact Hf]. intros a Ha t Ht. specialize (Ha t Ht).
      unfold off, TASK_SIZE in *. lia.
  - rewrite Hc', Hc, !length_app. simpl. lia.
  - unfold t_retval. rewrite Hfld by (done || lia). unfold m1. unfold_task.
    rewrite !(field_store U) by (done || lia). repeat case_decide; lia || done.
Qed.

(** The task structure filled in by [sched_register_thread] before its stack is
    allocated. *)
Definition task_fields (m : mem) (ts tid callable arg : Z) : mem :=
  set_arg (set_callable (set_utime (set_priority (set_status (set_tid m ts tid) ts NEW) ts 0) ts 0)
    ts callable) ts arg.

(** The stacks of threads that have never run are inside live heap blocks. *)
Definition live_stacks (m : mem) (U : list Z) (live : live_t) : Prop :=
  forall t, t ∈ U -> t_status m t = NEW ->
    exists b, b ∈ live /\ b.1 <= t_esp m t - 12 /\ t_esp m t <= b.1 + b.2.

Lemma task_fields_frame m ts tid callable arg :
  same_off ts TASK_SIZE m (task_fields m ts tid callable arg).
Proof.
  unfold task_fields. unfold_task.
  repeat (apply store32_same_on; [|intros b Hb; unfold off, TASK_SIZE in *; lia]). done.
Qed.

(** The last writes of [sched_register_thread] to the new task structure. *)
Definition task_stack (m : mem) (ts stack : Z) : mem :=
  memset (set_esp (set_stack m ts stack) ts (stack + THREAD_STACK_SIZE - 1)) (ts + 40) 0
    (NUM_MAX_FD * 4).

Lemma task_stack_frame m ts stack : same_off ts TASK_SIZE m (task_stack m ts stack).
Proof.
  unfold task_stack, NUM_MAX_FD.
  transitivity (set_esp (set_stack m ts stack) ts (stack + THREAD_STACK_SIZE - 1)).
  - unfold_task. repeat (apply store32_same_on; [|intros b Hb; unfold off, TASK_SIZE in *; lia]). done.
  - eapply same_on_weaken; [|apply memset_same_off; lia]. unfold off, TASK_SIZE. intros; lia.
Qed.

(** The fields of a registered task, whatever happened outside it. *)
Lemma register_fields m1 ts tid callable arg m3 stack :
  same_on (in_block (ts, TASK_SIZE)) (task_fields m1 ts tid callable arg) m3 ->
  0 <= stack -> stack + THREAD_STACK_SIZE <= 4294967296 ->
  let m6 := task_stack m3 ts stack in
  t_status m6 ts = NEW /\ t_esp m6 ts = stack + THREAD_STACK_SIZE - 1 /\
  t_tid m6 ts = u32 tid /\ t_callable m6 ts = u32 callable /\ t_arg m6 ts = u32 arg /\
  t_stack m6 ts = stack /\ (forall i, 0 <= i < NUM_MAX_FD -> t_fd m6 ts i = 0) /\
  t_utime m6 ts = 0.
Proof.
  intros Hs Hst Hst' m6. unfold THREAD_STACK_SIZE in *.
  set (m5 := set_esp (set_stack m3 ts stack) ts (stack + 0x2000 - 1)).
  assert (forall a, off (ts + 40) 64 a -> load8 m6 a = load8 m5 a) as H6
    by (intros a Ha; by apply memset_same_off).
  assert (forall a, off (ts + 40) 64 a -> off (ts + 40) 64 (a + 3) -> load32 m6 a = load32 m5 a \/
    ts + 37 <= a < ts + 104) as H32.
  { intros a Ha Ha'. destruct (decide (ts + 37 <= a < ts + 104)) as [|Hn]; [by right|left].
    apply load32_ext. intros i Hi. apply H6. unfold off in *. lia. }
  assert (forall j, 8 <= j <= 36 ->
    load32 m6 (ts + j) = load32 (task_fields m1 ts tid callable arg) (ts + j)) as Hf.
  { intros j Hj. destruct (H32 (ts + j)) as [->|]; [unfold off; lia..| |lia]. unfold m5. unfold_task.
    rewrite !load32_store32_ne by lia. apply (same_on_load32 _ _ _ _ Hs).
    intros i Hx. unfold in_block, TASK_SIZE. simpl. lia. }
  unfold t_status, t_tid, t_callable, t_arg, t_utime. rewrite !Hf by lia.
  split_and!; [unfold task_fields; unfold_task; by mem_simpl| |unfold task_fields; unfold_task; by mem_simpl..| | |unfold task_fields; unfold_task; by mem_simpl].
  - unfold t_esp. destruct (H32 ts) as [->|]; [unfold off; lia..| |lia]. unfold m5. unfold_task.
    rewrite load32_store32_eq by done. apply u32_small. lia.
  - unfold t_stack. destruct (H32 (ts + 4)) as [->|]; [unfold off; lia..| |lia]. unfold m5. unfold_task.
    rewrite load32_store32_ne, load32_store32_eq by lia. apply u32_small. lia.
  - intros i Hi. unfold NUM_MAX_FD in *. unfold t_fd, load32, load16. unfold m6, task_stack, NUM_MAX_FD.
    rewrite !load8_memset by lia. by rewrite !decide_True by lia.
Qed.

(** The heap between and after the allocations of a registration. *)
Lemma register_alloc m live ts tid callable arg m1 m3 stack :
  heap_inv m live -> kmalloc m TASK_SIZE = Some (m1, ts) ->
  kmalloc (task_fields m1 ts tid callable arg) THREAD_STACK_SIZE = Some (m3, stack) ->
  heap_inv (task_fields m1 ts tid callable arg) ((ts, TASK_SIZE) :: live) /\
  heap_inv m3 ((stack, THREAD_STACK_SIZE) :: (ts, TASK_SIZE) :: live).
Proof.
  intros Hi E1 E3.
  destruct (heap_alloc m live TASK_SIZE m1 ts Hi) as (Hi1 & _); [done|done|].
  assert (heap_inv (task_fields m1 ts tid callable arg) ((ts, TASK_SIZE) :: live)) as Hi2.
  { eapply heap_frame; [exact Hi1|]. eapply same_on_weaken; [|apply task_fields_frame].
    intros a [_ Ha]. by eapply block_off. }
  split; [done|]. by apply (heap_alloc _ _ THREAD_STACK_SIZE m3 stack Hi2).
Qed.

(** The heap after a registration. *)
Lemma register_heap m live ts tid callable arg m1 m3 stack :
  heap_inv m live -> kmalloc m TASK_SIZE = Some (m1, ts) ->
  kmalloc (task_fields m1 ts tid callable arg) THREAD_STACK_SIZE = Some (m3, stack) ->
  let m6 := task_stack m3 ts stack in
  heap_inv m6 ((stack, THREAD_STACK_SIZE) :: (ts, TASK_SIZE) :: live) /\
  same_on (in_live live) m m6 /\ same_on (fun a => ~ heap_area a) m m6 /\
  same_on (in_block (ts, TASK_SIZE)) (task_fields m1 ts tid callable arg) m3 /\
  0 < ts /\ ts + TASK_SIZE <= 4294967296 /\ 0 < stack /\ stack + THREAD_STACK_SIZE <= 4294967296 /\
  (forall b, b ∈ live -> disjoint_blocks (ts, TASK_SIZE) b) /\
  (forall b, b ∈ (ts, TASK_SIZE) :: live -> disjoint_blocks (stack, THREAD_STACK_SIZE) b).
Proof.
  intros Hi E1 E3 m6.
  destruct (heap_alloc m live TASK_SIZE m1 ts Hi) as (Hi1 & Hts & Hts' & Hd1 & Ha1 & Hs1 & Hx1); [done|done|].
  set (m2 := task_fields m1 ts tid callable arg) in *.
  pose proof (task_fields_frame m1 ts tid callable arg) as Hs2. fold m2 in Hs2.
  pose proof (task_stack_frame m3 ts stack) as Hs6. fold m6 in Hs6.
  assert (forall lv a, (ts, TASK_SIZE) ∈ lv -> ~ in_live lv a -> off ts TASK_SIZE a) as Hnl.
  { intros lv a Hin Ha. destruct (decide (off ts TASK_SIZE a)) as [|Hn]; [done|]. exfalso. apply Ha.
    exists (ts, TASK_SIZE). split; [done|]. unfold in_block, off in *. simpl. lia. }
  assert (forall a, in_live live a -> off ts TASK_SIZE a) as Hll.
  { intros a (b & Hb & Ha). specialize (Hd1 b Hb). unfold disjoint_blocks, in_block, off in *.
    simpl in *. lia. }
  assert (heap_inv m2 ((ts, TASK_SIZE) :: live)) as Hi2.
  { eapply heap_frame; [exact Hi1|]. eapply same_on_weaken; [|exact Hs2]. intros a [_ Ha]. revert Ha. apply Hnl. by left. }
  destruct (heap_alloc m2 _ THREAD_STACK_SIZE m3 stack Hi2) as (Hi3 & Hst & Hst' & Hd3 & _ & Hs3 & Hx3); [done|done|].
  split_and!; try done.
  - eapply heap_frame; [exact Hi3|]. eapply same_on_weaken; [|exact Hs6].
    intros a [_ Ha]. revert Ha. apply Hnl. right. by left.
  - transitivity m1; [done|]. transitivity m2; [by eapply same_on_weaken; [|exact Hs2]|].
    transitivity m3; [|by eapply same_on_weaken; [|exact Hs6]].
    eapply same_on_weaken; [|exact Hs3]. intros a Ha. apply in_live_cons. by right.
  - assert (forall a, ~ heap_area a -> off ts TASK_SIZE a) as Ho.
    { intros a Ha. destruct (decide (off ts TASK_SIZE a)) as [|Hn]; [done|]. exfalso. apply Ha, Ha1.
      unfold in_block, off in *. simpl. lia. }
    transitivity m1; [done|]. transitivity m2; [by eapply same_on_weaken; [|exact Hs2]|].
    transitivity m3; [done|by eapply same_on_weaken; [|exact Hs6]].
  - eapply same_on_weaken; [|exact Hs3]. intros a Ha. apply in_live_cons. by left.
Qed.

(** The static variables after a registration. *)
Definition register_state (s : sched_state) (ts head : Z) : sched_state :=
  upd_thread_count (upd_runq (upd_current (upd_tid_counter s (__tid_counter s + 1))
    (if __current_task s =? 0 then ts else __current_task s)) head) (__thread_count s + 1).

(** The scheduler and the heap between two operations. *)
Record kernel_ok (m : mem) (s : sched_state) (run wait done_ : list Z) (live : live_t) : Prop := {
  ko_sched : sched_ok m s run wait done_;
  ko_heap : heap_inv m live;
  ko_tasks : live_tasks (all_tasks s run wait done_) live;
  ko_stacks : live_stacks m (all_tasks s run wait done_) live;
  ko_tid : 0 <= __tid_counter s;
  ko_current : __current_task s = 0 -> none_running m (all_tasks s run wait done_)
}.

(** A task that has been registered and has not run. *)
Record new_task (m : mem) (ts tid callable arg : Z) : Prop := {
  nt_pos : 0 < ts;
  nt_status : t_status m ts = NEW;
  nt_tid : t_tid m ts = tid;
  nt_callable : t_callable m ts = u32 callable;
  nt_arg : t_arg m ts = u32 arg;
  nt_utime : t_utime m ts = 0
}.

Section Register.
Context (m : mem) (s : sched_state) (run wait done_ : list Z) (live : live_t).
Context (callable arg : Z) (m1 : mem) (ts : Z) (m3 : mem) (stack : Z).
Local Abbreviation U := (all_tasks s run wait done_).
Local Abbreviation m6 := (task_stack m3 ts stack).
Context (Hok : sched_ok m s run wait done_) (Hcur : __current_task s = 0 -> none_running m U).
Context (Hi : heap_inv m live) (Hlt : live_tasks U live) (Hls : live_stacks m U live).
Context (Htid : 0 <= __tid_counter s < 4294967295) (Hroom : __thread_count s <> 16).
Context (E1 : kmalloc m TASK_SIZE = Some (m1, ts)).
Context (E3 : kmalloc (task_fields m1 ts (__tid_counter s) callable arg) THREAD_STACK_SIZE
    = Some (m3, stack)).

Lemma register_count : u32 (__thread_count s + 1) = __thread_count s + 1.
Proof.
  pose proof (so_count _ _ _ _ _ Hok). pose proof (so_max _ _ _ _ _ Hok). apply u32_small. lia.
Qed.

Lemma register_eq m7 k7 :
  splice_inq m6 (__runq_head s) ts = (m7, k7) ->
  sched_register_thread kmalloc m s callable arg =
    Some (m7, register_state s ts k7, s32 (t_tid m7 ts)).
Proof.
  intros E7. unfold sched_register_thread, MAX_THREADCOUNT. rewrite eqb_ne, E1 by done.
  cbn [mbind option_bind]. fold (task_fields m1 ts (__tid_counter s) callable arg).
  cbn [__tid_counter upd_tid_counter]. rewrite E3. cbn [mbind option_bind].
  destruct (register_heap m live ts _ _ _ m1 m3 stack Hi E1 E3) as (_ & _ & _ & _ & _ & _ & Hst & ? & _).
  assert (t_stack (set_stack m3 ts stack) ts = stack) as ->.
  { unfold_task. rewrite load32_store32_eq by done. apply u32_small. unfold THREAD_STACK_SIZE in *. lia. }
  fold (task_stack m3 ts stack). cbn [__current_task upd_tid_counter].
  rewrite (u32_small (__tid_counter s + 1)) by lia. pose proof register_count as Ec.
  unfold register_state, c_true. destruct (__current_task s =? 0); cbn -[splice_inq u32];
    by rewrite E7, Ec.
Qed.

Lemma register_fresh : (ts ∉ U) /\ tasks (ts :: U).
Proof.
  destruct (register_heap m live ts _ _ _ m1 m3 stack Hi E1 E3) as (_ & _ & _ & _ & Hts & Hts' & _ & _ & Hd1 & _).
  assert ((ts ∉ U)) as HnU.
  { intros Hin%Hlt%Hd1. unfold disjoint_blocks, TASK_SIZE in Hin. simpl in Hin. lia. }
  split; [done|]. apply tasks_cons; [apply (so_tasks _ _ _ _ _ Hok)|done|done|].
  intros t Ht. by apply Hd1, Hlt.
Qed.

(** The new task's allocation and its fields leave the other tasks alone. *)
Lemma register_view t :
  t ∈ U -> t_status m6 t = t_status m t /\ (t_status m t = NEW -> t_esp m6 t = t_esp m t).
Proof.
  intros Ht. destruct (register_heap m live ts _ _ _ m1 m3 stack Hi E1 E3) as (_ & Hs6 & _).
  by destruct (live_tasks_view U live m m6 Hlt Hs6 t Ht) as (_ & _ & ? & ?).
Qed.

Lemma register_esp : t_esp m6 ts = stack + THREAD_STACK_SIZE - 1 /\ t_status m6 ts = NEW /\
  0 < stack /\ stack + THREAD_STACK_SIZE <= 4294967296.
Proof.
  destruct (register_heap m live ts _ _ _ m1 m3 stack Hi E1 E3)
    as (_ & _ & _ & Hb & _ & _ & Hst & Hst' & _ & _).
  destruct (register_fields m1 ts _ _ _ m3 stack Hb) as (F1 & F2 & _); [lia|done|done].
Qed.

Lemma register_sched m7 k7 :
  splice_inq m6 (__runq_head s) ts = (m7, k7) ->
  sched_ok m7 (register_state s ts k7) (run ++ [ts]) wait done_.
Proof.
  intros E7. destruct (register_heap m live ts _ _ _ m1 m3 stack Hi E1 E3)
    as (_ & Hs6 & _ & _ & _ & _ & _ & _ & Hd1 & Hd3).
  pose proof (sched_ok_view _ _ _ _ _ _ Hok (live_tasks_view U live m m6 Hlt Hs6)) as Hok6.
  destruct register_fresh as [HnU HT]. destruct register_esp as (F2 & F1 & Hst & Hst').
  pose proof (so_count _ _ _ _ _ Hok). pose proof (so_max _ _ _ _ _ Hok).
  apply (sched_ok_add m6 s run wait done_ ts); try done.
  - unfold THREAD_STACK_SIZE in *. lia.
  - rewrite F2. intros t Ht. assert ((t, TASK_SIZE) ∈ (ts, TASK_SIZE) :: live) as Hd%Hd3
      by (apply elem_of_cons in Ht as [->|Ht%Hlt]; [by left|by right]).
    unfold disjoint_blocks, THREAD_STACK_SIZE, TASK_SIZE in *. simpl in Hd. lia.
  - intros t Ht. destruct (register_view t Ht) as [-> He]. intros Hn. rewrite He by done.
    destruct (Hls t Ht Hn) as (b & Hb%Hd1 & ? & ?). unfold disjoint_blocks in Hb. simpl in Hb. lia.
  - lia.
  - apply (so_lock _ _ _ _ _ Hok).
  - simpl. destruct (Z.eqb_spec (__current_task s) 0) as [E0|E0]; [right|by left].
    intros t Ht. destruct (register_view t Ht) as [-> _]. by apply Hcur.
Qed.

(** Linking the new task into the run queue changes no field but the links. *)
Lemma register_links m7 k7 :
  splice_inq m6 (__runq_head s) ts = (m7, k7) ->
  same_on (link_frame (ts :: run)) m6 m7 /\
  forall t j, t ∈ ts :: U -> 0 <= j <= 100 -> load32 m7 (t + j) = load32 m6 (t + j).
Proof.
  intros E7. destruct (register_heap m live ts _ _ _ m1 m3 stack Hi E1 E3) as (_ & Hs6 & _).
  pose proof (sched_ok_view _ _ _ _ _ _ Hok (live_tasks_view U live m m6 Hlt Hs6)) as Hok6.
  destruct register_fresh as [HnU HT].
  assert (ts :: run ⊆ ts :: U) as Str by (unfold all_tasks; set_solver).
  destruct (splice_inq_spec m6 _ run ts m7 k7 (so_run _ _ _ _ _ Hok6) (tasks_incl _ _ Str HT))
    as [_ Hf]; [unfold all_tasks in HnU; set_solver|done|].
  split; [done|]. intros. by apply (link_frame_field (ts :: U) (ts :: run)).
Qed.

Lemma register_live m7 k7 :
  splice_inq m6 (__runq_head s) ts = (m7, k7) ->
  let live' := (stack, THREAD_STACK_SIZE) :: (ts, TASK_SIZE) :: live in
  heap_inv m7 live' /\ live_tasks (ts :: U) live' /\ live_stacks m7 (ts :: U) live' /\
  same_on (fun a => ~ heap_area a) m m7.
Proof.
  intros E7 live'. destruct (register_links m7 k7 E7) as [Hf Hfld].
  destruct (register_heap m live ts _ _ _ m1 m3 stack Hi E1 E3) as (Hi6 & _ & Ho6 & _).
  fold live' in Hi6.
  assert (live_tasks (ts :: U) live') as Hlt'.
  { intros t [->|Ht%Hlt]%elem_of_cons; [right; by left|by right; right]. }
  assert (same_on (fun a => forall t, t ∈ ts :: U -> off t TASK_SIZE a) m6 m7) as Hf'.
  { eapply same_on_weaken; [|exact Hf]. intros a Ha t Ht.
    assert (t ∈ ts :: U) as Ht' by (unfold all_tasks; set_solver). specialize (Ha t Ht').
    unfold off, TASK_SIZE in *. lia. }
  split_and!; [by eapply heap_task_writes|done| |].
  - intros t Ht. rewrite (esp_field m7 t). unfold t_status. rewrite !Hfld by (done || lia).
    rewrite <- (esp_field m6 t). apply elem_of_cons in Ht as [->|Ht].
    + intros _. destruct register_esp as (-> & _). exists (stack, THREAD_STACK_SIZE).
      unfold THREAD_STACK_SIZE. simpl. split; [by left|lia].
    + destruct (register_view t Ht) as [Es He]. unfold t_status in Es, He. rewrite Es. intros Hn.
      rewrite He by done. destruct (Hls t Ht Hn) as (b & Hb & ?). exists b. split; [by right; right|done].
  - transitivity (task_stack m3 ts stack); [done|]. eapply same_on_weaken; [|exact Hf']. intros a Ha t Ht%Hlt'.
    destruct (decide (off t TASK_SIZE a)) as [|Hn]; [done|]. exfalso. apply Ha.
    eapply heap_live; [exact Hi6|]. exists (t, TASK_SIZE). split; [done|].
    unfold in_block, off in *. simpl. lia.
Qed.

(** What room is left. *)
Lemma register_room m7 k7 k :
  splice_inq m6 (__runq_head s) ts = (m7, k7) -> heap_room m3 k -> heap_room m7 k.
Proof.
  intros E7 Hk. pose proof (register_live m7 k7 E7) as (_ & Hlt' & _).
  set (live' := (stack, THREAD_STACK_SIZE) :: (ts, TASK_SIZE) :: live) in *.
  assert (forall a t, t ∈ ts :: U -> ~ in_live live' a -> off t TASK_SIZE a) as Hoff.
  { intros a t Ht%Hlt' Ha. destruct (decide (off t TASK_SIZE a)) as [|Hn]; [done|]. exfalso. apply Ha.
    exists (t, TASK_SIZE). split; [done|]. unfold in_block, off in *. simpl. lia. }
  destruct (register_alloc m live ts _ _ _ m1 m3 stack Hi E1 E3) as [_ Hi3].
  eapply heap_room_frame; [exact Hi3|exact Hk|]. intros a [_ Ha].
  destruct (register_links m7 k7 E7) as [Hf _]. rewrite Hf.
  - apply task_stack_frame. apply Hoff; [by left|done].
  - intros t Ht. assert (t ∈ ts :: U) as Ht' by (unfold all_tasks; set_solver).
    specialize (Hoff a t Ht' Ha). unfold off, TASK_SIZE in *. lia.
Qed.

Lemma register_new m7 k7 :
  splice_inq m6 (__runq_head s) ts = (m7, k7) ->
  t_tid m7 ts = __tid_counter s /\ t_callable m7 ts = u32 callable /\ t_arg m7 ts = u32 arg /\
  t_stack m7 ts = stack /\ (forall i, 0 <= i < NUM_MAX_FD -> t_fd m7 ts i = 0) /\
  t_utime m7 ts = 0.
Proof.
  intros E7. destruct (register_links m7 k7 E7) as [_ Hfld].
  destruct (register_heap m live ts _ _ _ m1 m3 stack Hi E1 E3)
    as (_ & _ & _ & Hb & _ & _ & Hst & Hst' & _ & _).
  destruct (register_fields m1 ts _ _ _ m3 stack Hb) as (_ & _ & F3 & F4 & F5 & F6 & F7 & F8); [lia|done|].
  assert (ts ∈ ts :: U) as Hin by (by left).
  unfold t_tid, t_callable, t_arg, t_stack, t_utime in *. rewrite !Hfld by (done || lia).
  rewrite F3, u32_small by lia. split_and!; [done..| |done].
  intros i Hx. rewrite <- (F7 i Hx). unfold t_fd, NUM_MAX_FD in *.
  rewrite <- Z.add_assoc. apply Hfld; [done|lia].
Qed.
Lemma register_task m7 k7 :
  splice_inq m6 (__runq_head s) ts = (m7, k7) -> new_task m7 ts (__tid_counter s) callable arg.
Proof.
  intros E7. destruct (register_new m7 k7 E7) as (F1 & F2 & F3 & _ & _ & F4).
  destruct (register_links m7 k7 E7) as [_ Hf]. destruct register_esp as (_ & Hn & _).
  destruct (register_heap m live ts _ _ _ m1 m3 stack Hi E1 E3) as (_ & _ & _ & _ & Hp & _).
  split; try done. unfold t_status. rewrite Hf by (by left || lia). done.
Qed.

Lemma register_tasks head t :
  t ∈ all_tasks (register_state s ts head) (run ++ [ts]) wait done_ -> t ∈ ts :: U.
Proof. unfold all_tasks. simpl. set_solver. Qed.

Lemma register_kernel_ok m7 k7 :
  splice_inq m6 (__runq_head s) ts = (m7, k7) ->
  kernel_ok m7 (register_state s ts k7) (run ++ [ts]) wait done_
    ((stack, THREAD_STACK_SIZE) :: (ts, TASK_SIZE) :: live).
Proof.
  intros E7. destruct (register_live m7 k7 E7) as (H1 & H2 & H3 & _).
  pose proof (nt_pos _ _ _ _ _ (register_task m7 k7 E7)) as Hp.
  split; [by apply register_sched|done| | |simpl; lia|].
  - intros t Ht%register_tasks. by apply H2.
  - intros t Ht%register_tasks. by apply H3.
  - simpl. case_Z; lia.
Qed.
End Register.

(** C33: registering a thread.  With sixteen threads the call returns -1 and changes
    nothing.  Otherwise, once its two allocations succeed, the new task is at the tail
    of the run queue as NEW, with the next thread id, its function and argument, an
    empty descriptor table and a stack pointer at the end of a fresh block that no
    task structure overlaps; the count and the id counter grow by one, the first
    thread becomes current, and both invariants hold with the new blocks live. *)
Theorem sched_register_thread_ok m s run wait done_ live callable arg m1 ts m3 stack :
  let U := all_tasks s run wait done_ in
  sched_ok m s run wait done_ ->
  (__current_task s = 0 -> none_running m U) ->
  heap_inv m live -> live_tasks U live -> live_stacks m U live ->
  0 <= __tid_counter s < 4294967295 ->
  kmalloc m TASK_SIZE = Some (m1, ts) ->
  kmalloc (task_fields m1 ts (__tid_counter s) callable arg) THREAD_STACK_SIZE
    = Some (m3, stack) ->
  if __thread_count s =? 16 then
    sched_register_thread kmalloc m s callable arg = Some (m, s, -1)
  else
    exists m' s',
      sched_register_thread kmalloc m s callable arg = Some (m', s', s32 (__tid_counter s)) /\
      let live' := (stack, THREAD_STACK_SIZE) :: (ts, TASK_SIZE) :: live in
      sched_ok m' s' (run ++ [ts]) wait done_ /\ heap_inv m' live' /\
      live_tasks (ts :: U) live' /\ live_stacks m' (ts :: U) live' /\
      __tid_counter s' = __tid_counter s + 1 /\
      __current_task s' = (if __current_task s =? 0 then ts else __current_task s) /\
      t_callable m' ts = u32 callable /\ t_arg m' ts = u32 arg /\
      t_stack m' ts = stack /\ (forall i, 0 <= i < NUM_MAX_FD -> t_fd m' ts i = 0).
Proof.
  intros U Hok Hcur Hi Hlt Hls Htid E1 E3. destruct (Z.eqb_spec (__thread_count s) 16) as [E16|Hr].
  { unfold sched_register_thread, MAX_THREADCOUNT. by rewrite E16. }
  destruct (splice_inq (task_stack m3 ts stack) (__runq_head s) ts) as [m7 k7] eqn:E7.
  destruct (register_live m s run wait done_ live callable arg m1 ts m3 stack) with (m7 := m7) (k7 := k7)
    as (H1 & H2 & H3 & _); [done..|].
  destruct (register_new m s run wait done_ live callable arg m1 ts m3 stack) with (m7 := m7) (k7 := k7)
    as (F1 & F2 & F3 & F4 & F5 & _); [done..|].
  exists m7, (register_state s ts k7). split; [|cbv zeta; split_and!; try done].
  - rewrite <- F1. by eapply (register_eq m s run wait done_ live).
  - by eapply (register_sched m s run wait done_ live).
Qed.
(** With room for both blocks the allocations succeed. *)
Definition REGISTER_ROOM : Z := TASK_SIZE + 16 + THREAD_STACK_SIZE + 16.

Lemma register_allocs m live k tid callable arg :
  heap_inv m live -> heap_room m k -> REGISTER_ROOM + 16 < k ->
  exists m1 ts m3 stack, kmalloc m TASK_SIZE = Some (m1, ts) /\
    kmalloc (task_fields m1 ts tid callable arg) THREAD_STACK_SIZE = Some (m3, stack) /\
    heap_room m3 (k - REGISTER_ROOM).
Proof.
  unfold REGISTER_ROOM. intros Hi Hr Hk. unfold TASK_SIZE, THREAD_STACK_SIZE in Hk.
  destruct (heap_room_alloc m live k TASK_SIZE Hi Hr) as (m1 & ts & E1 & Hr1);
    [done|unfold TASK_SIZE; lia|].
  destruct (heap_alloc m live TASK_SIZE m1 ts Hi) as (Hi1 & _); [done|done|].
  assert (same_on (fun a => heap_area a /\ ~ in_live ((ts, TASK_SIZE) :: live) a) m1
    (task_fields m1 ts tid callable arg)) as Hs.
  { eapply same_on_weaken; [|apply task_fields_frame]. intros a [_ Ha]. by eapply block_off. }
  destruct (heap_room_alloc (task_fields m1 ts tid callable arg) ((ts, TASK_SIZE) :: live)
    (k - TASK_SIZE - 16) THREAD_STACK_SIZE) as (m3 & stack & E3 & Hr3).
  - by eapply heap_frame.
  - by eapply heap_room_frame.
  - done.
  - unfold TASK_SIZE, THREAD_STACK_SIZE. lia.
  - exists m1, ts, m3, stack. split_and!; [done|done|].
    replace (k - (TASK_SIZE + 16 + THREAD_STACK_SIZE + 16)) with
      (k - TASK_SIZE - 16 - THREAD_STACK_SIZE - 16) by lia. done.
Qed.

(** The heap's bytes carry all of it. *)
Lemma kernel_ok_frame m m' s run wait done_ live :
  kernel_ok m s run wait done_ live -> same_on heap_area m m' -> kernel_ok m' s run wait done_ live.
Proof.
  intros [Hok Hi Hlt Hls Ht Hc] Hs.
  assert (same_on (in_live live) m m') as Hs'
    by (eapply same_on_weaken; [|exact Hs]; intros a; by apply heap_live with (m := m)).
  pose proof (live_tasks_view _ live m m' Hlt Hs') as Hv. split; [by eapply sched_ok_view| |done| |done|].
  - eapply heap_frame; [exact Hi|]. eapply same_on_weaken; [|exact Hs]. by intros a [Ha _].
  - intros t Hin. destruct (Hv t Hin) as (_ & _ & -> & He). intros Hn. rewrite He by done. by apply Hls.
  - intros H0 t Hin. destruct (Hv t Hin) as (_ & _ & -> & _). by apply Hc.
Qed.

Lemma heap_room_same m m' live k :
  heap_inv m live -> same_on heap_area m m' -> heap_room m k -> heap_room m' k.
Proof.
  intros Hi Hs Hr. eapply heap_room_frame; [exact Hi|exact Hr|]. eapply same_on_weaken; [|exact Hs].
  by intros a [Ha _].
Qed.

(** The fields of a task other than its links. *)
Definition same_task (m m' : mem) (t : Z) : Prop :=
  forall j, 0 <= j <= 100 -> load32 m' (t + j) = load32 m (t + j).

Lemma same_task_new m m' ts tid callable arg :
  same_task m m' ts -> new_task m ts tid callable arg -> new_task m' ts tid callable arg.
Proof.
  intros H [? ? ? ? ? ?]. unfold t_status, t_tid, t_callable, t_arg, t_utime in *.
  split; unfold t_status, t_tid, t_callable, t_arg, t_utime; try rewrite H by lia; done.
Qed.

Lemma live_same_task m m' live t :
  (t, TASK_SIZE) ∈ live -> same_on (in_live live) m m' -> same_task m m' t.
Proof.
  intros Ht Hs j Hj. apply (same_on_load32 _ _ _ _ Hs). intros i Hi. exists (t, TASK_SIZE).
  split; [done|]. unfold in_block, TASK_SIZE. simpl. lia.
Qed.

(** With room in the heap and in the thread table a registration succeeds. *)
Lemma register_kernel m s run wait done_ live k callable arg :
  kernel_ok m s run wait done_ live -> __thread_count s <> 16 -> __tid_counter s < 2147483648 ->
  heap_room m k -> REGISTER_ROOM + 16 < k ->
  exists m' ts head live',
    let s' := register_state s ts head in
    sched_register_thread kmalloc m s callable arg = Some (m', s', __tid_counter s) /\
    kernel_ok m' s' (run ++ [ts]) wait done_ live' /\ heap_room m' (k - REGISTER_ROOM) /\
    new_task m' ts (__tid_counter s) callable arg /\ same_on (fun a => ~ heap_area a) m m' /\
    (forall t, t ∈ all_tasks s run wait done_ -> same_task m m' t).
Proof.
  intros [Hok Hi Hlt Hls Ht Hc] Hr Htid Hroom Hk.
  destruct (register_allocs m live k (__tid_counter s) callable arg Hi Hroom Hk)
    as (m1 & ts & m3 & stack & E1 & E3 & Hr3).
  destruct (splice_inq (task_stack m3 ts stack) (__runq_head s) ts) as [m7 k7] eqn:E7.
  assert (0 <= __tid_counter s < 4294967295) as Htid' by lia.
  assert (new_task m7 ts (__tid_counter s) callable arg) as Hnew by (eapply register_task; eassumption).
  exists m7, ts, k7, ((stack, THREAD_STACK_SIZE) :: (ts, TASK_SIZE) :: live).
  split_and!; [|eapply register_kernel_ok; eassumption|eapply register_room; eassumption|done
    |eapply register_live; eassumption|].
  - replace (__tid_counter s) with (s32 (t_tid m7 ts)) by
      (rewrite (nt_tid _ _ _ _ _ Hnew); apply s32_small; lia).
    eapply register_eq; eassumption.
  - intros t Hin j Hj.
    assert (forall t j, t ∈ ts :: all_tasks s run wait done_ -> 0 <= j <= 100 ->
      load32 m7 (t + j) = load32 (task_stack m3 ts stack) (t + j)) as Hf
      by (eapply register_links; eassumption).
    rewrite Hf by (by right || lia).
    destruct (register_heap m live ts _ _ _ m1 m3 stack Hi E1 E3) as (_ & Hs6 & _).
    by apply (live_same_task m _ live); [apply Hlt|..].
Qed.
(** Going to sleep keeps the heap too. *)
Lemma sleep_kernel fuel m s l1 x l2 wait done_ live systicks :
  let U := all_tasks s (l1 ++ x :: l2) wait done_ in
  kernel_ok m s (l1 ++ x :: l2) wait done_ live -> __current_task s = x -> (0 < fuel)%nat ->
  exists m' s', sleep_begin fuel m s systicks = Some (m', s') /\
    kernel_ok m' s' (l1 ++ l2) (wait ++ [x]) done_ live /\ __current_task s' = x /\
    t_status m' x = BLOCKED /\ t_sleep_time m' x = u32 systicks /\
    (forall t, t ∈ U -> t <> x -> same_task m m' t) /\ same_on (fun a => ~ heap_area a) m m' /\
    (forall k, heap_room m k -> heap_room m' k).
Proof.
  intros U [Hok Hi Hlt Hls Ht Hcur] Hx Hfuel.
  destruct (sleep_begin_spec fuel m s l1 x l2 wait done_ systicks Hok Hx Hfuel)
    as (m' & s' & E & Hok' & Hc & Et & Eid & Ec & Hf & Hs). fold U in Hlt, Hls, Hcur, Hf, Hs.
  pose proof (so_tasks _ _ _ _ _ Hok) as HU. fold U in HU.
  assert (x ∈ U) as HxU by (unfold U, all_tasks; set_solver).
  assert (all_tasks s' (l1 ++ l2) (wait ++ [x]) done_ ≡ₚ U) as HA
    by (unfold U, all_tasks; rewrite Eid; solve_Permutation).
  destruct (asleep_self m x systicks) as (H1 & _ & H3).
  assert (forall t, t ∈ U -> t <> x -> same_task m m' t) as Hsame.
  { intros t Hin Hne j Hj. rewrite Hf by done. by apply (asleep_other U). }
  assert (t_status m' x = BLOCKED) as Hbl by (unfold t_status in *; rewrite Hf by (done || lia); done).
  exists m', s'. split_and!; [done| |done|done| |done| |].
  - split; [done|by eapply (heap_task_writes U)| | |by rewrite Et|].
    + intros t Hin. rewrite HA in Hin. by apply Hlt.
    + intros t Hin Hn. rewrite HA in Hin. destruct (decide (t = x)) as [->|Hne]; [by rewrite Hbl in Hn|].
      specialize (Hsame t Hin Hne). rewrite (esp_field m'), Hsame by lia. rewrite <- esp_field.
      apply Hls; [done|]. rewrite <- Hn. unfold t_status. by rewrite Hsame by lia.
    + rewrite Hc. intros ->. by destruct (tasks_range _ HU _ HxU).
  - unfold t_sleep_time in *. by rewrite Hf by (done || lia).
  - eapply same_on_weaken; [|exact Hs]. intros a Ha. eapply live_outside; [exact Hlt|].
    intros Hin. apply Ha. by apply (heap_live m live).
  - intros k Hr. eapply heap_room_frame; [exact Hi|exact Hr|]. eapply same_on_weaken; [|exact Hs].
    intros a [_ Ha]. by eapply live_outside.
Qed.

(** *** Initialisation *)

(** The fields of the idle task before its stack is allocated. *)
Definition idle_fields (m : mem) (t do_idle : Z) : mem :=
  set_arg (set_callable (set_status m t NEW) t do_idle) t 0.

Definition idle_stack (m : mem) (t stack : Z) : mem :=
  set_esp (set_stack m t stack) t (stack + 0x100 - 1).

Lemma idle_fields_frame m t do_idle : same_off t TASK_SIZE m (idle_fields m t do_idle).
Proof.
  unfold idle_fields. unfold_task.
  repeat (apply store32_same_on; [|intros b Hb; unfold off, TASK_SIZE in *; lia]). done.
Qed.

Lemma idle_stack_frame m t stack : same_off t TASK_SIZE m (idle_stack m t stack).
Proof.
  unfold idle_stack. unfold_task.
  repeat (apply store32_same_on; [|intros b Hb; unfold off, TASK_SIZE in *; lia]). done.
Qed.

Lemma idle_values m1 m2 t do_idle stack :
  same_on (in_block (t, TASK_SIZE)) (idle_fields m1 t do_idle) m2 ->
  0 <= stack -> stack + 0x100 <= 4294967296 ->
  t_status (idle_stack m2 t stack) t = NEW /\ t_callable (idle_stack m2 t stack) t = u32 do_idle /\
  t_esp (idle_stack m2 t stack) t = stack + 0xff.
Proof.
  intros Hs H0 H1. unfold idle_stack.
  assert (forall j, 0 <= j <= 100 -> load32 m2 (t + j) = load32 (idle_fields m1 t do_idle) (t + j)) as Hf.
  { intros j Hj. apply (same_on_load32 _ _ _ _ Hs). intros i Hi. unfold in_block, TASK_SIZE. simpl. lia. }
  unfold_task. mem_simpl. rewrite !Hf by lia. unfold idle_fields. unfold_task. mem_simpl.
  split_and!; [done|done|]. rewrite u32_small by lia. lia.
Qed.

(** A scheduler without threads. *)
Record no_threads (s : sched_state) : Prop := {
  ns_count : __thread_count s = 0;
  ns_tid : 0 <= __tid_counter s;
  ns_current : __current_task s = 0;
  ns_run : __runq_head s = 0;
  ns_wait : __waitq_head s = 0;
  ns_done : __doneq_head s = 0
}.

Lemma init_sched_kernel_ok m s t :
  no_threads s -> 0 < t -> t + TASK_SIZE <= 4294967296 -> t_status m t = NEW ->
  forall stack live, heap_inv m live -> (t, TASK_SIZE) ∈ live -> (stack, 0x100) ∈ live ->
  disjoint_blocks (stack, 0x100) (t, TASK_SIZE) -> 0 < stack -> t_esp m t = stack + 0xff ->
  kernel_ok m (upd_lock (upd_idle s t) unlocked) [] [] [] live.
Proof.
  intros [Hc Htid Hcur Hr Hw Hd] H0 H1 Hst stack live Hi Hlt Hls Hdis Hs0 Hesp.
  assert (all_tasks (upd_lock (upd_idle s t) unlocked) [] [] [] = [t]) as EU by done.
  assert (queue m 0 []) as Hq by (by split; [..|constructor|]).
  assert (forall x, x ∈ [t] -> t_status m x = NEW) as HN by (by intros x ->%list_elem_of_singleton).
  assert (forall x, x ∈ [t] -> x = t) as H1t by (by intros x ->%list_elem_of_singleton).
  split; rewrite ?EU; [|done| | |done|].
  - split; rewrite ?EU; cbn [__runq_head __waitq_head __doneq_head __thread_count upd_lock upd_idle].
    + by rewrite Hr.
    + by rewrite Hw.
    + by rewrite Hd.
    + apply NoDup_singleton.
    + split; [by intros x ->%H1t|]. intros x y ->%H1t ->%H1t. by left.
    + done.
    + simpl. lia.
    + done.
    + intros x Hx%HN E. by rewrite E in Hx.
    + intros x [->|Hx]; [left; by apply HN, list_elem_of_singleton|by apply not_elem_of_nil in Hx].
    + by intros x ?%not_elem_of_nil.
    + by intros x ?%not_elem_of_nil.
    + intros x ->%H1t _. rewrite Hesp. split; [lia|]. intros y ->%H1t.
      unfold disjoint_blocks, TASK_SIZE in *. simpl in Hdis. lia.
  - by intros x ->%H1t.
  - intros x ->%H1t _. exists (stack, 0x100). rewrite Hesp. simpl. split; [done|lia].
  - intros _ x Hx%HN. by rewrite Hx.
Qed.

(** With room for its two blocks [init_sched] returns. *)
Definition INIT_ROOM : Z := TASK_SIZE + 16 + 0x100 + 16.

Lemma init_sched_kernel m s k do_idle :
  heap_inv m [] -> heap_room m k -> INIT_ROOM + 16 < k -> no_threads s ->
  exists m' t live, init_sched kmalloc do_idle m s = Some (m', upd_lock (upd_idle s t) unlocked) /\
    kernel_ok m' (upd_lock (upd_idle s t) unlocked) [] [] [] live /\ heap_room m' (k - INIT_ROOM) /\
    t_status m' t = NEW /\ t_callable m' t = u32 do_idle /\ same_on (fun a => ~ heap_area a) m m'.
Proof.
  unfold INIT_ROOM. unfold TASK_SIZE at 1. intros Hi Hr Hk Hs.
  destruct (heap_room_alloc m [] k TASK_SIZE Hi Hr) as (m1 & t & E1 & Hr1); [done|unfold TASK_SIZE; lia|].
  destruct (heap_alloc m [] TASK_SIZE m1 t Hi) as (Hi1 & H0 & H1 & _ & Ha & _ & Hx1); [done|done|].
  set (m2 := idle_fields m1 t do_idle). pose proof (idle_fields_frame m1 t do_idle) as Hf2. fold m2 in Hf2.
  assert (forall lv m m', same_off t TASK_SIZE m m' -> (t, TASK_SIZE) ∈ lv ->
    same_on (fun a => heap_area a /\ ~ in_live lv a) m m') as Hkeep.
  { intros lv n n' Hn Hin. eapply same_on_weaken; [|exact Hn]. intros a [_ Hl].
    destruct (decide (off t TASK_SIZE a)) as [|Hno]; [done|]. exfalso. apply Hl.
    exists (t, TASK_SIZE). split; [done|]. unfold in_block, off in *. simpl. lia. }
  assert (forall m m', same_off t TASK_SIZE m m' -> same_on (fun a => ~ heap_area a) m m') as Hout.
  { intros n n' Hn. eapply same_on_weaken; [|exact Hn]. intros a Hl.
    destruct (decide (off t TASK_SIZE a)) as [|Hno]; [done|]. exfalso. apply Hl, Ha.
    unfold in_block, off in *. simpl. lia. }
  assert (heap_inv m2 [(t, TASK_SIZE)]) as Hi2 by (eapply heap_frame; [exact Hi1|]; apply Hkeep; [done|by left]).
  destruct (heap_room_alloc m2 [(t, TASK_SIZE)] (k - TASK_SIZE - 16) 0x100 Hi2) as (m3 & stack & E3 & Hr3);
    [eapply heap_room_frame; [exact Hi1|exact Hr1|]; apply Hkeep; [done|by left]|done|unfold TASK_SIZE; lia|].
  destruct (heap_alloc m2 _ 0x100 m3 stack Hi2) as (Hi3 & Hs0 & Hs1 & Hd3 & _ & Hl3 & Hx3); [done|done|].
  pose proof (idle_stack_frame m3 t stack) as Hf4. set (m4 := idle_stack m3 t stack) in *.
  destruct (idle_values m1 m3 t do_idle stack) as (F1 & F2 & F3); [|lia|lia|].
  { eapply same_on_weaken; [|exact Hl3]. intros a Hin. apply in_live_cons. by left. }
  fold m4 in F1, F2, F3. set (live := [(stack, 0x100); (t, TASK_SIZE)]).
  assert (heap_inv m4 live) as Hi4 by (eapply heap_frame; [exact Hi3|]; apply Hkeep; [done|right; by left]).
  exists m4, t, live. split_and!; try done.
  - unfold init_sched. rewrite E1. cbn [mbind option_bind]. fold (idle_fields m1 t do_idle). fold m2.
    rewrite E3. cbn [mbind option_bind]. assert (t_stack (set_stack m3 t stack) t = stack) as ->.
    { unfold_task. rewrite load32_store32_eq by done. apply u32_small. lia. }
    reflexivity.
  - apply (init_sched_kernel_ok m4 s t Hs H0 H1 F1 stack live); try done; [right; by left|by left|].
    apply Hd3. by left.
  - replace (k - (TASK_SIZE + 16 + 0x100 + 16)) with (k - TASK_SIZE - 16 - 0x100 - 16) by lia.
    eapply heap_room_frame; [exact Hi3|exact Hr3|]. apply Hkeep; [done|right; by left].
  - transitivity m1; [done|]. transitivity m2; [by apply Hout|]. transitivity m3; [done|by apply Hout].
Qed.
End WithHeap.

Lemma finalize_current_ok_witness :
  exists m' s', finalize_current ex_kfree 1 ex_started.1.1 ex_started.1.2 42 = Some (m', s') /\
    sched_ok m' s' [ex_B; ex_C] [] [ex_A] /\ t_retval m' ex_A = 42.
Proof.
  assert (t_stack ex_started.1.1 ex_A = 0x900220) as Est by (by vm_compute).
  destruct (finalize_current_ok 1 ex_started.1.1 ex_started.1.2 [] ex_A [ex_B; ex_C] [] [] 42
              ex_live 0x2000) as (m' & s' & E & Hok & _ & _ & _ & Hr).
  - exact ex_started_ok.
  - by vm_compute.
  - lia.
  - exact ex_started_heap.
  - rewrite Est. by apply (bool_decide_unpack _).
  - rewrite Est. intros t Ht. apply list_elem_of_filter. split; [|by apply ex_started_live].
    revert t Ht. change ([] ++ ex_A :: [ex_B; ex_C]) with ex_run. rewrite ex_started_tasks.
    each_task; by vm_compute.
  - exists m', s'. split_and!; [exact E|exact Hok|exact Hr].
Defined.

(** The two allocations of a fourth registration. *)
Definition ex_fourth : mem * Z * (mem * Z) :=
  let a := default (mem_zero, 0) (ex_kmalloc ex_started.1.1 TASK_SIZE) in
  (a, default (mem_zero, 0) (ex_kmalloc (task_fields a.1 a.2 3 0x6300 4) THREAD_STACK_SIZE)).

Lemma sched_register_thread_ok_witness :
  exists m' s', sched_register_thread ex_kmalloc ex_started.1.1 ex_started.1.2 0x6300 4 = Some (m', s', 3) /\
    sched_ok m' s' (ex_run ++ [0x906350]) [] [].
Proof.
  pose proof (sched_register_thread_ok ex_started.1.1 ex_started.1.2 ex_run [] [] ex_live 0x6300 4
    ex_fourth.1.1 ex_fourth.1.2 ex_fourth.2.1 ex_fourth.2.2) as H.
  assert ((__thread_count ex_started.1.2 =? 16) = false) as Ec by (by vm_compute).
  assert (__tid_counter ex_started.1.2 = 3) as Et by (by vm_compute).
  rewrite Ec, Et in H. destruct H as (m' & s' & E & Hok & _).
  - exact ex_started_ok.
  - intros H0. exfalso. vm_compute in H0. discriminate.
  - exact ex_started_heap.
  - exact ex_started_live.
  - intros t Ht Hn. rewrite ex_started_tasks in Ht. revert t Ht Hn.
    each_task; intros Hn; [|exfalso; vm_compute in Hn; discriminate|..]; clear Hn; eval_esp;
      [exists (0x900090, 0x100)|exists (0x9022b0, 0x2000)|exists (0x904340, 0x2000)];
      (split; [by apply (bool_decide_unpack _)|simpl; lia]).
  - lia.
  - by vm_compute.
  - by vm_compute.
  - exists m', s'. split; [exact E|].
    assert (ex_fourth.1.2 = 0x906350) as E4 by (by vm_compute). by rewrite <- E4.
Defined.

