(* ===== verification/SchedStart.v ===== *)
(** * SchedStart: the first time slice

    A thread that is current and has not run is charged for the interrupts of its
    first time slice as if it had run, and is started by the interrupt that ends it. *)

From S2P Require Import Prelude Memory Klib Mutex Kmalloc KmallocStore KmallocProps Heap.
From S2P Require Import Context SchedQueue Sched SchedProps SchedInv SchedOps SchedHeap.

(** Consecutive timer interrupts that return to the interrupted code. *)
Fixpoint timer_ticks (finalizer : Z) (fuel : nat) (m : mem) (s : sched_state) (cs : list cpu) :
  option (mem * sched_state) :=
  match cs with
  | [] => Some (m, s)
  | c :: cs' =>
      '(m, s, r) ← do_timer finalizer fuel m s c;
      match r with
      | None => timer_ticks finalizer fuel m s cs'
      | Some _ => None
      end
  end.

(** The static variables after [n] interrupts. *)
Definition ticked (s : sched_state) : sched_state :=
  upd_jiffies s (u64 (jiffies s + 1)).

Section WithHeap.
Context {kmalloc : mem -> Z -> option (mem * Z)} {kfree : mem -> Z -> option mem}.
Context `{!Heap kmalloc kfree}.

(** Thread [x] is current, new, the only one, and has been charged [u] ticks. *)
Record starting (m : mem) (s : sched_state) (x : Z) (live : live_t) (callable arg u : Z) : Prop := {
  st_kernel : kernel_ok m s [x] [] [] live;
  st_current : __current_task s = x;
  st_status : t_status m x = NEW;
  st_callable : t_callable m x = u32 callable;
  st_arg : t_arg m x = u32 arg;
  st_utime : t_utime m x = u
}.

Lemma starting_in m s x live callable arg u :
  starting m s x live callable arg u -> x ∈ all_tasks s [x] [] [].
Proof. intros _. unfold all_tasks. set_solver. Qed.

(** Writing the clock of a task keeps scheduler and heap. *)
Lemma clock_kernel m s run wait done_ live x v :
  kernel_ok m s run wait done_ live -> x ∈ all_tasks s run wait done_ ->
  kernel_ok (set_utime m x v) s run wait done_ live.
Proof.
  intros [Hok Hi Hlt Hls Ht Hc] Hx. pose proof (so_tasks _ _ _ _ _ Hok) as HU.
  assert (task_view (all_tasks s run wait done_) m (set_utime m x v)) as Hv
    by (apply task_view_field; done || lia).
  split; [by eapply sched_ok_view| |done| |done|].
  - eapply heap_task_writes; [exact Hlt|exact Hi|]. unfold_task. apply store32_same_on; [done|].
    intros a Ha. specialize (Ha x Hx). unfold off, TASK_SIZE in *. lia.
  - intros t Hin. destruct (Hv t Hin) as (_ & _ & -> & He). intros Hn. rewrite He by done. by apply Hls.
  - intros H0 t Hin. destruct (Hv t Hin) as (_ & _ & -> & _). by apply Hc.
Qed.

(** What a write to a live block leaves alone. *)
Lemma live_write m live b a v :
  heap_inv m live -> b ∈ live -> b.1 <= a -> a + 4 <= b.1 + b.2 ->
  same_on (fun a => ~ heap_area a) m (store32 m a v) /\
  (forall k, heap_room m k -> heap_room (store32 m a v) k).
Proof.
  intros Hi Hb H1 H2.
  assert (forall x, ~ in_live live x -> off a 4 x) as Hoff.
  { intros x Hx. destruct (decide (off a 4 x)) as [|Hn]; [done|]. exfalso. apply Hx. exists b.
    split; [done|]. unfold in_block, off in *. lia. }
  split.
  - apply store32_same_on; [done|]. intros x Hx. apply Hoff. intros Hl. by apply Hx, (heap_live m live).
  - intros k Hr. eapply heap_room_frame; [exact Hi|exact Hr|].
    apply store32_same_on; [done|]. intros x [_ Hx]. by apply Hoff.
Qed.

Lemma clock_starting m s x live callable arg u v :
  starting m s x live callable arg u ->
  starting (set_utime m x v) s x live callable arg (u32 v) /\
  same_on (fun a => ~ heap_area a) m (set_utime m x v) /\
  (forall k, heap_room m k -> heap_room (set_utime m x v) k).
Proof.
  intros S. pose proof (starting_in _ _ _ _ _ _ _ S) as Hx. destruct S as [K Ec Es Ef Ea Eu]. split.
  - split; [by apply clock_kernel|done|..]; revert Es Ef Ea Eu;
      unfold t_status, t_callable, t_arg, t_utime, set_utime; intros; mem_simpl; done.
  - unfold set_utime. eapply live_write; [apply (ko_heap _ _ _ _ _ _ K)|
      apply (ko_tasks _ _ _ _ _ _ K _ Hx)|simpl; lia|unfold TASK_SIZE; simpl; lia].
Qed.

Lemma kernel_ok_ticked m s run wait done_ live :
  kernel_ok m s run wait done_ live -> kernel_ok m (ticked s) run wait done_ live.
Proof. intros [? ? ? ? ? ?]. split; try done. by apply sched_ok_jiffies. Qed.

Lemma starting_ticked m s x live callable arg u :
  starting m s x live callable arg u -> starting m (ticked s) x live callable arg u.
Proof. intros [? ? ? ? ? ?]. split; [by apply kernel_ok_ticked|done..]. Qed.

(** [do_timer] when no thread sleeps. *)
Lemma do_timer_alone finalizer fuel m s c :
  queue m (__waitq_head s) [] ->
  do_timer finalizer fuel m s c =
    let m1 := set_utime m (__current_task s) (t_utime m (__current_task s) + 1) in
    if t_utime m1 (__current_task s) <? 5 then Some (m1, ticked s, None)
    else '(m, s, c, d) ← schedule finalizer fuel (set_utime m1 (__current_task s) 0) (ticked s) c;
         Some (m, s, Some (c, d)).
Proof. intros Hq. unfold do_timer. by rewrite (q_head _ _ _ Hq). Qed.

(** Before the end of the slice: the thread is charged. *)
Lemma tick_starting finalizer fuel m s x live callable arg u c :
  starting m s x live callable arg u -> 0 <= u < 4 ->
  exists m', do_timer finalizer fuel m s c = Some (m', ticked s, None) /\
    starting m' (ticked s) x live callable arg (u + 1) /\
    same_on (fun a => ~ heap_area a) m m' /\ (forall k, heap_room m k -> heap_room m' k).
Proof.
  intros S Hu. pose proof (clock_starting _ _ _ _ _ _ _ (u + 1) S) as (S1 & H1 & H2).
  rewrite u32_small in S1 by lia. destruct S as [K Ec _ _ _ Eu].
  exists (set_utime m x (u + 1)). split_and!; [|by apply starting_ticked|done|done].
  rewrite do_timer_alone by apply (so_wait _ _ _ _ _ (ko_sched _ _ _ _ _ _ K)). cbv zeta.
  rewrite Ec, Eu, (st_utime _ _ _ _ _ _ _ S1). by replace (u + 1 <? 5) with true by lia.
Qed.

(** [schedule] from a current thread that has not run, when no thread sleeps. *)
Lemma schedule_new finalizer fuel m s c :
  t_status m (__current_task s) = NEW -> queue m (__waitq_head s) [] ->
  schedule finalizer fuel m s c =
    let '(m', c') := START_NEW_THREAD (set_status m (__current_task s) RUNNING) c (__current_task s) finalizer in
    Some (m', s, c', Started (t_callable m' (__current_task s))).
Proof.
  intros Hn Hq. unfold schedule. rewrite Hn, (q_head _ _ _ Hq).
  change (NEW =? NEW) with true. change (c_true (hd 0 [])) with false. cbn [negb mbind option_bind].
  rewrite !Hn. change (NEW =? RUNNING) with false. cbv iota. rewrite !Hn.
  change (NEW =? NEW) with true. cbn [negb]. by rewrite Hn.
Qed.

(** The current thread is marked as running, whatever happens outside the tasks and in
    its stack. *)
Lemma run_kernel m s run wait done_ live x m' :
  let U := all_tasks s run wait done_ in
  kernel_ok m s run wait done_ live -> x = __current_task s -> x ∈ run -> t_status m x = NEW ->
  same_off (t_esp m x - 12) 12 (set_status m x RUNNING) m' ->
  kernel_ok m' s run wait done_ live /\ t_status m' x = RUNNING /\
  same_on (fun a => ~ heap_area a) m m' /\ (forall k, heap_room m k -> heap_room m' k).
Proof.
  intros U [Hok Hi Hlt Hls Ht Hc] Ex Hx Hn Hs. pose proof (so_tasks _ _ _ _ _ Hok) as HU. fold U in HU, Hlt, Hls.
  assert (x ∈ U) as HxU by (right; apply elem_of_app; by left). set (m1 := set_status m x RUNNING) in *.
  assert (sched_ok m1 s run wait done_) as Hok1 by (by apply sched_ok_set_status; [|right|right]).
  destruct (so_stacks _ _ _ _ _ Hok x HxU Hn) as [_ Ho]. pose proof (task_view_off _ _ _ _ _ Ho Hs) as Hv.
  destruct (Hls x HxU Hn) as (b & Hb & Hb1 & Hb2).
  assert (forall t, t ∈ U -> t_status m1 t = if decide (x = t) then RUNNING else t_status m t) as Est
    by (intros t Hin; by apply (status_set_status U)).
  assert (forall a, ~ in_live live a -> load8 m' a = load8 m a) as Hlv.
  { intros a Ha. rewrite Hs.
    - unfold m1, set_status. apply load8_store32_ne. pose proof (live_outside U live a Hlt Ha x HxU) as H.
      unfold off, TASK_SIZE in *. lia.
    - destruct (decide (off (t_esp m x - 12) 12 a)) as [|Hno]; [done|]. exfalso. apply Ha. exists b.
      split; [done|]. unfold in_block, off in *. lia. }
  split_and!.
  - split; [by eapply sched_ok_view| |done| |done|].
    + eapply heap_frame; [exact Hi|]. intros a [_ Ha]. by apply Hlv.
    + intros t Hin. destruct (Hv t Hin) as (_ & _ & -> & He). rewrite Est by done. case_decide as Hd; [done|].
      intros Hnt. rewrite He by (by rewrite Est, decide_False). unfold m1, set_status.
      assert (t_esp (store32 m (x + 36) RUNNING) t = t_esp m t) as ->; [|by apply Hls].
      rewrite (esp_field (store32 _ _ _) t), (esp_field m t). by rewrite (field_store U), decide_False by (done || lia).
    + rewrite <- Ex. intros ->. by destruct (tasks_range _ HU _ HxU).
  - destruct (Hv x HxU) as (_ & _ & -> & _). by rewrite Est, decide_True.
  - intros a Ha. apply Hlv. intros Hl. by apply Ha, (heap_live m live).
  - intros k Hr. eapply heap_room_frame; [exact Hi|exact Hr|]. intros a [_ Ha]. by apply Hlv.
Qed.

(** The interrupt that ends it: the thread is started. *)
Lemma schedule_starting finalizer fuel m s x live callable arg u c :
  starting m s x live callable arg u ->
  exists m' c', schedule finalizer fuel m s c = Some (m', s, c', Started (u32 callable)) /\
    kernel_ok m' s [x] [] [] live /\ t_status m' x = RUNNING /\
    load32 m' (esp c') = u32 arg /\ load32 m' (esp c' + 4) = u32 finalizer /\
    same_on (fun a => ~ heap_area a) m m' /\ (forall k, heap_room m k -> heap_room m' k).
Proof.
  intros S. pose proof (starting_in _ _ _ _ _ _ _ S) as Hx. destruct S as [K Ec Es Ef Ea _].
  pose proof (ko_sched _ _ _ _ _ _ K) as Hok.
  set (m1 := set_status m x RUNNING).
  assert (t_esp m1 x = t_esp m x /\ t_arg m1 x = u32 arg /\ t_callable m1 x = u32 callable) as (E1 & E2 & E3).
  { rewrite <- Ea, <- Ef. unfold m1. unfold_task. by mem_simpl. }
  pose proof (push_list_spec [0; finalizer; t_arg m1 x] m1 (with_esp c (t_esp m1 x))) as Hp.
  destruct (START_NEW_THREAD m1 c x finalizer) as [m' c'] eqn:E.
  assert (schedule finalizer fuel m s c = Some (m', s, c', Started (t_callable m' x))) as Es'.
  { rewrite schedule_new, Ec by (rewrite ?Ec; done || apply (so_wait _ _ _ _ _ Hok)).
    fold m1. by rewrite E. }
  assert (x = __current_task s /\ x ∈ [x]) as [Ex Hin] by (split; [done|by left]).
  unfold START_NEW_THREAD in E. simpl in E, Hp. rewrite E1 in E, Hp. destruct Hp as (_ & Hoff & Hl).
  pose proof (f_equal fst E) as Em. pose proof (f_equal (fun p => esp p.2) E) as Esp. cbn [fst snd esp] in Em, Esp.
  rewrite Em in Hoff, Hl. clear E Em.
  destruct (run_kernel m s [x] [] [] live x m' K Ex Hin Es Hoff) as (K' & Hr & H1 & H2).
  destruct (so_stacks _ _ _ _ _ Hok x Hx Es) as [_ Ho]. specialize (Ho x Hx). exists m', c'.
  assert (t_callable m' x = u32 callable) as <-.
  { rewrite <- E3. apply (same_on_load32 _ _ _ _ Hoff). unfold off, TASK_SIZE in *. lia. }
  split_and!; [done|done|done| | |done|done]; rewrite <- Esp.
  - rewrite <- E2, <- (u32_small (t_arg m1 x)) by apply load32_range.
    rewrite <- (Hl 2%nat (t_arg m1 x)) by done. f_equal. lia.
  - rewrite <- (Hl 1%nat finalizer) by done. f_equal. lia.
Qed.

(** The first slice of a thread that has not run: four interrupts return to the
    interrupted code, the fifth starts the thread. *)
Lemma starting_slice finalizer fuel m s x live callable arg c1 c2 c3 c4 c5 :
  starting m s x live callable arg 0 ->
  exists m4 s4 m' c',
    timer_ticks finalizer fuel m s [c1; c2; c3; c4] = Some (m4, s4) /\
    do_timer finalizer fuel m4 s4 c5 = Some (m', ticked s4, Some (c', Started (u32 callable))) /\
    s4 = ticked (ticked (ticked (ticked s))) /\
    kernel_ok m' (ticked s4) [x] [] [] live /\ t_status m' x = RUNNING /\
    load32 m' (esp c') = u32 arg /\ load32 m' (esp c' + 4) = u32 finalizer /\
    same_on (fun a => ~ heap_area a) m m' /\ (forall k, heap_room m k -> heap_room m' k).
Proof.
  intros S0.
  destruct (tick_starting finalizer fuel _ _ _ _ _ _ _ c1 S0) as (m1 & E1 & S1 & P1 & R1); [lia|].
  destruct (tick_starting finalizer fuel _ _ _ _ _ _ _ c2 S1) as (m2 & E2 & S2 & P2 & R2); [lia|].
  destruct (tick_starting finalizer fuel _ _ _ _ _ _ _ c3 S2) as (m3 & E3 & S3 & P3 & R3); [lia|].
  destruct (tick_starting finalizer fuel _ _ _ _ _ _ _ c4 S3) as (m4 & E4 & S4 & P4 & R4); [lia|].
  pose proof (clock_starting _ _ _ _ _ _ _ (0 + 1 + 1 + 1 + 1 + 1) S4) as (S5 & P5 & R5).
  pose proof (clock_starting _ _ _ _ _ _ _ 0 S5) as (S6 & P6 & R6).
  set (s4 := ticked (ticked (ticked (ticked s)))) in *.
  destruct (schedule_starting finalizer fuel _ _ _ _ _ _ _ c5 (starting_ticked _ _ _ _ _ _ _ S6))
    as (m' & c' & E & K & Hr & A1 & A2 & P7 & R7).
  exists m4, s4, m', c'. split_and!; try done.
  - cbn [timer_ticks]. rewrite E1. cbn [mbind option_bind]. rewrite E2. cbn [mbind option_bind].
    rewrite E3. cbn [mbind option_bind]. by rewrite E4.
  - rewrite do_timer_alone by apply (so_wait _ _ _ _ _ (ko_sched _ _ _ _ _ _ (st_kernel _ _ _ _ _ _ _ S4))).
    rewrite (st_current _ _ _ _ _ _ _ S4), (st_utime _ _ _ _ _ _ _ S4). cbv zeta.
    rewrite (st_utime _ _ _ _ _ _ _ S5). change (u32 _ <? 5) with false. cbv iota. by rewrite E.
  - by repeat (etransitivity; [eassumption|]).
  - eauto 10.
Qed.
End WithHeap.
