(* ===== verification/Ramdisk.v ===== *)
(** * Ramdisk: the file system of src/ramdisk.c

    A Unix-like file system in two megabytes of memory: a superblock, an array
    of inodes, a bitmap of blocks and the blocks themselves.  This file
    translates the layout (include/sys/ufs.h, include/sys/vfs.h) and every
    function of src/ramdisk.c and src/vfs.c; pointers are addresses in the
    flat memory. *)

From S2P Require Import Prelude Memory Klib Mutex Context.

(** ** Constants *)

Definition UFS_BLOCK_SIZE : Z := 0x100.
Definition UFS_DISK_SIZE : Z := 0x200000.
Definition UFS_TOTAL_NUM_BLOCKS : Z := UFS_DISK_SIZE / UFS_BLOCK_SIZE.
Definition UFS_HEADER_MAGIC : Z := 0x1337D00D.
Definition UFS_NUM_DIRECT_PTRS : Z := 8.
Definition UFS_SIZEOF_INODE_ARRAY : Z := 0x100.
Definition UFS_NUM_MAX_INODES : Z := 0x800.
Definition UFS_NUM_BITMAP_BLOCKS : Z := 4.
Definition UFS_NUM_MAX_BLOCKS : Z :=
  UFS_TOTAL_NUM_BLOCKS - UFS_SIZEOF_INODE_ARRAY - UFS_NUM_BITMAP_BLOCKS - 1.
Definition UFS_MAX_FILE_IN_DIR : Z := 16.
Definition UFS_MAX_FILESIZE : Z := 0x104800.
Definition UFS_DIR_DELIM_CHAR : Z := 47.
Definition UFS_MAX_FILENAME_LEN : Z := 14.

(** [UFS_NUM_PTRS_PER_BLK] expands to [UFS_BLOCK_SIZE / sizeof(pointer)] without
    parentheses: alone or after [+] it is the constant, after [%] and [/] it is
    two operations. *)
Definition UFS_NUM_PTRS_PER_BLK : Z := UFS_BLOCK_SIZE / 4.
Definition mod_ptrs_per_blk (x : Z) : Z := x mod UFS_BLOCK_SIZE / 4.
Definition div_ptrs_per_blk (x : Z) : Z := x / UFS_BLOCK_SIZE / 4.

(** [enum inode_status_t], [enum block_status_t] *)
Definition INODE_EMPTY : Z := 0.
Definition INODE_DIR : Z := 1.
Definition INODE_REG : Z := 2.
Definition BLK_STATUS_FREE : Z := 0.
Definition BLK_STATUS_OCCUPIED : Z := 1.

(** ramdisk.h *)
Definition EBADF : Z := -1.
Definition EBADBUF : Z := -3.
Definition EBOUNDS : Z := -4.
Definition EBADPATH : Z := -5.
Definition EMAXF : Z := -6.
Definition ENODIR : Z := -7.
Definition ENOREG : Z := -8.
Definition EINVAL : Z := -9.
Definition SEEK_SET : Z := 0.
Definition SEEK_CUR : Z := 1.
Definition SEEK_END : Z := 2.

(** ** Data *)

(** [inode_t], packed, 64 bytes. *)
Definition INODE_SIZE : Z := 64.
Definition i_type (m : mem) (i : Z) : Z := load32 m i.
Definition i_size (m : mem) (i : Z) : Z := load32 m (i + 4).
Definition i_dirblock_ptr (m : mem) (i : Z) : Z := load32 m (i + 12).
Definition i_direct (m : mem) (i k : Z) : Z := load32 m (i + 16 + 4 * k).
Definition i_indirect (m : mem) (i : Z) : Z := load32 m (i + 48).
Definition i_double_indirect (m : mem) (i : Z) : Z := load32 m (i + 52).
Definition set_i_type (m : mem) (i v : Z) : mem := store32 m i v.
Definition set_i_size (m : mem) (i v : Z) : mem := store32 m (i + 4) v.
Definition set_i_dirblock_ptr (m : mem) (i v : Z) : mem := store32 m (i + 12) v.
Definition set_i_direct (m : mem) (i k v : Z) : mem := store32 m (i + 16 + 4 * k) v.
Definition set_i_indirect (m : mem) (i v : Z) : mem := store32 m (i + 48) v.
Definition set_i_double_indirect (m : mem) (i v : Z) : mem := store32 m (i + 52) v.

(** [ufs_dirent_t], packed, 16 bytes: a name of 14 bytes and an inode number. *)
Definition DIRENT_SIZE : Z := 16.
Definition dirent (dir_blk i : Z) : Z := dir_blk + DIRENT_SIZE * i.
Definition d_inode_num (m : mem) (d : Z) : Z := load16 m (d + 14).
Definition set_d_inode_num (m : mem) (d v : Z) : mem := store16 m (d + 14) v.

(** [FILE], packed, 20 bytes. *)
Definition FILE_SIZE : Z := 20.
Definition f_dir_pos (m : mem) (f : Z) : Z := s32 (load32 m (f + 4)).
Definition f_seek_head (m : mem) (f : Z) : Z := load32 m (f + 8).
Definition f_path (m : mem) (f : Z) : Z := load32 m (f + 12).
Definition f_inode_ptr (m : mem) (f : Z) : Z := load32 m (f + 16).
Definition set_f_fd (m : mem) (f v : Z) : mem := store32 m f v.
Definition set_f_dir_pos (m : mem) (f v : Z) : mem := store32 m (f + 4) v.
Definition set_f_seek_head (m : mem) (f v : Z) : mem := store32 m (f + 8) v.
Definition set_f_path (m : mem) (f v : Z) : mem := store32 m (f + 12) v.
Definition set_f_inode_ptr (m : mem) (f v : Z) : mem := store32 m (f + 16) v.

(** [ufs_superblock_t], packed, 256 bytes. *)
Definition set_sb_magic (m : mem) (sb v : Z) : mem := store32 m sb v.
Definition set_sb_num_blocks (m : mem) (sb v : Z) : mem := store32 m (sb + 4) v.
Definition set_sb_block_size (m : mem) (sb v : Z) : mem := store32 m (sb + 8) v.
Definition set_sb_num_inodes (m : mem) (sb v : Z) : mem := store32 m (sb + 12) v.
Definition set_sb_num_free_blocks (m : mem) (sb v : Z) : mem := store32 m (sb + 16) v.
Definition set_sb_num_free_inodes (m : mem) (sb v : Z) : mem := store32 m (sb + 20) v.
Definition set_sb_inode_array (m : mem) (sb v : Z) : mem := store32 m (sb + 32) v.
Definition set_sb_blk_bitmap (m : mem) (sb v : Z) : mem := store32 m (sb + 36) v.
Definition set_sb_root_blk (m : mem) (sb v : Z) : mem := store32 m (sb + 40) v.

(** The static variables of the file. *)
Record rd_state := RdState {
  __superblk : Z;
  __inode_array : Z;
  __blk_bitmap : Z;
  __root_blk : Z;
  __fs_head_lock : kthread_mutex_t
}.

Definition with_lock (s : rd_state) (l : kthread_mutex_t) : rd_state :=
  RdState (__superblk s) (__inode_array s) (__blk_bitmap s) (__root_blk s) l.

(** ** The bitmap *)

Definition set_blk_bitmap (m : mem) (s : rd_state) (blk_index mark : Z) : mem :=
  if (blk_index <? 0) || (blk_index >? UFS_NUM_BITMAP_BLOCKS * UFS_BLOCK_SIZE) then m
  else
    let val := load8 m (__blk_bitmap s + blk_index / 8) in
    let pos := blk_index mod 8 in
    let val :=
      if mark =? BLK_STATUS_FREE then u8 (Z.land val (Z.lnot (Z.shiftl 1 pos)))
      else u8 (Z.lor val (Z.shiftl 1 pos)) in
    store8 m (__blk_bitmap s + blk_index / 8) val.

Definition get_blk_bitmap (m : mem) (s : rd_state) (blk_index : Z) : Z :=
  if (blk_index <? 0) || (blk_index >? UFS_NUM_MAX_INODES) then 0
  else
    let val := load8 m (__blk_bitmap s + blk_index / 8) in
    let pos := blk_index mod 8 in
    Z.land (Z.shiftr val pos) 1.

(** ** Initialisation *)

Definition init_rdisk (m : mem) (fs_base_addr : Z) : mem * rd_state :=
  let m := memset m fs_base_addr 0 UFS_DISK_SIZE in
  let superblk := fs_base_addr in
  let m := set_sb_magic m superblk UFS_HEADER_MAGIC in
  let m := set_sb_block_size m superblk UFS_BLOCK_SIZE in
  let m := set_sb_num_blocks m superblk UFS_NUM_MAX_BLOCKS in
  let m := set_sb_num_free_blocks m superblk (UFS_NUM_MAX_BLOCKS - 1) in
  let m := set_sb_num_inodes m superblk UFS_NUM_MAX_INODES in
  let m := set_sb_num_free_inodes m superblk (UFS_NUM_MAX_INODES - 1) in
  (* the additions are on pointers to inodes and to directory blocks *)
  let inode_array := fs_base_addr + UFS_BLOCK_SIZE * INODE_SIZE in
  let blk_bitmap := inode_array + UFS_NUM_MAX_INODES * INODE_SIZE in
  let s0 := RdState superblk inode_array blk_bitmap 0 (Mutex 0) in
  let m := set_blk_bitmap m s0 0 BLK_STATUS_OCCUPIED in
  let root_blk := blk_bitmap + UFS_BLOCK_SIZE * UFS_NUM_BITMAP_BLOCKS * UFS_BLOCK_SIZE in
  let m := set_i_type m inode_array INODE_DIR in
  let m := set_i_dirblock_ptr m inode_array root_blk in
  let m := set_sb_inode_array m superblk inode_array in
  let m := set_sb_blk_bitmap m superblk blk_bitmap in
  let m := set_sb_root_blk m superblk root_blk in
  (m, RdState superblk inode_array blk_bitmap root_blk
        (kthread_mutex_init (Mutex 0))).

(** src/vfs.c *)
Fixpoint avail_fd_loop (n : nat) (m : mem) (task i : Z) : Z :=
  match n with
  | O => -1
  | S k => if negb (c_true (t_fd m task i)) then i else avail_fd_loop k m task (i + 1)
  end.

Definition get_avail_fd (m : mem) (task : Z) : Z := avail_fd_loop (Z.to_nat NUM_MAX_FD) m task 0.

Section Ramdisk.
(** [fuel] bounds the loops over strings and the spinning of the lock; [delim_str]
    is the literal "/"; [cur] is [__current_task]. *)
Context (fuel : nat) (delim_str cur : Z).
Context (kmalloc : mem -> Z -> option (mem * Z)) (kfree : mem -> Z -> option mem).

Definition lock_fs (s : rd_state) : option rd_state :=
  l ← kthread_mutex_lock fuel (__fs_head_lock s);
  Some (with_lock s l).

Definition unlock_fs (s : rd_state) : rd_state :=
  with_lock s (kthread_mutex_unlock (__fs_head_lock s)).

(** ** Blocks *)

Fixpoint alloc_block_loop (n : nat) (m : mem) (s : rd_state) (i : Z) : mem * rd_state * Z :=
  match n with
  | O => (m, unlock_fs s, 0)
  | S k =>
      if negb (c_true (get_blk_bitmap m s i)) then
        let m := set_blk_bitmap m s i BLK_STATUS_OCCUPIED in
        (m, unlock_fs s, __root_blk s + UFS_BLOCK_SIZE * i)
      else alloc_block_loop k m s (i + 1)
  end.

Definition alloc_block (m : mem) (s : rd_state) : option (mem * rd_state * Z) :=
  s ← lock_fs s;
  Some (alloc_block_loop (Z.to_nat (8 * UFS_NUM_BITMAP_BLOCKS * UFS_BLOCK_SIZE)) m s 0).

(** [sizeof(UFS_BLOCK_SIZE)] is 4: the size of the constant's type. *)
Definition dealloc_block (m : mem) (s : rd_state) (blk_ptr : Z) : option (mem * rd_state) :=
  s ← lock_fs s;
  let blk_num := u32 (blk_ptr - __root_blk s) / 4 in
  let m := set_blk_bitmap m s blk_num BLK_STATUS_FREE in
  Some (m, unlock_fs s).

(** ** Paths *)

(** The loop over the entries: the first index whose name is a prefix of [path]. *)
Fixpoint match_entry (n : nat) (m : mem) (path dir_blk i : Z) : option (option Z) :=
  match n with
  | O => Some None
  | S k =>
      b ← str_is_prefix fuel m path (dirent dir_blk i);
      if b : bool then Some (Some i) else match_entry k m path dir_blk (i + 1)
  end.

Fixpoint get_file_inode (n : nat) (m : mem) (s : rd_state) (path dir_blk : Z) : option Z :=
  match n with
  | O => None
  | S k =>
      if negb (c_true path) then Some 0
      else
        b ← strcmp fuel m path delim_str;
        if b : bool then Some (__inode_array s)
        else
          let path := if load8 m path =? UFS_DIR_DELIM_CHAR then path + 1 else path in
          e ← match_entry (Z.to_nat UFS_MAX_FILE_IN_DIR) m path dir_blk 0;
          match e with
          | Some i =>
              path ← strtok fuel m path delim_str;
              let inode_ptr :=
                __inode_array s + INODE_SIZE * d_inode_num m (dirent dir_blk i) in
              if i_type m inode_ptr =? INODE_DIR
              then get_file_inode k m s path (i_dirblock_ptr m inode_ptr)
              else Some inode_ptr
          | None => Some 0
          end
  end.

(** [while (path[pathlen - 1] != '/') pathlen--;] *)
Fixpoint back_to_delim (n : nat) (m : mem) (path pathlen : Z) : option Z :=
  match n with
  | O => None
  | S k =>
      if negb (load8 m (u32 (path + u32 (pathlen - 1))) =? UFS_DIR_DELIM_CHAR)
      then back_to_delim k m path (u32 (pathlen - 1))
      else Some pathlen
  end.

(** The path is cut at the parent's end, looked up and restored. *)
Definition get_parent_dir_inode (m : mem) (s : rd_state) (path dir_blk : Z) :
  option (mem * Z) :=
  if negb (c_true path) then Some (m, 0)
  else if negb (load8 m path =? UFS_DIR_DELIM_CHAR) then Some (m, 0)
  else
    pathlen ← strlen fuel m path;
    let pathlen :=
      if load8 m (u32 (path + u32 (pathlen - 1))) =? UFS_DIR_DELIM_CHAR
      then u32 (pathlen - 1) else pathlen in
    pathlen ← back_to_delim fuel m path pathlen;
    let pathlen :=
      if (load8 m (u32 (path + u32 (pathlen - 1))) =? UFS_DIR_DELIM_CHAR) && (pathlen >? 1)
      then u32 (pathlen - 1) else pathlen in
    let splice_char := load8 m (u32 (path + pathlen)) in
    let m := store8 m (u32 (path + pathlen)) 0 in
    inode_ptr ← get_file_inode fuel m s path dir_blk;
    let m := store8 m (u32 (path + pathlen)) splice_char in
    Some (m, inode_ptr).

(** ** Creating files and directories *)

(** The first entry with an empty name. *)
Fixpoint free_dirent (n : nat) (m : mem) (dir_blk i : Z) : option Z :=
  match n with
  | O => None
  | S k =>
      if load8 m (dirent dir_blk i) =? 0 then Some (dirent dir_blk i)
      else free_dirent k m dir_blk (i + 1)
  end.

(** The counter after the search for an empty inode. *)
Fixpoint free_inode (n : nat) (m : mem) (s : rd_state) (inode_counter : Z) : Z :=
  match n with
  | O => inode_counter
  | S k =>
      if i_type m (__inode_array s + INODE_SIZE * inode_counter) =? INODE_EMPTY
      then inode_counter
      else free_inode k m s (inode_counter + 1)
  end.

(** [while ( *path != '/') path--;] *)
Fixpoint name_start (n : nat) (m : mem) (path : Z) : option Z :=
  match n with
  | O => None
  | S k =>
      if negb (load8 m path =? UFS_DIR_DELIM_CHAR) then name_start k m (path - 1)
      else Some path
  end.

(** The end of [rd_create] and [rd_mkdir]: the entry receives name and number. *)
Definition fill_dirent (m : mem) (path d inode_counter : Z) : option mem :=
  len ← strlen fuel m path;
  path ← name_start fuel m (path + len);
  let path := path + 1 in
  len ← strlen fuel m path;
  let m := memcpy m d path len in
  Some (set_d_inode_num m d inode_counter).

Definition rd_create (m : mem) (s : rd_state) (path : Z) : option (mem * rd_state * Z) :=
  if negb (c_true path) then Some (m, s, EBADPATH)
  else
    '(m, parent_dir_inode) ← get_parent_dir_inode m s path (__root_blk s);
    if negb (c_true parent_dir_inode) then Some (m, s, EBADPATH)
    else
      match free_dirent (Z.to_nat UFS_MAX_FILE_IN_DIR) m (i_dirblock_ptr m parent_dir_inode) 0 with
      | None => Some (m, s, EBOUNDS)
      | Some d =>
          s ← lock_fs s;
          let inode_counter := free_inode (Z.to_nat UFS_NUM_MAX_INODES) m s 0 in
          if inode_counter =? UFS_NUM_MAX_INODES then Some (m, unlock_fs s, EBOUNDS)
          else
            let file_inode := __inode_array s + INODE_SIZE * inode_counter in
            let m := set_i_type m file_inode INODE_REG in
            let m := set_i_size m file_inode 0 in
            let s := unlock_fs s in
            m ← fill_dirent m path d inode_counter;
            Some (m, s, 0)
      end.

Definition rd_mkdir (m : mem) (s : rd_state) (path : Z) : option (mem * rd_state * Z) :=
  if negb (c_true path) then Some (m, s, EBADPATH)
  else
    '(m, parent_dir_inode) ← get_parent_dir_inode m s path (__root_blk s);
    if negb (c_true parent_dir_inode) then Some (m, s, EBADPATH)
    else
      match free_dirent (Z.to_nat UFS_MAX_FILE_IN_DIR) m (i_dirblock_ptr m parent_dir_inode) 0 with
      | None => Some (m, s, EBOUNDS)
      | Some d =>
          s ← lock_fs s;
          let inode_counter := free_inode (Z.to_nat UFS_NUM_MAX_INODES) m s 0 in
          if inode_counter =? UFS_NUM_MAX_INODES then Some (m, unlock_fs s, EBOUNDS)
          else
            let dir_inode := __inode_array s + INODE_SIZE * inode_counter in
            let m := set_i_type m dir_inode INODE_DIR in
            let m := set_i_size m dir_inode 0 in
            let s := unlock_fs s in
            '(m, s, blk) ← alloc_block m s;
            let m := set_i_dirblock_ptr m dir_inode blk in
            m ← fill_dirent m path d inode_counter;
            Some (m, s, 0)
      end.

(** ** Open files *)

Definition rd_open (m : mem) (s : rd_state) (path : Z) : option (mem * rd_state * Z) :=
  let fd := avail_fd_loop (Z.to_nat NUM_MAX_FD) m cur 0 in
  if fd =? -1 then Some (m, s, EMAXF)
  else
    file_inode ← get_file_inode fuel m s path (__root_blk s);
    if negb (c_true file_inode) then Some (m, s, EBADPATH)
    else
      '(m, file_obj) ← kmalloc m FILE_SIZE;
      let m := set_f_fd m file_obj fd in
      let m := set_f_inode_ptr m file_obj file_inode in
      len ← strlen fuel m path;
      '(m, copy) ← kmalloc m len;
      let m := set_f_path m file_obj copy in
      m ← strcpy fuel m path (f_path m file_obj);
      let m := set_f_seek_head m file_obj 0 in
      let m := set_fd m cur fd file_obj in
      Some (m, s, fd).

Definition bad_fd (fd : Z) : bool := (fd <? 0) || (fd >? NUM_MAX_FD).

Definition rd_close (m : mem) (s : rd_state) (fd : Z) : option (mem * rd_state * Z) :=
  if bad_fd fd then Some (m, s, EBADF)
  else
    let file_obj := t_fd m cur fd in
    if negb (c_true file_obj) then Some (m, s, EBADF)
    else
      m ← kfree m (f_path m file_obj);
      m ← kfree m file_obj;
      Some (set_fd m cur fd 0, s, 0).

Definition rd_lseek (m : mem) (s : rd_state) (fd offset whence : Z) : mem * rd_state * Z :=
  if bad_fd fd then (m, s, EBADF)
  else
    let file_obj := t_fd m cur fd in
    if negb (c_true file_obj) then (m, s, EBADF)
    else if negb (i_type m (f_inode_ptr m file_obj) =? INODE_REG) then (m, s, ENOREG)
    else if whence =? SEEK_SET then
      if (offset <? 0) || (offset >? UFS_MAX_FILESIZE) then (m, s, EBOUNDS)
      else (set_f_seek_head m file_obj offset, s, 0)
    else if whence =? SEEK_CUR then
      (* unsigned: the test against 0 is always false *)
      if u32 (f_seek_head m file_obj + offset) >? UFS_MAX_FILESIZE then (m, s, EBOUNDS)
      else (set_f_seek_head m file_obj (f_seek_head m file_obj + offset), s, 0)
    else if whence =? SEEK_END then
      (set_f_seek_head m file_obj (i_size m (f_inode_ptr m file_obj)), s, 0)
    else (m, s, EINVAL).

(** ** Reading *)

(** The local variables of the loops of [rd_read] and [rd_write]. *)
Record cursor := Cursor {
  c_buf : Z;
  c_counter : Z;
  c_blk_num : Z;
  c_blk_offset : Z;
  c_double_idx : Z;
  c_single_idx : Z;
  c_double_ptr : Z;
  c_single_ptr : Z;
  c_blk_ptr : Z
}.

(** [while (blk_offset < UFS_BLOCK_SIZE)]: memory, buffer, offset and counter after it. *)
Fixpoint read_block (n : nat) (m : mem) (blk_ptr buf blk_offset read_counter num_bytes : Z) :
  mem * Z * Z * Z :=
  match n with
  | O => (m, buf, blk_offset, read_counter)
  | S k =>
      if blk_offset <? UFS_BLOCK_SIZE then
        let m := store8 m buf (load8 m (blk_ptr + blk_offset)) in
        if read_counter + 1 =? num_bytes then (m, buf + 1, blk_offset + 1, read_counter + 1)
        else read_block k m blk_ptr (buf + 1) (blk_offset + 1) (read_counter + 1) num_bytes
      else (m, buf, blk_offset, read_counter)
  end.

Definition ptr_at (m : mem) (table idx : Z) : Z := load32 m (table + 4 * idx).

Definition read_setup (m : mem) (file_obj file_inode buf : Z) : cursor :=
  let double_blk_ptr := i_double_indirect m file_inode in
  let single_blk_ptr := i_indirect m file_inode in
  let blk_num := f_seek_head m file_obj / UFS_BLOCK_SIZE in
  let blk_offset := f_seek_head m file_obj mod UFS_BLOCK_SIZE in
  if blk_num <? UFS_NUM_DIRECT_PTRS then
    Cursor buf 0 blk_num blk_offset 0 0 double_blk_ptr single_blk_ptr
      (i_direct m file_inode blk_num)
  else if blk_num <? UFS_NUM_DIRECT_PTRS + UFS_NUM_PTRS_PER_BLK then
    let single_blk_idx := mod_ptrs_per_blk (blk_num - UFS_NUM_DIRECT_PTRS) in
    Cursor buf 0 blk_num blk_offset 0 single_blk_idx double_blk_ptr single_blk_ptr
      (ptr_at m single_blk_ptr single_blk_idx)
  else
    let double_blk_idx :=
      div_ptrs_per_blk (blk_num - UFS_NUM_DIRECT_PTRS - UFS_NUM_PTRS_PER_BLK) in
    let single_blk_idx :=
      mod_ptrs_per_blk (blk_num - UFS_NUM_DIRECT_PTRS - UFS_NUM_PTRS_PER_BLK) in
    let single_blk_ptr := ptr_at m double_blk_ptr double_blk_idx in
    Cursor buf 0 blk_num blk_offset double_blk_idx single_blk_idx double_blk_ptr single_blk_ptr
      (ptr_at m single_blk_ptr single_blk_idx).

(** The nested loops, from the label [start_reading]. *)
Fixpoint read_loop (n : nat) (m : mem) (file_inode num_bytes : Z) (c : cursor) : option mem :=
  match n with
  | O => None
  | S k =>
      let '(m, buf, blk_offset, read_counter) :=
        read_block (Z.to_nat UFS_BLOCK_SIZE) m (c_blk_ptr c) (c_buf c) (c_blk_offset c)
          (c_counter c) num_bytes in
      if read_counter =? num_bytes then Some m
      else
        let blk_num := c_blk_num c + 1 in
        let single_blk_idx :=
          if (blk_num <? UFS_NUM_DIRECT_PTRS) || negb (blk_num >? UFS_NUM_DIRECT_PTRS)
          then c_single_idx c else c_single_idx c + 1 in
        let blk_ptr :=
          if blk_num <? UFS_NUM_DIRECT_PTRS then i_direct m file_inode blk_num
          else ptr_at m (c_single_ptr c) single_blk_idx in
        if single_blk_idx <? UFS_NUM_PTRS_PER_BLK then
          read_loop k m file_inode num_bytes
            (Cursor buf read_counter blk_num 0 (c_double_idx c) single_blk_idx
               (c_double_ptr c) (c_single_ptr c) blk_ptr)
        else
          let double_blk_idx :=
            if blk_num >? UFS_NUM_DIRECT_PTRS + UFS_NUM_PTRS_PER_BLK
            then c_double_idx c + 1 else c_double_idx c in
          let single_blk_ptr := ptr_at m (c_double_ptr c) double_blk_idx in
          let blk_ptr := ptr_at m single_blk_ptr 0 in
          if double_blk_idx <? UFS_NUM_PTRS_PER_BLK then
            read_loop k m file_inode num_bytes
              (Cursor buf read_counter blk_num 0 double_blk_idx 0
                 (c_double_ptr c) single_blk_ptr blk_ptr)
          else Some m
  end.

(** Blocks visited at most: 8 direct, 65 single, 64 for each double index. *)
Definition rd_fuel : nat := Z.to_nat 5000.

Definition rd_read (m : mem) (s : rd_state) (fd buf num_bytes : Z) :
  option (mem * rd_state * Z) :=
  if bad_fd fd then Some (m, s, EBADF)
  else
    let file_obj := t_fd m cur fd in
    let file_inode := f_inode_ptr m file_obj in
    if negb (c_true file_obj) then Some (m, s, EBADF)
    else if negb (c_true buf) then Some (m, s, EBADBUF)
    else if (num_bytes <? 0) || (num_bytes >? u32 (i_size m file_inode - f_seek_head m file_obj))
    then Some (m, s, EBOUNDS)
    else if negb (i_type m (f_inode_ptr m file_obj) =? INODE_REG) then Some (m, s, ENOREG)
    else
      m ← read_loop rd_fuel m file_inode num_bytes (read_setup m file_obj file_inode buf);
      Some (set_f_seek_head m file_obj (f_seek_head m file_obj + num_bytes), s, 0).

(** ** Writing *)

(** [if (!table[idx]) table[idx] = alloc_block();] at the address of the slot. *)
Definition ensure_block (m : mem) (s : rd_state) (slot : Z) : option (mem * rd_state) :=
  if negb (c_true (load32 m slot)) then
    '(m, s, blk) ← alloc_block m s;
    Some (store32 m slot blk, s)
  else Some (m, s).

(** The same for a local pointer: its new value. *)
Definition ensure_local (m : mem) (s : rd_state) (p : Z) : option (mem * rd_state * Z) :=
  if negb (c_true p) then alloc_block m s else Some (m, s, p).

Fixpoint write_block (n : nat) (m : mem) (file_obj file_inode : Z)
  (blk_ptr buf blk_offset write_counter actual : Z) : mem * Z * Z * Z :=
  match n with
  | O => (m, buf, blk_offset, write_counter)
  | S k =>
      if blk_offset <? UFS_BLOCK_SIZE then
        let '(m, buf) :=
          if u32 write_counter <? u32 (f_seek_head m file_obj - i_size m file_inode) then (store8 m (blk_ptr + blk_offset) 0, buf)
          else (store8 m (blk_ptr + blk_offset) (load8 m buf), buf + 1) in
        if write_counter + 1 =? actual then (m, buf, blk_offset + 1, write_counter + 1)
        else
          write_block k m file_obj file_inode blk_ptr buf (blk_offset + 1) (write_counter + 1) actual
      else (m, buf, blk_offset, write_counter)
  end.

Definition write_setup (m : mem) (s : rd_state) (file_obj file_inode buf : Z) :
  option (mem * rd_state * cursor) :=
  let double_blk_ptr := i_double_indirect m file_inode in
  let single_blk_ptr := i_indirect m file_inode in
  let blk_num := f_seek_head m file_obj / UFS_BLOCK_SIZE in
  let blk_offset := f_seek_head m file_obj mod UFS_BLOCK_SIZE in
  if blk_num <? UFS_NUM_DIRECT_PTRS then
    '(m, s) ← ensure_block m s (file_inode + 16 + 4 * blk_num);
    Some (m, s, Cursor buf 0 blk_num blk_offset 0 0 double_blk_ptr single_blk_ptr
                  (i_direct m file_inode (f_seek_head m file_obj mod UFS_BLOCK_SIZE)))
  else if blk_num <? UFS_NUM_DIRECT_PTRS + UFS_NUM_PTRS_PER_BLK then
    let single_blk_idx := mod_ptrs_per_blk (blk_num - UFS_NUM_DIRECT_PTRS) in
    '(m, s, single_blk_ptr) ←
      (if negb (c_true single_blk_ptr) then
         '(m, s, b) ← alloc_block m s;
         Some (set_i_indirect m file_inode b, s, b)
       else Some (m, s, single_blk_ptr));
    '(m, s) ← ensure_block m s (single_blk_ptr + 4 * single_blk_idx);
    Some (m, s, Cursor buf 0 blk_num blk_offset 0 single_blk_idx double_blk_ptr single_blk_ptr
                  (ptr_at m single_blk_ptr single_blk_idx))
  else
    let double_blk_idx :=
      div_ptrs_per_blk (blk_num - UFS_NUM_DIRECT_PTRS - UFS_NUM_PTRS_PER_BLK) in
    let single_blk_idx :=
      mod_ptrs_per_blk (blk_num - UFS_NUM_DIRECT_PTRS - UFS_NUM_PTRS_PER_BLK) in
    '(m, s, double_blk_ptr) ←
      (if negb (c_true double_blk_ptr) then
         '(m, s, b) ← alloc_block m s;
         Some (set_i_double_indirect m file_inode b, s, b)
       else Some (m, s, double_blk_ptr));
    '(m, s) ← ensure_block m s (double_blk_ptr + 4 * double_blk_idx);
    let single_blk_ptr := ptr_at m double_blk_ptr double_blk_idx in
    '(m, s) ← ensure_block m s (single_blk_ptr + 4 * single_blk_idx);
    Some (m, s, Cursor buf 0 blk_num blk_offset double_blk_idx single_blk_idx double_blk_ptr
                  single_blk_ptr (ptr_at m single_blk_ptr single_blk_idx)).

(** The pointers for the next block, inside the inner loop. *)
Definition write_next (m : mem) (s : rd_state) (file_inode : Z) (c : cursor) (blk_num : Z) :
  option (mem * rd_state * Z * Z * Z) :=
  if blk_num >? UFS_NUM_DIRECT_PTRS then
    let single_blk_idx := c_single_idx c + 1 in
    '(m, s, single_blk_ptr) ← ensure_local m s (c_single_ptr c);
    '(m, s) ← ensure_block m s (single_blk_ptr + 4 * single_blk_idx);
    Some (m, s, single_blk_idx, single_blk_ptr, ptr_at m single_blk_ptr single_blk_idx)
  else
    '(m, s) ← ensure_block m s (file_inode + 16 + 4 * blk_num);
    Some (m, s, c_single_idx c, c_single_ptr c, i_direct m file_inode blk_num).

(** The nested loops, from the label [start_writing]. *)
Fixpoint write_loop (n : nat) (m : mem) (s : rd_state) (file_obj file_inode actual : Z)
  (c : cursor) : option (mem * rd_state) :=
  match n with
  | O => None
  | S k =>
      let '(m, buf, blk_offset, write_counter) :=
        write_block (Z.to_nat UFS_BLOCK_SIZE) m file_obj file_inode (c_blk_ptr c) (c_buf c)
          (c_blk_offset c) (c_counter c) actual in
      if write_counter =? actual then Some (m, s)
      else
        let blk_num := c_blk_num c + 1 in
        '(m, s, single_blk_idx, single_blk_ptr, blk_ptr) ← write_next m s file_inode c blk_num;
        if single_blk_idx <? UFS_NUM_PTRS_PER_BLK then
          write_loop k m s file_obj file_inode actual
            (Cursor buf write_counter blk_num 0 (c_double_idx c) single_blk_idx
               (c_double_ptr c) single_blk_ptr blk_ptr)
        else
          let double_blk_idx :=
            if blk_num >? UFS_NUM_DIRECT_PTRS + UFS_NUM_PTRS_PER_BLK
            then c_double_idx c + 1 else c_double_idx c in
          '(m, s, double_blk_ptr) ← ensure_local m s (c_double_ptr c);
          '(m, s) ← ensure_block m s (double_blk_ptr + 4 * double_blk_idx);
          let single_blk_ptr := ptr_at m double_blk_ptr double_blk_idx in
          '(m, s) ← ensure_block m s single_blk_ptr;
          let blk_ptr := ptr_at m single_blk_ptr 0 in
          if double_blk_idx <? UFS_NUM_PTRS_PER_BLK then
            write_loop k m s file_obj file_inode actual
              (Cursor buf write_counter blk_num 0 double_blk_idx 0
                 double_blk_ptr single_blk_ptr blk_ptr)
          else Some (m, s)
  end.

(** The end of [rd_write]: size and position. *)
Definition write_finish (m : mem) (s : rd_state) (file_obj file_inode num_bytes : Z) :
  option (mem * rd_state * Z) :=
  let m :=
    if u32 (i_size m file_inode - f_seek_head m file_obj) >? num_bytes
    then set_i_size m file_inode (i_size m file_inode - f_seek_head m file_obj + num_bytes)
    else m in
  let m := set_f_seek_head m file_obj (f_seek_head m file_obj + num_bytes) in
  s ← lock_fs s;
  let m := set_i_size m file_inode (f_seek_head m file_obj) in
  Some (m, unlock_fs s, 0).

Definition rd_write (m : mem) (s : rd_state) (fd buf num_bytes : Z) :
  option (mem * rd_state * Z) :=
  if bad_fd fd then Some (m, s, EBADF)
  else
    let file_obj := t_fd m cur fd in
    let file_inode := f_inode_ptr m file_obj in
    if negb (c_true file_obj) then Some (m, s, EBADF)
    else if negb (c_true buf) then Some (m, s, EBADBUF)
    else if (num_bytes <? 0) || (u32 (num_bytes + f_seek_head m file_obj) >? UFS_MAX_FILESIZE)
    then Some (m, s, EBOUNDS)
    else if negb (i_type m (f_inode_ptr m file_obj) =? INODE_REG) then Some (m, s, ENOREG)
    else
      let actual_num_bytes :=
        s32 (f_seek_head m file_obj + num_bytes - i_size m file_inode) in
      '(m, s, c) ← write_setup m s file_obj file_inode buf;
      '(m, s) ← write_loop rd_fuel m s file_obj file_inode actual_num_bytes c;
      write_finish m s file_obj file_inode num_bytes.

(** ** Reading directories *)

(** [while (dir_ptr->entries[pos].filename == NULL && pos < 16) pos++]: the address of
    an array is compared with NULL. *)
Fixpoint skip_null (n : nat) (dir_ptr pos : Z) : Z :=
  match n with
  | O => pos
  | S k =>
      if (u32 (dirent dir_ptr pos) =? 0) && (pos <? UFS_MAX_FILE_IN_DIR)
      then skip_null k dir_ptr (pos + 1) else pos
  end.

(** One of the entries at most lies at address 0. *)
Definition skip_fuel : nat := 2.

Definition rd_readdir (m : mem) (s : rd_state) (fd buf : Z) : mem * rd_state * Z :=
  if bad_fd fd then (m, s, EBADF)
  else
    let file_obj := t_fd m cur fd in
    if negb (c_true file_obj) then (m, s, EBADF)
    else if negb (i_type m (f_inode_ptr m file_obj) =? INODE_DIR) then (m, s, ENODIR)
    else
      let dir_ptr := i_dirblock_ptr m (f_inode_ptr m file_obj) in
      let m := set_f_dir_pos m file_obj (skip_null skip_fuel dir_ptr (f_dir_pos m file_obj)) in
      if f_dir_pos m file_obj =? UFS_MAX_FILE_IN_DIR then (set_f_dir_pos m file_obj 0, s, 1)
      else
        let entry := dirent dir_ptr (f_dir_pos m file_obj) in
        let m := set_f_dir_pos m file_obj (f_dir_pos m file_obj + 1) in
        let m := memcpy m buf entry DIRENT_SIZE in
        let m := set_f_dir_pos m file_obj (skip_null skip_fuel dir_ptr (f_dir_pos m file_obj)) in
        if f_dir_pos m file_obj =? UFS_MAX_FILE_IN_DIR then (set_f_dir_pos m file_obj 0, s, 1)
        else (m, s, 0).

(** ** Deleting *)

(** Is the inode open in the current task? *)
Fixpoint is_open (n : nat) (m : mem) (file_inode i : Z) : bool :=
  match n with
  | O => false
  | S k =>
      if c_true (t_fd m cur i) && (f_inode_ptr m (t_fd m cur i) =? file_inode) then true
      else is_open k m file_inode (i + 1)
  end.

Fixpoint dir_nonempty (n : nat) (m : mem) (dir_blk i : Z) : bool :=
  match n with
  | O => false
  | S k =>
      if c_true (load8 m (dirent dir_blk i)) then true else dir_nonempty k m dir_blk (i + 1)
  end.

(** The loops of [rd_unlink] over the blocks of the file, from the label
    [start_unlink]. *)
Fixpoint unlink_inner (n : nat) (m : mem) (s : rd_state)
  (file_inode single_blk_ptr single_blk_idx direct_blk_idx num_blks : Z) :
  option (mem * rd_state * Z * Z) :=
  match n with
  | O => None
  | S k =>
      let single_blk_idx :=
        if direct_blk_idx >? UFS_NUM_DIRECT_PTRS then single_blk_idx + 1 else single_blk_idx in
      let blk :=
        if direct_blk_idx <? UFS_NUM_DIRECT_PTRS then i_direct m file_inode direct_blk_idx
        else ptr_at m single_blk_ptr single_blk_idx in
      '(m, s) ← dealloc_block m s blk;
      let direct_blk_idx := direct_blk_idx + 1 in
      if direct_blk_idx =? num_blks then Some (m, s, single_blk_idx, direct_blk_idx)
      else if single_blk_idx <? UFS_NUM_PTRS_PER_BLK then
        unlink_inner k m s file_inode single_blk_ptr single_blk_idx direct_blk_idx num_blks
      else Some (m, s, single_blk_idx, direct_blk_idx)
  end.

(** [first]: the first round enters the inner loop at its label. *)
Fixpoint unlink_outer (n : nat) (first : bool) (m : mem) (s : rd_state)
  (file_inode double_blk_ptr double_blk_idx single_blk_ptr single_blk_idx direct_blk_idx num_blks : Z) :
  option (mem * rd_state) :=
  match n with
  | O => None
  | S k =>
      '(m, s, single_blk_idx, direct_blk_idx) ←
        (if first || (single_blk_idx <? UFS_NUM_PTRS_PER_BLK) then
           unlink_inner rd_fuel m s file_inode single_blk_ptr single_blk_idx direct_blk_idx num_blks
         else Some (m, s, single_blk_idx, direct_blk_idx));
      '(m, s) ← (if c_true single_blk_ptr then dealloc_block m s (load32 m single_blk_ptr)
                 else Some (m, s));
      if direct_blk_idx =? num_blks then Some (m, s)
      else
        let double_blk_idx :=
          if direct_blk_idx >? UFS_NUM_DIRECT_PTRS + UFS_NUM_PTRS_PER_BLK
          then double_blk_idx + 1 else double_blk_idx in
        let single_blk_ptr := ptr_at m double_blk_ptr double_blk_idx in
        if double_blk_idx <? UFS_NUM_PTRS_PER_BLK then
          unlink_outer k false m s file_inode double_blk_ptr double_blk_idx single_blk_ptr
            single_blk_idx direct_blk_idx num_blks
        else Some (m, s)
  end.

(** The first entry that carries the inode's number, truncated to 16 bits, is cleared. *)
Fixpoint clear_dirent (n : nat) (m : mem) (dir_blk inode_num i : Z) : mem :=
  match n with
  | O => m
  | S k =>
      if d_inode_num m (dirent dir_blk i) =? inode_num
      then memset m (dirent dir_blk i) 0 DIRENT_SIZE
      else clear_dirent k m dir_blk inode_num (i + 1)
  end.

Definition unlink_blocks (m : mem) (s : rd_state) (file_inode : Z) : option (mem * rd_state) :=
  let double_blk_ptr := i_double_indirect m file_inode in
  let num_blks := i_size m file_inode / UFS_BLOCK_SIZE in
  let num_blks := if c_true (i_size m file_inode mod UFS_BLOCK_SIZE) then num_blks + 1 else num_blks in
  if negb (num_blks =? 0) then
    '(m, s) ← unlink_outer rd_fuel true m s file_inode double_blk_ptr 0
                (i_indirect m file_inode) 0 0 num_blks;
    if c_true double_blk_ptr then dealloc_block m s (load32 m double_blk_ptr) else Some (m, s)
  else Some (m, s).

Definition rd_unlink (m : mem) (s : rd_state) (path : Z) : option (mem * rd_state * Z) :=
  if negb (c_true path) then Some (m, s, EBADPATH)
  else
    file_inode ← get_file_inode fuel m s path (__root_blk s);
    '(m, parent_dir_inode) ← get_parent_dir_inode m s path (__root_blk s);
    if negb (c_true file_inode) then Some (m, s, EBADPATH)
    else if is_open (Z.to_nat NUM_MAX_FD) m file_inode 0 then Some (m, s, EINVAL)
    else if (i_type m file_inode =? INODE_DIR) &&
      ((file_inode =? __inode_array s) ||
       dir_nonempty (Z.to_nat UFS_MAX_FILE_IN_DIR) m (i_dirblock_ptr m file_inode) 0)
    then Some (m, s, EINVAL)
    else
      '(m, s) ← unlink_blocks m s file_inode;
      let m := clear_dirent (Z.to_nat UFS_MAX_FILE_IN_DIR) m (i_dirblock_ptr m parent_dir_inode)
                 (u16 (file_inode - __inode_array s) / INODE_SIZE) 0 in
      s ← lock_fs s;
      let m := memset m file_inode 0 INODE_SIZE in
      Some (m, unlock_fs s, 0).
End Ramdisk.
