(* ===== verification/RamdiskBlocks.v ===== *)
(** * RamdiskBlocks: the block bitmap and the block allocator

    The bitmap of src/ramdisk.c as the list of its free block numbers:
    [alloc_block] takes the head of that list.  The gaps between the bounds
    that the setter, the getter and the allocator check, and between the
    number that [dealloc_block] computes and the block's number, are stated
    as properties. *)

From S2P Require Import Prelude Memory Klib Mutex Ramdisk.

(** ** Bits *)

Lemma b2z_testbit v p : 0 <= p -> Z.land (Z.shiftr v p) 1 = b2z (Z.testbit v p).
Proof.
  intros Hp. change 1 with (Z.ones 1). rewrite Z.land_ones by lia. change (2 ^ 1) with 2.
  rewrite Z.shiftr_div_pow2, <- Z.testbit_spec' by done. by destruct (Z.testbit v p).
Qed.

Lemma testbit_u8 v p : 0 <= p < 8 -> Z.testbit (u8 v) p = Z.testbit v p.
Proof. intros Hp. unfold u8. change 256 with (2 ^ 8). apply Z.mod_pow2_bits_low. lia. Qed.

Lemma testbit_shift1 p q : 0 <= p -> Z.testbit (Z.shiftl 1 p) q = (p =? q).
Proof. intros. by rewrite Z.shiftl_1_l, Z.pow2_bits_eqb by done. Qed.

Lemma testbit_occupy v p q :
  0 <= p < 8 -> 0 <= q < 8 ->
  Z.testbit (u8 (Z.lor v (Z.shiftl 1 p))) q = Z.testbit v q || (p =? q).
Proof. intros. by rewrite testbit_u8, Z.lor_spec, testbit_shift1 by lia. Qed.

Lemma testbit_free v p q :
  0 <= p < 8 -> 0 <= q < 8 ->
  Z.testbit (u8 (Z.land v (Z.lnot (Z.shiftl 1 p)))) q = Z.testbit v q && negb (p =? q).
Proof. intros. by rewrite testbit_u8, Z.land_spec, Z.lnot_spec, testbit_shift1 by lia. Qed.

(** ** Getter and setter *)

Lemma get_blk_bitmap_bit m s i :
  0 <= i <= 2048 -> get_blk_bitmap m s i = b2z (Z.testbit (load8 m (__blk_bitmap s + i / 8)) (i mod 8)).
Proof.
  intros Hi. unfold get_blk_bitmap, UFS_NUM_MAX_INODES.
  rewrite (proj2 (Z.ltb_ge i 0)), Z.gtb_ltb, (proj2 (Z.ltb_ge 0x800 i)) by lia. simpl.
  rewrite b2z_testbit by dlia. done.
Qed.

Lemma set_blk_bitmap_same_off m s i mark :
  same_off (__blk_bitmap s + i / 8) 1 m (set_blk_bitmap m s i mark).
Proof. unfold set_blk_bitmap. destruct (_ || _); [done|]. apply store8_same_off. Qed.

Lemma set_blk_bitmap_out m s i mark : i < 0 \/ 1024 < i -> set_blk_bitmap m s i mark = m.
Proof.
  intros Hi. unfold set_blk_bitmap, UFS_NUM_BITMAP_BLOCKS, UFS_BLOCK_SIZE.
  by repeat case_Z; try lia.
Qed.

Lemma get_set m s i j mark :
  0 <= i <= 1024 -> 0 <= j <= 2048 ->
  get_blk_bitmap (set_blk_bitmap m s i mark) s j =
    if decide (i = j) then b2z (negb (mark =? BLK_STATUS_FREE)) else get_blk_bitmap m s j.
Proof.
  intros Hi Hj. rewrite !get_blk_bitmap_bit by lia.
  unfold set_blk_bitmap, UFS_NUM_BITMAP_BLOCKS, UFS_BLOCK_SIZE.
  rewrite (proj2 (Z.ltb_ge i 0)), Z.gtb_ltb, (proj2 (Z.ltb_ge (4 * 0x100) i)) by lia. simpl.
  rewrite load8_store8. destruct (decide (i / 8 = j / 8)) as [E|E].
  - rewrite decide_True by lia. pose proof (Z.mod_pos_bound i 8 ltac:(lia)).
    pose proof (Z.mod_pos_bound j 8 ltac:(lia)).
    assert ((i mod 8 =? j mod 8) = bool_decide (i = j)) as Eb.
    { case_bool_decide; case_Z; try done; [congruence|]. exfalso. dlia. }
    rewrite <- E. destruct (mark =? BLK_STATUS_FREE).
    + rewrite u8_u8, testbit_free, Eb by done. case_decide; case_bool_decide; try done.
      * by rewrite andb_false_r.
      * by rewrite andb_true_r.
    + rewrite u8_u8, testbit_occupy, Eb by done. case_decide; case_bool_decide; try done.
      * by rewrite orb_true_r.
      * by rewrite orb_false_r.
  - rewrite decide_False by lia. rewrite decide_False; [done|]. by intros ->.
Qed.

(** ** The list of free blocks *)

(** The block numbers that the setter can mark. *)
Definition block_numbers : list Z := seqZ 0 1025.

Definition free_blocks (m : mem) (s : rd_state) : list Z :=
  filter (fun i => get_blk_bitmap m s i = 0) block_numbers.

(** A block number reached by the allocator's scan. *)
Lemma alloc_block_loop_spec s n m i j :
  0 <= i <= j -> (Z.to_nat (j - i) < n)%nat ->
  (forall k, i <= k < j -> get_blk_bitmap m s k <> 0) -> get_blk_bitmap m s j = 0 ->
  alloc_block_loop n m s i =
    (set_blk_bitmap m s j BLK_STATUS_OCCUPIED, unlock_fs s, __root_blk s + UFS_BLOCK_SIZE * j).
Proof.
  revert i. induction n as [|n IH]; intros i Hi Hn Hk Hj; [lia|]. simpl.
  destruct (decide (i = j)) as [->|].
  - rewrite Hj. done.
  - rewrite c_true_nonzero by (apply Hk; lia). simpl. apply IH; [lia|lia|intros; apply Hk; lia|done].
Qed.

Definition fs_unlocked (s : rd_state) : Prop := __fs_head_lock s = unlocked.

Lemma lock_fs_unlocked fuel s :
  fs_unlocked s -> (0 < fuel)%nat -> lock_fs fuel s = Some (with_lock s locked).
Proof. intros Hl Hf. unfold lock_fs. by rewrite Hl, lock_unlocked. Qed.

Lemma unlock_with_lock s l : fs_unlocked s -> unlock_fs (with_lock s l) = s.
Proof. unfold fs_unlocked. destruct s; simpl. by intros ->. Qed.

(** The fields of the state other than the lock decide everything else. *)
Lemma get_with_lock m s l i : get_blk_bitmap m (with_lock s l) i = get_blk_bitmap m s i.
Proof. done. Qed.

Lemma alloc_block_first fuel m s j :
  fs_unlocked s -> (0 < fuel)%nat -> 0 <= j <= 2048 ->
  (forall k, 0 <= k < j -> get_blk_bitmap m s k <> 0) -> get_blk_bitmap m s j = 0 ->
  alloc_block fuel m s =
    Some (set_blk_bitmap m s j BLK_STATUS_OCCUPIED, s, __root_blk s + UFS_BLOCK_SIZE * j).
Proof.
  intros Hl Hf Hj Hk H0. unfold alloc_block. rewrite lock_fs_unlocked by done.
  cbn [mbind option_bind].
  rewrite (alloc_block_loop_spec _ _ _ _ j); [|lia|unfold UFS_NUM_BITMAP_BLOCKS, UFS_BLOCK_SIZE; lia|done|done].
  by rewrite unlock_with_lock.
Qed.

(** The first element that passes a filter. *)
Lemma filter_head_split (P : Z -> Prop) `{!forall x, Decision (P x)} (l : list Z) x r :
  filter P l = x :: r ->
  exists l1 l2, l = l1 ++ x :: l2 /\ Forall (fun y => ~ P y) l1 /\ P x /\ r = filter P l2.
Proof.
  induction l as [|y l IH]; [done|]. rewrite filter_cons. case_decide as Hy.
  - intros. simplify_eq. exists [], l. by split_and!.
  - intros (l1 & l2 & -> & H1 & H2 & H3)%IH. exists (y :: l1), l2. split_and!; [done|by constructor|done..].
Qed.

Lemma seqZ_split n l1 x l2 :
  seqZ 0 n = l1 ++ x :: l2 ->
  x = Z.of_nat (length l1) /\ x < n /\ (forall k, k ∈ l1 <-> 0 <= k < x) /\ (forall k, k ∈ l2 <-> x < k < n).
Proof.
  intros E.
  assert (seqZ 0 n !! length l1 = Some x) as Hx by (by rewrite E, list_lookup_middle).
  apply lookup_seqZ in Hx as [-> Hx]. simpl.
  assert (forall i k, seqZ 0 n !! i = Some k <-> k = Z.of_nat i /\ Z.of_nat i < n) as Hs
    by (intros; rewrite lookup_seqZ; lia).
  split_and!; [done|lia| |]; intros k; rewrite list_elem_of_lookup; split.
  - intros [i Hi]. pose proof (lookup_lt_Some _ _ _ Hi).
    assert (seqZ 0 n !! i = Some k) as Hk by (by rewrite E, lookup_app_l). apply Hs in Hk. lia.
  - intros Hk. exists (Z.to_nat k).
    assert (seqZ 0 n !! Z.to_nat k = Some k) as Hk' by (apply Hs; lia).
    rewrite E, lookup_app_l in Hk'; [done|lia].
  - intros [i Hi].
    assert (seqZ 0 n !! (length l1 + S i)%nat = Some k) as Hk by (rewrite E, lookup_app_r by lia;
      replace (length l1 + S i - length l1)%nat with (S i) by lia; done).
    apply Hs in Hk. lia.
  - intros Hk. exists (Z.to_nat k - length l1 - 1)%nat.
    assert (seqZ 0 n !! Z.to_nat k = Some k) as Hk' by (apply Hs; lia).
    rewrite E, lookup_app_r in Hk' by lia.
    replace (Z.to_nat k - length l1)%nat with (S (Z.to_nat k - length l1 - 1)) in Hk' by lia. done.
Qed.

Lemma filter_none (P : Z -> Prop) `{!forall x, Decision (P x)} (l : list Z) :
  (forall x, x ∈ l -> ~ P x) -> filter P l = [].
Proof.
  induction l as [|y l IH]; intros Hn; [done|]. rewrite filter_cons, IH by (intros; apply Hn; by right).
  rewrite decide_False; [done|]. apply Hn. by left.
Qed.

(** Allocation takes the head of the list. *)
Lemma alloc_block_cons fuel m s i l :
  fs_unlocked s -> (0 < fuel)%nat -> free_blocks m s = i :: l ->
  exists m', alloc_block fuel m s = Some (m', s, __root_blk s + UFS_BLOCK_SIZE * i) /\
    0 <= i <= 1024 /\ (i ∉ l) /\ free_blocks m' s = l /\ same_off (__blk_bitmap s + i / 8) 1 m m'.
Proof.
  intros Hl Hf E. pose proof E as (l1 & l2 & Es & Hn & Hi & ->)%filter_head_split.
  pose proof (seqZ_split _ _ _ _ Es) as (Hx & Hb & H1 & H2). rewrite Forall_forall in Hn.
  exists (set_blk_bitmap m s i BLK_STATUS_OCCUPIED). split_and!; [|lia|lia| | |].
  - apply alloc_block_first; [done|done|lia|intros k Hk; by apply Hn, H1|done].
  - rewrite list_elem_of_filter, H2. lia.
  - unfold free_blocks. rewrite Es, filter_app, filter_cons.
    assert (forall k, 0 <= k <= 2048 ->
      get_blk_bitmap (set_blk_bitmap m s i BLK_STATUS_OCCUPIED) s k =
        if decide (i = k) then 1 else get_blk_bitmap m s k) as Hg by (intros; by rewrite get_set by lia).
    rewrite decide_False by (rewrite Hg by lia; by rewrite decide_True).
    assert (filter (fun k => get_blk_bitmap (set_blk_bitmap m s i BLK_STATUS_OCCUPIED) s k = 0) l1 = [])
      as ->.
    { apply filter_none. intros k Hk. pose proof (Hn k Hk).
      apply H1 in Hk. rewrite Hg by lia. rewrite decide_False by lia. done. }
    simpl. assert (forall k, k ∈ l2 -> i < k < 1025) as H2' by (intros; by apply H2).
    assert (0 <= i) as Hi0 by lia. clear -Hg H2' Hi0. induction l2 as [|k l2 IH]; [done|]. rewrite !filter_cons.
    specialize (H2' k ltac:(left)) as Hk. rewrite Hg by lia.
    rewrite (decide_False (P := i = k)) by lia.
    rewrite IH; [done|]. intros; apply H2'. by right.
  - apply set_blk_bitmap_same_off.
Qed.

(** ** A freshly initialised disk *)

(** The four areas, as [init_rdisk] places them. *)
Definition rd_at (base : Z) : rd_state :=
  RdState base (base + 0x4000) (base + 0x24000) (base + 0x64000) unlocked.

Lemma init_rdisk_state m base : (init_rdisk m base).2 = rd_at base.
Proof.
  unfold init_rdisk, rd_at, UFS_BLOCK_SIZE, INODE_SIZE, UFS_NUM_MAX_INODES, UFS_NUM_BITMAP_BLOCKS.
  simpl. f_equal; lia.
Qed.

(** The bytes of the disk after initialisation: zero except for the superblock's
    eleven words, two words of the root inode and the first bit of the bitmap. *)
Lemma init_rdisk_bytes m base a :
  0 <= base ->
  let m' := (init_rdisk m base).1 in
  (base + 44 <= a < base + 0x200000 -> a <> base + 0x24000 ->
   off (base + 0x4000) 4 a -> off (base + 0x400c) 4 a -> load8 m' a = 0) /\
  (off base 0x200000 a -> load8 m' a = load8 m a) /\
  load8 m' (base + 0x24000) = 1 /\
  load32 m' (base + 0x4000) = INODE_DIR /\ load32 m' (base + 0x400c) = u32 (base + 0x64000).
Proof.
  intros Hb. unfold init_rdisk, set_blk_bitmap, UFS_BLOCK_SIZE, INODE_SIZE,
    UFS_NUM_MAX_INODES, UFS_NUM_BITMAP_BLOCKS, UFS_DISK_SIZE, UFS_HEADER_MAGIC, set_i_type,
    set_i_dirblock_ptr, set_sb_magic, set_sb_num_blocks, set_sb_block_size, set_sb_num_inodes,
    set_sb_num_free_blocks, set_sb_num_free_inodes, set_sb_inode_array, set_sb_blk_bitmap, set_sb_root_blk.
  cbn [fst snd __blk_bitmap orb].
  replace (base + 0x100 * 64) with (base + 0x4000) by lia.
  replace (base + 0x4000 + 0x800 * 64) with (base + 0x24000) by lia.
  replace (base + 0x24000 + 0x100 * 4 * 0x100) with (base + 0x64000) by lia.
  change ((0 <? 0) || (0 >? 4 * 0x100)) with false. cbv iota.
  change (BLK_STATUS_OCCUPIED =? BLK_STATUS_FREE) with false. cbv iota.
  change (0 / 8) with 0. change (0 mod 8) with 0. rewrite Z.add_0_r.
  replace (base + 0x4000 + 12) with (base + 0x400c) by lia.
  set (m1 := store32 _ (base + 20) _).
  assert (forall a, base + 24 <= a < base + 0x200000 -> load8 m1 a = 0) as H1.
  { intros x Hx. unfold m1. rewrite !load8_store32_ne by (unfold off; lia).
    rewrite memset_in by lia. done. }
  assert (forall a, off base 0x200000 a -> load8 m1 a = load8 m a) as H2.
  { intros x Hx. unfold m1. unfold off in Hx. rewrite !load8_store32_ne by (unfold off; lia).
    apply memset_same_off; [lia|done]. }
  clearbody m1. rewrite (H1 (base + 0x24000)) by lia.
  change (u8 (Z.lor 0 (Z.shiftl 1 0))) with 1. repeat apply conj.
  - intros Ha Ha1 Ha2 Ha3. rewrite !load8_store32_ne by (done || (unfold off; lia)).
    rewrite load8_store8_ne by lia. apply H1. lia.
  - intros Ha. unfold off in Ha. rewrite !load8_store32_ne by (unfold off; lia).
    rewrite load8_store8_ne by lia. by apply H2.
  - rewrite !load8_store32_ne by (unfold off; lia). by rewrite load8_store8_eq.
  - rewrite !load32_store32_ne by lia. by rewrite load32_store32_eq.
  - rewrite !load32_store32_ne by lia. by rewrite load32_store32_eq.
Qed.

Lemma load32_zero m a : (forall i, 0 <= i < 4 -> load8 m (a + i) = 0) -> load32 m a = 0.
Proof.
  intros H. unfold load32, load16. rewrite <- (Z.add_0_r a) at 1. rewrite !H by lia.
  rewrite <- !Z.add_assoc, !H by lia. done.
Qed.

Lemma filter_all (P : Z -> Prop) `{!forall x, Decision (P x)} (l : list Z) :
  (forall x, x ∈ l -> P x) -> filter P l = l.
Proof.
  induction l as [|y l IH]; intros Hp; [done|]. rewrite filter_cons, IH by (intros; apply Hp; by right).
  rewrite decide_True; [done|]. apply Hp. by left.
Qed.

(** ** Properties *)

(** C26: a fresh disk.  [init_rdisk] writes only its two megabytes and leaves: the root
    inode as a directory whose block is the block number 0, its sixteen entries empty;
    every other inode empty; all blocks free except number 0; the lock released.  The
    four areas are disjoint and inside the disk: the inode array at offset 0x4000, the
    bitmap at 0x24000, the blocks at 0x64000 (and not at the block numbers that the
    layout comment of include/sys/ufs.h describes). *)
Theorem init_rdisk_ok m base :
  0 <= base -> base + UFS_DISK_SIZE <= 4294967296 ->
  let '(m', s) := init_rdisk m base in
  s = rd_at base /\ fs_unlocked s /\ same_off base UFS_DISK_SIZE m m' /\
  i_type m' (__inode_array s) = INODE_DIR /\ i_dirblock_ptr m' (__inode_array s) = __root_blk s /\
  (forall k, 0 < k < UFS_NUM_MAX_INODES ->
     i_type m' (__inode_array s + INODE_SIZE * k) = INODE_EMPTY) /\
  (forall i, 0 <= i < UFS_MAX_FILE_IN_DIR -> load8 m' (dirent (__root_blk s) i) = 0) /\
  free_blocks m' s = seqZ 1 1024.
Proof.
  intros Hb Hb'. destruct (init_rdisk m base) as [m' s] eqn:E.
  pose proof (init_rdisk_state m base) as Es. rewrite E in Es. simpl in Es. subst s.
  assert (m' = (init_rdisk m base).1) as Em by (by rewrite E). unfold UFS_DISK_SIZE in *.
  pose proof (fun a => init_rdisk_bytes m base a Hb) as H. rewrite <- Em in H. cbv zeta in H.
  split_and!; [done|done| | | | | |].
  - intros a Ha. by apply H.
  - by apply (H base).
  - simpl. unfold i_dirblock_ptr. rewrite <- (u32_small (base + 0x64000)) by lia.
    rewrite <- Z.add_assoc. by apply (H base).
  - intros k Hk. unfold i_type, INODE_SIZE, UFS_NUM_MAX_INODES in *. simpl. apply load32_zero.
    intros i Hi. apply H; unfold off; lia.
  - intros i Hi. unfold dirent, DIRENT_SIZE, UFS_MAX_FILE_IN_DIR in *. simpl.
    apply H; unfold off; lia.
  - assert (forall i, 1 <= i <= 1024 -> get_blk_bitmap m' (rd_at base) i = 0) as H0.
    { intros i Hi. rewrite get_blk_bitmap_bit by lia. simpl (__blk_bitmap _).
      destruct (decide (i / 8 = 0)) as [E0|E0].
      - rewrite E0, Z.add_0_r. destruct (H base) as (_ & _ & -> & _).
        assert (1 <= i < 8) as Hi' by dlia. rewrite Z.mod_small by lia.
        change 1 with (2 ^ 0). rewrite Z.pow2_bits_eqb by lia. by rewrite eqb_ne by lia.
      - rewrite (proj1 (H (base + 0x24000 + i / 8))) by (unfold off; dlia). by rewrite Z.bits_0. }
    unfold free_blocks, block_numbers. change 1025 with (Z.succ 1024) at 1.
    rewrite seqZ_cons by lia. rewrite filter_cons, decide_False; cycle 1.
    { rewrite get_blk_bitmap_bit by lia. simpl (__blk_bitmap _). change (0 / 8) with 0.
      rewrite Z.add_0_r. by destruct (H base) as (_ & _ & -> & _). }
    apply filter_all. intros i [Hi1 Hi2]%elem_of_seqZ. apply H0. lia.
Qed.

Lemma init_rdisk_ok_witness :
  let '(m', s) := init_rdisk mem_zero 0x100000 in
  s = rd_at 0x100000 /\ i_dirblock_ptr m' (__inode_array s) = __root_blk s /\
  free_blocks m' s = seqZ 1 1024.
Proof.
  pose proof (init_rdisk_ok mem_zero 0x100000 ltac:(lia) ltac:(by vm_compute)) as H.
  destruct (init_rdisk mem_zero 0x100000) as [m' s].
  destruct H as (Hs & _ & _ & _ & Hd & _ & _ & Hf). split_and!; [exact Hs|exact Hd|exact Hf].
Defined.

(** C16: block allocation refines a list of free numbers.  While one of the numbers 0
    to 1024 is free, [alloc_block] returns the block with the least free number and
    removes exactly that number from the list; it writes one byte of the bitmap and
    leaves the lock free.  Different allocations therefore return disjoint blocks. *)
Theorem alloc_block_ok fuel m s i l :
  fs_unlocked s -> (0 < fuel)%nat -> free_blocks m s = i :: l ->
  exists m', alloc_block fuel m s = Some (m', s, __root_blk s + UFS_BLOCK_SIZE * i) /\
    0 <= i <= 1024 /\ (i ∉ l) /\ free_blocks m' s = l /\ same_off (__blk_bitmap s + i / 8) 1 m m'.
Proof. apply alloc_block_cons. Qed.

(** The words that initialisation leaves on a disk at 0x100000 in a zeroed memory. *)
Definition fresh_disk : mem :=
  set_i_dirblock_ptr (set_i_type (store8 mem_zero 0x124000 1) 0x104000 INODE_DIR) 0x104000 0x164000.

Lemma fresh_disk_free : free_blocks fresh_disk (rd_at 0x100000) = seqZ 1 1024.
Proof. by vm_compute. Qed.

Lemma alloc_block_ok_witness :
  exists m', alloc_block 1 fresh_disk (rd_at 0x100000) = Some (m', rd_at 0x100000, 0x164100) /\
    free_blocks m' (rd_at 0x100000) = seqZ 2 1023.
Proof.
  destruct (alloc_block_ok 1 fresh_disk (rd_at 0x100000) 1 (seqZ 2 1023)) as (m' & E & _ & _ & Hf & _).
  - reflexivity.
  - lia.
  - rewrite fresh_disk_free. by vm_compute.
  - exists m'. split; [exact E|exact Hf].
Defined.

(** The disk never reports that it is full.  The setter ignores numbers above 1024
    but the allocator scans on and finds number 1025 free; so when all the others are
    taken, [alloc_block] returns block 1025, changes nothing, and will return the same
    block to every later caller. *)
Theorem alloc_block_full fuel m s :
  fs_unlocked s -> (0 < fuel)%nat -> free_blocks m s = [] -> get_blk_bitmap m s 1025 = 0 ->
  alloc_block fuel m s = Some (m, s, __root_blk s + UFS_BLOCK_SIZE * 1025).
Proof.
  intros Hl Hf E H0. rewrite (alloc_block_first _ _ _ 1025); [|done|done|lia| |done].
  - by rewrite set_blk_bitmap_out by lia.
  - intros k Hk H. assert (k ∈ free_blocks m s) as Hin; [|rewrite E in Hin; by apply elem_of_nil in Hin].
    apply list_elem_of_filter. split; [done|]. apply elem_of_seqZ. lia.
Qed.

(** The fresh disk with every bit set that can be set. *)
Definition full_disk : mem := store8 (memset fresh_disk 0x124000 255 128) 0x124080 1.

Lemma alloc_block_full_witness :
  alloc_block 1 full_disk (rd_at 0x100000) = Some (full_disk, rd_at 0x100000, 0x1a4100).
Proof.
  apply (alloc_block_full 1 full_disk (rd_at 0x100000)).
  - reflexivity.
  - lia.
  - by vm_compute.
  - by vm_compute.
Defined.

(** Freeing does not undo allocating.  The block's number is computed by dividing
    its offset by four, the size of a C constant, instead of by the block size: freeing
    block [k] clears bit 64 k.  Block [k] itself stays marked, for every [k] but 0, and
    from 17 on nothing is freed at all. *)
Theorem dealloc_block_wrong fuel m s k :
  fs_unlocked s -> (0 < fuel)%nat -> 0 < k <= 1024 ->
  exists m', dealloc_block fuel m s (__root_blk s + UFS_BLOCK_SIZE * k) = Some (m', s) /\
    get_blk_bitmap m' s k = get_blk_bitmap m s k /\
    (forall j, 0 <= j <= 1024 ->
       get_blk_bitmap m' s j = if decide (j = 64 * k) then 0 else get_blk_bitmap m s j) /\
    (16 < k -> m' = m).
Proof.
  intros Hl Hf Hk. unfold dealloc_block. rewrite lock_fs_unlocked by done. cbn [mbind option_bind].
  rewrite unlock_with_lock by done. cbn [__root_blk with_lock].
  replace (u32 _ / 4) with (64 * k).
  2: { unfold UFS_BLOCK_SIZE. replace (_ - _) with (256 * k) by lia. rewrite u32_small by lia. dlia. }
  change (set_blk_bitmap m (with_lock s locked)) with (set_blk_bitmap m s).
  eexists. split; [done|]. destruct (decide (16 < k)) as [Hbig|Hsmall].
  - rewrite set_blk_bitmap_out by lia. split_and!; [done| |done].
    intros j Hj. by rewrite decide_False by lia.
  - split_and!; [rewrite get_set by lia; by rewrite decide_False by lia| |lia].
    intros j Hj. rewrite get_set by lia. by repeat case_decide; try lia.
Qed.

Lemma dealloc_block_wrong_witness :
  exists m', dealloc_block 1 full_disk (rd_at 0x100000) (0x164000 + 256 * 3) = Some (m', rd_at 0x100000) /\
    get_blk_bitmap m' (rd_at 0x100000) 3 = 1.
Proof.
  destruct (dealloc_block_wrong 1 full_disk (rd_at 0x100000) 3) as (m' & E & Hb & _).
  - reflexivity.
  - lia.
  - lia.
  - exists m'. split; [exact E|]. rewrite Hb. by vm_compute.
Defined.
