(* ===== verification/RamdiskPath.v ===== *)
(** * RamdiskPath: path lookup and file creation

    [get_file_inode] against a reference function on lists of characters,
    what the reference says about directories and about unknown path
    components, the parent lookup, and the creation of a file followed by the
    lookup of its name. *)

From S2P Require Import Prelude Memory Klib Mutex Ramdisk RamdiskBlocks.

(** ** The reference lookup *)

Definition DELIM : Z := UFS_DIR_DELIM_CHAR.

(** The path from its first delimiter on. *)
Definition from_delim (p : list Z) : option (list Z) :=
  match first_delim [DELIM] p with Some k => Some (drop k p) | None => None end.

Definition strip_delim (p : list Z) : list Z :=
  match p with c :: p' => if c =? DELIM then p' else p | [] => [] end.

Section Resolve.
(** The names in directory blocks, and what the inodes say. *)
Context (name : Z -> Z -> list Z) (m : mem) (s : rd_state).

Fixpoint first_match (n : nat) (p : list Z) (dir_blk i : Z) : option Z :=
  match n with
  | O => None
  | S k => if decide (name dir_blk i `prefix_of` p) then Some i else first_match k p dir_blk (i + 1)
  end.

Definition entry_inode (dir_blk i : Z) : Z :=
  __inode_array s + INODE_SIZE * d_inode_num m (dirent dir_blk i).

Fixpoint resolve (n : nat) (p : list Z) (dir_blk : Z) : option Z :=
  match n with
  | O => None
  | S k =>
      if decide (p = [DELIM]) then Some (__inode_array s)
      else
        let p := strip_delim p in
        match first_match (Z.to_nat UFS_MAX_FILE_IN_DIR) p dir_blk 0 with
        | None => Some 0
        | Some i =>
            let inode := entry_inode dir_blk i in
            if i_type m inode =? INODE_DIR then
              match from_delim p with
              | Some rest => resolve k rest (i_dirblock_ptr m inode)
              | None => Some 0
              end
            else Some inode
        end
  end.

(** A set of directory blocks whose names are strings and which contains the blocks of
    its subdirectories. *)
Record directories (fuel : nat) (D : Z -> Prop) : Prop := Directories {
  dir_names d i : D d -> 0 <= i < UFS_MAX_FILE_IN_DIR ->
    cstr m (dirent d i) (name d i) /\ (length (name d i) < fuel)%nat;
  dir_closed d i : D d -> 0 <= i < UFS_MAX_FILE_IN_DIR ->
    i_type m (entry_inode d i) = INODE_DIR -> D (i_dirblock_ptr m (entry_inode d i))
}.

Lemma match_entry_first fuel path p dir_blk n i :
  cstr m path p ->
  (forall k, i <= k < i + Z.of_nat n ->
     cstr m (dirent dir_blk k) (name dir_blk k) /\ (length (name dir_blk k) < fuel)%nat) ->
  match_entry fuel n m path dir_blk i = Some (first_match n p dir_blk i).
Proof.
  intros Hp. revert i. induction n as [|n IH]; intros i Hn; [done|]. simpl.
  destruct (Hn i) as [Hc Hl]; [lia|]. rewrite (str_is_prefix_cstr _ _ _ _ _ _ Hp Hc Hl). simpl.
  case_bool_decide as Hb.
  - by rewrite decide_True.
  - rewrite decide_False by done. apply IH. intros k Hk. apply Hn. lia.
Qed.

Lemma first_match_in n p d i k : first_match n p d i = Some k -> i <= k < i + Z.of_nat n.
Proof.
  revert i. induction n as [|n IH]; intros i; simpl; [done|]. case_decide; [intros; simplify_eq; lia|].
  intros Hk%IH. lia.
Qed.

Lemma strip_delim_cstr path p :
  cstr m path p ->
  cstr m (if load8 m path =? UFS_DIR_DELIM_CHAR then path + 1 else path) (strip_delim p).
Proof.
  unfold strip_delim, DELIM. intros Hp. destruct p as [|c p]; simpl in *; [by rewrite Hp|].
  destruct Hp as (Hc & E & Hp). rewrite E. by case_Z.
Qed.

Lemma first_delim_lt delims p k : first_delim delims p = Some k -> (k < length p)%nat.
Proof.
  unfold first_delim. destruct (list_find _ p) as [[i x]|] eqn:E; [|done]. simpl. intros. simplify_eq.
  apply list_find_Some in E as [E _]. exact (lookup_lt_Some _ _ _ E).
Qed.

(** What is left of a path after one component is shorter. *)
Lemma from_delim_shorter p rest :
  p <> [DELIM] -> from_delim (strip_delim p) = Some rest -> (length rest < length p)%nat.
Proof.
  unfold from_delim. intros Hp E.
  destruct (first_delim [DELIM] (strip_delim p)) as [k|] eqn:Ek; [|done]. simplify_eq.
  pose proof (first_delim_lt _ _ _ Ek) as Hk. rewrite length_drop.
  destruct p as [|c p]; [done|]. simpl in *. case_Z; simpl in *; [lia|].
  destruct k as [|k]; [|simpl in *; lia]. exfalso.
  unfold first_delim in Ek. destruct (list_find _ (c :: p)) as [[j x]|] eqn:Ef; [|done].
  simpl in Ek. simplify_eq. apply list_find_Some in Ef as (Hx & Hd & _). simplify_eq/=.
  apply list_elem_of_singleton in Hd. done.
Qed.

Context (fuel : nat) (delim_str : Z) (Hdelim : cstr m delim_str [DELIM]) (Hfuel : (1 < fuel)%nat).

Lemma strtok_from_delim path p :
  cstr m path p -> (length p < fuel)%nat ->
  match from_delim p with
  | Some rest => exists path', strtok fuel m path delim_str = Some path' /\ path <= path' /\ cstr m path' rest
  | None => strtok fuel m path delim_str = Some 0
  end.
Proof.
  intros Hp Hl. unfold from_delim.
  rewrite (strtok_cstr m path p delim_str [DELIM]) by (done || simpl; lia).
  destruct (first_delim [DELIM] p) as [k|] eqn:Ek; [|done].
  eexists. split_and!; [done|lia|]. apply first_delim_lt in Ek.
  apply cstr_drop; [lia|done].
Qed.

Lemma get_file_inode_spec D n path p dir_blk :
  directories fuel D -> D dir_blk -> 0 < path -> cstr m path p -> (length p + 1 < n)%nat ->
  (length p < fuel)%nat ->
  get_file_inode fuel delim_str n m s path dir_blk = resolve n p dir_blk.
Proof.
  intros HD. revert path p dir_blk. induction n as [|n IH]; intros path p dir_blk Hd Hpos Hp Hn Hf; [lia|].
  cbn [get_file_inode resolve]. rewrite c_true_nonzero by lia. cbn [negb].
  rewrite (strcmp_cstr m path delim_str p [DELIM]) by done. cbn [mbind option_bind].
  case_bool_decide as Hroot; [by rewrite decide_True|]. rewrite decide_False by done.
  pose proof (strip_delim_cstr _ _ Hp) as Hs.
  assert (length (strip_delim p) <= length p)%nat as Hls.
  { destruct p as [|c p]; simpl; [lia|]. case_Z; simpl; lia. }
  set (path1 := if load8 m path =? UFS_DIR_DELIM_CHAR then path + 1 else path) in *.
  assert (0 < path1) as Hpos1 by (unfold path1; case_Z; lia).
  rewrite (match_entry_first fuel path1 (strip_delim p) dir_blk _ 0 Hs)
    by (intros k Hk; apply (dir_names _ _ HD); [done|unfold UFS_MAX_FILE_IN_DIR in *; lia]).
  cbn [mbind option_bind].
  destruct (first_match _ (strip_delim p) dir_blk 0) as [i|] eqn:Ei; [|done].
  apply first_match_in in Ei. fold (entry_inode dir_blk i).
  pose proof (strtok_from_delim path1 (strip_delim p) Hs ltac:(lia)) as Ht.
  destruct (from_delim (strip_delim p)) as [rest|] eqn:Er.
  - destruct Ht as (path' & -> & Hle & Hrest). cbn [mbind option_bind].
    destruct (Z.eqb_spec (i_type m (entry_inode dir_blk i)) INODE_DIR) as [Hty|]; [|done]. apply from_delim_shorter in Er; [|done].
    apply IH; [|lia|done|lia|lia]. apply (dir_closed _ _ HD); [done| |done].
    unfold UFS_MAX_FILE_IN_DIR in *. lia.
  - rewrite Ht. cbn [mbind option_bind]. case_Z; [|done].
    destruct n; [lia|done].
Qed.
End Resolve.

(** ** Parents *)

Lemma first_delim_app p q :
  DELIM ∉ p -> first_delim [DELIM] (p ++ DELIM :: q) = Some (length p).
Proof.
  intros Hp. unfold first_delim. induction p as [|c p IH]; cbn [list_find app].
  - by rewrite decide_True by (by apply list_elem_of_singleton).
  - rewrite decide_False by (rewrite list_elem_of_singleton; set_solver).
    specialize (IH ltac:(set_solver)). destruct (list_find _ (p ++ _)) as [[i x]|]; simplify_eq/=.
    done.
Qed.

Lemma first_delim_none p : DELIM ∉ p -> first_delim [DELIM] p = None.
Proof.
  intros Hp. unfold first_delim. rewrite (proj2 (list_find_None _ _)); [done|].
  apply Forall_forall. intros x Hx. rewrite list_elem_of_singleton. by intros ->.
Qed.

Lemma strip_delim_other p : DELIM ∉ p -> strip_delim p = p.
Proof.
  unfold strip_delim. destruct p as [|c p]; [done|]. intros Hp. rewrite eqb_ne by set_solver. done.
Qed.

(** A path with one component: its characters. *)
Lemma cstr_no_delim m p s i :
  cstr m p s -> DELIM ∉ s -> 0 <= i <= Z.of_nat (length s) -> load8 m (p + i) <> DELIM.
Proof.
  intros Hc Hn Hi. destruct (decide (i = Z.of_nat (length s))) as [->|].
  - rewrite (cstr_end _ _ _ Hc). done.
  - destruct (cstr_lookup m p s i Hc) as [Hl _]; [lia|]. intros E. apply Hn. rewrite <- E.
    by apply list_elem_of_lookup_2 in Hl.
Qed.

Lemma back_to_delim_spec n m path len k :
  (forall i, k <= i < len -> load8 m (path + i) <> DELIM) -> load8 m (path + (k - 1)) = DELIM ->
  1 <= k <= len -> path + len < 4294967296 -> 0 <= path -> (Z.to_nat (len - k) < n)%nat ->
  back_to_delim n m path len = Some k.
Proof.
  revert len. induction n as [|n IH]; intros len Hn Hk Hr Hp Hp0 Hf; [lia|]. simpl.
  rewrite (u32_small (len - 1)), (u32_small (path + _)) by lia.
  change UFS_DIR_DELIM_CHAR with DELIM. destruct (decide (len = k)) as [->|].
  - by rewrite Hk.
  - rewrite eqb_ne by (apply Hn; lia). simpl. apply IH; [intros; apply Hn; lia|done|lia..].
Qed.

(** The parent of "/name" is the root; the path is left as it was. *)
Lemma get_parent_root fuel delim_str m s path nm dir_blk :
  cstr m path (DELIM :: nm) -> DELIM ∉ nm -> nm <> [] -> cstr m delim_str [DELIM] ->
  0 < path -> path + 2 + Z.of_nat (length nm) < 4294967296 -> (length nm + 2 < fuel)%nat ->
  off delim_str 2 (path + 1) ->
  exists m', get_parent_dir_inode fuel delim_str m s path dir_blk = Some (m', __inode_array s) /\
    forall a, load8 m' a = load8 m a.
Proof.
  intros Hc Hn Hne Hdel Hp Hr Hf Hoff. unfold get_parent_dir_inode. rewrite c_true_nonzero by lia. cbn [negb].
  pose proof Hc as (_ & E0 & Hc1). rewrite E0. change (DELIM =? UFS_DIR_DELIM_CHAR) with true. cbn [negb].
  rewrite (strlen_cstr m path (DELIM :: nm)) by (done || simpl; lia). cbn [mbind option_bind].
  assert (0 < length nm)%nat as Hl by (destruct nm; [done|simpl; lia]).
  change UFS_DIR_DELIM_CHAR with DELIM. cbn [length]. rewrite Nat2Z.inj_succ.
  rewrite (u32_small (_ - 1)), (u32_small (path + _)) by lia.
  rewrite eqb_ne; cycle 1.
  { replace (path + _) with (path + 1 + (Z.of_nat (length nm) - 1)) by lia.
    apply (cstr_no_delim m (path + 1) nm); [done|done|lia]. }
  rewrite (back_to_delim_spec _ m path _ 1); [|intros i Hi|..|lia|lia|lia|lia]; cycle 1.
  { replace (path + i) with (path + 1 + (i - 1)) by lia.
    apply (cstr_no_delim m (path + 1) nm); [done|done|lia]. }
  { by rewrite Z.add_0_r. }
  cbn [mbind option_bind]. rewrite (Z.gtb_ltb 1 1), Z.ltb_irrefl, andb_false_r.
  rewrite (u32_small (path + 1)) by lia. set (m1 := store8 m (path + 1) 0).
  assert (get_file_inode fuel delim_str fuel m1 s path dir_blk = Some (__inode_array s)) as ->.
  { destruct fuel as [|fuel]; [lia|]. cbn [get_file_inode]. rewrite c_true_nonzero by lia. cbn [negb].
    rewrite (strcmp_cstr m1 path delim_str [DELIM] [DELIM]).
    - by rewrite bool_decide_eq_true_2.
    - simpl. split_and!; [done| |by unfold m1; rewrite load8_store8_eq].
      unfold m1. rewrite load8_store8_ne by lia. done.
    - eapply cstr_ext; [|exact Hdel]. intros i Hi. simpl in Hi. unfold m1.
      apply load8_store8_ne. unfold off in Hoff. lia.
    - simpl. lia. }
  cbn [mbind option_bind]. eexists. split; [done|]. intros a. unfold m1.
  rewrite load8_store8. case_decide; [subst; apply u8_small, load8_range|by rewrite load8_store8_ne].
Qed.

(** ** Creation *)

Lemma free_dirent_spec n m d i e :
  i <= e -> (Z.to_nat (e - i) < n)%nat ->
  (forall k, i <= k < e -> load8 m (dirent d k) <> 0) -> load8 m (dirent d e) = 0 ->
  free_dirent n m d i = Some (dirent d e).
Proof.
  revert i. induction n as [|n IH]; intros i Hi Hn Hk He; [lia|]. simpl.
  destruct (decide (i = e)) as [->|]; [by rewrite He|].
  rewrite eqb_ne by (apply Hk; lia). apply IH; [lia|lia|intros; apply Hk; lia|done].
Qed.

Lemma free_inode_spec n m s i q :
  i <= q -> (Z.to_nat (q - i) < n)%nat ->
  (forall k, i <= k < q -> i_type m (__inode_array s + INODE_SIZE * k) <> INODE_EMPTY) ->
  i_type m (__inode_array s + INODE_SIZE * q) = INODE_EMPTY -> free_inode n m s i = q.
Proof.
  revert i. induction n as [|n IH]; intros i Hi Hn Hk Hq; [lia|]. cbn [free_inode].
  destruct (decide (i = q)) as [->|]; [by rewrite Hq|].
  rewrite eqb_ne by (apply Hk; lia). apply IH; [lia|lia|intros; apply Hk; lia|done].
Qed.

Lemma name_start_spec n m path p :
  path <= p -> (Z.to_nat (p - path) < n)%nat -> load8 m path = DELIM ->
  (forall i, path < i <= p -> load8 m i <> DELIM) -> name_start n m p = Some path.
Proof.
  revert p. induction n as [|n IH]; intros p Hp Hn H0 Hi; [lia|]. cbn [name_start].
  change UFS_DIR_DELIM_CHAR with DELIM. destruct (decide (p = path)) as [->|].
  - by rewrite H0.
  - rewrite eqb_ne by (apply Hi; lia). cbn [negb]. apply IH; [lia|lia|done|intros; apply Hi; lia].
Qed.

(** The directory entry at [d] gets the name of the file and its number. *)
Lemma fill_dirent_spec fuel m path nm d q :
  cstr m path (DELIM :: nm) -> DELIM ∉ nm -> (length nm + 2 < fuel)%nat ->
  Z.of_nat (length nm) < 4294967294 -> 0 <= q < 65536 ->
  exists m', fill_dirent fuel m path d q = Some m' /\ d_inode_num m' d = q /\
    (forall i, 0 <= i < Z.of_nat (length nm) -> i < 14 -> load8 m' (d + i) = load8 m (path + 1 + i)) /\
    (forall a, off d (Z.max 16 (Z.of_nat (length nm))) a -> load8 m' a = load8 m a) /\
    (forall i, Z.of_nat (length nm) <= i < 14 -> load8 m' (d + i) = load8 m (d + i)).
Proof.
  intros Hc Hn Hf Hl Hq. unfold fill_dirent. pose proof Hc as (_ & E0 & Hc1).
  rewrite (strlen_cstr m path (DELIM :: nm)) by (done || simpl; lia). cbn [mbind option_bind length].
  rewrite Nat2Z.inj_succ.
  rewrite (name_start_spec _ m path) by (done || lia || (intros i Hi;
    replace i with (path + 1 + (i - path - 1)) by lia; apply (cstr_no_delim m (path + 1) nm); (done || lia))).
  cbn [mbind option_bind]. rewrite (strlen_cstr m (path + 1) nm) by (done || lia).
  cbn [mbind option_bind]. eexists. split; [done|].
  unfold d_inode_num, set_d_inode_num. split_and!.
  - rewrite load16_store16_eq by done. apply u16_small. lia.
  - intros i Hi Hi'. rewrite load8_store16_ne by (unfold off; lia).
    rewrite load8_memcpy by lia. rewrite decide_True by lia. f_equal. lia.
  - intros a Ha. unfold off in Ha. rewrite load8_store16_ne by (unfold off; lia).
    apply memcpy_same_off; [lia|unfold off; lia].
  - intros i Hi. rewrite load8_store16_ne by (unfold off; lia).
    apply memcpy_same_off; [lia|unfold off; lia].
Qed.

(** The name that arrived in an entry that was zero. *)
Lemma entry_name m m2 m3 path nm d :
  let len := Z.of_nat (length nm) in
  cstr m path (DELIM :: nm) -> len < 14 ->
  (forall i, 0 <= i < len -> i < 14 -> load8 m3 (d + i) = load8 m2 (path + 1 + i)) ->
  (forall i, len <= i < 14 -> load8 m3 (d + i) = load8 m2 (d + i)) ->
  (forall i, 0 <= i < len -> load8 m2 (path + 1 + i) = load8 m (path + 1 + i)) ->
  load8 m2 (d + len) = 0 -> cstr m3 d nm.
Proof.
  intros len (_ & _ & Hc) Hl H1 H2 H3 H0. apply cstr_intro.
  - intros i Hi. rewrite H1, H3 by (unfold len in *; lia). by apply cstr_lookup.
  - by rewrite H2 by (unfold len in *; lia).
Qed.

(** ** Properties *)


(** A name read from memory. *)
Fixpoint c_string (n : nat) (m : mem) (a : Z) : list Z :=
  match n with
  | O => []
  | S k => if load8 m a =? 0 then [] else load8 m a :: c_string k m (a + 1)
  end.

(** A disk with a directory "a" that holds a file "f", and a file "b"; the paths
    "/a/f", "/a", "/x/b" and "/b" in memory, and the literal "/". *)
Definition path_disk : mem :=
  let m := fresh_disk in
  let m := store16 (store8 m 0x164000 97) 0x16400e 1 in
  let m := store32 (store32 m 0x104040 INODE_DIR) 0x10404c 0x164100 in
  let m := store16 (store8 m 0x164100 102) 0x16410e 2 in
  let m := store32 m 0x104080 INODE_REG in
  let m := store16 (store8 m 0x164010 98) 0x16401e 3 in
  let m := store32 m 0x1040c0 INODE_REG in
  let m := store_bytes m 0x2000 [47; 97; 47; 102; 0] in
  let m := store_bytes m 0x2100 [47; 97; 0] in
  let m := store_bytes m 0x2200 [47; 120; 47; 98; 0] in
  let m := store_bytes m 0x2300 [47; 99; 0] in
  store_bytes m 0x3000 [47; 0].

Definition path_names (d i : Z) : list Z := c_string 14 path_disk (dirent d i).

Definition path_dirs (d : Z) : Prop := d = 0x164000 \/ d = 0x164100.

(** The test of one entry, to evaluate. *)
Definition path_entry_ok (d i : Z) : bool :=
  bool_decide (cstr path_disk (dirent d i) (path_names d i)) &&
  (length (path_names d i) <? 20)%nat &&
  (negb (i_type path_disk (entry_inode path_disk (rd_at 0x100000) d i) =? INODE_DIR) ||
   (i_dirblock_ptr path_disk (entry_inode path_disk (rd_at 0x100000) d i) =? 0x164000) ||
   (i_dirblock_ptr path_disk (entry_inode path_disk (rd_at 0x100000) d i) =? 0x164100)).

Lemma path_entry_okb d i : path_dirs d -> 0 <= i < 16 -> path_entry_ok d i = true.
Proof.
  intros Hd Hi. assert (forallb (path_entry_ok 0x164000) (seqZ 0 16) = true) as H1 by (by vm_compute).
  assert (forallb (path_entry_ok 0x164100) (seqZ 0 16) = true) as H2 by (by vm_compute).
  assert (i ∈ seqZ 0 16) as Hin by (apply elem_of_seqZ; lia).
  rewrite List.forallb_forall in H1, H2. apply list_elem_of_In in Hin.
  destruct Hd as [->| ->]; auto.
Qed.

Lemma path_disk_directories : directories path_names path_disk (rd_at 0x100000) 20 path_dirs.
Proof.
  split; intros d i Hd Hi; pose proof (path_entry_okb d i Hd Hi) as H;
    unfold path_entry_ok in H; rewrite !andb_true_iff, !orb_true_iff, negb_true_iff, !Z.eqb_eq in H;
    destruct H as [[H1 H2] H3].
  - split; [by apply bool_decide_eq_true in H1|by apply Nat.ltb_lt in H2].
  - intros Ht. rewrite Ht in H3. unfold path_dirs. destruct H3 as [[H3|H3]|H3]; [done|auto..].
Qed.


(** Directories cannot be looked up.  A path that ends at a directory (its last
    component matches an entry whose inode is a directory) resolves to NULL: the search
    goes on in that directory with the NULL that [strtok] returns.  So nothing can be
    created below the root, and no directory but the root can be opened or deleted. *)
Theorem directory_not_found name m s fuel delim_str D path x dir_blk i :
  cstr m delim_str [DELIM] -> directories name m s fuel D -> D dir_blk ->
  0 < path -> cstr m path (DELIM :: x) -> x <> [] -> DELIM ∉ x -> (length x + 2 < fuel)%nat ->
  first_match name (Z.to_nat UFS_MAX_FILE_IN_DIR) x dir_blk 0 = Some i ->
  i_type m (entry_inode m s dir_blk i) = INODE_DIR ->
  get_file_inode fuel delim_str fuel m s path dir_blk = Some 0.
Proof.
  intros Hd HD Hin Hp Hc Hx Hn Hf Hi Ht.
  rewrite (get_file_inode_spec name m s fuel delim_str Hd ltac:(lia) D fuel path (DELIM :: x));
    [|done|done|done|done|simpl; lia|simpl; lia].
  destruct fuel as [|fuel]; [lia|]. cbn [resolve].
  rewrite decide_False by (intros E; by injection E).
  change (strip_delim (DELIM :: x)) with x. rewrite Hi, Ht, Z.eqb_refl.
  unfold from_delim. by rewrite first_delim_none.
Qed.

Lemma directory_not_found_witness :
  get_file_inode 20 0x3000 20 path_disk (rd_at 0x100000) 0x2100 0x164000 = Some 0.
Proof.
  apply (directory_not_found path_names path_disk (rd_at 0x100000) 20 0x3000 path_dirs 0x2100 [97] 0x164000 0).
  - by vm_compute.
  - exact path_disk_directories.
  - by left.
  - lia.
  - by vm_compute.
  - done.
  - by apply (bool_decide_unpack _).
  - simpl. lia.
  - by vm_compute.
  - by vm_compute.
Defined.

(** Unknown path components are skipped.  An unused entry has the empty name, which
    is a prefix of everything, and the inode number of the root.  So when no entry
    before the first unused one matches the component [x], the path "/x/rest" resolves
    to what "/rest" resolves to from the root. *)
Theorem unknown_component_skipped name m s fuel delim_str D path x rest dir_blk i :
  cstr m delim_str [DELIM] -> directories name m s fuel D -> D dir_blk -> D (__root_blk s) ->
  0 < path -> cstr m path (DELIM :: x ++ DELIM :: rest) -> x <> [] -> DELIM ∉ x ->
  (length x + length rest + 4 < fuel)%nat ->
  first_match name (Z.to_nat UFS_MAX_FILE_IN_DIR) (x ++ DELIM :: rest) dir_blk 0 = Some i ->
  d_inode_num m (dirent dir_blk i) = 0 ->
  i_type m (__inode_array s) = INODE_DIR -> i_dirblock_ptr m (__inode_array s) = __root_blk s ->
  get_file_inode fuel delim_str fuel m s path dir_blk =
    resolve name m s (pred fuel) (DELIM :: rest) (__root_blk s).
Proof.
  intros Hd HD Hin Hroot Hp Hc Hx Hn Hf Hi H0 Ht Hb.
  rewrite (get_file_inode_spec name m s fuel delim_str Hd ltac:(lia) D fuel path
    (DELIM :: x ++ DELIM :: rest)); [|done|done|done|done|rewrite ?length_app; simpl; rewrite length_app; simpl; lia..].
  destruct fuel as [|fuel]; [lia|]. cbn [resolve pred].
  rewrite decide_False by (intros E; injection E as E; by destruct x).
  change (strip_delim (DELIM :: x ++ DELIM :: rest)) with (x ++ DELIM :: rest). rewrite Hi.
  unfold entry_inode. rewrite H0. unfold INODE_SIZE. rewrite Z.mul_0_r, Z.add_0_r, Ht, Z.eqb_refl.
  unfold from_delim. by rewrite first_delim_app, drop_app_length, Hb.
Qed.

Lemma unknown_component_skipped_witness :
  get_file_inode 20 0x3000 20 path_disk (rd_at 0x100000) 0x2200 0x164000 = Some 0x1040c0.
Proof.
  rewrite (unknown_component_skipped path_names path_disk (rd_at 0x100000) 20 0x3000 path_dirs 0x2200
             [120] [98] 0x164000 2).
  - by vm_compute.
  - by vm_compute.
  - exact path_disk_directories.
  - by left.
  - by left.
  - lia.
  - by vm_compute.
  - done.
  - by apply (bool_decide_unpack _).
  - simpl. lia.
  - by vm_compute.
  - by vm_compute.
  - by vm_compute.
  - by vm_compute.
Defined.

(** The scan for a name stops at the entry that has it. *)
Lemma match_entry_at fuel m path p dir_blk nm n i e :
  cstr m path p -> i <= e -> (Z.to_nat (e - i) < n)%nat ->
  (forall k, i <= k < e -> exists x, cstr m (dirent dir_blk k) x /\ (length x < fuel)%nat /\ ~ x `prefix_of` p) ->
  cstr m (dirent dir_blk e) nm -> (length nm < fuel)%nat -> nm `prefix_of` p ->
  match_entry fuel n m path dir_blk i = Some (Some e).
Proof.
  intros Hp. revert i. induction n as [|n IH]; intros i Hi Hn Hk He Hl Hpre; [lia|]. cbn [match_entry].
  destruct (decide (i = e)) as [->|].
  - rewrite (str_is_prefix_cstr _ _ _ _ _ _ Hp He Hl). cbn [mbind option_bind].
    by rewrite bool_decide_eq_true_2.
  - destruct (Hk i ltac:(lia)) as (x & Hx & Hlx & Hnx).
    rewrite (str_is_prefix_cstr _ _ _ _ _ _ Hp Hx Hlx). cbn [mbind option_bind].
    rewrite bool_decide_eq_false_2 by done. apply IH; [lia|lia|intros; apply Hk; lia|done..].
Qed.

(** A file of the root directory is found by its name. *)
Lemma get_root_file fuel delim_str m s path nm e inode dir_blk :
  cstr m path (DELIM :: nm) -> nm <> [] -> DELIM ∉ nm -> cstr m delim_str [DELIM] ->
  0 < path -> (length nm + 2 < fuel)%nat -> 0 <= e < UFS_MAX_FILE_IN_DIR ->
  (forall k, 0 <= k < e -> exists x, cstr m (dirent dir_blk k) x /\ (length x < fuel)%nat /\ ~ x `prefix_of` nm) ->
  cstr m (dirent dir_blk e) nm ->
  inode = __inode_array s + INODE_SIZE * d_inode_num m (dirent dir_blk e) ->
  i_type m inode <> INODE_DIR ->
  get_file_inode fuel delim_str fuel m s path dir_blk = Some inode.
Proof.
  intros Hc Hne Hn Hd Hp Hf He Hk Hce -> Ht. destruct fuel as [|n]; [lia|]. cbn [get_file_inode].
  rewrite c_true_nonzero by lia. cbn [negb].
  rewrite (strcmp_cstr m path delim_str (DELIM :: nm) [DELIM]) by (done || simpl; lia).
  rewrite bool_decide_eq_false_2 by (intros E; by injection E). cbn [mbind option_bind].
  pose proof Hc as (_ & -> & Hc1). change (DELIM =? UFS_DIR_DELIM_CHAR) with true. cbv iota.
  unfold UFS_MAX_FILE_IN_DIR in *.
  rewrite (match_entry_at (S n) m (path + 1) nm dir_blk nm _ 0 e); try done; [|lia|lia|lia].
  cbn [mbind option_bind].
  rewrite (strtok_cstr m (path + 1) nm delim_str [DELIM]) by (done || simpl; lia).
  rewrite first_delim_none by done. cbn [mbind option_bind]. by rewrite eqb_ne.
Qed.

(** Where the disk and the strings of a call lie. *)
Record path_layout (s : rd_state) (path len delim_str : Z) : Prop := PathLayout {
  pl_path : 0 < path /\ path + len + 2 < 4294967296;
  pl_array : 0 < __inode_array s /\ __inode_array s + 0x20000 <= __root_blk s;
  pl_delim_path : off delim_str 2 (path + 1) /\ (delim_str + 2 <= path \/ path + len + 2 <= delim_str);
  pl_path_disk : path + len + 2 <= __inode_array s \/ __root_blk s + 256 <= path;
  pl_delim_disk : delim_str + 2 <= __inode_array s \/ __root_blk s + 256 <= delim_str
}.

(** The first unused entry gets the name, the first unused inode the file. *)
Lemma rd_create_spec fuel delim_str m s path nm e q :
  let len := Z.of_nat (length nm) in
  let d := dirent (__root_blk s) e in
  let inode := __inode_array s + INODE_SIZE * q in
  fs_unlocked s -> path_layout s path len delim_str -> cstr m delim_str [DELIM] ->
  cstr m path (DELIM :: nm) -> nm <> [] -> DELIM ∉ nm -> len < UFS_MAX_FILENAME_LEN ->
  (length nm + 2 < fuel)%nat -> i_dirblock_ptr m (__inode_array s) = __root_blk s ->
  0 <= e < UFS_MAX_FILE_IN_DIR -> (forall i, 0 <= i < 14 -> load8 m (d + i) = 0) ->
  (forall k, 0 <= k < e -> exists x, cstr m (dirent (__root_blk s) k) x /\ (length x < 14)%nat /\
     (length x < fuel)%nat /\ ~ x `prefix_of` nm) ->
  0 < q < UFS_NUM_MAX_INODES -> i_type m inode = INODE_EMPTY ->
  (forall k, 0 <= k < q -> i_type m (__inode_array s + INODE_SIZE * k) <> INODE_EMPTY) ->
  exists m', rd_create fuel delim_str m s path = Some (m', s, 0) /\
    cstr m' d nm /\ d_inode_num m' d = q /\ i_type m' inode = INODE_REG /\ i_size m' inode = 0 /\
    cstr m' path (DELIM :: nm) /\
    get_file_inode fuel delim_str fuel m' s path (__root_blk s) = Some inode /\
    (forall a, off inode 8 a -> off d 16 a -> load8 m' a = load8 m a).
Proof.
  intros len d inode Hlk [Hp Ha Hdp Hpd Hdd] Hdel Hc Hne Hn Hlen Hf Hroot He Hz Hk Hq Hq0 Hqk.
  unfold UFS_MAX_FILENAME_LEN, UFS_MAX_FILE_IN_DIR, UFS_NUM_MAX_INODES in *.
  assert (0 < len) as Hl0 by (unfold len; destruct nm; [done|simpl; lia]).
  unfold INODE_SIZE in *.
  destruct (get_parent_root fuel delim_str m s path nm (__root_blk s)) as (m1 & E1 & Hm1);
    [done|done|done|done|lia|unfold len in *; lia|done|apply Hdp|].
  assert (forall a, load32 m1 a = load32 m a) as Hw by (intros; by apply load32_ext).
  set (m2 := set_i_size (set_i_type m1 inode INODE_REG) inode 0).
  assert (forall a, off inode 8 a -> load8 m2 a = load8 m a) as Hm2.
  { intros a Ho. unfold m2, set_i_size, set_i_type. unfold off in Ho.
    rewrite !load8_store32_ne by (unfold off; lia). apply Hm1. }
  destruct (fill_dirent_spec fuel m2 path nm d q) as (m3 & E3 & Hnum & Hname & Hfr & Hrest);
    [|done|done|unfold len in *; lia|lia|].
  { eapply cstr_ext; [|exact Hc]. intros i Hi. cbn [length] in Hi. apply Hm2. unfold off. lia. }
  assert (forall a, off inode 8 a -> off d 16 a -> load8 m3 a = load8 m a) as Hm3.
  { intros a H1 H2. rewrite Hfr by (unfold off, len in *; lia). by apply Hm2. }
  assert (cstr m3 path (DELIM :: nm)) as Hc3.
  { eapply cstr_ext; [|exact Hc]. intros i Hi. cbn [length] in Hi.
    apply Hm3; unfold off, d, dirent, DIRENT_SIZE; lia. }
  assert (cstr m3 d nm) as Hd3.
  { apply (entry_name m m2 m3 path nm d); [done|lia|done|done| |].
    - intros i Hi. apply Hm2. unfold off. lia.
    - rewrite Hm2 by (unfold off, d, dirent, DIRENT_SIZE; lia). apply Hz. lia. }
  assert (i_type m3 inode = INODE_REG /\ i_size m3 inode = 0) as [Ht3 Hs3].
  { unfold i_type, i_size. rewrite !(load32_ext m2 m3) by (intros i Hi; apply Hfr;
      unfold off, d, dirent, DIRENT_SIZE; unfold len in *; lia).
    unfold m2, set_i_size, set_i_type. mem_simpl. by split. }
  exists m3. split_and!; try done.
  - unfold rd_create. rewrite c_true_nonzero by lia. cbn [negb]. rewrite E1. cbn [mbind option_bind].
    rewrite c_true_nonzero by lia. cbn [negb]. unfold i_dirblock_ptr. rewrite Hw.
    unfold i_dirblock_ptr in Hroot. rewrite Hroot. unfold UFS_MAX_FILE_IN_DIR.
    rewrite (free_dirent_spec _ m1 _ 0 e); [|lia|lia| |rewrite Hm1, <- (Z.add_0_r (dirent _ _)); apply Hz; lia].
    2:{ intros k Hke. destruct (Hk k Hke) as (x & Hx & _ & _ & Hnx). rewrite Hm1.
        destruct x as [|c x]; [by destruct Hnx; apply prefix_nil|]. destruct Hx as (? & -> & _). done. }
    rewrite lock_fs_unlocked by (done || lia). cbn [mbind option_bind]. unfold UFS_NUM_MAX_INODES.
    rewrite (free_inode_spec _ m1 _ 0 q); [|lia|lia|intros k Hkq; unfold i_type; rewrite Hw; by apply Hqk|
      unfold i_type; rewrite Hw; done].
    rewrite eqb_ne by lia. cbn [__inode_array with_lock]. unfold INODE_SIZE. fold inode d m2.
    rewrite E3. cbn [mbind option_bind]. by rewrite unlock_with_lock.
  - apply (get_root_file _ _ _ _ _ nm e); try done; [|lia| |by fold d; rewrite Hnum|by rewrite Ht3].
    + eapply cstr_ext; [|exact Hdel]. intros i Hi. cbn [length] in Hi.
      apply Hm3; unfold off, d, dirent, DIRENT_SIZE in *; lia.
    + intros k Hke. destruct (Hk k Hke) as (x & Hx & Hl & Hlf & Hnx). exists x. split_and!; [|done|done].
      eapply cstr_ext; [|exact Hx]. intros i Hi.
      apply Hm3; unfold off, d, dirent, DIRENT_SIZE in *; lia.
Qed.


