(* ===== verification/RamdiskUnlink.v ===== *)
(** * RamdiskUnlink: deleting files

    [rd_unlink] on a file of the root directory: the bits that it clears, the entry
    and the inode that it empties, what becomes of the lookup of the other files, and
    the deletion of a file that has just been created. *)

From S2P Require Import Prelude Memory Klib Mutex Context Ramdisk RamdiskBlocks RamdiskPath.

(** ** The blocks of a file *)

(** The number that [dealloc_block] computes from the address of a block. *)
Definition freed_bit (s : rd_state) (blk : Z) : Z := u32 (blk - __root_blk s) / 4.

(** Freeing a list of blocks. *)
Definition freed (m : mem) (s : rd_state) (blks : list Z) : mem :=
  foldl (fun m blk => set_blk_bitmap m s (freed_bit s blk) BLK_STATUS_FREE) m blks.

(** How many blocks a file of this size has. *)
Definition num_blocks (size : Z) : Z :=
  size / UFS_BLOCK_SIZE + b2z (negb (size mod UFS_BLOCK_SIZE =? 0)).

Definition direct_blocks (m : mem) (ino : Z) : list Z :=
  i_direct m ino <$> seqZ 0 (num_blocks (i_size m ino)).

Lemma freed_bit_nonneg s blk : 0 <= freed_bit s blk.
Proof. unfold freed_bit. pose proof (u32_range (blk - __root_blk s)). dlia. Qed.

Lemma set_bitmap_area m s i mark : same_off (__blk_bitmap s) 129 m (set_blk_bitmap m s i mark).
Proof.
  destruct (decide (0 <= i <= 1024)) as [Hi|Hi]; [|by rewrite set_blk_bitmap_out by lia].
  eapply same_on_weaken; [|apply set_blk_bitmap_same_off]. unfold off. intros a Ha. dlia.
Qed.

Lemma freed_area m s blks : same_off (__blk_bitmap s) 129 m (freed m s blks).
Proof.
  revert m. induction blks as [|b blks IH]; intros m; [done|]. cbn [freed foldl].
  etransitivity; [apply set_bitmap_area|apply IH].
Qed.

Lemma freed_bits m s blks j :
  0 <= j <= 2048 ->
  get_blk_bitmap (freed m s blks) s j =
    if decide (j ∈ freed_bit s <$> blks /\ j <= 1024) then 0 else get_blk_bitmap m s j.
Proof.
  intros Hj. revert m. induction blks as [|b blks IH]; intros m.
  - rewrite decide_False; [done|]. by intros [?%not_elem_of_nil _].
  - cbn [freed foldl]. fold (freed (set_blk_bitmap m s (freed_bit s b) BLK_STATUS_FREE) s blks).
    rewrite IH. pose proof (freed_bit_nonneg s b). rewrite fmap_cons.
    destruct (decide (j ∈ freed_bit s <$> blks /\ j <= 1024)) as [[H1 H2]|Hn].
    + by rewrite decide_True by (by split; [right|]).
    + destruct (decide (freed_bit s b <= 1024)).
      * rewrite get_set by lia. destruct (decide (freed_bit s b = j)) as [<-|Hne].
        -- by rewrite decide_True by (by split; [left|]).
        -- rewrite decide_False; [done|]. intros [[?|?]%elem_of_cons ?]; [done|by apply Hn].
      * rewrite set_blk_bitmap_out by lia. rewrite decide_False; [done|].
        intros [[?|?]%elem_of_cons ?]; [lia|by apply Hn].
Qed.

Lemma dealloc_block_eq fuel m s blk :
  fs_unlocked s -> (0 < fuel)%nat ->
  dealloc_block fuel m s blk = Some (set_blk_bitmap m s (freed_bit s blk) BLK_STATUS_FREE, s).
Proof.
  intros Hl Hf. unfold dealloc_block. rewrite lock_fs_unlocked by done. cbn [mbind option_bind].
  by rewrite unlock_with_lock.
Qed.

(** The loop over direct blocks. *)
Lemma unlink_inner_direct fuel s ino single num n m d :
  fs_unlocked s -> (0 < fuel)%nat -> 0 <= d < num -> num <= UFS_NUM_DIRECT_PTRS ->
  (Z.to_nat (num - d) <= n)%nat -> (ino + 64 <= __blk_bitmap s \/ __blk_bitmap s + 129 <= ino) ->
  unlink_inner fuel n m s ino single 0 d num =
    Some (freed m s (i_direct m ino <$> seqZ d (num - d)), s, 0, num).
Proof.
  intros Hl Hf. revert m d. induction n as [|n IH]; intros m d Hd Hn Hfuel Hoff; [lia|].
  cbn [unlink_inner]. unfold UFS_NUM_DIRECT_PTRS in *.
  rewrite Z.gtb_ltb, (proj2 (Z.ltb_ge 8 d)), (proj2 (Z.ltb_lt d 8)) by lia.
  rewrite dealloc_block_eq by done. cbn [mbind option_bind].
  set (m1 := set_blk_bitmap m s (freed_bit s (i_direct m ino d)) BLK_STATUS_FREE).
  rewrite (seqZ_cons d (num - d)), fmap_cons by lia. cbn [freed foldl]. fold m1.
  destruct (Z.eqb_spec (d + 1) num) as [E|E].
  - replace (Z.pred (num - d)) with 0 by lia. cbn. by rewrite E.
  - change (0 <? UFS_NUM_PTRS_PER_BLK) with true. cbv iota.
    rewrite IH by lia. replace (Z.pred (num - d)) with (num - (d + 1)) by lia.
    unfold freed. do 5 f_equal. apply list_fmap_ext. intros i x Hx%list_elem_of_lookup_2%elem_of_seqZ.
    unfold i_direct. apply load32_ext. intros k Hk. apply set_bitmap_area. unfold off. lia.
Qed.

Lemma unlink_blocks_direct fuel m s ino :
  fs_unlocked s -> (0 < fuel)%nat -> i_size m ino <= 8 * UFS_BLOCK_SIZE ->
  (0 < i_size m ino -> i_indirect m ino = 0 /\ i_double_indirect m ino = 0) ->
  (ino + 64 <= __blk_bitmap s \/ __blk_bitmap s + 129 <= ino) ->
  unlink_blocks fuel m s ino = Some (freed m s (direct_blocks m ino), s).
Proof.
  intros Hl Hf Hs H0 Hoff. unfold unlink_blocks, direct_blocks.
  pose proof (load32_range m (ino + 4)) as Hr. fold (i_size m ino) in Hr.
  assert ((if c_true (i_size m ino mod UFS_BLOCK_SIZE) then i_size m ino / UFS_BLOCK_SIZE + 1
    else i_size m ino / UFS_BLOCK_SIZE) = num_blocks (i_size m ino)) as ->.
  { unfold num_blocks, c_true. destruct (negb _); simpl; lia. }
  assert (0 <= num_blocks (i_size m ino) <= 8 /\ (num_blocks (i_size m ino) <> 0 -> 0 < i_size m ino)) as [Hb Hp].
  { unfold num_blocks, UFS_BLOCK_SIZE in *. case_Z; simpl; dlia. }
  set (num := num_blocks (i_size m ino)) in *. clearbody num.
  destruct (Z.eqb_spec num 0) as [E|E]; [by rewrite E|]. destruct (H0 (Hp E)) as [-> ->]. cbn [negb].
  assert (exists k, rd_fuel = S k) as [k Ek] by (exists (pred rd_fuel); unfold rd_fuel; lia).
  rewrite Ek. cbn [unlink_outer orb].
  rewrite (unlink_inner_direct fuel s ino 0 num rd_fuel m 0) by (done || lia || unfold UFS_NUM_DIRECT_PTRS, rd_fuel; lia).
  cbn [mbind option_bind]. change (c_true 0) with false. cbn [mbind option_bind]. rewrite Z.eqb_refl, Z.sub_0_r. done.
Qed.

(** ** The scans *)

Lemma is_open_ext cur n m m' ino i :
  (forall a, load8 m' a = load8 m a) -> is_open cur n m' ino i = is_open cur n m ino i.
Proof.
  intros Hm. revert i. induction n as [|n IH]; intros i; [done|]. cbn [is_open]. rewrite IH.
  assert (forall a, load32 m' a = load32 m a) as Hw by (intros; by apply load32_ext).
  unfold t_fd, f_inode_ptr. by rewrite !Hw.
Qed.

Lemma is_open_false cur n m ino i :
  (forall k, i <= k < i + Z.of_nat n -> t_fd m cur k = 0) -> is_open cur n m ino i = false.
Proof.
  revert i. induction n as [|n IH]; intros i Hk; [done|]. cbn [is_open].
  rewrite (Hk i) by lia. apply IH. intros k Hi. apply Hk. lia.
Qed.

(** The first entry with the number is cleared. *)
Lemma clear_dirent_spec n m dir_blk q i e :
  i <= e -> (Z.to_nat (e - i) < n)%nat ->
  (forall k, i <= k < e -> d_inode_num m (dirent dir_blk k) <> q) ->
  d_inode_num m (dirent dir_blk e) = q ->
  clear_dirent n m dir_blk q i = memset m (dirent dir_blk e) 0 DIRENT_SIZE.
Proof.
  revert i. induction n as [|n IH]; intros i Hi Hn Hk He; [lia|]. cbn [clear_dirent].
  destruct (decide (i = e)) as [->|]; [by rewrite He, Z.eqb_refl|].
  rewrite eqb_ne by (apply Hk; lia). apply IH; [lia|lia|intros; apply Hk; lia|done].
Qed.

(** An unused entry hides the entries behind it. *)
Lemma lookup_hidden fuel delim_str m s path nm e :
  let dir_blk := __root_blk s in
  cstr m path (DELIM :: nm) -> nm <> [] -> DELIM ∉ nm -> cstr m delim_str [DELIM] ->
  0 < path -> (length nm + 2 < fuel)%nat -> 0 <= e < UFS_MAX_FILE_IN_DIR ->
  (forall k, 0 <= k < e -> exists x, cstr m (dirent dir_blk k) x /\ (length x < fuel)%nat /\ ~ x `prefix_of` nm) ->
  load8 m (dirent dir_blk e) = 0 -> d_inode_num m (dirent dir_blk e) = 0 ->
  i_type m (__inode_array s) = INODE_DIR ->
  get_file_inode fuel delim_str fuel m s path dir_blk = Some 0.
Proof.
  intros dir_blk Hc Hne Hn Hd Hp Hf He Hk H0 Hq Ht. destruct fuel as [|n]; [lia|]. cbn [get_file_inode].
  rewrite c_true_nonzero by lia. cbn [negb].
  rewrite (strcmp_cstr m path delim_str (DELIM :: nm) [DELIM]) by (done || simpl; lia).
  rewrite bool_decide_eq_false_2 by (intros E; by injection E). cbn [mbind option_bind].
  pose proof Hc as (_ & -> & Hc1). change (DELIM =? UFS_DIR_DELIM_CHAR) with true. cbv iota.
  unfold UFS_MAX_FILE_IN_DIR in *.
  rewrite (match_entry_at (S n) m (path + 1) nm dir_blk [] _ 0 e); try done; [|lia|lia|simpl; lia|apply prefix_nil].
  cbn [mbind option_bind].
  rewrite (strtok_cstr m (path + 1) nm delim_str [DELIM]) by (done || simpl; lia).
  rewrite first_delim_none by done. cbn [mbind option_bind]. rewrite Hq.
  replace (__inode_array s + INODE_SIZE * 0) with (__inode_array s) by lia. rewrite Ht, Z.eqb_refl.
  destruct n; [lia|done].
Qed.

(** The lock, the two clears and the unlock at the end of [rd_unlink]. *)
Definition cleared (m : mem) (d inode : Z) : mem :=
  memset (memset m d 0 DIRENT_SIZE) inode 0 INODE_SIZE.

Lemma cleared_spec m d inode :
  (d + 16 <= inode \/ inode + 64 <= d) ->
  (forall i, 0 <= i < 16 -> load8 (cleared m d inode) (d + i) = 0) /\
  (forall i, 0 <= i < 64 -> load8 (cleared m d inode) (inode + i) = 0) /\
  (forall a, off inode 64 a -> off d 16 a -> load8 (cleared m d inode) a = load8 m a).
Proof.
  intros Ha. unfold cleared, DIRENT_SIZE, INODE_SIZE. split_and!.
  - intros i Hi. rewrite !load8_memset by lia. rewrite decide_False, decide_True by lia. done.
  - intros i Hi. rewrite !load8_memset by lia. rewrite decide_True by lia. done.
  - intros a H1 H2. unfold off in *. rewrite !load8_memset by lia. by rewrite !decide_False by lia.
Qed.

(** ** Deleting a file of the root directory *)

(** Where the bitmap lies. *)
Definition bitmap_inside (s : rd_state) : Prop :=
  __inode_array s + 0x20000 <= __blk_bitmap s /\ __blk_bitmap s + 0x40000 <= __root_blk s.

(** Entry [e] of the root directory is the file [nm], a regular file with inode [q] and
    at most eight blocks; the entries before it have other numbers, and names that are
    no prefix of its name. *)
Record root_file (fuel : nat) (m : mem) (s : rd_state) (nm : list Z) (e q : Z) : Prop := {
  rf_root : i_dirblock_ptr m (__inode_array s) = __root_blk s;
  rf_dir : i_type m (__inode_array s) = INODE_DIR;
  rf_entry : 0 <= e < UFS_MAX_FILE_IN_DIR;
  rf_before k : 0 <= k < e -> d_inode_num m (dirent (__root_blk s) k) <> q /\
    exists x, cstr m (dirent (__root_blk s) k) x /\ (length x < 14)%nat /\ (length x < fuel)%nat /\ ~ x `prefix_of` nm;
  rf_name : cstr m (dirent (__root_blk s) e) nm;
  rf_num : d_inode_num m (dirent (__root_blk s) e) = q;
  rf_range : 0 < q < 1024;
  rf_type : i_type m (__inode_array s + INODE_SIZE * q) = INODE_REG;
  rf_size : i_size m (__inode_array s + INODE_SIZE * q) <= 8 * UFS_BLOCK_SIZE;
  rf_direct : 0 < i_size m (__inode_array s + INODE_SIZE * q) ->
    i_indirect m (__inode_array s + INODE_SIZE * q) = 0 /\ i_double_indirect m (__inode_array s + INODE_SIZE * q) = 0
}.

Section Unlink.
Context (fuel : nat) (delim_str cur : Z) (m : mem) (s : rd_state) (path : Z) (nm : list Z) (e q : Z).
Local Abbreviation d := (dirent (__root_blk s) e).
Local Abbreviation inode := (__inode_array s + INODE_SIZE * q).
Context (Hlk : fs_unlocked s) (HL : path_layout s path (Z.of_nat (length nm)) delim_str) (HB : bitmap_inside s).
Context (Hdel : cstr m delim_str [DELIM]) (Hc : cstr m path (DELIM :: nm)) (Hne : nm <> []) (Hn : DELIM ∉ nm).
Context (Hf : (length nm + 2 < fuel)%nat) (HF : root_file fuel m s nm e q).

(** The bytes after it, for a memory [m1] that agrees with [m]. *)
Definition unlinked (m1 : mem) : mem := cleared (freed m1 s (direct_blocks m inode)) d inode.

Lemma unlink_apart : 0 < inode /\ inode + 64 <= __blk_bitmap s /\ __blk_bitmap s + 0x40000 <= d /\
  d + 16 <= __root_blk s + 256 /\ 0 <= 64 * q < 65536.
Proof using HL HB HF Hf.
  pose proof (rf_range _ _ _ _ _ _ HF). pose proof (rf_entry _ _ _ _ _ _ HF). destruct HL as [_ Ha _ _ _].
  destruct HB. unfold UFS_MAX_FILE_IN_DIR, INODE_SIZE, dirent, DIRENT_SIZE in *. lia.
Qed.

Lemma unlink_eq m1 :
  get_parent_dir_inode fuel delim_str m s path (__root_blk s) = Some (m1, __inode_array s) ->
  (forall a, load8 m1 a = load8 m a) ->
  rd_unlink fuel delim_str cur m s path =
    if is_open cur (Z.to_nat NUM_MAX_FD) m inode 0 then Some (m1, s, EINVAL) else Some (unlinked m1, s, 0).
Proof using Hlk HL HB Hdel Hc Hne Hn Hf HF.
  intros E1 Hm1. destruct unlink_apart as (A1 & A2 & A3 & A4 & A5).
  assert (forall a, load32 m1 a = load32 m a) as Hw by (intros; by apply load32_ext).
  unfold rd_unlink. destruct HL as [[Hp _] _ _ _ _]. rewrite c_true_nonzero by lia. cbn [negb].
  rewrite (get_root_file fuel delim_str m s path nm e inode (__root_blk s)); try done.
  2:{ apply HF. }
  2:{ intros k Hk. destruct (rf_before _ _ _ _ _ _ HF k Hk) as [_ (x & ? & _ & ? & ?)]. by exists x. }
  2:{ apply HF. }
  2:{ by rewrite (rf_num _ _ _ _ _ _ HF). }
  2:{ by rewrite (rf_type _ _ _ _ _ _ HF). }
  cbn [mbind option_bind]. rewrite E1. cbn [mbind option_bind]. rewrite c_true_nonzero by lia. cbn [negb].
  rewrite (is_open_ext cur _ m m1) by done. destruct (is_open cur _ m inode 0); [done|].
  unfold i_type at 1. rewrite Hw. fold (i_type m inode). rewrite (rf_type _ _ _ _ _ _ HF). cbn [andb Z.eqb INODE_REG INODE_DIR].
  change (INODE_REG =? INODE_DIR) with false. cbn [andb].
  assert (direct_blocks m1 inode = direct_blocks m inode) as Ed.
  { unfold direct_blocks, i_size. rewrite Hw. apply list_fmap_ext. intros. apply Hw. }
  rewrite unlink_blocks_direct; [|done|lia|unfold i_size; rewrite Hw; apply HF| |lia].
  2:{ unfold i_size, i_indirect, i_double_indirect. rewrite !Hw. apply HF. }
  cbn [mbind option_bind]. rewrite Ed. set (m2 := freed m1 s _).
  assert (forall a, off (__blk_bitmap s) 129 a -> load8 m2 a = load8 m a) as Hm2
    by (intros a Ha; rewrite <- Hm1; by apply freed_area).
  assert (i_dirblock_ptr m2 (__inode_array s) = __root_blk s) as ->.
  { rewrite <- (rf_root _ _ _ _ _ _ HF). apply load32_ext. intros i Hi. apply Hm2. destruct HB. unfold off. lia. }
  assert (forall k, 0 <= k < UFS_MAX_FILE_IN_DIR ->
    d_inode_num m2 (dirent (__root_blk s) k) = d_inode_num m (dirent (__root_blk s) k)) as Hnum.
  { intros k Hk. apply load16_ext. intros i Hi. apply Hm2. destruct HB. unfold off, dirent, DIRENT_SIZE. lia. }
  replace (u16 (inode - __inode_array s) / INODE_SIZE) with q; cycle 1.
  { replace (inode - __inode_array s) with (64 * q) by (unfold INODE_SIZE; lia). rewrite u16_small by lia.
    unfold INODE_SIZE. dlia. }
  pose proof (rf_entry _ _ _ _ _ _ HF) as He. unfold UFS_MAX_FILE_IN_DIR in *.
  rewrite (clear_dirent_spec _ m2 _ q 0 e); [|lia|lia| |by rewrite Hnum, (rf_num _ _ _ _ _ _ HF)].
  2:{ intros k Hk. rewrite Hnum by lia. by apply HF. }
  rewrite lock_fs_unlocked by (done || lia). cbn [mbind option_bind]. by rewrite unlock_with_lock.
Qed.

(** What it leaves: the entry and the inode are zero, the computed bits are free, and
    nothing else has changed. *)
Lemma unlinked_spec m1 :
  (forall a, load8 m1 a = load8 m a) ->
  (forall i, 0 <= i < 16 -> load8 (unlinked m1) (d + i) = 0) /\
  (forall i, 0 <= i < 64 -> load8 (unlinked m1) (inode + i) = 0) /\
  (forall j, 0 <= j <= 2048 -> get_blk_bitmap (unlinked m1) s j =
     if decide (j ∈ freed_bit s <$> direct_blocks m inode /\ j <= 1024) then 0 else get_blk_bitmap m s j) /\
  (forall a, off inode 64 a -> off d 16 a -> off (__blk_bitmap s) 129 a -> load8 (unlinked m1) a = load8 m a).
Proof using HL HB HF Hf.
  intros Hm1. destruct unlink_apart as (A1 & A2 & A3 & A4 & A5). unfold unlinked.
  destruct (cleared_spec (freed m1 s (direct_blocks m inode)) d inode) as (H1 & H2 & H3); [lia|].
  split_and!; [exact H1|exact H2| |].
  - intros j Hj. transitivity (get_blk_bitmap (freed m1 s (direct_blocks m inode)) s j).
    + rewrite !get_blk_bitmap_bit by lia. rewrite H3; [done|unfold off; dlia..].
    + rewrite freed_bits by done. case_decide; [done|]. rewrite !get_blk_bitmap_bit by lia. by rewrite Hm1.
  - intros a Ha1 Ha2 Ha3. rewrite H3 by done. rewrite <- Hm1. by apply freed_area.
Qed.

(** The entry hides what comes after it. *)
Lemma unlinked_hides m1 path2 nm2 :
  (forall a, load8 m1 a = load8 m a) ->
  path_layout s path2 (Z.of_nat (length nm2)) delim_str -> cstr m path2 (DELIM :: nm2) -> nm2 <> [] ->
  DELIM ∉ nm2 -> (length nm2 + 2 < fuel)%nat ->
  (forall k x, 0 <= k < e -> cstr m (dirent (__root_blk s) k) x -> ~ x `prefix_of` nm2) ->
  get_file_inode fuel delim_str fuel (unlinked m1) s path2 (__root_blk s) = Some 0.
Proof using HL HB HF Hf Hdel.
  intros Hm1 [Hp Ha Hdp Hpd Hdd] Hc2 Hne2 Hn2 Hf2 Hk.
  destruct unlink_apart as (A1 & A2 & A3 & A4 & A5). destruct HB as [B1 B2].
  destruct (unlinked_spec m1 Hm1) as (H1 & _ & _ & H3). set (m' := unlinked m1) in *. clearbody m'.
  pose proof (rf_entry _ _ _ _ _ _ HF) as He. pose proof (rf_range _ _ _ _ _ _ HF) as Hq.
  assert (forall a x, cstr m a x -> a + Z.of_nat (length x) + 1 <= __inode_array s \/ __root_blk s + 256 <= a ->
    cstr m' a x) as Hout.
  { intros a x Hx Hr. eapply cstr_ext; [|exact Hx]. intros i Hi. apply H3; unfold off, INODE_SIZE in *; lia. }
  apply (lookup_hidden _ _ _ _ _ nm2 e); try done.
  - apply Hout; [done|]. cbn [length]. lia.
  - apply Hout; [done|]. cbn [length]. lia.
  - lia.
  - intros k Hke. destruct (rf_before _ _ _ _ _ _ HF k Hke) as [_ (x & Hx & Hl & Hlf & _)].
    exists x. split_and!; [|done|by eapply Hk]. eapply cstr_ext; [|exact Hx]. intros i Hi.
    unfold UFS_MAX_FILE_IN_DIR in *. apply H3; unfold off, dirent, DIRENT_SIZE in *; lia.
  - rewrite <- (Z.add_0_r (dirent _ _)). apply H1. lia.
  - unfold d_inode_num, load16. rewrite <- Z.add_assoc, !H1 by lia. done.
  - rewrite <- (rf_dir _ _ _ _ _ _ HF). apply load32_ext. intros i Hi. unfold INODE_SIZE in *.
    apply H3; unfold off; lia.
Qed.
End Unlink.

(** C19: deleting a file.  For a regular file of the root directory with at most eight
    blocks, [rd_unlink] refuses with EINVAL, leaving every byte as it was, when the
    current task has the file open.  Otherwise it returns 0: the entry and the inode
    are all zero, the bits that [dealloc_block] computes are free, nothing else has
    changed; and because the empty name now matches everything, looking up any file
    that is behind the entry gives NULL. *)
Theorem rd_unlink_ok fuel delim_str cur m s path nm e q :
  let d := dirent (__root_blk s) e in
  let inode := __inode_array s + INODE_SIZE * q in
  fs_unlocked s -> path_layout s path (Z.of_nat (length nm)) delim_str -> bitmap_inside s ->
  cstr m delim_str [DELIM] -> cstr m path (DELIM :: nm) -> nm <> [] -> DELIM ∉ nm ->
  (length nm + 2 < fuel)%nat -> root_file fuel m s nm e q ->
  if is_open cur (Z.to_nat NUM_MAX_FD) m inode 0 then
    exists m', rd_unlink fuel delim_str cur m s path = Some (m', s, EINVAL) /\
      forall a, load8 m' a = load8 m a
  else
    exists m', rd_unlink fuel delim_str cur m s path = Some (m', s, 0) /\
      (forall i, 0 <= i < 16 -> load8 m' (d + i) = 0) /\ (forall i, 0 <= i < 64 -> load8 m' (inode + i) = 0) /\
      (forall j, 0 <= j <= 2048 -> get_blk_bitmap m' s j =
         if decide (j ∈ freed_bit s <$> direct_blocks m inode /\ j <= 1024) then 0 else get_blk_bitmap m s j) /\
      (forall a, off inode 64 a -> off d 16 a -> off (__blk_bitmap s) 129 a -> load8 m' a = load8 m a) /\
      forall path2 nm2, path_layout s path2 (Z.of_nat (length nm2)) delim_str ->
        cstr m path2 (DELIM :: nm2) -> nm2 <> [] -> DELIM ∉ nm2 -> (length nm2 + 2 < fuel)%nat ->
        (forall k x, 0 <= k < e -> cstr m (dirent (__root_blk s) k) x -> ~ x `prefix_of` nm2) ->
        get_file_inode fuel delim_str fuel m' s path2 (__root_blk s) = Some 0.
Proof.
  intros d inode Hlk HL HB Hdel Hc Hne Hn Hf HF.
  destruct (get_parent_root fuel delim_str m s path nm (__root_blk s)) as (m1 & E1 & Hm1); try done;
    [destruct HL; lia|destruct HL; lia|apply HL|].
  pose proof (unlink_eq fuel delim_str cur m s path nm e q Hlk HL HB Hdel Hc Hne Hn Hf HF m1 E1 Hm1) as E.
  rewrite E. fold inode. destruct (is_open cur _ m inode 0); [by exists m1|]. eexists. split; [done|].
  destruct (unlinked_spec fuel delim_str m s path nm e q HL HB Hf HF m1 Hm1) as (H1 & H2 & H3 & H4).
  split_and!; [done..|]. intros path2 nm2 HL2 Hc2 Hne2 Hn2 Hf2 Hk.
  apply (unlinked_hides fuel delim_str m s path nm e q HL HB Hdel Hf HF m1 path2 nm2); done.
Qed.

(** ** Creating and deleting *)

(** The new file is a file of the root directory. *)
Lemma created_root_file fuel m m' s nm e q :
  let d := dirent (__root_blk s) e in
  let inode := __inode_array s + INODE_SIZE * q in
  __inode_array s + 0x20000 <= __root_blk s -> 0 <= e < UFS_MAX_FILE_IN_DIR -> 0 < q < 1024 ->
  i_dirblock_ptr m (__inode_array s) = __root_blk s -> i_type m (__inode_array s) = INODE_DIR ->
  (forall k, 0 <= k < e -> d_inode_num m (dirent (__root_blk s) k) <> q /\
     exists x, cstr m (dirent (__root_blk s) k) x /\ (length x < 14)%nat /\ (length x < fuel)%nat /\ ~ x `prefix_of` nm) ->
  cstr m' d nm -> d_inode_num m' d = q -> i_type m' inode = INODE_REG -> i_size m' inode = 0 ->
  (forall a, off inode 8 a -> off d 16 a -> load8 m' a = load8 m a) ->
  root_file fuel m' s nm e q.
Proof.
  intros d inode Ha He Hq Hr Ht Hk Hn Hnum Hty Hsz Hs. unfold inode, d, INODE_SIZE, dirent, DIRENT_SIZE in *.
  split; unfold INODE_SIZE, dirent, DIRENT_SIZE; try done.
  - rewrite <- Hr. apply load32_ext. intros i Hi. apply Hs; unfold off; lia.
  - rewrite <- Ht. apply load32_ext. intros i Hi. apply Hs; unfold off; lia.
  - intros k Hke. destruct (Hk k Hke) as (Hkn & x & Hx & Hl & Hlf & Hnx). split.
    + intros E. apply Hkn. rewrite <- E. symmetry. apply load16_ext. intros i Hi. apply Hs; unfold off; lia.
    + exists x. split_and!; try done. eapply cstr_ext; [|exact Hx]. intros i Hi. apply Hs; unfold off; lia.
  - rewrite Hsz. done.
  - rewrite Hsz. done.
Qed.


(** ** On the disk of RamdiskPath.v *)

(** A test of a range of bytes, to evaluate. *)
Definition zeros (m : mem) (a n : Z) : bool := forallb (fun i => load8 m (a + i) =? 0) (seqZ 0 n).

Lemma zeros_ok m a n : zeros m a n = true -> forall i, 0 <= i < n -> load8 m (a + i) = 0.
Proof.
  unfold zeros. rewrite List.forallb_forall. intros H i Hi.
  apply Z.eqb_eq, H, list_elem_of_In, elem_of_seqZ. lia.
Qed.

Lemma path_disk_root : root_file 20 path_disk (rd_at 0x100000) [98] 1 3.
Proof.
  split; [by vm_compute|by vm_compute|unfold UFS_MAX_FILE_IN_DIR; lia| |by vm_compute|by vm_compute|lia|by vm_compute
    |by vm_compute|intros H; exfalso; revert H; by vm_compute].
  - intros k Hk. replace k with 0 by lia. split; [by vm_compute|]. exists [97].
    split_and!; [by vm_compute|simpl; lia|simpl; lia|by apply (bool_decide_unpack _)].
Qed.

(** The file "b", through the path at 0x2202. *)
Lemma rd_unlink_ok_witness :
  exists m', rd_unlink 20 0x3000 0x9000 path_disk (rd_at 0x100000) 0x2202 = Some (m', rd_at 0x100000, 0) /\
    (forall i, 0 <= i < 64 -> load8 m' (0x1040c0 + i) = 0).
Proof.
  pose proof (rd_unlink_ok 20 0x3000 0x9000 path_disk (rd_at 0x100000) 0x2202 [98] 1 3) as H.
  assert (is_open 0x9000 (Z.to_nat NUM_MAX_FD) path_disk (__inode_array (rd_at 0x100000) + INODE_SIZE * 3) 0 = false)
    as Eo by (by vm_compute).
  cbv zeta in H. rewrite Eo in H. destruct H as (m' & E & _ & Hz & _).
  - reflexivity.
  - split; unfold off; simpl; lia.
  - split; simpl; lia.
  - by vm_compute.
  - by vm_compute.
  - done.
  - by apply (bool_decide_unpack _).
  - simpl. lia.
  - exact path_disk_root.
  - exists m'. split; [exact E|exact Hz].
Defined.

