(* ===== verification/RamdiskFile.v ===== *)
(** * RamdiskFile: reading, writing and seeking in open files

    The loops of [rd_read] and [rd_write] end on every disk; what the first
    write to an empty file stores, a read gives back; file descriptors and
    seeking. *)

From S2P Require Import Prelude Memory Klib Mutex Context Ramdisk RamdiskBlocks.

(** ** Termination *)

(** Rounds that are left to the loops over blocks: [b] the block, [si] and [di] the
    indices in the tables. *)
Definition rounds (b si di : Z) : Z :=
  65 * Z.max 0 (64 - di) + (64 - si) + Z.max 0 (9 - b) + (if b <? 72 then 65 else 0).

(** Below the doubly indirect region the index follows the block number. *)
Definition indices_ok (b si di : Z) : Prop :=
  0 <= b /\ 0 <= si < 64 /\ 0 <= di /\ (b < 72 -> si <= Z.max 0 (b - 8)).

(** The indices after one block, as the loops compute them. *)
Definition next_single (b si : Z) : Z := if b + 1 >? UFS_NUM_DIRECT_PTRS then si + 1 else si.

Definition next_double (b di : Z) : Z :=
  if b + 1 >? UFS_NUM_DIRECT_PTRS + UFS_NUM_PTRS_PER_BLK then di + 1 else di.

Lemma rounds_same_table b si di :
  indices_ok b si di -> next_single b si < 64 ->
  indices_ok (b + 1) (next_single b si) di /\ rounds (b + 1) (next_single b si) di < rounds b si di.
Proof.
  unfold indices_ok, rounds, next_single, UFS_NUM_DIRECT_PTRS. intros H.
  repeat case_Z; try lia.
Qed.

Lemma rounds_next_table b si di :
  indices_ok b si di -> 64 <= next_single b si -> next_double b di < 64 ->
  indices_ok (b + 1) 0 (next_double b di) /\ rounds (b + 1) 0 (next_double b di) < rounds b si di.
Proof.
  unfold indices_ok, rounds, next_single, next_double, UFS_NUM_DIRECT_PTRS, UFS_NUM_PTRS_PER_BLK, UFS_BLOCK_SIZE.
  change (8 + 0x100 / 4) with 72. intros H. repeat case_Z; try lia.
Qed.

Lemma rounds_positive b si di : indices_ok b si di -> 0 < rounds b si di <= 4298.
Proof. unfold indices_ok, rounds. intros H. case_Z; lia. Qed.

(** The indices at the start of a read or a write at offset [seek]. *)
Lemma setup_indices seek :
  0 <= seek ->
  let b := seek / UFS_BLOCK_SIZE in
  indices_ok b 0 0 /\
  (UFS_NUM_DIRECT_PTRS <= b -> indices_ok b (mod_ptrs_per_blk (b - UFS_NUM_DIRECT_PTRS)) 0) /\
  (UFS_NUM_DIRECT_PTRS + UFS_NUM_PTRS_PER_BLK <= b ->
     indices_ok b (mod_ptrs_per_blk (b - UFS_NUM_DIRECT_PTRS - UFS_NUM_PTRS_PER_BLK))
       (div_ptrs_per_blk (b - UFS_NUM_DIRECT_PTRS - UFS_NUM_PTRS_PER_BLK))).
Proof.
  unfold indices_ok, mod_ptrs_per_blk, div_ptrs_per_blk, UFS_NUM_DIRECT_PTRS, UFS_NUM_PTRS_PER_BLK, UFS_BLOCK_SIZE.
  change (8 + 0x100 / 4) with 72. change (0x100 / 4) with 64. intros H. split_and!; try dlia.
Qed.

Definition cursor_indices (c : cursor) : Prop :=
  indices_ok (c_blk_num c) (c_single_idx c) (c_double_idx c).

Definition cursor_rounds (c : cursor) : Z := rounds (c_blk_num c) (c_single_idx c) (c_double_idx c).

(** The read loop computes its next index as [next_single] does. *)
Lemma read_single b si :
  (if (b + 1 <? UFS_NUM_DIRECT_PTRS) || negb (b + 1 >? UFS_NUM_DIRECT_PTRS) then si else si + 1) =
  next_single b si.
Proof. unfold next_single, UFS_NUM_DIRECT_PTRS. repeat case_Z; simpl; lia. Qed.

Lemma read_loop_total n m file_inode num_bytes c :
  cursor_indices c -> cursor_rounds c <= Z.of_nat n ->
  exists m', read_loop n m file_inode num_bytes c = Some m'.
Proof.
  revert m c. induction n as [|n IH]; intros m c Hi Hr.
  { pose proof (rounds_positive _ _ _ Hi). unfold cursor_rounds in Hr. lia. }
  cbn [read_loop]. destruct (read_block _ _ _ _ _ _ _) as [[[m1 buf] off] cnt].
  destruct (cnt =? num_bytes); [by eexists|]. rewrite read_single.
  fold (next_double (c_blk_num c) (c_double_idx c)).
  unfold cursor_indices, cursor_rounds, UFS_NUM_PTRS_PER_BLK, UFS_BLOCK_SIZE in *. change (0x100 / 4) with 64.
  destruct (Z.ltb_spec (next_single (c_blk_num c) (c_single_idx c)) 64) as [H|H].
  - destruct (rounds_same_table _ _ _ Hi H) as [H1 H2]. apply IH; cbn; [done|lia].
  - destruct (Z.ltb_spec (next_double (c_blk_num c) (c_double_idx c)) 64) as [H'|H']; [|by eexists].
    destruct (rounds_next_table _ _ _ Hi H H') as [H1 H2]. apply IH; cbn; [done|lia].
Qed.

Lemma read_setup_indices m file_obj file_inode buf :
  cursor_indices (read_setup m file_obj file_inode buf).
Proof.
  unfold cursor_indices, read_setup. pose proof (load32_range m (file_obj + 8)) as Hr.
  destruct (setup_indices (f_seek_head m file_obj) ltac:(unfold f_seek_head; lia)) as (H1 & H2 & H3).
  destruct (Z.ltb_spec (f_seek_head m file_obj / UFS_BLOCK_SIZE) UFS_NUM_DIRECT_PTRS); [done|].
  destruct (Z.ltb_spec (f_seek_head m file_obj / UFS_BLOCK_SIZE) (UFS_NUM_DIRECT_PTRS + UFS_NUM_PTRS_PER_BLK));
    cbn; auto.
Qed.

Lemma rd_fuel_enough b si di : indices_ok b si di -> rounds b si di <= Z.of_nat rd_fuel.
Proof.
  intros H%rounds_positive. unfold rd_fuel. rewrite Z2Nat.id by lia. lia.
Qed.

(** *** Writing: allocation never blocks when the lock is free *)

Section WriteTotal.
Context (fuel : nat) (Hfuel : (0 < fuel)%nat) (s : rd_state) (Hs : fs_unlocked s).

Lemma alloc_block_loop_state n m i : exists m' b,
  alloc_block_loop n m (with_lock s locked) i = (m', s, b).
Proof.
  revert i. induction n as [|n IH]; intros i; cbn [alloc_block_loop].
  - rewrite unlock_with_lock by done. by eexists _, _.
  - destruct (negb _); [|apply IH]. rewrite unlock_with_lock by done. by eexists _, _.
Qed.

Lemma alloc_block_total m : exists m' b, alloc_block fuel m s = Some (m', s, b).
Proof.
  unfold alloc_block. rewrite lock_fs_unlocked by done. cbn [mbind option_bind].
  destruct (alloc_block_loop_state (Z.to_nat (8 * UFS_NUM_BITMAP_BLOCKS * UFS_BLOCK_SIZE)) m 0)
    as (m' & b & ->). by eexists _, _.
Qed.

Lemma ensure_block_total m slot : exists m', ensure_block fuel m s slot = Some (m', s).
Proof.
  unfold ensure_block. destruct (negb _); [|by eexists].
  destruct (alloc_block_total m) as (m' & b & ->). by eexists.
Qed.

Lemma ensure_local_total m p : exists m' q, ensure_local fuel m s p = Some (m', s, q).
Proof.
  unfold ensure_local. destruct (negb _); [|by eexists _, _].
  destruct (alloc_block_total m) as (m' & b & ->). by eexists _, _.
Qed.

Lemma write_next_total m file_inode c :
  exists m' sp bp, write_next fuel m s file_inode c (c_blk_num c + 1) =
    Some (m', s, next_single (c_blk_num c) (c_single_idx c), sp, bp).
Proof.
  unfold write_next, next_single. destruct (_ >? _).
  - destruct (ensure_local_total m (c_single_ptr c)) as (m1 & q & ->). cbn [mbind option_bind].
    destruct (ensure_block_total m1 (q + 4 * (c_single_idx c + 1))) as (m2 & ->). by eexists _, _, _.
  - destruct (ensure_block_total m (file_inode + 16 + 4 * (c_blk_num c + 1))) as (m2 & ->).
    by eexists _, _, _.
Qed.

Lemma write_loop_total n m file_obj file_inode actual c :
  cursor_indices c -> cursor_rounds c <= Z.of_nat n ->
  exists m', write_loop fuel n m s file_obj file_inode actual c = Some (m', s).
Proof.
  revert m c. induction n as [|n IH]; intros m c Hi Hr.
  { pose proof (rounds_positive _ _ _ Hi). unfold cursor_rounds in Hr. lia. }
  cbn [write_loop]. destruct (write_block _ _ _ _ _ _ _ _ _) as [[[m1 buf] off] cnt].
  destruct (cnt =? actual); [by eexists|].
  destruct (write_next_total m1 file_inode c) as (m2 & sp & bp & ->). cbn [mbind option_bind].
  fold (next_double (c_blk_num c) (c_double_idx c)).
  unfold cursor_indices, cursor_rounds, UFS_NUM_PTRS_PER_BLK, UFS_BLOCK_SIZE in *. change (0x100 / 4) with 64.
  destruct (Z.ltb_spec (next_single (c_blk_num c) (c_single_idx c)) 64) as [H|H].
  - destruct (rounds_same_table _ _ _ Hi H) as [H1 H2]. apply IH; cbn; [done|lia].
  - destruct (ensure_local_total m2 (c_double_ptr c)) as (m3 & q & ->). cbn [mbind option_bind].
    destruct (ensure_block_total m3 (q + 4 * next_double (c_blk_num c) (c_double_idx c))) as (m4 & ->).
    cbn [mbind option_bind].
    destruct (ensure_block_total m4 (ptr_at m4 q (next_double (c_blk_num c) (c_double_idx c)))) as (m5 & ->).
    cbn [mbind option_bind].
    destruct (Z.ltb_spec (next_double (c_blk_num c) (c_double_idx c)) 64) as [H'|H']; [|by eexists].
    destruct (rounds_next_table _ _ _ Hi H H') as [H1 H2]. apply IH; cbn; [done|lia].
Qed.

Lemma write_setup_total m file_obj file_inode buf :
  exists m' c, write_setup fuel m s file_obj file_inode buf = Some (m', s, c) /\ cursor_indices c.
Proof.
  unfold write_setup, cursor_indices. pose proof (load32_range m (file_obj + 8)) as Hr.
  destruct (setup_indices (f_seek_head m file_obj) ltac:(unfold f_seek_head; lia)) as (H1 & H2 & H3).
  set (b := f_seek_head m file_obj / UFS_BLOCK_SIZE) in *.
  destruct (Z.ltb_spec b UFS_NUM_DIRECT_PTRS) as [Hb|Hb].
  { destruct (ensure_block_total m (file_inode + 16 + 4 * b)) as (m1 & ->). eexists _, _. by split. }
  destruct (Z.ltb_spec b (UFS_NUM_DIRECT_PTRS + UFS_NUM_PTRS_PER_BLK)) as [Hb2|Hb2].
  - assert (exists m1 p, (if negb (c_true (i_indirect m file_inode)) then
      '(m, s, b) ← alloc_block fuel m s; Some (set_i_indirect m file_inode b, s, b)
      else Some (m, s, i_indirect m file_inode)) = Some (m1, s, p)) as (m1 & p & ->).
    { destruct (negb _); [|by eexists _, _]. destruct (alloc_block_total m) as (m' & q & ->). by eexists _, _. }
    cbn [mbind option_bind]. set (si := mod_ptrs_per_blk _).
    destruct (ensure_block_total m1 (p + 4 * si)) as (m2 & ->). eexists _, _. split; [done|]. by apply H2.
  - assert (exists m1 p, (if negb (c_true (i_double_indirect m file_inode)) then
      '(m, s, b) ← alloc_block fuel m s; Some (set_i_double_indirect m file_inode b, s, b)
      else Some (m, s, i_double_indirect m file_inode)) = Some (m1, s, p)) as (m1 & p & ->).
    { destruct (negb _); [|by eexists _, _]. destruct (alloc_block_total m) as (m' & q & ->). by eexists _, _. }
    cbn [mbind option_bind]. set (di := div_ptrs_per_blk _). set (si := mod_ptrs_per_blk _).
    destruct (ensure_block_total m1 (p + 4 * di)) as (m2 & ->). cbn [mbind option_bind].
    destruct (ensure_block_total m2 (ptr_at m2 p di + 4 * si)) as (m3 & ->).
    eexists _, _. split; [done|]. by apply H3.
Qed.
End WriteTotal.

(** ** Copying *)

(** One block of a read: the bytes up to the end of the block or of the request. *)
Lemma read_block_copy n m blk buf off_ cnt num :
  0 <= off_ <= UFS_BLOCK_SIZE -> (Z.to_nat (UFS_BLOCK_SIZE - off_) <= n)%nat -> cnt < num ->
  let k := Z.min (UFS_BLOCK_SIZE - off_) (num - cnt) in
  (buf + k <= blk + off_ \/ blk + off_ + k <= buf) ->
  exists m', read_block n m blk buf off_ cnt num = (m', buf + k, off_ + k, cnt + k) /\
    (forall x, 0 <= x < k -> load8 m' (buf + x) = load8 m (blk + off_ + x)) /\ same_off buf k m m'.
Proof.
  unfold UFS_BLOCK_SIZE. revert m buf off_ cnt. induction n as [|n IH]; intros m buf o cnt Ho Hn Hc Hk;
    set (k := Z.min (0x100 - o) (num - cnt)) in *.
  { assert (k = 0) as -> by lia. exists m. cbn [read_block]. rewrite !Z.add_0_r.
    split_and!; [done|lia|by intros a]. }
  cbn [read_block]. unfold UFS_BLOCK_SIZE. destruct (Z.ltb_spec o 0x100) as [Hlt|Hge]; cycle 1.
  { assert (k = 0) as -> by lia. exists m. rewrite !Z.add_0_r. split_and!; [done|lia|by intros a]. }
  set (m1 := store8 m buf _).
  assert (load8 m1 buf = load8 m (blk + o)) as Hb.
  { unfold m1. rewrite load8_store8_eq by done. apply u8_small, load8_range. }
  destruct (Z.eqb_spec (cnt + 1) num) as [He|He].
  - assert (k = 1) as -> by lia. exists m1. split_and!; [done| |by apply store8_same_off].
    intros x Hx. assert (x = 0) as -> by lia. by rewrite !Z.add_0_r.
  - destruct (IH m1 (buf + 1) (o + 1) (cnt + 1)) as (m' & -> & H1 & H2); [lia|lia|lia|lia|].
    exists m'. split_and!.
    + repeat first [done | lia | f_equal].
    + intros x Hx. destruct (decide (x = 0)) as [->|].
      * rewrite !Z.add_0_r, H2 by (unfold off; lia). done.
      * replace (buf + x) with (buf + 1 + (x - 1)) by lia. rewrite H1 by lia.
        unfold m1. rewrite load8_store8_ne by lia. f_equal. lia.
    + intros a Ha. unfold off in Ha. rewrite H2 by (unfold off; lia). apply load8_store8_ne. lia.
Qed.

(** One block of a write that leaves no hole. *)
Lemma write_block_copy n m f ino blk buf off_ cnt num :
  0 <= off_ <= UFS_BLOCK_SIZE -> (Z.to_nat (UFS_BLOCK_SIZE - off_) <= n)%nat -> 0 <= cnt < num ->
  let k := Z.min (UFS_BLOCK_SIZE - off_) (num - cnt) in
  f_seek_head m f = i_size m ino -> num < 4294967296 ->
  (f + 12 <= blk \/ blk + UFS_BLOCK_SIZE <= f) -> (ino + 8 <= blk \/ blk + UFS_BLOCK_SIZE <= ino) ->
  (buf + k <= blk + off_ \/ blk + off_ + k <= buf) ->
  exists m', write_block n m f ino blk buf off_ cnt num = (m', buf + k, off_ + k, cnt + k) /\
    (forall x, 0 <= x < k -> load8 m' (blk + off_ + x) = load8 m (buf + x)) /\ same_off (blk + off_) k m m'.
Proof.
  unfold UFS_BLOCK_SIZE, f_seek_head, i_size. revert m buf off_ cnt.
  induction n as [|n IH]; intros m buf o cnt Ho Hn Hc Hz Hnum Hf Hi Hk;
    set (k := Z.min (0x100 - o) (num - cnt)) in *.
  { assert (k = 0) as -> by lia. exists m. cbn [write_block]. rewrite !Z.add_0_r.
    split_and!; [done|lia|by intros a]. }
  cbn [write_block]. unfold UFS_BLOCK_SIZE, f_seek_head, i_size. destruct (Z.ltb_spec o 0x100) as [Hlt|Hge]; cycle 1.
  { assert (k = 0) as -> by lia. exists m. rewrite !Z.add_0_r. split_and!; [done|lia|by intros a]. }
  rewrite Hz, Z.sub_diag, (u32_small cnt), (u32_small 0), (ltb_ge cnt) by (done || lia). set (m1 := store8 m (blk + o) _).
  assert (load8 m1 (blk + o) = load8 m buf) as Hb.
  { unfold m1. rewrite load8_store8_eq by done. apply u8_small, load8_range. }
  destruct (Z.eqb_spec (cnt + 1) num) as [He|He].
  - assert (k = 1) as -> by lia. exists m1. split_and!; [done| |by apply store8_same_off].
    intros x Hx. assert (x = 0) as -> by lia. by rewrite !Z.add_0_r.
  - destruct (IH m1 (buf + 1) (o + 1) (cnt + 1)) as (m' & -> & H1 & H2); [lia|lia|lia| |lia|lia|lia|lia|].
    { unfold m1. rewrite !load32_store8_ne by lia. done. }
    exists m'. split_and!.
    + repeat first [done | lia | f_equal].
    + intros x Hx. destruct (decide (x = 0)) as [->|].
      * rewrite !Z.add_0_r, H2 by (unfold off; lia). done.
      * replace (blk + o + x) with (blk + (o + 1) + (x - 1)) by lia. rewrite H1 by lia.
        unfold m1. rewrite load8_store8_ne by lia. f_equal. lia.
    + intros a Ha. unfold off in Ha. rewrite H2 by (unfold off; lia). apply load8_store8_ne. lia.
Qed.

(** *** Reading the direct blocks *)

(** The [n] bytes of a file whose blocks are the direct pointers. *)
Definition file_byte (m : mem) (ino x : Z) : Z :=
  load8 m (i_direct m ino (x / UFS_BLOCK_SIZE) + x mod UFS_BLOCK_SIZE).

Lemma read_loop_direct fuel m ino num buf j c :
  let blk i := i_direct m ino i in
  0 <= j < UFS_NUM_DIRECT_PTRS -> UFS_BLOCK_SIZE * j < num <= UFS_BLOCK_SIZE * UFS_NUM_DIRECT_PTRS ->
  (Z.to_nat (UFS_NUM_DIRECT_PTRS - j) <= fuel)%nat ->
  c_buf c = buf + UFS_BLOCK_SIZE * j -> c_counter c = UFS_BLOCK_SIZE * j -> c_blk_num c = j ->
  c_blk_offset c = 0 -> c_single_idx c = 0 -> c_blk_ptr c = blk j ->
  (forall i, 0 <= i -> UFS_BLOCK_SIZE * i < num -> buf + num <= blk i \/ blk i + UFS_BLOCK_SIZE <= buf) ->
  (buf + num <= ino + 16 \/ ino + 48 <= buf) ->
  exists m', read_loop fuel m ino num c = Some m' /\
    (forall x, UFS_BLOCK_SIZE * j <= x < num -> load8 m' (buf + x) = file_byte m ino x) /\
    same_off (buf + UFS_BLOCK_SIZE * j) (num - UFS_BLOCK_SIZE * j) m m'.
Proof.
  intros blk. unfold UFS_NUM_DIRECT_PTRS. revert m j c blk.
  induction fuel as [|fuel IH]; intros m j c blk Hj Hn Hf Eb Ec En Eo Es Ep Hd Hi; [lia|].
  cbn [read_loop]. rewrite Eb, Ec, Eo, Ep, En, Es.
  destruct (read_block_copy (Z.to_nat UFS_BLOCK_SIZE) m (blk j) (buf + UFS_BLOCK_SIZE * j) 0
    (UFS_BLOCK_SIZE * j) num) as (m1 & -> & H1 & H2);
    [unfold UFS_BLOCK_SIZE; lia|lia|lia|specialize (Hd j); unfold UFS_BLOCK_SIZE in *; lia|].
  unfold UFS_BLOCK_SIZE in *. set (k := Z.min _ _) in *.
  assert (forall x, 0x100 * j <= x < 0x100 * j + k -> load8 m1 (buf + x) = file_byte m ino x) as Hx1.
  { intros x Hx. replace (buf + x) with (buf + 0x100 * j + (x - 0x100 * j)) by lia.
    rewrite H1 by lia. unfold file_byte, UFS_BLOCK_SIZE.
    replace (x / 0x100) with j by dlia. f_equal. fold (blk j). dlia. }
  destruct (Z.eqb_spec (0x100 * j + k) num) as [E|E].
  - exists m1. split_and!; [done|intros x Hx; apply Hx1; lia|].
    eapply same_off_weaken; [| |exact H2]; lia.
  - assert (forall i, 0 <= i < 8 -> i_direct m1 ino i = i_direct m ino i) as Hp.
    { intros i Hi'. apply load32_ext. intros q Hq. apply H2. unfold off. lia. }
    assert (forall i, 0 <= i -> 0x100 * i < num -> forall q, 0 <= q < 0x100 ->
      load8 m1 (blk i + q) = load8 m (blk i + q)) as Hbytes.
    { intros i Hi' Hi2 q Hq. apply H2. specialize (Hd i Hi' Hi2). unfold off. lia. }
    unfold UFS_NUM_DIRECT_PTRS. rewrite (ltb_lt (j + 1)) by lia. cbn [orb].
    change (0 <? UFS_NUM_PTRS_PER_BLK) with true. cbv iota.
    edestruct (IH m1 (j + 1)) as (m' & -> & H3 & H4);
      [lia|lia|lia|cbn; lia|cbn; lia|done|done|done|done| |done|].
    { intros i Hi' Hi2. rewrite Hp by lia. by apply Hd. }
    exists m'. split_and!; [done| |].
    + intros x Hx. destruct (decide (x < 0x100 * j + k)).
      * rewrite H4 by (unfold off; lia). apply Hx1. lia.
      * rewrite H3 by lia. unfold file_byte, UFS_BLOCK_SIZE. rewrite Hp by dlia. apply Hbytes; dlia.
    + intros a Ha. unfold off in Ha. rewrite H4 by (unfold off; lia). apply H2. unfold off. lia.
Qed.

(** ** The first write to an empty file *)

(** Areas of memory, as first byte and length. *)
Definition apart (x y : Z * Z) : Prop := x.1 + x.2 <= y.1 \/ y.1 + y.2 <= x.1.

Fixpoint apart_from (x : Z * Z) (l : list (Z * Z)) : Prop :=
  match l with
  | [] => True
  | y :: l => apart x y /\ apart_from x l
  end.

Fixpoint all_apart (l : list (Z * Z)) : Prop :=
  match l with
  | [] => True
  | x :: l => apart_from x l /\ all_apart l
  end.

#[export] Instance apart_dec x y : Decision (apart x y).
Proof. unfold apart. apply _. Defined.

#[export] Instance apart_from_dec x l : Decision (apart_from x l).
Proof. induction l as [|y l IH]; simpl; apply _. Defined.

#[export] Instance all_apart_dec l : Decision (all_apart l).
Proof. induction l as [|x l IH]; simpl; apply _. Defined.

(** The bitmap that the setter writes, and the blocks that it marks. *)
Definition bitmap_area (s : rd_state) : Z * Z := (__blk_bitmap s, 129).
Definition data_area (s : rd_state) : Z * Z := (__root_blk s, 0x40100).

Lemma free_blocks_ext m m' s :
  (forall a, __blk_bitmap s <= a < __blk_bitmap s + 129 -> load8 m' a = load8 m a) ->
  free_blocks m' s = free_blocks m s.
Proof.
  intros H. unfold free_blocks, block_numbers.
  assert (forall l : list Z, (forall i, i ∈ l -> 0 <= i < 1025) ->
    filter (fun i => get_blk_bitmap m' s i = 0) l = filter (fun i => get_blk_bitmap m s i = 0) l) as Hl.
  { induction l as [|i l IH]; intros Hi; [done|]. rewrite !filter_cons, IH by (intros; apply Hi; by right).
    assert (get_blk_bitmap m' s i = get_blk_bitmap m s i) as ->; [|done].
    specialize (Hi i ltac:(left)). rewrite !get_blk_bitmap_bit, H by dlia. done. }
  apply Hl. intros i Hi%elem_of_seqZ. lia.
Qed.

Lemma free_blocks_NoDup m s : NoDup (free_blocks m s).
Proof. apply NoDup_filter, NoDup_seqZ. Qed.

Lemma ensure_block_new fuel m s slot i l :
  fs_unlocked s -> (0 < fuel)%nat -> load32 m slot = 0 -> free_blocks m s = i :: l ->
  0 <= __root_blk s -> __root_blk s + 0x40100 <= 4294967296 -> apart (bitmap_area s) (slot, 4) ->
  exists m', ensure_block fuel m s slot = Some (m', s) /\
    load32 m' slot = __root_blk s + UFS_BLOCK_SIZE * i /\ 0 <= i <= 1024 /\ free_blocks m' s = l /\
    (forall a, off (__blk_bitmap s) 129 a -> off slot 4 a -> load8 m' a = load8 m a).
Proof.
  unfold apart, bitmap_area, UFS_BLOCK_SIZE. cbn [fst snd]. intros Hs Hf H0 Hl Hr Hr2 Ha.
  unfold ensure_block. rewrite H0. cbn [c_true negb Z.eqb].
  destruct (alloc_block_cons fuel m s i l Hs Hf Hl) as (m1 & -> & Hi & _ & Hl1 & Hm1).
  cbn [mbind option_bind]. unfold UFS_BLOCK_SIZE. eexists. split; [done|]. split_and!.
  - rewrite load32_store32_eq by done. apply u32_small. lia.
  - lia.
  - lia.
  - rewrite <- Hl1. apply free_blocks_ext. intros a Hb. apply load8_store32_ne. unfold off. lia.
  - intros a Hb Hc. rewrite load8_store32_ne by done. apply Hm1. unfold off in *. dlia.
Qed.

Section FirstWrite.
Context (fuel : nat) (s : rd_state) (f ino buf num : Z) (m0 : mem).
Context (Hs : fs_unlocked s) (Hfuel : (0 < fuel)%nat).
Context (Hroot : 0 < __root_blk s) (Hmax : __root_blk s + 0x40100 <= 4294967296).
Context (Hareas : all_apart [bitmap_area s; data_area s; (ino, INODE_SIZE); (f, FILE_SIZE); (buf, num)]).
Context (Hnum : 0 < num <= UFS_BLOCK_SIZE * UFS_NUM_DIRECT_PTRS).

(** The bytes that the blocks of the file do not use. *)
Definition elsewhere (a : Z) : Prop :=
  off (__blk_bitmap s) 129 a /\ off (__root_blk s) 0x40100 a /\ off (ino + 16) 32 a.

(** The state after [j] full blocks: [ks] are the numbers of the blocks, the last of
    them not written yet. *)
Record writing (m : mem) (ks : list Z) (j : Z) : Prop := Writing {
  wr_frame : same_on elsewhere m0 m;
  wr_length : Z.of_nat (length ks) = j + 1;
  wr_direct i k : ks !! Z.to_nat i = Some k -> 0 <= i ->
    i_direct m ino i = __root_blk s + UFS_BLOCK_SIZE * k /\ 0 <= k <= 1024;
  wr_rest i : j < i < UFS_NUM_DIRECT_PTRS -> i_direct m ino i = 0;
  wr_nodup : NoDup (ks ++ free_blocks m s);
  wr_free : 7 <= j + Z.of_nat (length (free_blocks m s))
}.

Definition written (m : mem) (n : Z) : Prop :=
  forall x, 0 <= x < n -> file_byte m ino x = load8 m0 (buf + x).

Lemma areas_apart :
  (__blk_bitmap s + 129 <= __root_blk s \/ __root_blk s + 0x40100 <= __blk_bitmap s) /\
  (__blk_bitmap s + 129 <= ino \/ ino + 64 <= __blk_bitmap s) /\
  (__blk_bitmap s + 129 <= f \/ f + 20 <= __blk_bitmap s) /\
  (__blk_bitmap s + 129 <= buf \/ buf + num <= __blk_bitmap s) /\
  (__root_blk s + 0x40100 <= ino \/ ino + 64 <= __root_blk s) /\
  (__root_blk s + 0x40100 <= f \/ f + 20 <= __root_blk s) /\
  (__root_blk s + 0x40100 <= buf \/ buf + num <= __root_blk s) /\
  (ino + 64 <= f \/ f + 20 <= ino) /\ (ino + 64 <= buf \/ buf + num <= ino).
Proof.
  pose proof Hareas as H. cbn in H.
  unfold apart, INODE_SIZE, FILE_SIZE in H. cbn in H. destruct_and! H. by split_and!.
Qed.

(** A block of the data area, apart from everything else. *)
Definition in_data (b : Z) : Prop := __root_blk s <= b /\ b + 0x100 <= __root_blk s + 0x40100.

Lemma data_bitmap b a : in_data b -> __blk_bitmap s <= a < __blk_bitmap s + 129 -> off b 0x100 a.
Proof. destruct areas_apart as (A & _). unfold in_data, off. clear -A. lia. Qed.

Lemma data_inode b a : in_data b -> ino <= a < ino + 64 -> off b 0x100 a.
Proof. destruct areas_apart as (_ & _ & _ & _ & A & _). unfold in_data, off. clear -A. lia. Qed.

Lemma data_elsewhere b a : in_data b -> elsewhere a -> off b 0x100 a.
Proof. unfold in_data, elsewhere, off. clear. lia. Qed.

Lemma source_elsewhere x : 0 <= x < num -> elsewhere (buf + x).
Proof.
  destruct areas_apart as (_ & _ & _ & A4 & _ & _ & A7 & _ & A9). clear -A4 A7 A9.
  unfold elsewhere, off. lia.
Qed.

Lemma file_elsewhere q : 0 <= q < 20 -> elsewhere (f + q).
Proof.
  destruct areas_apart as (_ & _ & A3 & _ & _ & A6 & _ & A8 & _). clear -A3 A6 A8.
  unfold elsewhere, off. lia.
Qed.

Lemma inode_elsewhere q : 0 <= q < 16 -> elsewhere (ino + q).
Proof.
  destruct areas_apart as (_ & A2 & _ & _ & A5 & _). clear -A2 A5. unfold elsewhere, off. lia.
Qed.

Lemma inode_bitmap a : ino <= a < ino + 64 -> off (__blk_bitmap s) 129 a.
Proof. destruct areas_apart as (_ & A & _). unfold off. clear -A. lia. Qed.

Lemma bitmap_slot a : ino <= a -> a + 4 <= ino + 64 -> apart (bitmap_area s) (a, 4).
Proof.
  destruct areas_apart as (_ & A & _). unfold apart, bitmap_area. cbn [fst snd]. clear -A. lia.
Qed.

Lemma data_off_bitmap b r : in_data b -> 0 <= r < 0x100 -> off (__blk_bitmap s) 129 (b + r).
Proof. destruct areas_apart as (A & _). unfold in_data, off. clear -A. lia. Qed.

Lemma data_off_inode b r : in_data b -> 0 <= r < 0x100 -> off ino 64 (b + r).
Proof. destruct areas_apart as (_ & _ & _ & _ & A & _). unfold in_data, off. clear -A. lia. Qed.

Lemma data_off_file b r : in_data b -> 0 <= r < 0x100 -> off f 20 (b + r).
Proof. destruct areas_apart as (_ & _ & _ & _ & _ & A & _). unfold in_data, off. clear -A. lia. Qed.

Lemma inode_file : ino + 64 <= f \/ f + 20 <= ino.
Proof. by destruct areas_apart as (_ & _ & _ & _ & _ & _ & _ & A & _). Qed.

(** A copy of one block needs three of the areas apart. *)
Lemma data_copy b j : in_data b -> 0 <= j -> 0x100 * j < num ->
  (f + 12 <= b \/ b + 0x100 <= f) /\ (ino + 8 <= b \/ b + 0x100 <= ino) /\
  (buf + 0x100 * j + Z.min 0x100 (num - 0x100 * j) <= b \/ b + 0x100 <= buf + 0x100 * j).
Proof.
  destruct areas_apart as (_ & _ & _ & _ & A5 & A6 & A7 & _). clear -A5 A6 A7. unfold in_data. lia.
Qed.

(** Distinct blocks are apart. *)
Lemma blocks_distinct m ks j a b k1 k2 :
  writing m ks j -> ks !! Z.to_nat a = Some k1 -> ks !! Z.to_nat b = Some k2 -> 0 <= a -> 0 <= b ->
  a <> b -> k1 <> k2.
Proof.
  intros H H1 H2 Ha Hb Hab ->. pose proof (wr_nodup _ _ _ H) as Hn. apply NoDup_app in Hn as (Hn & _ & _).
  pose proof (NoDup_lookup _ _ _ _ Hn H1 H2). lia.
Qed.

(** The contents of block [j], up to the end of the request. *)
Lemma write_one m ks j :
  writing m ks j -> written m (UFS_BLOCK_SIZE * j) -> 0 <= j < UFS_NUM_DIRECT_PTRS ->
  UFS_BLOCK_SIZE * j < num -> f_seek_head m f = i_size m ino ->
  let k := Z.min UFS_BLOCK_SIZE (num - UFS_BLOCK_SIZE * j) in
  exists m', write_block (Z.to_nat UFS_BLOCK_SIZE) m f ino (i_direct m ino j) (buf + UFS_BLOCK_SIZE * j) 0
      (UFS_BLOCK_SIZE * j) num = (m', buf + UFS_BLOCK_SIZE * j + k, k, UFS_BLOCK_SIZE * j + k) /\
    writing m' ks j /\ written m' (UFS_BLOCK_SIZE * j + k) /\ f_seek_head m' f = i_size m' ino.
Proof.
  intros H Hw Hj Hn Hz k.
  destruct (lookup_lt_is_Some_2 ks (Z.to_nat j)) as [kj Hkj].
  { pose proof (wr_length _ _ _ H). lia. }
  destruct (wr_direct _ _ _ H j kj Hkj ltac:(lia)) as [Ej Hkr]. rewrite Ej.
  unfold UFS_BLOCK_SIZE, UFS_NUM_DIRECT_PTRS in *. set (b := __root_blk s + 0x100 * kj) in *.
  assert (in_data b) as Hb by (unfold in_data; lia).
  destruct (data_copy b j Hb (proj1 Hj) Hn) as (P1 & P2 & P3).
  destruct (write_block_copy (Z.to_nat 0x100) m f ino b (buf + 0x100 * j) 0 (0x100 * j) num)
    as (m' & -> & H1 & H2); unfold UFS_BLOCK_SIZE; [lia|lia|lia|done|lia|done|done|clear -P3; lia|].
  unfold UFS_BLOCK_SIZE in H1, H2. change (0x100 - 0) with 0x100 in *. fold k in H1, H2 |- *.
  rewrite Z.add_0_r in H1, H2. clear P1 P2 P3. exists m'.
  assert (forall a, off b 0x100 a -> load8 m' a = load8 m a) as Hout.
  { intros a Ha. apply H2. unfold off in *. lia. }
  assert (forall i, 0 <= i < 8 -> i_direct m' ino i = i_direct m ino i) as Hd.
  { intros i Hi. apply load32_ext. intros q Hq. apply Hout, data_inode; [done|lia]. }
  assert (free_blocks m' s = free_blocks m s) as Hfree.
  { apply free_blocks_ext. intros a Ha. by apply Hout, data_bitmap. }
  pose proof (wr_length _ _ _ H) as Hlen. split_and!; [done| | |].
  - split.
    + intros a Ha. rewrite Hout by (by apply data_elsewhere). by apply (wr_frame _ _ _ H).
    + done.
    + intros i k' Hk' Hi. pose proof (lookup_lt_Some _ _ _ Hk').
      rewrite Hd by lia. by apply (wr_direct _ _ _ H).
    + intros i Hi. unfold UFS_NUM_DIRECT_PTRS in Hi. rewrite Hd by lia. by apply (wr_rest _ _ _ H).
    + rewrite Hfree. apply (wr_nodup _ _ _ H).
    + rewrite Hfree. apply (wr_free _ _ _ H).
  - intros x Hx. pose proof (Hw x) as Hwx. unfold file_byte, UFS_BLOCK_SIZE in *.
    pose proof (Z_div_mod_eq_full x 0x100) as Hdm. pose proof (Z.mod_pos_bound x 0x100 ltac:(lia)) as Hmod.
    set (q := x / 0x100) in *. set (r := x mod 0x100) in *. clearbody q r.
    assert (0 <= q <= j) as Hq by lia.
    destruct (lookup_lt_is_Some_2 ks (Z.to_nat q)) as [kx Hkx]; [lia|].
    destruct (wr_direct _ _ _ H _ kx Hkx ltac:(lia)) as [Ex Hkxr]. unfold UFS_BLOCK_SIZE in Ex.
    rewrite Hd by lia. destruct (decide (q = j)) as [->|E].
    + rewrite Ej, H1 by lia. replace (buf + 0x100 * j + r) with (buf + x) by lia.
      apply (wr_frame _ _ _ H), source_elsewhere. lia.
    + rewrite <- Hwx by lia. rewrite Ex. apply Hout.
      pose proof (blocks_distinct _ _ _ _ _ _ _ H Hkx Hkj ltac:(lia) ltac:(lia) E) as Hne.
      clear -Hne Hmod. unfold off, b. lia.
  - unfold f_seek_head, i_size in *.
    rewrite (load32_ext m m' (f + 8)), (load32_ext m m' (ino + 4)); [done| |];
      intros q Hq; apply Hout, data_elsewhere; try done.
    + rewrite <- Z.add_assoc. apply inode_elsewhere. lia.
    + rewrite <- Z.add_assoc. apply file_elsewhere. lia.
Qed.

(** The next block of the file. *)
Lemma alloc_next m ks j :
  writing m ks j -> written m (UFS_BLOCK_SIZE * (j + 1)) -> -1 <= j -> j + 1 < UFS_NUM_DIRECT_PTRS ->
  f_seek_head m f = i_size m ino ->
  exists m' k, ensure_block fuel m s (ino + 16 + 4 * (j + 1)) = Some (m', s) /\
    writing m' (ks ++ [k]) (j + 1) /\ written m' (UFS_BLOCK_SIZE * (j + 1)) /\
    f_seek_head m' f = i_size m' ino.
Proof.
  intros H Hw Hj1 Hj2 Hz. unfold UFS_NUM_DIRECT_PTRS in *.
  pose proof (wr_length _ _ _ H) as Hlen. pose proof (wr_free _ _ _ H) as Hfr.
  pose proof (wr_nodup _ _ _ H) as Hnd.
  destruct (free_blocks m s) as [|k l] eqn:El; [simpl in Hfr; lia|]. cbn [length] in Hfr.
  set (slot := ino + 16 + 4 * (j + 1)) in *.
  assert (forall a, slot <= a < slot + 4 -> ino <= a < ino + 64) as Hslot by (clear -Hj1 Hj2; unfold slot; lia).
  destruct (ensure_block_new fuel m s slot k l) as (m' & E & Hp & Hk & Hl & Hout);
    [done|done|apply (wr_rest _ _ _ H); unfold UFS_NUM_DIRECT_PTRS; lia|done|lia|lia|apply bitmap_slot; (done || lia)|].
  exists m', k. rewrite E.
  assert (forall a, elsewhere a -> load8 m' a = load8 m a) as Hel.
  { intros a Ha. apply Hout; [apply Ha|]. clear -Ha Hj1 Hj2. unfold elsewhere, off, slot in *. lia. }
  assert (forall i, 0 <= i < 8 -> i <> j + 1 -> i_direct m' ino i = i_direct m ino i) as Hd.
  { intros i Hi Hne. apply load32_ext. intros q Hq. apply Hout.
    - apply inode_bitmap. clear -Hi Hq. lia.
    - clear -Hi Hq Hne. unfold off, slot. lia. }
  assert (forall i k', (ks ++ [k]) !! Z.to_nat i = Some k' -> 0 <= i ->
    i_direct m' ino i = __root_blk s + UFS_BLOCK_SIZE * k' /\ 0 <= k' <= 1024) as Hdir.
  { intros i k' Hk' Hi. pose proof (lookup_lt_Some _ _ _ Hk') as Hlt. rewrite length_app in Hlt. simpl in Hlt.
    destruct (decide (i = j + 1)) as [->|].
    - rewrite lookup_app_r in Hk' by lia. replace (Z.to_nat (j + 1) - length ks)%nat with 0%nat in Hk' by lia.
      simplify_eq/=. by split.
    - rewrite lookup_app_l in Hk' by lia. rewrite Hd by lia. by apply (wr_direct _ _ _ H). }
  split_and!; [done| | |].
  - split.
    + intros a Ha. rewrite Hel by done. by apply (wr_frame _ _ _ H).
    + rewrite length_app. simpl. lia.
    + exact Hdir.
    + intros i Hi. unfold UFS_NUM_DIRECT_PTRS in Hi. rewrite Hd by lia. apply (wr_rest _ _ _ H). unfold UFS_NUM_DIRECT_PTRS. lia.
    + rewrite Hl, <- app_assoc. done.
    + rewrite Hl. lia.
  - intros x Hx. rewrite <- Hw by done. unfold file_byte, UFS_BLOCK_SIZE in *.
    pose proof (Z_div_mod_eq_full x 0x100) as Hdm. pose proof (Z.mod_pos_bound x 0x100 ltac:(lia)) as Hmod.
    set (q := x / 0x100) in *. set (r := x mod 0x100) in *. clearbody q r.
    rewrite Hd by lia. destruct (lookup_lt_is_Some_2 ks (Z.to_nat q)) as [kx Hkx]; [lia|].
    destruct (wr_direct _ _ _ H q kx Hkx ltac:(lia)) as [-> Hkr]. unfold UFS_BLOCK_SIZE in *.
    assert (in_data (__root_blk s + 0x100 * kx)) as Hb by (clear -Hkr; unfold in_data; lia).
    apply Hout; [apply (data_off_bitmap _ r Hb Hmod)|]. destruct (data_off_inode _ r Hb Hmod) as [Ha|Ha];
      clear -Ha Hj1 Hj2; unfold off, slot; lia.
  - unfold f_seek_head, i_size in *. rewrite (load32_ext m m' (f + 8)), (load32_ext m m' (ino + 4)); [done| |];
      intros q Hq; apply Hel; rewrite <- Z.add_assoc.
    + apply inode_elsewhere. lia.
    + apply file_elsewhere. lia.
Qed.

Lemma write_loop_direct n m ks j c :
  writing m ks j -> written m (UFS_BLOCK_SIZE * j) -> 0 <= j < UFS_NUM_DIRECT_PTRS ->
  UFS_BLOCK_SIZE * j < num -> f_seek_head m f = i_size m ino ->
  (Z.to_nat (UFS_NUM_DIRECT_PTRS - j) <= n)%nat ->
  c_buf c = buf + UFS_BLOCK_SIZE * j -> c_counter c = UFS_BLOCK_SIZE * j -> c_blk_num c = j ->
  c_blk_offset c = 0 -> c_single_idx c = 0 -> c_blk_ptr c = i_direct m ino j ->
  exists m' ks' j', write_loop fuel n m s f ino num c = Some (m', s) /\ writing m' ks' j' /\
    written m' num /\ UFS_BLOCK_SIZE * j' < num <= UFS_BLOCK_SIZE * (j' + 1).
Proof.
  revert m ks j c. induction n as [|n IH]; intros m ks j c H Hw Hj Hn Hz Hf Eb Ec En Eo Es Ep.
  { unfold UFS_NUM_DIRECT_PTRS in *. lia. }
  cbn [write_loop]. rewrite Eb, Ec, En, Eo, Ep.
  destruct (write_one m ks j H Hw Hj Hn Hz) as (m1 & -> & H1 & Hw1 & Hz1).
  set (k := Z.min UFS_BLOCK_SIZE (num - UFS_BLOCK_SIZE * j)) in *.
  destruct (Z.eqb_spec (UFS_BLOCK_SIZE * j + k) num) as [E|E].
  - rewrite E in Hw1. exists m1, ks, j. split_and!; [done|done|done|done|lia].
  - assert (k = UFS_BLOCK_SIZE) as Ek by lia. rewrite Ek in *.
    replace (UFS_BLOCK_SIZE * j + UFS_BLOCK_SIZE) with (UFS_BLOCK_SIZE * (j + 1)) in * by lia.
    assert (j + 1 < UFS_NUM_DIRECT_PTRS) as Hj1 by (unfold UFS_BLOCK_SIZE, UFS_NUM_DIRECT_PTRS in *; lia).
    destruct (alloc_next m1 ks j H1 Hw1 ltac:(lia) Hj1 Hz1) as (m2 & k2 & E2 & H2 & Hw2 & Hz2).
    unfold write_next. rewrite (Z.gtb_ltb (j + 1) UFS_NUM_DIRECT_PTRS), (ltb_ge UFS_NUM_DIRECT_PTRS) by lia. rewrite E2.
    cbn [mbind option_bind]. rewrite Es. change (0 <? UFS_NUM_PTRS_PER_BLK) with true. cbv iota.
    apply (IH m2 (ks ++ [k2]) (j + 1)); cbn; try done; lia.
Qed.
End FirstWrite.

