(* ===== verification/RamdiskOps.v ===== *)
(** * RamdiskOps: the operations on open files

    Termination of [rd_read] and [rd_write] on every disk, the round trip of a
    first write and a read, seeking, and the test of file descriptors. *)

From S2P Require Import Prelude Memory Klib Mutex Context Ramdisk RamdiskBlocks RamdiskFile.

(** An empty regular file that is open at its start. *)
Record empty_file (m : mem) (cur fd f ino : Z) : Prop := EmptyFile {
  ef_fd : 0 <= fd < NUM_MAX_FD /\ t_fd m cur fd = f /\ f <> 0;
  ef_inode : f_inode_ptr m f = ino /\ i_type m ino = INODE_REG /\ i_size m ino = 0;
  ef_seek : f_seek_head m f = 0;
  ef_direct i : 0 <= i < UFS_NUM_DIRECT_PTRS -> i_direct m ino i = 0
}.

Lemma bad_fd_ok fd : 0 <= fd < NUM_MAX_FD -> bad_fd fd = false.
Proof. unfold bad_fd, NUM_MAX_FD. intros H. repeat case_Z; simpl; lia. Qed.

Lemma write_setup_first fuel m s f ino buf m1 :
  f_seek_head m f = 0 -> ensure_block fuel m s (ino + 16) = Some (m1, s) -> f_seek_head m1 f = 0 ->
  write_setup fuel m s f ino buf =
    Some (m1, s, Cursor buf 0 0 0 0 0 (i_double_indirect m ino) (i_indirect m ino) (i_direct m1 ino 0)).
Proof.
  intros E E1 E'. unfold write_setup, f_seek_head in *.
  replace (ino + 16 + 4 * (load32 m (f + 8) / UFS_BLOCK_SIZE)) with (ino + 16)
    by (rewrite E; change (0 / UFS_BLOCK_SIZE) with 0; lia).
  rewrite E1, E. cbn [mbind option_bind]. rewrite E'. reflexivity.
Qed.

(** The size becomes the position after the bytes. *)
Lemma write_finish_first fuel m s f ino num :
  fs_unlocked s -> (0 < fuel)%nat -> f_seek_head m f = 0 -> i_size m ino = 0 -> 0 <= num < 4294967296 ->
  write_finish fuel m s f ino num = Some (store32 (store32 m (f + 8) num) (ino + 4) num, s, 0).
Proof.
  intros Hs Hf E1 E2 Hn. unfold write_finish. rewrite E1, E2. change (u32 (0 - 0)) with 0.
  rewrite Z.gtb_ltb, (ltb_ge num 0) by lia. rewrite E1, Z.add_0_l, lock_fs_unlocked by done.
  cbn [mbind option_bind]. rewrite unlock_with_lock by done.
  unfold set_i_size, set_f_seek_head, f_seek_head. by rewrite load32_store32_eq, u32_small by lia.
Qed.

Lemma rd_fuel_direct : (Z.to_nat (UFS_NUM_DIRECT_PTRS - 0) <= rd_fuel)%nat.
Proof. unfold rd_fuel, UFS_NUM_DIRECT_PTRS. lia. Qed.


(** A write in a file that passes the tests. *)
Lemma rd_write_steps fuel cur m s fd f ino buf num m1 c m2 :
  empty_file m cur fd f ino -> buf <> 0 -> 0 < num <= UFS_BLOCK_SIZE * UFS_NUM_DIRECT_PTRS ->
  write_setup fuel m s f ino buf = Some (m1, s, c) ->
  write_loop fuel rd_fuel m1 s f ino num c = Some (m2, s) ->
  rd_write fuel cur m s fd buf num = write_finish fuel m2 s f ino num.
Proof.
  intros [(Hfd & Ef & Hf0) (Ei & Ety & Esz) Esk Hdir] Hbuf Hnum E1 E2.
  revert E2. unfold rd_write. generalize rd_fuel. intros n E2.
  rewrite bad_fd_ok, Ef by done. rewrite Ei, Ety, Esz, Esk, !c_true_nonzero by done. cbn [negb].
  unfold UFS_MAX_FILESIZE, UFS_BLOCK_SIZE, UFS_NUM_DIRECT_PTRS in *.
  rewrite Z.add_0_r, (ltb_ge num), Z.gtb_ltb, (u32_small num), (ltb_ge _ num), Z.eqb_refl by lia. cbn [orb negb].
  rewrite Z.add_0_l, Z.sub_0_r, s32_small by lia. rewrite E1. cbn [mbind option_bind].
  rewrite E2. done.
Qed.

(** What the write leaves: the bytes in the blocks, the blocks in the data area, size
    and position; the rest of the memory as it was. *)
Lemma first_write fuel cur s fd f ino buf num m :
  fs_unlocked s -> (0 < fuel)%nat -> 0 < __root_blk s -> __root_blk s + 0x40100 <= 4294967296 ->
  all_apart [bitmap_area s; data_area s; (ino, INODE_SIZE); (f, FILE_SIZE); (buf, num)] ->
  0 < num <= UFS_BLOCK_SIZE * UFS_NUM_DIRECT_PTRS -> buf <> 0 ->
  empty_file m cur fd f ino -> (8 <= length (free_blocks m s))%nat ->
  exists m', rd_write fuel cur m s fd buf num = Some (m', s, 0) /\ written ino buf m m' num /\
    (forall i, 0 <= i -> UFS_BLOCK_SIZE * i < num -> exists k,
       i_direct m' ino i = __root_blk s + UFS_BLOCK_SIZE * k /\ 0 <= k <= 1024) /\
    f_seek_head m' f = num /\ i_size m' ino = num /\
    (forall a, elsewhere s ino a -> off (f + 8) 4 a -> off (ino + 4) 4 a -> load8 m' a = load8 m a).
Proof.
  intros Hs Hfuel Hroot Hmax Hareas Hnum Hbuf [(Hfd & Ef & Hf0) (Ei & Ety & Esz) Esk Hdir] Hfree.
  assert (writing s ino m m [] (-1)) as H0.
  { split; [by intros a|done|done| |apply free_blocks_NoDup|unfold UFS_NUM_DIRECT_PTRS; lia].
    intros i Hi. apply Hdir. lia. }
  destruct (alloc_next fuel s f ino buf num m Hs Hfuel Hroot Hmax Hareas m [] (-1) H0)
    as (m1 & k & E1 & H1 & Hw1 & Hz1); [intros x Hx; lia|lia|by vm_compute|by rewrite Esk, Esz|].
  replace (-1 + 1) with 0 in * by lia. rewrite Z.mul_0_r, Z.add_0_r in *.
  destruct (write_loop_direct fuel s f ino buf num m Hs Hfuel Hroot Hmax Hareas Hnum rd_fuel m1 [k] 0
    (Cursor buf 0 0 0 0 0 (i_double_indirect m ino) (i_indirect m ino) (i_direct m1 ino 0)) H1)
    as (m2 & ks & j & E2 & H2 & Hw2 & Hj);
    [by rewrite Z.mul_0_r|by vm_compute|lia|done|apply rd_fuel_direct|
     by rewrite Z.add_0_r|done..|].
  assert (forall a, elsewhere s ino a -> load8 m2 a = load8 m a) as Hout by apply (wr_frame _ _ _ _ _ _ H2).
  assert (f_seek_head m2 f = 0 /\ f_seek_head m1 f = 0 /\ i_size m2 ino = 0) as (Esk2 & Esk1 & Esz2).
  { unfold f_seek_head, i_size in *. split_and!; [rewrite <- Esk|rewrite <- Esk|rewrite <- Esz];
      apply load32_ext; intros q Hq; rewrite <- Z.add_assoc.
    - apply Hout, (file_elsewhere _ _ _ _ _ Hareas). clear -Hq. lia.
    - apply (wr_frame _ _ _ _ _ _ H1), (file_elsewhere _ _ _ _ _ Hareas). clear -Hq. lia.
    - apply Hout, (inode_elsewhere _ _ _ _ _ Hareas). clear -Hq. lia. }
  assert (num < 4294967296) as Hsmall by (unfold UFS_BLOCK_SIZE, UFS_NUM_DIRECT_PTRS in *; lia).
  set (m3 := store32 (store32 m2 (f + 8) num) (ino + 4) num).
  assert (forall a, off (f + 8) 4 a -> off (ino + 4) 4 a -> load8 m3 a = load8 m2 a) as H3.
  { intros a Ha1 Ha2. unfold m3. by rewrite !load8_store32_ne. }
  assert (forall i, 0 <= i -> UFS_BLOCK_SIZE * i < num -> exists k,
    i_direct m3 ino i = i_direct m2 ino i /\
    i_direct m2 ino i = __root_blk s + UFS_BLOCK_SIZE * k /\ 0 <= k <= 1024) as Hblk.
  { intros i Hi Hi2. destruct (lookup_lt_is_Some_2 ks (Z.to_nat i)) as [k' Hk'].
    { pose proof (wr_length _ _ _ _ _ _ H2). unfold UFS_BLOCK_SIZE in *. lia. }
    exists k'. split; [|by apply (wr_direct _ _ _ _ _ _ H2)].
    apply load32_ext. intros q Hq. apply H3; [|clear -Hi Hq; unfold off; lia].
    pose proof (inode_file _ _ _ _ _ Hareas) as A.
    clear -Hi Hi2 Hnum Hq A. unfold UFS_BLOCK_SIZE, UFS_NUM_DIRECT_PTRS, off in *. lia. }
  exists m3. split_and!.
  - etrans; [eapply (rd_write_steps fuel cur m s fd f ino buf num m1);
      [by split|done|done| |exact E2]; by apply write_setup_first|].
    apply write_finish_first; [done|done|done|done|clear -Hnum Hsmall; lia].
  - intros x Hx. rewrite <- Hw2 by done. unfold file_byte, UFS_BLOCK_SIZE in *.
    assert (0 <= x / 0x100 /\ 0x100 * (x / 0x100) < num) as [Hq1 Hq2] by (clear -Hx; dlia).
    destruct (Hblk _ Hq1 Hq2) as (k' & -> & -> & Hk').
    pose proof (Z.mod_pos_bound x 0x100 ltac:(lia)) as Hmod.
    assert (in_data s (__root_blk s + 0x100 * k')) as Hb by (clear -Hk'; unfold in_data; lia).
    pose proof (data_off_inode _ _ _ _ _ Hareas _ _ Hb Hmod) as Ha1.
    pose proof (data_off_file _ _ _ _ _ Hareas _ _ Hb Hmod) as Ha2.
    apply H3; [clear -Ha2|clear -Ha1]; unfold off in *; lia.
  - intros i Hi Hi2. destruct (Hblk i Hi Hi2) as (k' & -> & E3 & Hk'). by exists k'.
  - pose proof (inode_file _ _ _ _ _ Hareas) as A. unfold f_seek_head, m3.
    rewrite load32_store32_ne by (clear -A; lia). rewrite load32_store32_eq by done. apply u32_small. lia.
  - unfold i_size, m3. rewrite load32_store32_eq by done. apply u32_small. lia.
  - intros a Ha Ha1 Ha2. rewrite H3 by done. by apply Hout.
Qed.

Lemma read_setup_first m f ino buf :
  f_seek_head m f = 0 ->
  read_setup m f ino buf =
    Cursor buf 0 0 0 0 0 (i_double_indirect m ino) (i_indirect m ino) (i_direct m ino 0).
Proof. intros E. unfold read_setup. rewrite E. reflexivity. Qed.

(** Reading a whole file of direct blocks from its start. *)
Lemma read_back cur m s fd f ino buf num :
  0 <= fd < NUM_MAX_FD -> t_fd m cur fd = f -> f <> 0 -> f_inode_ptr m f = ino ->
  i_type m ino = INODE_REG -> i_size m ino = num -> f_seek_head m f = 0 -> buf <> 0 ->
  0 < num <= UFS_BLOCK_SIZE * UFS_NUM_DIRECT_PTRS ->
  (forall i, 0 <= i -> UFS_BLOCK_SIZE * i < num ->
     buf + num <= i_direct m ino i \/ i_direct m ino i + UFS_BLOCK_SIZE <= buf) ->
  (buf + num <= ino \/ ino + 64 <= buf) -> (buf + num <= f \/ f + 20 <= buf) ->
  exists m', rd_read cur m s fd buf num = Some (m', s, 0) /\
    (forall x, 0 <= x < num -> load8 m' (buf + x) = file_byte m ino x) /\
    f_seek_head m' f = num.
Proof.
  intros Hfd Ef Hf0 Ei Ety Esz Esk Hbuf Hnum Hblk Hino Hf.
  destruct (read_loop_direct rd_fuel m ino num buf 0
    (Cursor buf 0 0 0 0 0 (i_double_indirect m ino) (i_indirect m ino) (i_direct m ino 0)))
    as (m1 & E1 & H1 & H2); [by unfold UFS_NUM_DIRECT_PTRS|by rewrite Z.mul_0_r|apply rd_fuel_direct|
      cbn; lia|done|done|done|done|done|done|lia|].
  rewrite !Z.mul_0_r, ?Z.add_0_r, Z.sub_0_r in *.
  assert (load32 m1 (f + 8) = 0) as Esk1.
  { unfold f_seek_head in Esk. rewrite <- Esk. apply load32_ext. intros q Hq. apply H2. unfold off. lia. }
  exists (set_f_seek_head m1 f num). split_and!.
  - revert E1. unfold rd_read. generalize rd_fuel. intros n E1.
    rewrite bad_fd_ok, Ef by done. rewrite Ei, Ety, Esz, Esk, !c_true_nonzero by done. cbn [negb].
    unfold UFS_BLOCK_SIZE, UFS_NUM_DIRECT_PTRS in *.
    rewrite Z.sub_0_r, (ltb_ge num), Z.gtb_ltb, (u32_small num), (ltb_ge _ num), Z.eqb_refl by lia.
    cbn [orb negb]. rewrite read_setup_first, E1 by done. cbn [mbind option_bind].
    unfold f_seek_head. by rewrite Esk1, Z.add_0_l.
  - intros x Hx. unfold set_f_seek_head. rewrite load8_store32_ne by (unfold off; lia). by apply H1.
  - unfold f_seek_head, set_f_seek_head. rewrite load32_store32_eq by done. apply u32_small.
    unfold UFS_BLOCK_SIZE, UFS_NUM_DIRECT_PTRS in *. lia.
Qed.

(** Seeking to the start. *)
Lemma rewind cur m s fd f ino :
  0 <= fd < NUM_MAX_FD -> t_fd m cur fd = f -> f <> 0 -> f_inode_ptr m f = ino -> i_type m ino = INODE_REG ->
  rd_lseek cur m s fd 0 SEEK_SET = (set_f_seek_head m f 0, s, 0).
Proof.
  intros Hfd Ef Hf0 Ei Ety. unfold rd_lseek. rewrite bad_fd_ok, Ef by done.
  by rewrite c_true_nonzero, Ei, Ety by done.
Qed.

(** What the layout of the round trip says of the second buffer and of the slot. *)
Lemma areas_rw s ino f buf num buf2 slot :
  all_apart [bitmap_area s; data_area s; (ino, INODE_SIZE); (f, FILE_SIZE); (buf, num); (buf2, num); (slot, 4)] ->
  (__root_blk s + 0x40100 <= buf2 \/ buf2 + num <= __root_blk s) /\
  (ino + 64 <= buf2 \/ buf2 + num <= ino) /\ (f + 20 <= buf2 \/ buf2 + num <= f) /\
  (__blk_bitmap s + 129 <= slot \/ slot + 4 <= __blk_bitmap s) /\
  (__root_blk s + 0x40100 <= slot \/ slot + 4 <= __root_blk s) /\
  (ino + 64 <= slot \/ slot + 4 <= ino) /\ (f + 20 <= slot \/ slot + 4 <= f).
Proof.
  cbn. unfold apart, bitmap_area, data_area, INODE_SIZE, FILE_SIZE. cbn. intros H.
  destruct_and! H. by split_and!.
Qed.

(** Every branch of a test that only refuses. *)
Lemma returns_if (b : bool) (m : mem) (s : rd_state) (e : Z) (r : option (mem * rd_state * Z)) :
  (exists m' v, r = Some (m', s, v)) -> exists m' v, (if b then Some (m, s, e) else r) = Some (m', s, v).
Proof. intros H. destruct b; [by eexists _, _|done]. Qed.

Lemma rd_read_total cur m s fd buf num_bytes :
  exists m' r, rd_read cur m s fd buf num_bytes = Some (m', s, r).
Proof.
  destruct (read_loop_total rd_fuel m (f_inode_ptr m (t_fd m cur fd)) num_bytes
    (read_setup m (t_fd m cur fd) (f_inode_ptr m (t_fd m cur fd)) buf)
    (read_setup_indices _ _ _ _) (rd_fuel_enough _ _ _ (read_setup_indices _ _ _ _))) as (m' & E).
  revert E. unfold rd_read. generalize rd_fuel. intros n E. do 5 apply returns_if. rewrite E.
  by eexists _, _.
Qed.

Lemma write_finish_total fuel m s f ino num :
  (0 < fuel)%nat -> fs_unlocked s -> exists m' r, write_finish fuel m s f ino num = Some (m', s, r).
Proof.
  intros Hf Hs. unfold write_finish. rewrite lock_fs_unlocked by done. cbn [mbind option_bind].
  rewrite unlock_with_lock by done. by eexists _, _.
Qed.

Lemma rd_write_total fuel cur m s fd buf num_bytes :
  (0 < fuel)%nat -> fs_unlocked s ->
  exists m' r, rd_write fuel cur m s fd buf num_bytes = Some (m', s, r).
Proof.
  intros Hf Hs.
  destruct (write_setup_total fuel Hf s Hs m (t_fd m cur fd) (f_inode_ptr m (t_fd m cur fd)) buf)
    as (m1 & c & E1 & Hc).
  destruct (write_loop_total fuel Hf s Hs rd_fuel m1 (t_fd m cur fd) (f_inode_ptr m (t_fd m cur fd))
    (s32 (f_seek_head m (t_fd m cur fd) + num_bytes - i_size m (f_inode_ptr m (t_fd m cur fd)))) c
    Hc (rd_fuel_enough _ _ _ Hc)) as (m2 & E).
  revert E. unfold rd_write. generalize rd_fuel. intros n E. do 5 apply returns_if. rewrite E1.
  cbn [mbind option_bind]. rewrite E. by apply write_finish_total.
Qed.

(** ** Properties *)

(** C4: a file keeps what is written.  In an empty regular file that is open at its
    start, on a disk with eight free blocks, let up to 2048 bytes be written (those that
    the direct pointers reach), the position set back and as many bytes read to another
    place.  All three calls succeed, the bytes read are those that were written, and
    the size is their number. *)
Theorem write_read_roundtrip fuel cur s m fd f ino buf buf2 num :
  fs_unlocked s -> (0 < fuel)%nat -> 0 < __root_blk s -> __root_blk s + 0x40100 <= 4294967296 ->
  all_apart [bitmap_area s; data_area s; (ino, INODE_SIZE); (f, FILE_SIZE); (buf, num); (buf2, num);
             (cur + 40 + 4 * fd, 4)] ->
  0 < num <= UFS_BLOCK_SIZE * UFS_NUM_DIRECT_PTRS -> buf <> 0 -> buf2 <> 0 ->
  empty_file m cur fd f ino -> (8 <= length (free_blocks m s))%nat ->
  exists m1 m2 m3,
    rd_write fuel cur m s fd buf num = Some (m1, s, 0) /\
    rd_lseek cur m1 s fd 0 SEEK_SET = (m2, s, 0) /\
    rd_read cur m2 s fd buf2 num = Some (m3, s, 0) /\
    i_size m1 ino = num /\ load_bytes m3 buf2 (Z.to_nat num) = load_bytes m buf (Z.to_nat num).
Proof.
  intros Hs Hfuel Hroot Hmax Hareas Hnum Hb Hb2 Hef Hfree.
  assert (all_apart [bitmap_area s; data_area s; (ino, INODE_SIZE); (f, FILE_SIZE); (buf, num)]) as Hareas1.
  { cbn in Hareas |- *. destruct_and! Hareas. by split_and!. }
  destruct (areas_rw s ino f buf num buf2 _ Hareas) as (R1 & R2 & R3 & S1 & S2 & S3 & S4). clear Hareas.
  destruct (first_write fuel cur s fd f ino buf num m Hs Hfuel Hroot Hmax Hareas1 Hnum Hb Hef Hfree)
    as (m1 & E1 & Hw & Hblk & Esk1 & Esz1 & Hout). unfold elsewhere in Hout.
  destruct Hef as [(Hfd & Ef & Hf0) (Ei & Ety & Esz) Esk Hdir].
  pose proof (areas_apart s f ino buf num Hareas1) as (A1 & A2 & A3 & _ & A5 & A6 & _ & A8 & _). clear Hareas1.
  assert (t_fd m1 cur fd = f) as Ef1.
  { rewrite <- Ef. apply load32_ext. clear A1 A2 A3 A5 A6 A8 R1 R2 R3. intros q Hq. apply Hout; unfold off; lia. }
  assert (f_inode_ptr m1 f = ino) as Ei1.
  { rewrite <- Ei. apply load32_ext. clear R1 R2 R3 S1 S2 S3 S4 A1 A2 A5. intros q Hq. apply Hout; unfold off; lia. }
  assert (i_type m1 ino = INODE_REG) as Ety1.
  { rewrite <- Ety. apply load32_ext. clear R1 R2 R3 S1 S2 S3 S4 A1 A3 A6. intros q Hq. apply Hout; unfold off; lia. }
  set (m2 := set_f_seek_head m1 f 0). clear Hout.
  assert (forall a, a + 4 <= f + 8 \/ f + 12 <= a -> load32 m2 a = load32 m1 a) as H2.
  { intros a Ha. apply load32_store32_ne. lia. }
  assert (forall i, 0 <= i -> UFS_BLOCK_SIZE * i < num -> i_direct m2 ino i = i_direct m1 ino i) as Hd2.
  { intros i Hi Hi2. apply H2. clear -Hi Hi2 Hnum A8. unfold UFS_BLOCK_SIZE, UFS_NUM_DIRECT_PTRS in *. lia. }
  assert (forall x, 0 <= x < num -> file_byte m2 ino x = load8 m (buf + x)) as Hfb.
  { intros x Hx. rewrite <- Hw by done. unfold file_byte, UFS_BLOCK_SIZE in *.
    assert (0 <= x / 0x100 /\ 0x100 * (x / 0x100) < num) as [Hq1 Hq2] by (clear -Hx; dlia).
    rewrite Hd2 by done. destruct (Hblk _ Hq1 Hq2) as (k & -> & Hk).
    pose proof (Z.mod_pos_bound x 0x100 ltac:(lia)) as Hmod. apply load8_store32_ne.
    clear -Hk Hmod A6. unfold off. lia. }
  destruct (read_back cur m2 s fd f ino buf2 num) as (m3 & E3 & H3 & _); try done.
  - unfold t_fd. rewrite H2 by (clear -S4; lia). exact Ef1.
  - unfold f_inode_ptr. rewrite H2 by (clear; lia). exact Ei1.
  - unfold i_type. rewrite H2 by (clear -A8; lia). exact Ety1.
  - unfold i_size. rewrite H2 by (clear -A8; lia). exact Esz1.
  - exact (load32_store32_eq m1 (f + 8) (f + 8) 0 eq_refl).
  - intros i Hi Hi2. rewrite Hd2 by done. destruct (Hblk i Hi Hi2) as (k & -> & Hk).
    clear -Hk R1 Hnum. unfold UFS_BLOCK_SIZE in *. lia.
  - clear -R2. lia.
  - clear -R3. lia.
  - exists m1, m2, m3. split_and!;
      [exact E1|exact (rewind cur m1 s fd f ino Hfd Ef1 Hf0 Ei1 Ety1)|exact E3|exact Esz1|].
    apply load_bytes_ext. intros i Hi. rewrite Z2Nat.id in Hi by (clear -Hnum; lia).
    rewrite H3, Hfb by exact Hi. reflexivity.
Qed.

(** A file with inode 1, opened as descriptor 3, and three bytes to write. *)
Definition rw_disk : mem :=
  let m := set_i_type fresh_disk 0x104040 INODE_REG in
  let m := set_f_inode_ptr m 0x5000 0x104040 in
  let m := set_fd m 0x6000 3 0x5000 in
  store_bytes m 0x7000 [7; 8; 9].

Lemma write_read_roundtrip_witness :
  exists m1 m2 m3,
    rd_write 1 0x6000 rw_disk (rd_at 0x100000) 3 0x7000 3 = Some (m1, rd_at 0x100000, 0) /\
    rd_lseek 0x6000 m1 (rd_at 0x100000) 3 0 SEEK_SET = (m2, rd_at 0x100000, 0) /\
    rd_read 0x6000 m2 (rd_at 0x100000) 3 0x8000 3 = Some (m3, rd_at 0x100000, 0) /\
    load_bytes m3 0x8000 3 = [7; 8; 9].
Proof.
  destruct (write_read_roundtrip 1 0x6000 (rd_at 0x100000) rw_disk 3 0x5000 0x104040 0x7000 0x8000 3)
    as (m1 & m2 & m3 & E1 & E2 & E3 & _ & E4).
  - reflexivity.
  - lia.
  - by vm_compute.
  - by vm_compute.
  - by apply (bool_decide_unpack _).
  - by vm_compute.
  - done.
  - done.
  - split; [by vm_compute|by vm_compute|by vm_compute|].
    intros i Hi. assert (forallb (fun i => i_direct rw_disk 0x104040 i =? 0) (seqZ 0 8) = true) as H by (by vm_compute).
    rewrite List.forallb_forall in H. apply Z.eqb_eq, H, list_elem_of_In, elem_of_seqZ. exact Hi.
  - assert ((8 <=? length (free_blocks rw_disk (rd_at 0x100000)))%nat = true) as H by (by vm_compute).
    by apply Nat.leb_le.
  - exists m1, m2, m3. split_and!; [exact E1|exact E2|exact E3|]. change 3%nat with (Z.to_nat 3). rewrite E4. by vm_compute.
Defined.

(** C24: reading and writing end.  On every disk and for every descriptor, buffer and
    length, the loops of [rd_read] end within [rd_fuel] blocks, and those of [rd_write]
    too when the lock of the disk is free, which it is again afterwards. *)
Theorem rd_io_terminates fuel cur m s fd buf num_bytes :
  (0 < fuel)%nat -> fs_unlocked s ->
  (exists m' r, rd_read cur m s fd buf num_bytes = Some (m', s, r)) /\
  (exists m' r, rd_write fuel cur m s fd buf num_bytes = Some (m', s, r)).
Proof.
  intros Hf Hs. split; [apply rd_read_total|by apply rd_write_total].
Qed.

Lemma rd_io_terminates_witness :
  exists m' r, rd_write 1 0x6000 rw_disk (rd_at 0x100000) 3 0x7000 0 = Some (m', rd_at 0x100000, r).
Proof.
  destruct (rd_io_terminates 1 0x6000 rw_disk (rd_at 0x100000) 3 0x7000 0) as [_ H]; [lia|reflexivity|exact H].
Defined.

(** What a seek asks for, as an offset from the start of the file. *)
Definition seek_target (m : mem) (f ino offset whence : Z) : option Z :=
  if whence =? SEEK_SET then Some offset
  else if whence =? SEEK_CUR then Some (f_seek_head m f + offset)
  else if whence =? SEEK_END then Some (i_size m ino)
  else None.



(** C28: file descriptors.  Negative descriptors, those above 16 and closed ones are
    refused by every call with the same error and without any effect.  But 16 itself is
    let through although the table has sixteen slots: the value used as the open file
    is the link to the previous task in the queue, and closing 16 clears that link. *)
Theorem bad_descriptor cur fuel kfree m s fd buf num_bytes offset whence :
  (fd < 0 \/ NUM_MAX_FD < fd \/ t_fd m cur fd = 0 -> 
     rd_close cur kfree m s fd = Some (m, s, EBADF) /\
     rd_lseek cur m s fd offset whence = (m, s, EBADF) /\
     rd_read cur m s fd buf num_bytes = Some (m, s, EBADF) /\
     rd_write fuel cur m s fd buf num_bytes = Some (m, s, EBADF) /\
     rd_readdir cur m s fd buf = (m, s, EBADF)) /\
  bad_fd 16 = false /\ t_fd m cur 16 = t_prev m cur /\
  (forall m1 m2, t_prev m cur <> 0 -> kfree m (f_path m (t_prev m cur)) = Some m1 ->
     kfree m1 (t_prev m cur) = Some m2 ->
     exists m', rd_close cur kfree m s 16 = Some (m', s, 0) /\ t_prev m' cur = 0).
Proof.
  split; [|split; [done|split]].
  - intros H. assert (bad_fd fd = true \/ bad_fd fd = false /\ c_true (t_fd m cur fd) = false) as Hb.
    { destruct (bad_fd fd) eqn:E; [by left|right]. split; [done|].
      unfold bad_fd in E. apply orb_false_iff in E as [E1 E2]. rewrite Z.gtb_ltb in E2.
      apply Z.ltb_ge in E1, E2. destruct H as [H|[H|H]]; [lia|lia|by rewrite H]. }
    unfold rd_close, rd_lseek, rd_read, rd_write, rd_readdir.
    destruct Hb as [-> | [-> ->]]; by split_and!.
  - unfold t_fd, t_prev. f_equal. lia.
  - intros m1 m2 Hp E1 E2. assert (t_fd m cur 16 = t_prev m cur) as Et by (unfold t_fd, t_prev; f_equal; lia).
    unfold rd_close. change (bad_fd 16) with false. cbv iota. rewrite Et, c_true_nonzero by done. cbn [negb].
    rewrite E1. cbn [mbind option_bind]. rewrite E2. cbn [mbind option_bind].
    eexists. split; [done|]. unfold t_prev, set_fd. rewrite load32_store32_eq by lia. done.
Qed.

Lemma bad_descriptor_witness :
  rd_read 0x6000 rw_disk (rd_at 0x100000) 17 0x8000 1 = Some (rw_disk, rd_at 0x100000, EBADF).
Proof.
  destruct (bad_descriptor 0x6000 1 (fun m _ => Some m) rw_disk (rd_at 0x100000) 17 0x8000 1 0 0) as [H _].
  destruct H as (_ & _ & H & _); [right; left; by vm_compute|exact H].
Defined.
