(* ===== verification/RamdiskDir.v ===== *)
(** * RamdiskDir: reading directories

    [rd_readdir] on an open directory: one call, and the sixteen calls of a whole
    pass over the directory block. *)

From S2P Require Import Prelude Memory Klib Mutex Context Ramdisk RamdiskBlocks RamdiskFile RamdiskOps.

(** Descriptor [fd] of task [cur] is the directory [ino], whose block is [dir], open as
    the file object [f]; the caller's buffer [buf] and the objects are apart. *)
Record open_dir (m : mem) (cur fd f ino dir buf : Z) : Prop := OpenDir {
  od_fd : 0 <= fd < NUM_MAX_FD /\ t_fd m cur fd = f /\ f <> 0;
  od_inode : f_inode_ptr m f = ino /\ i_type m ino = INODE_DIR /\ i_dirblock_ptr m ino = dir;
  od_block : 0 < dir /\ dir + UFS_BLOCK_SIZE <= 4294967296;
  od_apart : all_apart [(buf, DIRENT_SIZE); (f, FILE_SIZE); (ino, INODE_SIZE); (dir, UFS_BLOCK_SIZE); (cur + 40 + 4 * fd, 4)]
}.

(** The bytes of a directory entry. *)
Definition entry_bytes (m : mem) (dir p : Z) : list Z := load_bytes m (dirent dir p) (Z.to_nat DIRENT_SIZE).

Lemma skip_null_stays dir p n :
  0 < dir -> dir + UFS_BLOCK_SIZE <= 4294967296 -> 0 <= p <= UFS_MAX_FILE_IN_DIR -> skip_null n dir p = p.
Proof.
  unfold UFS_BLOCK_SIZE, UFS_MAX_FILE_IN_DIR. intros H1 H2 Hp. destruct n as [|n]; [done|]. cbn [skip_null].
  destruct (Z.ltb_spec p UFS_MAX_FILE_IN_DIR) as [Hlt|]; [|by rewrite andb_false_r].
  unfold UFS_MAX_FILE_IN_DIR, dirent, DIRENT_SIZE in *. by rewrite u32_small, eqb_ne by lia.
Qed.

Lemma dir_pos_set m f p : 0 <= p <= UFS_MAX_FILE_IN_DIR -> f_dir_pos (set_f_dir_pos m f p) f = p.
Proof.
  unfold UFS_MAX_FILE_IN_DIR, f_dir_pos, set_f_dir_pos. intros Hp.
  rewrite load32_store32_eq, s32_u32 by done. apply s32_small. lia.
Qed.

Section OneCall.
Context (cur fd f ino dir buf : Z).
Local Abbreviation is_dir m := (open_dir m cur fd f ino dir buf).

(** The bytes that a call may write. *)
Definition readdir_writes (a : Z) : Prop := buf <= a < buf + 16 \/ f + 4 <= a < f + 8.

Lemma open_dir_frame m m' : is_dir m -> same_on (fun a => ~ readdir_writes a) m m' -> is_dir m'.
Proof.
  intros [(Hfd & Ef & Hf) (Ei & Ety & Ed) Hd Ha] Hs. cbn in Ha. unfold apart, FILE_SIZE, INODE_SIZE, DIRENT_SIZE in Ha.
  cbn in Ha. destruct_and! Ha.
  split; [split; [done|split; [|done]]|split_and!|done|].
  - rewrite <- Ef. apply (same_on_load32 _ _ _ _ Hs). intros i Hi. unfold readdir_writes. lia.
  - rewrite <- Ei. apply (same_on_load32 _ _ _ _ Hs). intros i Hi. unfold readdir_writes. lia.
  - rewrite <- Ety. apply (same_on_load32 _ _ _ _ Hs). intros i Hi. unfold readdir_writes. lia.
  - rewrite <- Ed. apply (same_on_load32 _ _ _ _ Hs). intros i Hi. unfold readdir_writes. lia.
  - cbn. unfold apart, FILE_SIZE, INODE_SIZE, DIRENT_SIZE. cbn. by split_and!.
Qed.

Lemma set_dir_pos_writes m v : same_on (fun a => ~ readdir_writes a) m (set_f_dir_pos m f v).
Proof.
  unfold set_f_dir_pos. apply store32_same_on; [done|]. intros a Ha. unfold readdir_writes, off in *. lia.
Qed.

Lemma memcpy_writes m src : same_on (fun a => ~ readdir_writes a) m (memcpy m buf src DIRENT_SIZE).
Proof.
  eapply same_on_weaken; [|by apply memcpy_same_off]. intros a Ha. unfold readdir_writes, off, DIRENT_SIZE in *. lia.
Qed.

Lemma entry_frame m m' p :
  is_dir m -> 0 <= p < UFS_MAX_FILE_IN_DIR -> same_on (fun a => ~ readdir_writes a) m m' ->
  entry_bytes m' dir p = entry_bytes m dir p.
Proof.
  intros [_ _ _ Ha] Hp Hs. cbn in Ha. unfold apart, UFS_BLOCK_SIZE, UFS_MAX_FILE_IN_DIR, FILE_SIZE, DIRENT_SIZE in *.
  cbn in Ha. destruct_and! Ha. apply load_bytes_ext. intros i Hi. apply Hs.
  unfold readdir_writes, dirent, DIRENT_SIZE in *. lia.
Qed.

(** One call at position [p]. *)
Lemma readdir_step m s p :
  is_dir m -> f_dir_pos m f = p -> 0 <= p < UFS_MAX_FILE_IN_DIR ->
  exists m', rd_readdir cur m s fd buf = (m', s, b2z (p =? UFS_MAX_FILE_IN_DIR - 1)) /\ is_dir m' /\
    f_dir_pos m' f = (p + 1) mod UFS_MAX_FILE_IN_DIR /\ load_bytes m' buf 16 = entry_bytes m dir p /\
    same_on (fun a => ~ readdir_writes a) m m'.
Proof.
  intros O Hpos Hp. pose proof O as [(Hfd & Ef & Hf) (Ei & Ety & Ed) [Hd1 Hd2] Ha].
  unfold rd_readdir. rewrite bad_fd_ok, Ef, c_true_nonzero, Ei, Ety by done.
  change (INODE_DIR =? INODE_DIR) with true. cbn [negb]. rewrite Ed, Hpos.
  rewrite skip_null_stays by (done || lia). set (m1 := set_f_dir_pos m f p).
  assert (same_on (fun a => ~ readdir_writes a) m m1) as W1 by apply set_dir_pos_writes.
  assert (f_dir_pos m1 f = p) as E1 by (apply dir_pos_set; lia).
  rewrite !E1, (eqb_ne p UFS_MAX_FILE_IN_DIR) by lia. set (m2 := set_f_dir_pos m1 f (p + 1)).
  assert (same_on (fun a => ~ readdir_writes a) m m2) as W2 by (transitivity m1; [done|apply set_dir_pos_writes]).
  set (m3 := memcpy m2 buf (dirent dir p) DIRENT_SIZE).
  assert (same_on (fun a => ~ readdir_writes a) m m3) as W3 by (transitivity m2; [done|apply memcpy_writes]).
  assert (f_dir_pos m3 f = p + 1) as E3.
  { rewrite <- (dir_pos_set m1 f (p + 1)) by lia. fold m2. unfold f_dir_pos. f_equal.
    eapply same_on_load32; [by apply memcpy_same_off|]. cbn in Ha. unfold apart, FILE_SIZE in Ha. cbn in Ha.
    destruct Ha as [[Ha _] _]. unfold off. lia. }
  assert (load_bytes m3 buf 16 = entry_bytes m dir p) as B3.
  { rewrite <- (entry_frame m m2 p O Hp W2). apply load_bytes_ext. intros i Hi. unfold m3.
    rewrite load8_memcpy, decide_True by (unfold DIRENT_SIZE in *; lia). f_equal. lia. }
  rewrite !E3, skip_null_stays by (done || lia). set (m4 := set_f_dir_pos m3 f (p + 1)).
  assert (f_dir_pos m4 f = p + 1) as -> by (apply dir_pos_set; lia).
  assert (forall m', f_dir_pos m' f = (p + 1) mod UFS_MAX_FILE_IN_DIR ->
    same_on (fun a => ~ readdir_writes a) m m' -> same_off (f + 4) 4 m3 m' ->
    is_dir m' /\ f_dir_pos m' f = (p + 1) mod UFS_MAX_FILE_IN_DIR /\ load_bytes m' buf 16 = entry_bytes m dir p /\
    same_on (fun a => ~ readdir_writes a) m m') as Hend.
  { intros m' H1 H2 H3. split_and!; [by eapply open_dir_frame|done| |done]. rewrite <- B3.
    apply load_bytes_ext. intros i Hi. apply H3. cbn in Ha. unfold apart, FILE_SIZE, DIRENT_SIZE in Ha. cbn in Ha.
    destruct Ha as [[Ha _] _]. unfold off. lia. }
  assert (same_on (fun a => ~ readdir_writes a) m m4) as W4 by (transitivity m3; [done|apply set_dir_pos_writes]).
  assert (same_off (f + 4) 4 m3 m4) as S4 by apply store32_same_off.
  unfold UFS_MAX_FILE_IN_DIR in *. destruct (Z.eqb_spec (p + 1) 16) as [E|E].
  - exists (set_f_dir_pos m4 f 0). split; [by replace p with 15 by lia|]. apply Hend.
    + rewrite dir_pos_set by (unfold UFS_MAX_FILE_IN_DIR; lia). by rewrite E.
    + transitivity m4; [done|apply set_dir_pos_writes].
    + transitivity m4; [done|apply store32_same_off].
  - exists m4. split; [by rewrite eqb_ne by lia|]. apply Hend; [|done|done].
    rewrite Z.mod_small by lia. apply dir_pos_set. unfold UFS_MAX_FILE_IN_DIR. lia.
Qed.
End OneCall.

(** Consecutive calls with the same buffer: what each returns and leaves there. *)
Fixpoint readdir_calls (n : nat) (cur : Z) (m : mem) (s : rd_state) (fd buf : Z) : mem * list (Z * list Z) :=
  match n with
  | O => (m, [])
  | S k =>
      let '(m, s, r) := rd_readdir cur m s fd buf in
      let entry := load_bytes m buf 16 in
      let '(m, l) := readdir_calls k cur m s fd buf in
      (m, (r, entry) :: l)
  end.

Lemma readdir_calls_spec cur fd f ino dir buf s m0 n m p :
  open_dir m0 cur fd f ino dir buf -> open_dir m cur fd f ino dir buf ->
  same_on (fun a => ~ readdir_writes f buf a) m0 m -> f_dir_pos m f = p -> 0 <= p -> p + Z.of_nat n = 16 ->
  (0 < n)%nat ->
  exists m', readdir_calls n cur m s fd buf =
      (m', (fun k => (b2z (k =? 15), entry_bytes m0 dir k)) <$> seqZ p (Z.of_nat n)) /\
    f_dir_pos m' f = 0 /\ open_dir m' cur fd f ino dir buf /\ same_on (fun a => ~ readdir_writes f buf a) m0 m'.
Proof.
  intros O0. revert m p. induction n as [|n IH]; intros m p O Hs Hpos Hp Hn H0; [lia|]. cbn [readdir_calls].
  destruct (readdir_step cur fd f ino dir buf m s p O Hpos) as (m1 & -> & O1 & Hp1 & B1 & S1);
    [unfold UFS_MAX_FILE_IN_DIR; lia|].
  rewrite B1. rewrite (entry_frame cur fd f ino dir buf m0 m p) by (done || unfold UFS_MAX_FILE_IN_DIR; lia).
  unfold UFS_MAX_FILE_IN_DIR in *. assert (same_on (fun a => ~ readdir_writes f buf a) m0 m1) as S01 by by transitivity m.
  rewrite (seqZ_cons p) by lia. rewrite fmap_cons. replace (Z.pred (Z.of_nat (S n))) with (Z.of_nat n) by lia.
  destruct n as [|n].
  - exists m1. replace p with 15 in * by lia. by split_and!.
  - destruct (IH m1 (Z.succ p)) as (m2 & -> & H1 & H2 & H3); [done|done| |lia|lia|lia|by exists m2].
    rewrite Hp1, Z.mod_small by lia. lia.
Qed.


(** The root of the disk of RamdiskBlocks.v, with one entry, open as descriptor 3. *)
Definition dir_disk : mem :=
  let m := store16 (store8 fresh_disk 0x164010 98) 0x16401e 3 in
  let m := set_fd m 0x6000 3 0x5000 in
  set_f_dir_pos (set_f_inode_ptr m 0x5000 0x104000) 0x5000 0.

