(* ===== verification/Kvideo.v ===== *)
(** * Kvideo: the text screen of src/kvideo.c

    The cursor and the attribute are static variables, the screen is the
    4000 bytes of video memory.  [printf] reads its format, its variadic words
    and its strings from memory, and formats numbers in a local buffer. *)

From Stdlib Require Import Strings.Ascii Strings.String.
From S2P Require Import Prelude Memory Klib.

(** ** Screen *)

Definition COLUMNS : Z := 80.
Definition LINES : Z := 25.
Definition VIDEO : Z := 0xB8000.

(** The static variables of the file. *)
Record video_state := VideoState {
  ATTRIBUTE : Z;
  xpos : Z;
  ypos : Z;
  video : Z
}.

(** Their values before the first [cls]. *)
Definition video_init : video_state := VideoState 0x07 0 0 0.

Definition set_xy (v : video_state) (x y : Z) : video_state :=
  VideoState (ATTRIBUTE v) x y (video v).

Definition set_attribute (v : video_state) (a : Z) : video_state :=
  VideoState (s8 a) (xpos v) (ypos v) (video v).

Fixpoint cls_loop (n : nat) (m : mem) (a : Z) : mem :=
  match n with
  | O => m
  | S k => cls_loop k (store8 m a 0) (a + 1)
  end.

Definition cls (m : mem) (v : video_state) : mem * video_state :=
  (cls_loop (Z.to_nat (COLUMNS * LINES * 2)) m VIDEO, VideoState (ATTRIBUTE v) 0 0 VIDEO).

(** The address of the character at column [x] of line [y]. *)
Definition cell (v : video_state) (x y : Z) : Z := video v + (x + y * COLUMNS) * 2.

(** [while (xpos < COLUMNS)]: [n] columns are left. *)
Fixpoint blank_loop (n : nat) (m : mem) (v : video_state) (x : Z) : mem :=
  match n with
  | O => m
  | S k => blank_loop k (store8 m (cell v x (ypos v)) (Z.land 32 0xFF)) v (x + 1)
  end.

(** The code at the label [newline]. *)
Definition newline (m : mem) (v : video_state) : mem * video_state :=
  let m := blank_loop (Z.to_nat (COLUMNS - xpos v)) m v (xpos v) in
  let y := ypos v + 1 in
  (m, set_xy v 0 (if y >=? LINES then 0 else y)).

Definition putchar (m : mem) (v : video_state) (c : Z) : mem * video_state :=
  if (c =? 10) || (c =? 13) then newline m v
  else
    let m := store8 m (cell v (xpos v) (ypos v)) (Z.land c 0xFF) in
    let m := store8 m (cell v (xpos v) (ypos v) + 1) (ATTRIBUTE v) in
    let v := set_xy v (xpos v + 1) (ypos v) in
    if xpos v >=? COLUMNS then newline m v else (m, v).

(** ** Colours *)

Definition DBLACK : Z := 0x0.
Definition DBLUE : Z := 0x1.
Definition DGREEN : Z := 0x2.
Definition DCYAN : Z := 0x3.
Definition DRED : Z := 0x4.
Definition DPINK : Z := 0x5.
Definition ORANGE : Z := 0x6.
Definition LGREY : Z := 0x7.
Definition DGREY : Z := 0x8.
Definition LBLUE : Z := 0x9.
Definition LGREEN : Z := 0xA.
Definition LCYAN : Z := 0xB.
Definition LRED : Z := 0xC.
Definition LPINK : Z := 0xD.
Definition YELLOW : Z := 0xE.
Definition WHITE : Z := 0xF.

Definition COLOR_LUT : list Z :=
  [DBLACK; DRED; DGREEN; ORANGE; DBLUE; DPINK; DCYAN; LGREY; DGREY;
   LRED; LGREEN; YELLOW; LBLUE; LPINK; LCYAN; WHITE].

Definition color_lut (i : Z) : Z := default 0 (COLOR_LUT !! Z.to_nat i).

Definition __terminal_change_attrib (v : video_state) (code : Z) : video_state :=
  if (code >=? 30) && (code <=? 37) then
    set_attribute v (Z.land (ATTRIBUTE v) 0xF0 + color_lut (code - 30))
  else if (code >=? 40) && (code <=? 47) then
    set_attribute v (Z.land (ATTRIBUTE v) 0x0F + Z.shiftl (color_lut (code - 40)) 4)
  else if (code >=? 90) && (code <=? 97) then
    set_attribute v (Z.land (ATTRIBUTE v) 0xF0 + color_lut (code - 82))
  else if (code >=? 100) && (code <=? 107) then
    set_attribute v (Z.land (ATTRIBUTE v) 0x0F + Z.shiftl (color_lut (code - 92)) 4)
  else v.

(** ** Literals *)

(** The bytes of a string literal. *)
Definition chars (s : string) : list Z := (fun c => Z.of_N (N_of_ascii c)) <$> list_ascii_of_string s.

(** A literal that ends with a newline. *)
Definition line (l : list Z) : list Z := l ++ [10].

(** An escape sequence that sets colours. *)
Definition sgr (code : string) : list Z := [27; 91] ++ chars code ++ [109].

Definition FG_COLOR_RESET : list Z := sgr "7".
Definition FG_COLOR_BLACK : list Z := sgr "30".
Definition FG_COLOR_DARK_RED : list Z := sgr "31".
Definition FG_COLOR_DARK_GREEN : list Z := sgr "32".
Definition FG_COLOR_ORANGE : list Z := sgr "33".
Definition FG_COLOR_DARK_BLUE : list Z := sgr "34".
Definition FG_COLOR_DARK_PINK : list Z := sgr "35".
Definition FG_COLOR_DARK_CYAN : list Z := sgr "36".
Definition FG_COLOR_LIGHT_GREY : list Z := sgr "37".
Definition FG_COLOR_DARK_GREY : list Z := sgr "90".
Definition FG_COLOR_LIGHT_RED : list Z := sgr "91".
Definition FG_COLOR_LIGHT_GREEN : list Z := sgr "92".
Definition FG_COLOR_YELLOW : list Z := sgr "93".
Definition FG_COLOR_LIGHT_BLUE : list Z := sgr "94".
Definition FG_COLOR_LIGHT_PINK : list Z := sgr "95".
Definition FG_COLOR_LIGHT_CYAN : list Z := sgr "96".
Definition FG_COLOR_WHITE : list Z := sgr "97".
Definition BG_COLOR_BLACK : list Z := sgr "40".
Definition BG_COLOR_DARK_RED : list Z := sgr "41".
Definition BG_COLOR_DARK_GREEN : list Z := sgr "42".
Definition BG_COLOR_ORANGE : list Z := sgr "43".
Definition BG_COLOR_DARK_BLUE : list Z := sgr "44".
Definition BG_COLOR_DARK_PINK : list Z := sgr "45".
Definition BG_COLOR_DARK_CYAN : list Z := sgr "46".
Definition BG_COLOR_LIGHT_GREY : list Z := sgr "47".
Definition BG_COLOR_DARK_GREY : list Z := sgr "100".
Definition BG_COLOR_LIGHT_RED : list Z := sgr "101".
Definition BG_COLOR_LIGHT_GREEN : list Z := sgr "102".
Definition BG_COLOR_YELLOW : list Z := sgr "103".
Definition BG_COLOR_LIGHT_BLUE : list Z := sgr "104".
Definition BG_COLOR_LIGHT_PINK : list Z := sgr "105".
Definition BG_COLOR_LIGHT_CYAN : list Z := sgr "106".
Definition BG_COLOR_WHITE : list Z := sgr "107".
Definition COLOR_RESET : list Z := sgr "40;97".

(** A call of a variadic function: the words go to the outgoing arguments. *)
Fixpoint push_words (m : mem) (a : Z) (ws : list Z) : mem :=
  match ws with
  | [] => m
  | w :: ws => push_words (store32 m a w) (a + 4) ws
  end.

(** ** Formatted output *)

Section Printf.
(** [fuel] bounds the loops over strings; [buf]: the local buffer of 20 bytes;
    [null_str]: the literal "(null)". *)
Context (fuel : nat) (buf null_str : Z).

(** [while ((c != ';') && (c != 'm'))]: the last character, the code, the format. *)
Fixpoint escape_code (n : nat) (m : mem) (format c code : Z) : option (Z * Z * Z) :=
  match n with
  | O => None
  | S k =>
      if negb (c =? 59) && negb (c =? 109) then
        let code := s32 (Z.shiftl code 3 + Z.shiftl code 1 + (c - 48)) in
        escape_code k m (format + 1) (s8 (load8 m format)) code
      else Some (c, code, format)
  end.

(** [while (c != 'm')] *)
Fixpoint escape (n : nat) (m : mem) (v : video_state) (format c : Z) : option (video_state * Z) :=
  match n with
  | O => None
  | S k =>
      if negb (c =? 109) then
        '(c, code, format) ← escape_code fuel m (format + 1) (s8 (load8 m format)) 0;
        escape k m (__terminal_change_attrib v code) format c
      else Some (v, format)
  end.

Fixpoint put_pad (n : nat) (m : mem) (v : video_state) (ch : Z) : mem * video_state :=
  match n with
  | O => (m, v)
  | S k => let '(m, v) := putchar m v ch in put_pad k m v ch
  end.

(** [while ( *p ) putchar( *p++ )] *)
Fixpoint put_string (n : nat) (m : mem) (v : video_state) (p : Z) : option (mem * video_state) :=
  match n with
  | O => None
  | S k =>
      let c := s8 (load8 m p) in
      if c_true c then let '(m, v) := putchar m v c in put_string k m v (p + 1)
      else Some (m, v)
  end.

(** The code at the label [string]. *)
Definition printf_string (m : mem) (v : video_state) (p pad : Z) (pad0 : bool) :
  option (mem * video_state) :=
  len ← strlen fuel m p;
  let '(m, v) := put_pad (Z.to_nat (pad - len)) m v (if pad0 then 48 else 32) in
  put_string fuel m v p.

(** Between the '%' and its [switch]: flag, width, conversion character, format. *)
Definition read_directive (m : mem) (format : Z) : bool * Z * Z * Z :=
  let c := s8 (load8 m format) in
  let format := format + 1 in
  let pad0 := c =? 48 in
  let '(c, format) :=
    if pad0 then (s8 (load8 m format), format + 1) else (c, format) in
  let is_digit := (48 <=? c) && (c <=? 57) in
  let pad := if is_digit then c - 48 else 0 in
  let '(c, format) :=
    if is_digit then (s8 (load8 m format), format + 1) else (c, format) in
  (pad0, pad, c, format).

Fixpoint printf_loop (n : nat) (m : mem) (v : video_state) (format arg : Z) :
  option (mem * video_state) :=
  match n with
  | O => None
  | S k =>
      let c := s8 (load8 m format) in
      let format := format + 1 in
      if c =? 0 then Some (m, v)
      else if c =? 27 then
        let c := s8 (load8 m format) in
        let format := format + 1 in
        if c =? 91 then
          '(v, format) ← escape fuel m v format c;
          printf_loop k m v format arg
        else printf_loop k m v format arg
      else if negb (c =? 37) then
        let '(m, v) := putchar m v c in
        printf_loop k m v format arg
      else
        let '(pad0, pad, c, format) := read_directive m format in
        if (c =? 100) || (c =? 117) || (c =? 120) then
          m ← itoa m buf c (s32 (load32 m arg));
          '(m, v) ← printf_string m v buf pad pad0;
          printf_loop k m v format (arg + 4)
        else if c =? 115 then
          let p := load32 m arg in
          let p := if p =? 0 then null_str else p in
          '(m, v) ← printf_string m v p pad pad0;
          printf_loop k m v format (arg + 4)
        else
          let '(m, v) := putchar m v (s32 (load32 m arg)) in
          printf_loop k m v format (arg + 4)
  end.

(** [arg] is the address of the first variadic word, [(char ** )&format + 1]. *)
Definition printf (m : mem) (v : video_state) (format arg : Z) : option (mem * video_state) :=
  printf_loop fuel m v format arg.

(** [printf] with a literal and words: [lit] places the literals, [frame] is the
    address of the outgoing arguments. *)
Definition call_printf (lit : list Z -> Z) (frame : Z) (m : mem) (v : video_state)
  (format : list Z) (ws : list Z) : option (mem * video_state) :=
  printf (push_words m frame ws) v (lit format) frame.
End Printf.

(** ** Lemmas: the screen *)

(** The cursor is on the screen. *)
Definition cursor_ok (v : video_state) : Prop :=
  0 <= xpos v < COLUMNS /\ 0 <= ypos v < LINES /\ video v = VIDEO.

Definition SCREEN_SIZE : Z := COLUMNS * LINES * 2.

Lemma cls_loop_spec n m p a :
  load8 (cls_loop n m p) a = if decide (p <= a < p + Z.of_nat n) then 0 else load8 m a.
Proof.
  revert m p. induction n as [|n IH]; intros m p; cbn [cls_loop].
  - by rewrite decide_False by lia.
  - rewrite IH, load8_store8. by repeat case_decide; try lia.
Qed.

(** The characters of the columns from [x] on become spaces. *)
Lemma blank_loop_in n m v x i :
  x <= i < x + Z.of_nat n -> load8 (blank_loop n m v x) (cell v i (ypos v)) = 32.
Proof.
  revert m x. induction n as [|n IH]; intros m x Hi; cbn [blank_loop]; [lia|].
  destruct (decide (i = x)) as [->|]; [|apply IH; lia].
  assert (forall k y, x < y -> load8 (blank_loop k (store8 m (cell v x (ypos v)) (Z.land 32 255)) v y)
    (cell v x (ypos v)) = 32) as H; [|apply H; lia].
  intros k. generalize (load8_store8_eq m (cell v x (ypos v)) _ (Z.land 32 255) eq_refl).
  generalize (store8 m (cell v x (ypos v)) (Z.land 32 255)). clear IH Hi.
  induction k as [|k IH]; intros m' Hm y Hy; cbn [blank_loop]; [by rewrite Hm|].
  apply IH; [|lia]. rewrite load8_store8_ne; [done|]. unfold cell. lia.
Qed.

Lemma blank_loop_out n m v x a :
  (forall i, x <= i < x + Z.of_nat n -> a <> cell v i (ypos v)) ->
  load8 (blank_loop n m v x) a = load8 m a.
Proof.
  revert m x. induction n as [|n IH]; intros m x Ha; cbn [blank_loop]; [done|].
  rewrite IH by (intros; apply Ha; lia). apply load8_store8_ne. intros <-. apply (Ha x); [lia|done].
Qed.

(** The end of a line: the rest of it is blank, the next line starts. *)
Lemma newline_spec m v :
  0 <= xpos v <= COLUMNS -> 0 <= ypos v < LINES -> video v = VIDEO ->
  exists m', newline m v = (m', set_xy v 0 ((ypos v + 1) mod LINES)) /\
    (forall x, xpos v <= x < COLUMNS -> load8 m' (cell v x (ypos v)) = 32) /\
    (forall a, (forall x, xpos v <= x < COLUMNS -> a <> cell v x (ypos v)) -> load8 m' a = load8 m a).
Proof.
  unfold COLUMNS, LINES. intros Hx Hy Hv. unfold newline, COLUMNS, LINES.
  eexists. split_and!.
  - do 2 f_equal. case_Z; [|rewrite Z.mod_small; lia].
    replace (ypos v + 1) with 25 by lia. done.
  - intros x Hx'. apply blank_loop_in. lia.
  - intros a Ha. apply blank_loop_out. intros i Hi. apply Ha. lia.
Qed.

(** Every cell of the screen is inside the video memory. *)
Lemma cell_in_screen v x y :
  video v = VIDEO -> 0 <= x < COLUMNS -> 0 <= y < LINES ->
  VIDEO <= cell v x y /\ cell v x y + 2 <= VIDEO + SCREEN_SIZE.
Proof. unfold cell, SCREEN_SIZE, COLUMNS, LINES. intros ->. lia. Qed.

Definition is_newline (c : Z) : Prop := c = 10 \/ c = 13.

#[export] Instance is_newline_dec c : Decision (is_newline c).
Proof. apply _. Defined.

Lemma is_newline_eqb c : ((c =? 10) || (c =? 13)) = bool_decide (is_newline c).
Proof.
  unfold is_newline. destruct (Z.eqb_spec c 10), (Z.eqb_spec c 13); symmetry;
    (apply bool_decide_eq_true_2 || apply bool_decide_eq_false_2); tauto || lia.
Qed.

(** Where the cursor goes. *)
Definition advance (v : video_state) (c : Z) : video_state :=
  if decide (is_newline c \/ xpos v = COLUMNS - 1) then set_xy v 0 ((ypos v + 1) mod LINES)
  else set_xy v (xpos v + 1) (ypos v).

Lemma putchar_state m v c : cursor_ok v -> (putchar m v c).2 = advance v c.
Proof.
  intros (Hx & Hy & Hv). unfold putchar, advance. rewrite is_newline_eqb. case_bool_decide as Hc.
  - destruct (newline_spec m v) as (m' & -> & _); [lia|done..|]. rewrite decide_True by by left. done.
  - unfold COLUMNS in *. cbn [xpos set_xy]. case_Z.
    + rewrite decide_True by (right; lia).
      destruct (newline_spec (store8 (store8 m (cell v (xpos v) (ypos v)) (Z.land c 255))
        (cell v (xpos v) (ypos v) + 1) (ATTRIBUTE v)) (set_xy v (xpos v + 1) (ypos v)))
        as (m' & -> & _); simpl; unfold COLUMNS; [lia|done..].
    + rewrite decide_False by (intros [?|?]; [done|lia]). done.
Qed.

Lemma advance_ok v c : cursor_ok v -> cursor_ok (advance v c).
Proof.
  unfold cursor_ok, advance, COLUMNS, LINES. intros (Hx & Hy & Hv).
  case_decide as Hc; simpl; split_and!; try done; try lia; dlia.
Qed.

Lemma land_255 c : Z.land c 0xFF = u8 c.
Proof. change 0xFF with (Z.ones 8). by rewrite Z.land_ones by lia. Qed.

(** The bytes of the screen after one character: the printed cell, or blanks up to the
    end of the line. *)
Lemma putchar_bytes m v c :
  cursor_ok v -> let m' := (putchar m v c).1 in
  (forall a, off VIDEO SCREEN_SIZE a -> load8 m' a = load8 m a) /\
  (~ is_newline c -> load8 m' (cell v (xpos v) (ypos v)) = u8 c /\
     load8 m' (cell v (xpos v) (ypos v) + 1) = u8 (ATTRIBUTE v) /\
     (forall a, off (cell v (xpos v) (ypos v)) 2 a -> load8 m' a = load8 m a)) /\
  (is_newline c -> (forall x, xpos v <= x < COLUMNS -> load8 m' (cell v x (ypos v)) = 32) /\
     (forall a, (forall x, xpos v <= x < COLUMNS -> a <> cell v x (ypos v)) -> load8 m' a = load8 m a)).
Proof.
  intros Hok m'. destruct Hok as (Hx & Hy & Hv).
  assert (~ is_newline c -> m' = store8 (store8 m (cell v (xpos v) (ypos v)) (Z.land c 255))
    (cell v (xpos v) (ypos v) + 1) (ATTRIBUTE v)) as Hput.
  { intros Hc. unfold m', putchar. rewrite is_newline_eqb, bool_decide_eq_false_2 by done.
    cbn [xpos set_xy]. case_Z; [|done]. unfold newline. cbn [xpos set_xy fst].
    unfold COLUMNS in *. replace (xpos v + 1) with 80 by lia. done. }
  assert (is_newline c -> newline m v = putchar m v c) as Hnl.
  { intros Hc. unfold putchar. by rewrite is_newline_eqb, bool_decide_eq_true_2. }
  destruct (newline_spec m v) as (m1 & E & H1 & H2); [lia|done..|].
  split_and!.
  - intros a Ha. pose proof (cell_in_screen v (xpos v) (ypos v) Hv Hx Hy). unfold off in Ha.
    destruct (decide (is_newline c)) as [Hc|Hc].
    + unfold m'. rewrite <- Hnl, E by done. apply H2. intros x Hx' ->.
      pose proof (cell_in_screen v x (ypos v) Hv ltac:(lia) Hy). lia.
    + rewrite Hput by done. by rewrite !load8_store8_ne by lia.
  - intros Hc. rewrite Hput by done. split_and!.
    + rewrite load8_store8_ne, load8_store8_eq by lia. by rewrite land_255, u8_u8.
    + by rewrite load8_store8_eq.
    + intros a Ha. unfold off in Ha. by rewrite !load8_store8_ne by lia.
  - intros Hc. unfold m'. rewrite <- Hnl, E by done. split; [done|]. intros a Ha. by apply H2.
Qed.
