(* ===== verification/KvideoProps.v ===== *)
(** * KvideoProps: the screen and [printf]

    A reference for [printf] on lists of characters, the equivalence of the
    two, and the invariant of the screen. *)

From S2P Require Import Prelude Memory Klib Kvideo.

(** ** The reference *)

(** What [printf] does to the screen: it puts characters and changes colours. *)
Inductive out := Put (c : Z) | Attr (code : Z).

Definition do_out (mv : mem * video_state) (o : out) : mem * video_state :=
  match o with
  | Put c => putchar mv.1 mv.2 c
  | Attr code => (mv.1, __terminal_change_attrib mv.2 code)
  end.

Definition run (os : list out) (mv : mem * video_state) : mem * video_state := foldl do_out mv os.

Section Render.
(** The strings that [%s] finds at an address. *)
Context (str : Z -> option (list Z)).

(** The codes of an escape sequence, up to the 'm', and the rest of the format. *)
Fixpoint escape_codes (l : list Z) (code : Z) : option (list Z * list Z) :=
  match l with
  | [] => None
  | b :: l =>
      let c := s8 b in
      if c =? 109 then Some ([code], l)
      else if c =? 59 then '(cs, l) ← escape_codes l 0; Some (code :: cs, l)
      else escape_codes l (s32 (10 * code + (c - 48)))
  end.

(** A text right-aligned in a field. *)
Definition field (pad : Z) (pad0 : bool) (s : list Z) : list out :=
  replicate (Z.to_nat (pad - Z.of_nat (length s))) (Put (if pad0 then 48 else 32)) ++
  ((fun b => Put (s8 b)) <$> s).

Definition is_number (c : Z) : bool := (c =? 100) || (c =? 117) || (c =? 120).

Definition conversion (c pad : Z) (pad0 : bool) (w : Z) : option (list out) :=
  if is_number c then Some (field pad pad0 (itoa_text c (s32 w)))
  else if c =? 115 then s ← str w; Some (field pad pad0 s)
  else Some [Put (s32 w)].

Definition next_char (l : list Z) : option (Z * list Z) :=
  match l with [] => None | b :: l => Some (s8 b, l) end.

(** Flag, width and conversion character after a '%'. *)
Definition directive (l : list Z) : option (bool * Z * Z * list Z) :=
  '(c, l) ← next_char l;
  let pad0 := c =? 48 in
  '(c, l) ← (if pad0 then next_char l else Some (c, l));
  let is_digit := (48 <=? c) && (c <=? 57) in
  let pad := if is_digit then c - 48 else 0 in
  '(c, l) ← (if is_digit then next_char l else Some (c, l));
  Some (pad0, pad, c, l).

(** The output of a format on its variadic words; [None] when the format ends inside a
    sequence or lacks a word. *)
Fixpoint render (n : nat) (l : list Z) (args : list Z) : option (list out) :=
  match n with
  | O => None
  | S k =>
      match l with
      | [] => Some []
      | b :: l =>
          let c := s8 b in
          if c =? 27 then
            '(c, l) ← next_char l;
            if c =? 91 then
              '(codes, l) ← escape_codes l 0; r ← render k l args; Some ((Attr <$> codes) ++ r)
            else render k l args
          else if c =? 37 then
            '(pad0, pad, c, l) ← directive l;
            match args with
            | [] => None
            | w :: args => o ← conversion c pad pad0 w; r ← render k l args; Some (o ++ r)
            end
          else r ← render k l args; Some (Put c :: r)
      end
  end.
End Render.

(** ** Lemmas *)

Lemma run_app os1 os2 mv : run (os1 ++ os2) mv = run os2 (run os1 mv).
Proof. apply foldl_app. Qed.

(** The state of the cursor does not depend on the memory. *)
Lemma newline_state m m' v : (newline m v).2 = (newline m' v).2.
Proof. done. Qed.

Lemma putchar_state_eq m m' v c : (putchar m v c).2 = (putchar m' v c).2.
Proof. unfold putchar. destruct (_ || _); [done|]. cbn [xpos set_xy]. by destruct (_ >=? _). Qed.

(** The attributes of every colour code fit a byte and keep the cursor. *)
Lemma attrib_cursor v code : cursor_ok v -> cursor_ok (__terminal_change_attrib v code).
Proof. intros H. unfold __terminal_change_attrib. repeat case_match; exact H. Qed.

Lemma do_out_ok m v o :
  cursor_ok v -> cursor_ok (do_out (m, v) o).2 /\ same_off VIDEO SCREEN_SIZE m (do_out (m, v) o).1.
Proof.
  intros Hv. destruct o as [c|code]; simpl.
  - rewrite putchar_state by done. split; [by apply advance_ok|].
    by destruct (putchar_bytes m v c Hv) as (H & _).
  - split; [by apply attrib_cursor|by intros a Ha].
Qed.

(** Output keeps the cursor on the screen and writes only the screen. *)
Lemma run_ok os m v :
  cursor_ok v -> cursor_ok (run os (m, v)).2 /\ same_off VIDEO SCREEN_SIZE m (run os (m, v)).1.
Proof.
  revert m v. induction os as [|o os IH]; intros m v Hv; [by split|].
  cbn [run foldl]. destruct (do_out_ok m v o Hv) as [H1 H2].
  destruct (do_out (m, v) o) as [m1 v1]. destruct (IH m1 v1 H1) as [H3 H4].
  split; [done|]. intros a Ha. fold (run os (m1, v1)). rewrite H4 by done. by apply H2.
Qed.

(** The same output on two memories that agree outside a buffer off the screen. *)
Lemma putchar_agree (P : Z -> Prop) m m' v c :
  cursor_ok v -> same_on P m m' ->
  same_on P (putchar m v c).1 (putchar m' v c).1.
Proof.
  intros Hv H a Ha. destruct (putchar_bytes m v c Hv) as (_ & H1 & H2).
  destruct (putchar_bytes m' v c Hv) as (_ & H1' & H2').
  destruct (decide (is_newline c)) as [Hc|Hc].
  - destruct (H2 Hc) as [Hb Ho]. destruct (H2' Hc) as [Hb' Ho'].
    destruct (decide (Exists (fun x => a = cell v x (ypos v)) (seqZ (xpos v) (COLUMNS - xpos v)))) as [He|He].
    + apply Exists_exists in He as (x & Hx%elem_of_seqZ & ->). by rewrite Hb, Hb' by lia.
    + assert (forall x, xpos v <= x < COLUMNS -> a <> cell v x (ypos v)) as Hx.
      { intros x Hx ->. apply He, Exists_exists. exists x. split; [apply elem_of_seqZ; lia|done]. }
      rewrite Ho, Ho' by done. by apply H.
  - destruct (H1 Hc) as (Hb & Hb2 & Ho). destruct (H1' Hc) as (Hb' & Hb2' & Ho').
    destruct (decide (a = cell v (xpos v) (ypos v))) as [->|]; [by rewrite Hb, Hb'|].
    destruct (decide (a = cell v (xpos v) (ypos v) + 1)) as [->|]; [by rewrite Hb2, Hb2'|].
    rewrite Ho, Ho' by (unfold off; lia). by apply H.
Qed.

Lemma run_agree (P : Z -> Prop) os m m' v :
  cursor_ok v -> same_on P m m' ->
  same_on P (run os (m, v)).1 (run os (m', v)).1 /\ (run os (m', v)).2 = (run os (m, v)).2.
Proof.
  revert m m' v. induction os as [|o os IH]; intros m m' v Hv H; [by split|].
  assert (same_on P (do_out (m, v) o).1 (do_out (m', v) o).1 /\
    (do_out (m', v) o).2 = (do_out (m, v) o).2 /\ cursor_ok (do_out (m, v) o).2) as (H1 & H2 & H3).
  { split_and!; [|destruct o; [apply putchar_state_eq|done]|by apply do_out_ok].
    destruct o as [c|code]; [by apply putchar_agree|done]. }
  change (run (o :: os) (m', v)) with (run os (do_out (m', v) o)).
  change (run (o :: os) (m, v)) with (run os (do_out (m, v) o)).
  destruct (do_out (m, v) o) as [m1 v1], (do_out (m', v) o) as [m1' v1']. simpl in H1, H2, H3.
  subst v1'. by apply IH.
Qed.

(** *** Escape sequences *)

Lemma shift_decimal code : Z.shiftl code 3 + Z.shiftl code 1 = 10 * code.
Proof. rewrite !Z.shiftl_mul_pow2 by lia. lia. Qed.

(** What is left of a format: a string further on. *)
Definition at_rest (m : mem) (format : Z) (l : list Z) (p : Z) (rest : list Z) : Prop :=
  cstr m p rest /\ p = format + Z.of_nat (length l - length rest) /\ (length rest < length l)%nat.

Lemma at_rest_next m format b l : cstr m format (b :: l) -> at_rest m format (b :: l) (format + 1) l.
Proof. intros (_ & _ & H). split_and!; [done|cbn [length]; lia|cbn [length]; lia]. Qed.

Lemma at_rest_trans m format l p l1 q rest :
  at_rest m format l p l1 -> at_rest m p l1 q rest -> at_rest m format l q rest.
Proof. intros (_ & -> & H1) (H2 & -> & H3). split_and!; [done|lia|lia]. Qed.

Lemma escape_code_spec n m format l code codes rest :
  cstr m format l -> escape_codes l code = Some (codes, rest) -> (length l < n)%nat ->
  exists c code' p l1, escape_code n m (format + 1) (s8 (load8 m format)) code = Some (c, code', p) /\
    at_rest m format l p l1 /\
    ((c = 109 /\ codes = [code'] /\ rest = l1) \/
     (c = 59 /\ exists cs, codes = code' :: cs /\ escape_codes l1 0 = Some (cs, rest))).
Proof.
  revert format code n. induction l as [|b l IH]; intros format code n Hc E Hn; [done|].
  pose proof (at_rest_next _ _ _ _ Hc) as Hr. destruct Hc as (Hb & Eb & Hc). rewrite Eb.
  destruct n as [|n]; [simpl in Hn; lia|]. cbn [escape_codes escape_code] in *.
  destruct (Z.eqb_spec (s8 b) 109) as [E1|E1].
  - simplify_eq. rewrite E1. simpl. eexists _, _, _, _. split_and!; [done|exact Hr|by left].
  - destruct (Z.eqb_spec (s8 b) 59) as [E2|E2]; cbn [negb andb].
    + destruct (escape_codes l 0) as [[cs l1]|] eqn:E3; [|done]. simplify_eq/=.
      rewrite E2. eexists _, _, _, _. split_and!; [done|exact Hr|]. right. split; [done|]. by exists cs.
    + rewrite shift_decimal. destruct (IH (format + 1) _ n Hc E ltac:(simpl in Hn; lia))
        as (c & code' & p & l1 & -> & Hr' & H).
      eexists _, _, _, _. split_and!; [done| |exact H]. exact (at_rest_trans _ _ _ _ _ _ _ Hr Hr').
Qed.

Lemma escape_spec fuel n m v format l c codes rest :
  cstr m format l -> escape_codes l 0 = Some (codes, rest) ->
  (length l < n)%nat -> (length l < fuel)%nat -> c <> 109 ->
  exists p, escape fuel n m v format c = Some (foldl __terminal_change_attrib v codes, p) /\
    at_rest m format l p rest.
Proof.
  revert v format l c codes. induction n as [|n IH]; intros v format l c codes Hc E Hn Hf H109; [lia|].
  cbn [escape]. rewrite eqb_ne by done. cbn [negb].
  destruct (escape_code_spec fuel m format l 0 codes rest Hc E Hf) as (c' & code' & p & l1 & -> & Hr & H).
  cbn [mbind option_bind]. assert (length l1 < length l)%nat by apply Hr. destruct H as [(-> & -> & ->)|(-> & cs & -> & E1)].
  - destruct n; [lia|]. cbn [escape]. simpl. by exists p.
  - destruct (IH (__terminal_change_attrib v code') p l1 59 cs) as (q & -> & Hr'); try done;
      [apply Hr|lia|lia|].
    exists q. split; [done|]. exact (at_rest_trans _ _ _ _ _ _ _ Hr Hr').
Qed.

Lemma run_attr codes m v :
  run (Attr <$> codes) (m, v) = (m, foldl __terminal_change_attrib v codes).
Proof. revert v. induction codes as [|c codes IH]; intros v; [done|]. apply (IH (__terminal_change_attrib v c)). Qed.

Lemma attrib_codes codes v : cursor_ok v -> cursor_ok (foldl __terminal_change_attrib v codes).
Proof. revert v. induction codes as [|c codes IH]; intros v Hv; [done|]. by apply IH, attrib_cursor. Qed.

(** *** Directives *)

Lemma next_char_spec m format l c rest :
  cstr m format l -> next_char l = Some (c, rest) ->
  s8 (load8 m format) = c /\ at_rest m format l (format + 1) rest.
Proof.
  destruct l as [|b l]; [done|]. intros Hc E. simplify_eq/=. split; [|by apply at_rest_next].
  by destruct Hc as (_ & -> & _).
Qed.

Lemma opt_char_spec m format l c (b : bool) c' rest :
  cstr m format l -> (if b then next_char l else Some (c, l)) = Some (c', rest) ->
  exists p, (if b then (s8 (load8 m format), format + 1) else (c, format)) = (c', p) /\
    (at_rest m format l p rest \/ (p = format /\ rest = l)) /\ cstr m p rest.
Proof.
  destruct b; intros Hc E.
  - destruct (next_char_spec m format l c' rest Hc E) as [-> H].
    eexists. split_and!; [done|by left|apply H].
  - simplify_eq. eexists. split_and!; [done|by right|done].
Qed.

Lemma read_directive_spec m format l pad0 pad c rest :
  cstr m format l -> directive l = Some (pad0, pad, c, rest) ->
  exists p, read_directive m format = (pad0, pad, c, p) /\ at_rest m format l p rest.
Proof.
  intros Hc E. unfold directive in E. destruct (next_char l) as [[c1 l1]|] eqn:E1; [|done].
  destruct (next_char_spec _ _ _ _ _ Hc E1) as [H1 Hr1]. cbn [mbind option_bind] in E.
  destruct (if c1 =? 48 then next_char l1 else Some (c1, l1)) as [[c2 l2]|] eqn:E2; [|done].
  destruct (opt_char_spec _ _ _ _ _ _ _ (proj1 Hr1) E2) as (p2 & H2 & Hr2 & Hc2).
  cbn [mbind option_bind] in E.
  destruct (if (48 <=? c2) && (c2 <=? 57) then next_char l2 else Some (c2, l2)) as [[c3 l3]|] eqn:E3; [|done].
  destruct (opt_char_spec _ _ _ _ _ _ _ Hc2 E3) as (p3 & H3 & Hr3 & Hc3). simplify_eq/=.
  unfold read_directive. rewrite H2, H3. exists p3. split; [done|].
  destruct Hr2 as [Hr2|[-> ->]], Hr3 as [Hr3|[-> ->]]; eauto using at_rest_trans.
Qed.

(** *** Strings *)

Lemma put_pad_run n m v ch : put_pad n m v ch = run (replicate n (Put ch)) (m, v).
Proof.
  revert m v. induction n as [|n IH]; intros m v; [done|]. cbn [put_pad replicate run foldl].
  cbn [do_out fst snd]. destruct (putchar m v ch) as [m1 v1]. apply IH.
Qed.

(** The [n] bytes from [a] are off the screen. *)
Definition off_screen (a n : Z) : Prop := a + n <= VIDEO \/ VIDEO + SCREEN_SIZE <= a.

Lemma cstr_off_screen m m' p s :
  same_off VIDEO SCREEN_SIZE m m' -> off_screen p (Z.of_nat (length s) + 1) -> cstr m p s -> cstr m' p s.
Proof.
  intros H Hp. apply cstr_ext. intros i Hi. apply H. unfold off, off_screen in *. lia.
Qed.

Lemma put_string_run n m v p s :
  cursor_ok v -> cstr m p s -> off_screen p (Z.of_nat (length s) + 1) -> (length s < n)%nat ->
  put_string n m v p = Some (run ((fun b => Put (s8 b)) <$> s) (m, v)).
Proof.
  revert n m v p. induction s as [|b s IH]; intros n m v p Hv Hc Hp Hn;
    (destruct n as [|n]; cbn [length] in *; [lia|]); cbn [put_string].
  - cbn [cstr] in Hc. by rewrite Hc.
  - destruct Hc as (Hb & Eb & Hc). rewrite Eb. pose proof (load8_range m p) as Hr.
    rewrite c_true_nonzero by (unfold s8; dlia).
    cbn [fmap list_fmap run foldl do_out fst snd].
    destruct (do_out_ok m v (Put (s8 b)) Hv) as [H1 H2]. cbn [do_out fst snd] in *.
    destruct (putchar m v (s8 b)) as [m1 v1]. apply IH; [done| |unfold off_screen in *; lia|lia].
    apply (cstr_off_screen m); [done|unfold off_screen in *; lia|done].
Qed.

Lemma printf_string_run fuel m v p s pad pad0 :
  cursor_ok v -> cstr m p s -> off_screen p (Z.of_nat (length s) + 1) -> (length s < fuel)%nat ->
  Z.of_nat (length s) < 4294967296 ->
  printf_string fuel m v p pad pad0 = Some (run (field pad pad0 s) (m, v)).
Proof.
  intros Hv Hc Hp Hf Hl. unfold printf_string, field. rewrite (strlen_cstr m p s) by (done || lia).
  cbn [mbind option_bind]. rewrite put_pad_run, run_app.
  set (os := replicate _ _). destruct (run_ok os m v Hv) as [H1 H2].
  destruct (run os (m, v)) as [m1 v1]. apply put_string_run; [done| |done|done].
  by apply (cstr_off_screen m).
Qed.

(** *** The loop *)

Section Loop.
Context (fuel : nat) (buf null_str : Z) (str : Z -> option (list Z)) (m0 : mem).

(** Bytes that [printf] does not write. *)
Definition clear (a : Z) : Prop := off VIDEO SCREEN_SIZE a /\ off buf 12 a.

Definition readable (p len : Z) : Prop := forall i, 0 <= i <= len -> clear (p + i).

(** The variadic words from [arg] on. *)
Definition words (arg : Z) (args : list Z) : Prop :=
  forall i w, args !! i = Some w ->
    load32 m0 (arg + 4 * Z.of_nat i) = w /\ readable (arg + 4 * Z.of_nat i) 3.

(** The strings of the variadic words. *)
Definition strings : Prop :=
  forall w s, str w = Some s -> let p := if w =? 0 then null_str else w in
    cstr m0 p s /\ readable p (Z.of_nat (length s)) /\ (length s < fuel)%nat /\
    off_screen p (Z.of_nat (length s) + 1) /\ Z.of_nat (length s) < 4294967296.

(** The memory of the run and the memory of the reference, at the same cursor. *)
Record printing (m ma : mem) (v : video_state) : Prop := Printing {
  pr_cursor : cursor_ok v;
  pr_inputs : same_on clear m0 m;
  pr_screen : same_on (off buf 12) ma m
}.

Lemma printing_cstr m ma v p l :
  printing m ma v -> readable p (Z.of_nat (length l)) -> cstr m0 p l <-> cstr m p l.
Proof.
  intros H Hp. split; apply cstr_ext; intros i Hi; [|symmetry]; apply (pr_inputs _ _ _ H), Hp; lia.
Qed.

Lemma printing_run os m ma v :
  printing m ma v -> exists m1 ma1 v1,
    run os (m, v) = (m1, v1) /\ run os (ma, v) = (ma1, v1) /\ printing m1 ma1 v1.
Proof.
  intros [H1 H2 H3]. destruct (run_ok os m v H1) as [H4 H5].
  destruct (run_agree _ os ma m v H1 H3) as [H6 H7].
  destruct (run os (m, v)) as [m1 v1], (run os (ma, v)) as [ma1 v1']. simpl in *. subst v1'.
  exists m1, ma1, v1. split_and!; [done|done|]. split; [done| |done].
  intros a Ha. rewrite H5 by apply Ha. by apply H2.
Qed.

Lemma printing_itoa m ma v c d :
  printing m ma v -> exists m1, itoa m buf c d = Some m1 /\ cstr m1 buf (itoa_text c d) /\
    printing m1 ma v.
Proof.
  intros [H1 H2 H3]. destruct (itoa_spec m buf c d) as (m1 & E & Hc & Hs).
  pose proof (itoa_text_length c d). exists m1. split_and!; [done|done|]. split; [done| |].
  - intros a [Ha1 Ha2]. rewrite Hs by (unfold off in *; lia). by apply H2.
  - intros a Ha. rewrite Hs by (unfold off in *; lia). by apply H3.
Qed.

(** One conversion. *)
Lemma conversion_run m ma v c pad pad0 arg w args os :
  printing m ma v -> strings -> words arg (w :: args) -> off_screen buf 12 ->
  (12 < fuel)%nat -> conversion str c pad pad0 w = Some os ->
  exists m1 ma1 v1, run os (ma, v) = (ma1, v1) /\ printing m1 ma1 v1 /\
    (if is_number c then
       m ← itoa m buf c (s32 (load32 m arg)); printf_string fuel m v buf pad pad0
     else if c =? 115 then
       let p := load32 m arg in
       let p := if p =? 0 then null_str else p in
       printf_string fuel m v p pad pad0
     else Some (putchar m v (s32 (load32 m arg)))) = Some (m1, v1).
Proof.
  intros Hpr Hstr Hw Hb Hf E. destruct (Hw 0%nat w eq_refl) as [Ew Hr].
  rewrite Z.mul_0_r, Z.add_0_r in *.
  assert (load32 m arg = w) as ->.
  { rewrite <- Ew. apply load32_ext. intros i Hi. apply (pr_inputs _ _ _ Hpr), Hr. lia. }
  unfold conversion in E. destruct (is_number c).
  - injection E as <-. destruct (printing_itoa m ma v c (s32 w) Hpr) as (m1 & -> & Hc & Hpr1).
    pose proof (itoa_text_length c (s32 w)). cbn [mbind option_bind].
    rewrite (printf_string_run _ m1 v buf (itoa_text c (s32 w)));
      [|apply Hpr1|done|unfold off_screen in *; lia|lia|lia].
    destruct (printing_run (field pad pad0 (itoa_text c (s32 w))) _ _ _ Hpr1)
      as (m2 & ma2 & v2 & -> & -> & Hpr2). by exists m2, ma2, v2.
  - destruct (Z.eqb_spec c 115).
    + destruct (str w) as [s|] eqn:Es; [|done]. injection E as <-.
      destruct (Hstr w s Es) as (Hc & Hp & Hl & Ho & Hl2).
      rewrite (printf_string_run _ m v _ s); [|apply Hpr|by apply (printing_cstr _ _ _ _ _ Hpr)|done|done|done].
      destruct (printing_run (field pad pad0 s) _ _ _ Hpr) as (m2 & ma2 & v2 & -> & -> & Hpr2).
      by exists m2, ma2, v2.
    + injection E as <-. destruct (printing_run [Put (s32 w)] _ _ _ Hpr) as (m2 & ma2 & v2 & E1 & -> & Hpr2).
      exists m2, ma2, v2. split_and!; [done|done|]. by rewrite <- E1.
Qed.

Lemma words_tail arg w args : words arg (w :: args) -> words (arg + 4) args.
Proof.
  intros H i w' Hi. destruct (H (S i) w' Hi) as [H1 H2].
  replace (arg + 4 + 4 * Z.of_nat i) with (arg + 4 * Z.of_nat (S i)) by lia. done.
Qed.

Lemma readable_rest m format l p rest :
  at_rest m format l p rest -> readable format (Z.of_nat (length l)) -> readable p (Z.of_nat (length rest)).
Proof.
  intros (_ & -> & Hl) H i Hi. rewrite <- Z.add_assoc. apply H. lia.
Qed.

Lemma printf_loop_render n m ma v format l arg args os :
  printing m ma v -> strings -> off_screen buf 12 -> (12 < fuel)%nat ->
  cstr m0 format l -> readable format (Z.of_nat (length l)) -> (length l < fuel)%nat ->
  words arg args -> render str n l args = Some os ->
  exists m', printf_loop fuel buf null_str n m v format arg = Some (m', (run os (ma, v)).2) /\
    printing m' (run os (ma, v)).1 (run os (ma, v)).2.
Proof.
  intros Hpr Hstr Hb Hf. revert m ma v format l arg args os Hpr.
  induction n as [|n IH]; intros m ma v format l arg args os Hpr Hc Hr Hl Hw E; [done|].
  apply (printing_cstr _ _ _ _ _ Hpr Hr) in Hc.
  assert (forall rest p m' ma' v' arg' args' os', at_rest m format l p rest ->
    printing m' ma' v' -> words arg' args' -> render str n rest args' = Some os' ->
    exists m'', printf_loop fuel buf null_str n m' v' p arg' = Some (m'', (run os' (ma', v')).2) /\
      printing m'' (run os' (ma', v')).1 (run os' (ma', v')).2) as Hnext.
  { intros rest p m' ma' v' arg' args' os' Hat Hpr' Hw' E'.
    pose proof (readable_rest _ _ _ _ _ Hat Hr) as Hr'.
    apply (IH m' ma' v' p rest arg' args' os' Hpr'); [|done| |done|done].
    - apply (printing_cstr _ _ _ _ _ Hpr Hr'), Hat.
    - destruct Hat as (_ & _ & ?). lia. }
  cbn [render] in E. destruct l as [|b l].
  { simplify_eq. cbn [cstr] in Hc. cbn [printf_loop]. rewrite Hc. simpl. by exists m. }
  pose proof (at_rest_next _ _ _ _ Hc) as Hat. pose proof Hc as (Hb0 & Eb & Hc1).
  pose proof (load8_range m format) as Hrange. cbn [printf_loop]. rewrite Eb.
  rewrite (eqb_ne (s8 b) 0) by (unfold s8; dlia).
  destruct (s8 b =? 27).
  - destruct (next_char l) as [[c l1]|] eqn:E1; [|done]. cbn [mbind option_bind] in E.
    destruct (next_char_spec _ _ _ _ _ Hc1 E1) as [Ec Hat1]. rewrite Ec.
    pose proof (at_rest_trans _ _ _ _ _ _ _ Hat Hat1) as Hat2.
    destruct (Z.eqb_spec c 91) as [->|].
    + destruct (escape_codes l1 0) as [[codes l2]|] eqn:E2; [|done]. cbn [mbind option_bind] in E.
      destruct (render str n l2 args) as [os2|] eqn:E3; [|done]. simplify_eq/=.
      assert (length l1 < fuel)%nat as Hl1 by (destruct Hat2 as (_ & _ & ?); simpl in *; lia).
      destruct (escape_spec fuel fuel m v (format + 1 + 1) l1 91 codes l2) as (p & -> & Hat3);
        [apply Hat2|done|done|done|done|]. cbn [mbind option_bind].
      rewrite run_app, run_attr. apply (Hnext l2 p m ma _ arg args os2); [|split|done|done].
      * exact (at_rest_trans _ _ _ _ _ _ _ Hat2 Hat3).
      * apply attrib_codes, Hpr.
      * apply Hpr.
      * apply Hpr.
    + by apply (Hnext l1 _ m ma v arg args os).
  - destruct (s8 b =? 37); cbn [negb].
    + destruct (directive l) as [[[[pad0 pad] c] l1]|] eqn:E1; [|done]. cbn [mbind option_bind] in E.
      destruct args as [|w args]; [done|].
      destruct (conversion str c pad pad0 w) as [os1|] eqn:E2; [|done].
      destruct (render str n l1 args) as [os2|] eqn:E3; [|done]. simplify_eq/=.
      destruct (read_directive_spec _ _ _ _ _ _ _ Hc1 E1) as (p & -> & Hat1).
      destruct (conversion_run m ma v c pad pad0 arg w args os1 Hpr Hstr Hw Hb Hf E2)
        as (m1 & ma1 & v1 & Hrun & Hpr1 & Hconv).
      destruct (Hnext l1 p m1 ma1 v1 (arg + 4) args os2) as (m' & Hm' & Hpr');
        [exact (at_rest_trans _ _ _ _ _ _ _ Hat Hat1)|done|apply (words_tail _ _ _ Hw)|done|].
      rewrite run_app, Hrun. exists m'. split; [|done]. rewrite <- Hm'. clear -Hconv.
      unfold is_number in Hconv. destruct (_ || _).
      * destruct (itoa m buf c _) as [m2|]; [|done]. cbn [mbind option_bind] in *. by rewrite Hconv.
      * destruct (c =? 115); [by rewrite Hconv|by injection Hconv as ->].
    + destruct (render str n l args) as [os1|] eqn:E1; [|done]. injection E as <-.
      destruct (printing_run [Put (s8 b)] m ma v Hpr) as (m1 & ma1 & v1 & R1 & R2 & Hpr1).
      cbn [run foldl do_out fst snd] in R1, R2 |- *. rewrite R1, R2.
      by apply (Hnext l _ m1 ma1 v1 arg args os1).
Qed.
End Loop.

(** ** Properties *)

(** C29: one character.  With the cursor on the screen, [putchar] keeps it there and
    writes only the 4000 bytes of the screen.  A printable character and the attribute
    go to the cell of the cursor and nothing else changes; the cursor advances, in the
    last column to the start of the next line, and after the last line to the first.  A
    newline blanks the characters up to the end of the line and nothing else. *)
Theorem putchar_ok m v c :
  cursor_ok v -> let '(m', v') := putchar m v c in
  v' = advance v c /\ cursor_ok v' /\ same_off VIDEO SCREEN_SIZE m m' /\
  (~ is_newline c -> load8 m' (cell v (xpos v) (ypos v)) = u8 c /\
     load8 m' (cell v (xpos v) (ypos v) + 1) = u8 (ATTRIBUTE v) /\
     same_off (cell v (xpos v) (ypos v)) 2 m m') /\
  (is_newline c -> (forall x, xpos v <= x < COLUMNS -> load8 m' (cell v x (ypos v)) = 32) /\
     (forall a, (forall x, xpos v <= x < COLUMNS -> a <> cell v x (ypos v)) -> load8 m' a = load8 m a)).
Proof.
  intros Hv. pose proof (putchar_state m v c Hv) as Hs. pose proof (putchar_bytes m v c Hv) as Hb.
  destruct (putchar m v c) as [m' v']. simpl in Hs, Hb. subst v'.
  split; [done|]. split; [by apply advance_ok|done].
Qed.

Lemma putchar_ok_witness :
  cursor_ok (VideoState 7 79 24 VIDEO) /\
  let '(m', v') := putchar mem_zero (VideoState 7 79 24 VIDEO) 65 in
  v' = VideoState 7 0 0 VIDEO /\ load8 m' 0xB8F9E = 65 /\ load8 m' 0xB8F9F = 7.
Proof.
  assert (cursor_ok (VideoState 7 79 24 VIDEO)) as Hv by (unfold cursor_ok, COLUMNS, LINES; simpl; lia).
  split; [exact Hv|]. pose proof (putchar_ok mem_zero (VideoState 7 79 24 VIDEO) 65 Hv) as H.
  destruct (putchar mem_zero (VideoState 7 79 24 VIDEO) 65) as [m' v'].
  destruct H as (Hv' & _ & _ & H & _). destruct H as (H1 & H2 & _); [by apply (bool_decide_unpack _)|].
  split_and!; [exact Hv'|exact H1|exact H2].
Defined.

(** C15: [printf].  For a format, words and strings in memory off the screen and off the
    local buffer, [printf] terminates and puts on the screen exactly what the reference
    [render] makes of them: literal characters, colour changes for the codes of an
    escape sequence, and conversions with flag and width; the cursor and the attribute
    are those of the reference, and only the screen and the buffer are written. *)
Theorem printf_ok fuel buf null_str str m v format l arg args os :
  cursor_ok v -> strings fuel buf null_str str m -> off_screen buf 12 -> (12 < fuel)%nat ->
  cstr m format l -> readable buf format (Z.of_nat (length l)) -> (length l < fuel)%nat ->
  words buf m arg args -> render str fuel l args = Some os ->
  exists m', printf fuel buf null_str m v format arg = Some (m', (run os (m, v)).2) /\
    same_on (off buf 12) (run os (m, v)).1 m' /\ cursor_ok (run os (m, v)).2 /\
    same_on (clear buf) m m'.
Proof.
  intros Hv Hs Hb Hf Hc Hr Hl Hw E. unfold printf.
  destruct (printf_loop_render fuel buf null_str str m fuel m m v format l arg args os) as (m' & Em & Hp);
    [by split; [done|intros ?|intros ?]|done|done|done|done|done|done|done|done|].
  exists m'. split_and!; [done|apply Hp|by apply run_ok|apply Hp].
Qed.

(** The call [printf("\033[31m%s=%4d", "Hi", -5)] with the arguments at 0x3000. *)
Definition printf_format : list Z := [27; 91; 51; 49; 109; 37; 115; 61; 37; 52; 100].

Definition printf_example : mem :=
  let m := store_bytes mem_zero 0x1000 (printf_format ++ [0]) in
  let m := store_bytes m 0x2000 [72; 105; 0] in
  store32 (store32 m 0x3000 0x2000) 0x3004 (-5).

Definition printf_strings (w : Z) : option (list Z) := if w =? 0x2000 then Some [72; 105] else None.

Definition printf_out : list out := [Attr 31; Put 72; Put 105; Put 61; Put 32; Put 32; Put 45; Put 53].

Lemma printf_ok_witness :
  exists m', printf 20 0x4000 0x5000 printf_example (VideoState 7 0 0 VIDEO) 0x1000 0x3000 =
      Some (m', VideoState 4 7 0 VIDEO) /\
    load_bytes m' VIDEO 14 = [72; 4; 105; 4; 61; 4; 32; 4; 32; 4; 45; 4; 53; 4].
Proof.
  assert (forall a, a < 0x4000 -> clear 0x4000 a) as Hlow.
  { intros a Ha. unfold clear, off, VIDEO. lia. }
  destruct (printf_ok 20 0x4000 0x5000 printf_strings printf_example (VideoState 7 0 0 VIDEO)
    0x1000 printf_format 0x3000 [0x2000; 4294967291] printf_out) as (m' & E & Hm & _).
  - unfold cursor_ok, COLUMNS, LINES. simpl. lia.
  - intros w s. unfold printf_strings. destruct (Z.eqb_spec w 0x2000) as [->|]; [|done].
    intros [= <-]. split_and!; [by vm_compute| |simpl; lia|unfold off_screen, VIDEO; simpl; lia|simpl; lia].
    intros i Hi. apply Hlow. simpl in *. lia.
  - unfold off_screen, VIDEO. lia.
  - lia.
  - by vm_compute.
  - intros i Hi. apply Hlow. simpl in *. lia.
  - simpl. lia.
  - intros [|[|i]] w Hw; simplify_eq/=; (split; [by vm_compute|intros i Hi; apply Hlow; lia]).
  - by vm_compute.
  - exists m'. split; [exact E|]. transitivity (load_bytes (run printf_out (printf_example, VideoState 7 0 0 VIDEO)).1 VIDEO 14).
    + apply load_bytes_ext. intros i Hi. apply Hm. unfold off, VIDEO. lia.
    + by vm_compute.
Defined.
