(* ===== verification/Console.v ===== *)
(** * Console: what the text screen promises to its clients

    The boot sequence and the demonstration threads print with [printf] and clear
    the screen with [cls].  They rely on the laws of the class [Console]: a call
    returns, the screen shows what the reference terminal shows, and nothing
    outside the console's own area is written.  The functions of src/kvideo.c,
    with the string literals of the program in memory, are an instance. *)

From S2P Require Import Prelude Memory Klib Kvideo KvideoProps.

(** ** The interface *)

(** [print m v format words]; [clear m v]. *)
Class Console (print : mem -> video_state -> list Z -> list Z -> option (mem * video_state))
    (clear : mem -> video_state -> mem * video_state) := {
  (** The literals are in place. *)
  tty_ready : mem -> Prop;
  (** The screen of [m] and the cursor [v] show what the reference terminal shows. *)
  tty : mem -> video_state -> mem * video_state -> Prop;
  (** The bytes that the console reads or writes. *)
  tty_area : Z -> Prop;
  (** What a format with its words prints. *)
  tty_text : list Z -> list Z -> list out -> Prop;
  tty_ready_of m v t : tty m v t -> tty_ready m;
  tty_state m v t : tty m v t -> t.2 = v;
  tty_ready_frame m m' : tty_ready m -> same_on tty_area m m' -> tty_ready m';
  tty_frame m m' v t : tty m v t -> same_on tty_area m m' -> tty m' v t;
  tty_print m v t format ws os :
    tty m v t -> tty_text format ws os ->
    exists m' v', print m v format ws = Some (m', v') /\ tty m' v' (run os t) /\
      same_on (fun a => ~ tty_area a) m m';
  tty_clear m v m0 :
    tty_ready m -> tty (clear m v).1 (clear m v).2 (clear m0 v) /\
      same_on (fun a => ~ tty_area a) m (clear m v).1
}.

Section Client.
Context {print : mem -> video_state -> list Z -> list Z -> option (mem * video_state)}.
Context {clear : mem -> video_state -> mem * video_state} `{!Console print clear}.

(** From [m] and the reference terminal [t], [os] has been printed, by writes to the
    console's own bytes. *)
Definition says (m : mem) (t : mem * video_state) (os : list out) (m' : mem) (v' : video_state) : Prop :=
  tty m' v' (run os t) /\ same_on (fun a => ~ tty_area a) m m'.

Lemma says_nothing m v t : tty m v t -> says m t [] m v.
Proof. by split. Qed.

Lemma says_trans m t os m1 v1 os' m2 v2 :
  says m t os m1 v1 -> says m1 (run os t) os' m2 v2 -> says m t (os ++ os') m2 v2.
Proof. intros [_ H1] [H2 H3]. split; [by rewrite run_app|by transitivity m1]. Qed.

Lemma print_says m v t l ws os :
  tty m v t -> tty_text l ws os -> exists m' v', print m v l ws = Some (m', v') /\ says m t os m' v'.
Proof. intros Ht Hl. destruct (tty_print m v t l ws _ Ht Hl) as (m' & v' & ? & ? & ?). by exists m', v'. Qed.
End Client.

(** ** The instance *)

(** No call of the program passes more words. *)
Definition FRAME_WORDS : Z := 8.

Definition on_screen (a : Z) : Prop := VIDEO <= a < VIDEO + SCREEN_SIZE.

Lemma not_off_screen a : ~ on_screen a <-> off VIDEO SCREEN_SIZE a.
Proof. unfold on_screen, off. lia. Qed.

Lemma push_words_frame m a ws : same_off a (4 * Z.of_nat (length ws)) m (push_words m a ws).
Proof.
  revert m a. induction ws as [|w ws IH]; intros m a b Hb; [done|]. cbn [push_words length] in *.
  rewrite IH by (unfold off in *; lia). apply load8_store32_ne. unfold off in *. lia.
Qed.

Lemma push_words_lookup m a ws i w :
  ws !! i = Some w -> load32 (push_words m a ws) (a + 4 * Z.of_nat i) = u32 w.
Proof.
  revert m a i. induction ws as [|w' ws IH]; intros m a i Hi; [done|]. cbn [push_words].
  destruct i as [|i]; simplify_eq/=.
  - rewrite Z.add_0_r, <- (load32_store32_eq m a a w) by done.
    apply (same_on_load32 _ _ _ _ (push_words_frame _ _ _)). intros j Hj. unfold off. lia.
  - replace (a + 4 * Z.of_nat (S i)) with (a + 4 + 4 * Z.of_nat i) by lia. by apply IH.
Qed.

Section Instance.
Context (fuel : nat) (buf null_str : Z) (str : Z -> option (list Z)).
(** Where the compiler puts the literals, and which ones there are. *)
Context (lit : list Z -> Z) (frame : Z) (lits : list (list Z)).

(** The bytes of a text with its end, and those of a string argument. *)
Definition text_bytes (p : Z) (l : list Z) (a : Z) : Prop := p <= a <= p + Z.of_nat (length l).
Definition string_at (w : Z) : Z := if w =? 0 then null_str else w.

Definition in_text (a : Z) : Prop :=
  (exists l, l ∈ lits /\ text_bytes (lit l) l a) \/
  (exists w s, str w = Some s /\ text_bytes (string_at w) s a).

(** The bytes that a call writes. *)
Definition scratch (a : Z) : Prop :=
  on_screen a \/ buf <= a < buf + 12 \/ frame <= a < frame + 4 * FRAME_WORDS.

(** The linker's promise: buffers, frame, literals and screen are apart. *)
Record console_layout : Prop := {
  cl_fuel : (12 < fuel)%nat;
  cl_buf : off_screen buf 12;
  cl_frame a : frame <= a < frame + 4 * FRAME_WORDS -> clear buf a;
  cl_text a : in_text a -> ~ scratch a;
  cl_lit l : l ∈ lits -> (length l < fuel)%nat;
  cl_str w s : str w = Some s -> (length s < fuel)%nat /\ Z.of_nat (length s) < 4294967296 /\
    off_screen (string_at w) (Z.of_nat (length s) + 1)
}.

Definition texts_in (m : mem) : Prop :=
  (forall l, l ∈ lits -> cstr m (lit l) l) /\
  (forall w s, str w = Some s -> cstr m (string_at w) s).

Definition shows (m : mem) (v : video_state) (t : mem * video_state) : Prop :=
  cursor_ok v /\ t.2 = v /\ same_on on_screen t.1 m /\ texts_in m.

Definition console_area (a : Z) : Prop := scratch a \/ in_text a.

Definition prints (format ws : list Z) (os : list out) : Prop :=
  format ∈ lits /\ Z.of_nat (length ws) <= FRAME_WORDS /\
  render str fuel format (u32 <$> ws) = Some os.

Lemma texts_frame m m' : texts_in m -> same_on in_text m m' -> texts_in m'.
Proof.
  intros [H1 H2] Hs. split.
  - intros l Hl. apply (cstr_ext m); [|by apply H1]. intros i Hi. apply Hs. left.
    exists l. split; [done|]. unfold text_bytes. lia.
  - intros w s Hw. apply (cstr_ext m); [|by apply H2]. intros i Hi. apply Hs. right.
    exists w, s. split; [done|]. unfold text_bytes. lia.
Qed.

Lemma area_text m m' : same_on console_area m m' -> same_on in_text m m'.
Proof. apply same_on_weaken. by right. Qed.

Lemma shows_frame m m' v t : shows m v t -> same_on console_area m m' -> shows m' v t.
Proof.
  intros (Hc & Ht & Hs & Hx) Hm. split_and!; [done|done| |by eapply texts_frame, area_text].
  intros a Ha. rewrite Hm by (left; by left). by apply Hs.
Qed.

Lemma text_frame m m' :
  console_layout -> same_on (fun a => ~ scratch a) m m' -> same_on in_text m m'.
Proof. intros Hl. apply same_on_weaken. apply (cl_text Hl). Qed.

Lemma clear_not_scratch a : ~ scratch a -> clear buf a.
Proof. unfold scratch, clear, on_screen, off. lia. Qed.

Lemma shows_clear m v m0 :
  console_layout -> texts_in m -> shows (cls m v).1 (cls m v).2 (cls m0 v) /\
    same_on (fun a => ~ console_area a) m (cls m v).1.
Proof.
  intros Hl Hx. assert (same_on (fun a => ~ on_screen a) m (cls m v).1) as Hm.
  { intros a Ha. unfold cls. cbn [fst snd]. rewrite cls_loop_spec. unfold on_screen, SCREEN_SIZE in Ha.
    rewrite Z2Nat.id by by vm_compute. rewrite decide_False by lia. reflexivity. }
  split; [split_and!|].
  - unfold cursor_ok, cls. cbn [snd xpos ypos video]. unfold COLUMNS, LINES. lia.
  - reflexivity.
  - intros a Ha. unfold cls. cbn [fst snd]. rewrite !cls_loop_spec.
    unfold on_screen, SCREEN_SIZE in Ha. rewrite Z2Nat.id by by vm_compute.
    rewrite !decide_True by lia. reflexivity.
  - eapply texts_frame; [exact Hx|]. apply text_frame; [done|]. eapply same_on_weaken; [|exact Hm].
    intros a Ha Hs. apply Ha. left. exact Hs.
  - eapply same_on_weaken; [|exact Hm]. intros a Ha Hs. apply Ha. left. left. exact Hs.
Qed.

(** A string or a literal in the memory of the call. *)
Lemma text_readable p l :
  console_layout -> (forall a, text_bytes p l a -> in_text a) -> readable buf p (Z.of_nat (length l)).
Proof.
  intros Hl H i Hi. apply clear_not_scratch, (cl_text Hl), H. unfold text_bytes. lia.
Qed.

Lemma call_words m ws :
  console_layout -> Z.of_nat (length ws) <= FRAME_WORDS ->
  words buf (push_words m frame ws) frame (u32 <$> ws).
Proof.
  intros Hl Hn i w (w' & -> & Hi)%list_lookup_fmap_Some_1. pose proof (lookup_lt_Some _ _ _ Hi).
  split; [by apply push_words_lookup|]. intros j Hj. apply (cl_frame Hl). lia.
Qed.

Lemma call_strings m : console_layout -> texts_in m -> strings fuel buf null_str str m.
Proof.
  intros Hl [_ Hx] w s Hw. destruct (cl_str Hl w s Hw) as (H1 & H2 & H3).
  fold (string_at w). split_and!; [by apply Hx| |done|done|done].
  apply text_readable; [done|]. intros a Ha. right. by exists w, s.
Qed.

Lemma shows_print m v t format ws os :
  console_layout -> shows m v t -> prints format ws os ->
  exists m' v', call_printf fuel buf null_str lit frame m v format ws = Some (m', v') /\
    shows m' v' (run os t) /\ same_on (fun a => ~ console_area a) m m'.
Proof.
  intros Hl (Hc & Ht & Hs & Hx) (Hf & Hn & Hr). unfold call_printf, printf.
  pose proof (push_words_frame m frame ws) as Hp. set (m1 := push_words m frame ws) in *.
  assert (same_on (fun a => ~ scratch a) m m1) as Hm1.
  { eapply same_on_weaken; [|exact Hp]. unfold scratch, off. intros. lia. }
  pose proof (texts_frame m m1 Hx (text_frame m m1 Hl Hm1)) as Hx1.
  destruct (printf_loop_render fuel buf null_str str m1 fuel m1 m1 v (lit format) format frame
    (u32 <$> ws) os) as (m' & E & [P1 P2 P3]);
    [by split; [done|intros ?|intros ?]|by apply call_strings|apply (cl_buf Hl)|apply (cl_fuel Hl)
    |by apply Hx1| |by apply (cl_lit Hl)|by apply call_words|done|].
  { apply text_readable; [done|]. intros a Ha. left. by exists format. }
  assert (same_on (fun a => ~ scratch a) m m') as Hm'.
  { transitivity m1; [done|]. eapply same_on_weaken; [|exact P2]. apply clear_not_scratch. }
  assert (same_on on_screen t.1 m1) as Ht1.
  { intros a Ha. rewrite (Hp a); [by apply Hs|].
    destruct (decide (off frame (4 * Z.of_nat (length ws)) a)) as [|Hoff]; [done|exfalso].
    destruct (cl_frame Hl a) as [H _]; [unfold off in *; lia|]. by apply not_off_screen in H. }
  destruct (run_agree on_screen os t.1 m1 v Hc Ht1) as [R1 R2].
  rewrite <- Ht, <- surjective_pairing in R1, R2.
  exists m', (run os (m1, v)).2. split; [done|]. rewrite Ht in *. split; [split_and!|].
  - done.
  - done.
  - intros a Ha. rewrite P3; [by apply R1|].
    pose proof (cl_buf Hl). unfold off, on_screen, off_screen in *. lia.
  - eapply texts_frame; [exact Hx|]. by apply text_frame.
  - eapply same_on_weaken; [|exact Hm']. intros a Ha Hs'. apply Ha. left. exact Hs'.
Qed.

Definition kvideo_console (Hl : console_layout) :
  Console (call_printf fuel buf null_str lit frame) cls.
Proof.
  refine {| tty_ready := texts_in; tty := shows; tty_area := console_area; tty_text := prints |}.
  - by intros m v t (_ & _ & _ & H).
  - by intros m v t (_ & H & _).
  - intros m m' H Hs. by eapply texts_frame, area_text.
  - exact shows_frame.
  - intros. by apply shows_print.
  - intros. by apply shows_clear.
Defined.
End Instance.

(** ** Formats as texts and directives *)

(** A character that [printf] prints as it is. *)
Definition literal_char (b : Z) : Prop := 0 < b < 128 /\ b <> 27 /\ b <> 37.

#[export] Instance literal_char_dec b : Decision (literal_char b).
Proof. unfold literal_char. apply _. Defined.

Lemma render_text str n l rest args os :
  Forall literal_char l -> render str n rest args = Some os ->
  render str (length l + n) (l ++ rest) args = Some ((Put <$> l) ++ os).
Proof.
  intros Hl E. induction Hl as [|b l (Hb & H27 & H37) _ IH]; [done|].
  cbn [length Nat.add app render fmap list_fmap]. assert (s8 b = b) as -> by (unfold s8; dlia).
  rewrite !eqb_ne by lia. rewrite IH. done.
Qed.

Lemma render_d str n w :
  render str (4 + n) [37; 100; 10] [w] = Some (field 0 false (itoa_text 100 (s32 w)) ++ [Put 10]).
Proof. reflexivity. Qed.

(** ** A concrete layout *)

(** The literals of the list one after the other, 256 bytes apart. *)
Definition ex_text : Z := 0x10000.
Definition ex_lit (lits : list (list Z)) (l : list Z) : Z :=
  match list_find (l =.) lits with
  | Some (i, _) => ex_text + 256 * Z.of_nat i
  | None => 0
  end.

Definition ex_buf : Z := 0x4000.
Definition ex_frame : Z := 0x5000.
Definition ex_str (w : Z) : option (list Z) := None.
Definition ex_print (lits : list (list Z)) :
  mem -> video_state -> list Z -> list Z -> option (mem * video_state) :=
  call_printf 300 ex_buf 0 (ex_lit lits) ex_frame.

Definition ex_texts (lits : list (list Z)) (m : mem) : mem :=
  foldl (fun m l => store_bytes m (ex_lit lits l) (l ++ [0])) m lits.

Lemma ex_lit_range lits l :
  l ∈ lits -> (length lits <= 256)%nat -> ex_text <= ex_lit lits l <= ex_text + 256 * 255.
Proof.
  intros Hl Hn. unfold ex_lit. destruct (list_find_elem_of (l =.) lits l Hl eq_refl) as [[i x] E].
  rewrite E. apply list_find_Some in E as (Hi%lookup_lt_Some & _ & _). unfold ex_text. lia.
Qed.

Lemma ex_texts_frame lits m :
  (length lits <= 256)%nat -> Forall (fun l => (length l < 256)%nat) lits ->
  same_off ex_text (256 * 256) m (ex_texts lits m).
Proof.
  intros Hn Hl. rewrite Forall_forall in Hl. unfold ex_texts.
  assert (forall ls, (forall l, l ∈ ls -> l ∈ lits) -> same_off ex_text (256 * 256) m
    (foldl (fun m l => store_bytes m (ex_lit lits l) (l ++ [0])) m ls)) as H; [|by apply H].
  intros ls. induction ls as [|l ls IH] using rev_ind; intros Hls; [done|].
  rewrite foldl_app. simpl. transitivity (foldl (fun m l => store_bytes m (ex_lit lits l) (l ++ [0])) m ls).
  - apply IH. intros l' Hl'. apply Hls. set_solver.
  - assert (l ∈ lits) as Hin by (apply Hls; set_solver). specialize (Hl l Hin).
    pose proof (ex_lit_range lits l Hin Hn).
    eapply same_on_weaken; [|apply store_bytes_same_off]. intros a Ha. rewrite length_app.
    unfold off in *. simpl. lia.
Qed.

Lemma ex_layout lits :
  (length lits <= 256)%nat -> Forall (fun l => (length l < 256)%nat) lits ->
  console_layout 300 ex_buf 0 ex_str (ex_lit lits) ex_frame lits.
Proof.
  intros Hn Hl. rewrite Forall_forall in Hl. split.
  - lia.
  - left. by vm_compute.
  - intros a Ha. unfold clear, off, ex_buf, ex_frame, FRAME_WORDS, VIDEO in *. lia.
  - intros a [(l & Hin & Ha)|(w & s & H & _)]; [|done]. specialize (Hl l Hin).
    pose proof (ex_lit_range lits l Hin Hn). unfold text_bytes, ex_text in *.
    unfold scratch, on_screen, ex_buf, ex_frame, FRAME_WORDS, VIDEO.
    change SCREEN_SIZE with 4000. lia.
  - intros l Hin. specialize (Hl l Hin). lia.
  - done.
Qed.

Lemma ex_area_range lits a :
  (length lits <= 256)%nat -> Forall (fun l => (length l < 256)%nat) lits ->
  console_area ex_buf 0 ex_str (ex_lit lits) ex_frame lits a -> ex_buf <= a < VIDEO + SCREEN_SIZE.
Proof.
  intros Hn Hl. rewrite Forall_forall in Hl. change SCREEN_SIZE with 4000.
  intros [Ha|[(l & Hin & Ha)|(w & s & H & _)]]; [| |done].
  - unfold scratch, on_screen, ex_buf, ex_frame, FRAME_WORDS, VIDEO in *.
    change SCREEN_SIZE with 4000 in Ha. lia.
  - specialize (Hl l Hin). pose proof (ex_lit_range lits l Hin Hn).
    unfold text_bytes, ex_text, ex_buf, VIDEO in *. lia.
Qed.

Definition ex_console lits Hn Hl : Console (ex_print lits) cls :=
  kvideo_console _ _ _ _ _ _ _ (ex_layout lits Hn Hl).

(** An executable test for [texts_in]. *)
Fixpoint cstrb (m : mem) (p : Z) (s : list Z) : bool :=
  match s with
  | [] => load8 m p =? 0
  | b :: s' => negb (b =? 0) && (load8 m p =? b) && cstrb m (p + 1) s'
  end.

Lemma cstrb_cstr m p s : cstrb m p s = true -> cstr m p s.
Proof.
  revert p. induction s as [|b s IH]; intros p; cbn [cstrb cstr]; [apply Z.eqb_eq|].
  rewrite !andb_true_iff, negb_true_iff, Z.eqb_neq, Z.eqb_eq. intros [[H1 H2] H3]. auto.
Qed.

Lemma ex_texts_in lits m :
  forallb (fun l => cstrb m (ex_lit lits l) l) lits = true -> texts_in 0 ex_str (ex_lit lits) lits m.
Proof.
  intros H. split; [|done]. intros l Hl. apply cstrb_cstr. rewrite forallb_forall in H.
  apply H. by apply list_elem_of_In.
Qed.

(** What a format with its words prints in this layout, and an executable test for it. *)
Definition ex_output (l : list Z * list Z) : list out := default [] (render ex_str 300 l.1 (u32 <$> l.2)).

Definition ex_prints (lits : list (list Z)) (l : list Z * list Z) : bool :=
  bool_decide (l.1 ∈ lits) && (Z.of_nat (length l.2) <=? FRAME_WORDS) &&
  bool_decide (is_Some (render ex_str 300 l.1 (u32 <$> l.2))).

Lemma ex_prints_ok lits l : ex_prints lits l = true -> prints 300 ex_str lits l.1 l.2 (ex_output l).
Proof.
  unfold ex_prints, ex_output. rewrite !andb_true_iff, !bool_decide_eq_true, Z.leb_le.
  intros [[H1 H2] [os E]]. split_and!; [done|done|by rewrite E].
Qed.

Lemma ex_prints_all lits ls :
  forallb (ex_prints lits) ls = true ->
  Forall2 (fun l os => prints 300 ex_str lits l.1 l.2 os) ls (ex_output <$> ls).
Proof.
  induction ls as [|l ls IH]; [constructor|]. cbn [forallb]. rewrite andb_true_iff. intros [H1 H2].
  constructor; [by apply ex_prints_ok|by apply IH].
Qed.
