(* ===== verification/ProtoCr.v ===== *)
(** * ProtoCr: the cooperative threads of src/proto_cr.c

    Two coroutines written with a [switch] on a static [state], and a loop over a
    doubly linked run queue that calls them in turn.  The head of the queue is a
    static variable, the other entry comes from the allocator.  The theorem
    follows the loop to its end, against the interfaces [Heap] and [Console]. *)

From Stdlib Require Import Strings.String.
From S2P Require Import Prelude Memory Klib Kmalloc KmallocStore KmallocProps Heap.
From S2P Require Import Kvideo KvideoProps Console.

(** ** State *)

Definition MAX_THREADS : Z := 2.

(** [struct runqueue] *)
Definition RQ_SIZE : Z := 16.
Definition rq_task (m : mem) (p : Z) : Z := load32 m p.
Definition rq_tid (m : mem) (p : Z) : Z := s32 (load32 m (p + 4)).
Definition rq_next (m : mem) (p : Z) : Z := load32 m (p + 8).
Definition rq_prev (m : mem) (p : Z) : Z := load32 m (p + 12).
Definition set_rq_task (m : mem) (p v : Z) : mem := store32 m p v.
Definition set_rq_tid (m : mem) (p v : Z) : mem := store32 m (p + 4) v.
Definition set_rq_next (m : mem) (p v : Z) : mem := store32 m (p + 8) v.
Definition set_rq_prev (m : mem) (p v : Z) : mem := store32 m (p + 12) v.

(** The static variables of one coroutine, [state] of [crBegin] and [j]. *)
Record locals := Locals { state : Z; j : Z }.

(** The static variables of the file other than the queue. *)
Record cr_state := CrState { locals1 : locals; locals2 : locals; done_ : list Z }.

Definition upd_locals1 (s : cr_state) (l : locals) : cr_state := CrState l (locals2 s) (done_ s).
Definition upd_locals2 (s : cr_state) (l : locals) : cr_state := CrState (locals1 s) l (done_ s).
Definition upd_done (s : cr_state) (i : nat) (v : Z) : cr_state :=
  CrState (locals1 s) (locals2 s) (<[i := v]> (done_ s)).

(** Zero initialised. *)
Definition cr_static : cr_state := CrState (Locals 0 0) (Locals 0 0) [0; 0].

(** [__LINE__] at the [crReturn] of either coroutine. *)
Definition LINE1 : Z := 46.
Definition LINE2 : Z := 73.

Definition newline_str : list Z := [10].

Section ProtoCr.
Context (kmalloc : mem -> Z -> option (mem * Z)) (kfree : mem -> Z -> option mem).
Context (printf : mem -> video_state -> list Z -> list Z -> option (mem * video_state)).
(** Addresses: [head], [proto_cr_thread1] and [proto_cr_thread2]. *)
Context (head thread1 thread2 : Z).

(** ** The coroutines *)

(** [for (i = 0; i < n; i++) printf(s);] *)
Fixpoint print_times (n : nat) (m : mem) (v : video_state) (s : list Z) :
  option (mem * video_state) :=
  match n with
  | O => Some (m, v)
  | S k => '(m, v) ← printf m v s []; print_times k m v s
  end.

(** The body of [while (1)] up to the [return] of [crReturn]. *)
Definition thread1_turn (m : mem) (v : video_state) (s : cr_state) :
  option (mem * video_state * cr_state * Z) :=
  '(m, v) ← print_times 10 m v (chars "<1>");
  '(m, v) ← printf m v newline_str [];
  Some (m, v, upd_locals1 s (Locals LINE1 (j (locals1 s))), 1).

Definition proto_cr_thread1 (m : mem) (v : video_state) (s : cr_state) :
  option (mem * video_state * cr_state * Z) :=
  if state (locals1 s) =? 0 then thread1_turn m v s
  else if state (locals1 s) =? LINE1 then
    let s := upd_locals1 s (Locals (state (locals1 s)) (s32 (j (locals1 s) + 1))) in
    if j (locals1 s) =? 3 then
      let s := upd_done s 0 1 in
      '(m, v) ← printf m v (chars "Done <1>!" ++ newline_str) [];
      Some (m, v, s, 1)
    else thread1_turn m v s
  else Some (m, v, s, 1).

Definition thread2_turn (m : mem) (v : video_state) (s : cr_state) :
  option (mem * video_state * cr_state * Z) :=
  '(m, v) ← print_times 5 m v (chars "<2>");
  '(m, v) ← printf m v newline_str [];
  Some (m, v, upd_locals2 s (Locals LINE2 (j (locals2 s))), 2).

Definition proto_cr_thread2 (m : mem) (v : video_state) (s : cr_state) :
  option (mem * video_state * cr_state * Z) :=
  if state (locals2 s) =? 0 then thread2_turn m v s
  else if state (locals2 s) =? LINE2 then
    let s := upd_locals2 s (Locals (state (locals2 s)) (s32 (j (locals2 s) + 1))) in
    if j (locals2 s) =? 5 then
      let s := upd_done s 1 1 in
      '(m, v) ← printf m v (chars "Done <2>!" ++ newline_str) [];
      Some (m, v, s, 2)
    else thread2_turn m v s
  else Some (m, v, s, 2).

(** A call through a function pointer; any other address is no function of the file. *)
Definition call_task (task : Z) (m : mem) (v : video_state) (s : cr_state) :
  option (mem * video_state * cr_state * Z) :=
  if task =? thread1 then proto_cr_thread1 m v s
  else if task =? thread2 then proto_cr_thread2 m v s
  else None.

(** ** The run queue *)

(** [while (current)]; reading [done] out of its bounds has no meaning. *)
Fixpoint schedule_loop (fuel : nat) (m : mem) (v : video_state) (s : cr_state)
  (current threads : Z) : option (mem * video_state * cr_state) :=
  match fuel with
  | O => None
  | S n =>
      if negb (c_true current) then Some (m, v, s)
      else
        '(m, v, s, _) ← call_task (rq_task m current) m v s;
        d ← (if 0 <=? rq_tid m current then done_ s !! Z.to_nat (rq_tid m current) else None);
        if c_true d then
          if threads =? 1 then Some (m, v, s)
          else
            let finished := current in
            let m := set_rq_next m (rq_prev m finished) (rq_next m current) in
            let current := rq_next m current in
            let m := set_rq_prev m current (rq_prev m finished) in
            let m :=
              if rq_next m current =? finished then set_rq_next m current (rq_next m finished)
              else m in
            if negb (finished =? head) then
              m ← kfree m finished;
              schedule_loop n m v s current (threads - 1)
            else schedule_loop n m v s current threads
        else schedule_loop n m v s (rq_next m current) threads
  end.

Definition proto_cr_schedule (fuel : nat) (m : mem) (v : video_state) (s : cr_state) :
  option (mem * video_state * cr_state) :=
  schedule_loop fuel m v s head MAX_THREADS.

(** [for (i = 1; i < MAX_THREADS; i++)]; [n] iterations are left. *)
Fixpoint register_loop (n : nat) (f : list Z) (m : mem) (i pptr : Z) : option mem :=
  match n with
  | O => Some m
  | S k =>
      '(m, ptr) ← kmalloc m RQ_SIZE;
      let '(m, pptr) :=
        if i =? 1 then (set_rq_next m head ptr, head)
        else
          let pptr := rq_next m pptr in
          (set_rq_next m pptr ptr, pptr) in
      let m := set_rq_prev m ptr pptr in
      task ← f !! Z.to_nat i;
      let m := set_rq_task m ptr task in
      let m := set_rq_tid m ptr i in
      let m := set_rq_next m ptr head in
      let m := set_rq_prev m head ptr in
      register_loop k f m (i + 1) pptr
  end.

Definition proto_cr_register_routine (m : mem) : option mem :=
  let f := [thread1; thread2] in
  task ← f !! 0%nat;
  let m := set_rq_task m head task in
  let m := set_rq_tid m head 0 in
  let m := set_rq_next m head 0 in
  let m := set_rq_prev m head 0 in
  register_loop (Z.to_nat (MAX_THREADS - 1)) f m 1 0.
End ProtoCr.

(** ** What the coroutines print *)

Definition puts (l : list Z) : list out := Put <$> l.

Definition turn1_out : list out := concat (replicate 10 (puts (chars "<1>"))) ++ puts newline_str.
Definition turn2_out : list out := concat (replicate 5 (puts (chars "<2>"))) ++ puts newline_str.
Definition done1_out : list out := puts (chars "Done <1>!" ++ newline_str).
Definition done2_out : list out := puts (chars "Done <2>!" ++ newline_str).

(** The whole run: [proto_cr_thread2] runs once more after it is done. *)
Definition proto_cr_output : list out :=
  concat [turn1_out; turn2_out; turn1_out; turn2_out; turn1_out; turn2_out; done1_out;
    turn2_out; turn2_out; done2_out; turn2_out].

(** One call as a function of the static variables. *)
Definition turn1 (s : cr_state) : cr_state * list out :=
  if state (locals1 s) =? 0 then (upd_locals1 s (Locals LINE1 (j (locals1 s))), turn1_out)
  else
    let s := upd_locals1 s (Locals LINE1 (s32 (j (locals1 s) + 1))) in
    if j (locals1 s) =? 3 then (upd_done s 0 1, done1_out) else (s, turn1_out).

Definition turn2 (s : cr_state) : cr_state * list out :=
  if state (locals2 s) =? 0 then (upd_locals2 s (Locals LINE2 (j (locals2 s))), turn2_out)
  else
    let s := upd_locals2 s (Locals LINE2 (s32 (j (locals2 s) + 1))) in
    if j (locals2 s) =? 5 then (upd_done s 1 1, done2_out) else (s, turn2_out).

(** The [switch] has a case for the state. *)
Definition states_ok (s : cr_state) : Prop :=
  (state (locals1 s) = 0 \/ state (locals1 s) = LINE1) /\
  (state (locals2 s) = 0 \/ state (locals2 s) = LINE2).

Section Proofs.
Context {kmalloc : mem -> Z -> option (mem * Z)} {kfree : mem -> Z -> option mem}.
Context {printf : mem -> video_state -> list Z -> list Z -> option (mem * video_state)}.
Context {clear : mem -> video_state -> mem * video_state}.
Context `{!Heap kmalloc kfree} `{!Console printf clear}.
Context {head thread1 thread2 : Z}.

(** The literals of the file print as they stand. *)
Definition plain (l : list Z) : Prop := tty_text l [] (puts l).

Definition proto_cr_literals : list (list Z) :=
  [chars "<1>"; chars "<2>"; newline_str; chars "Done <1>!" ++ newline_str;
   chars "Done <2>!" ++ newline_str].

Definition literals_plain : Prop := Forall plain proto_cr_literals.

Lemma print_plain m v t l :
  tty m v t -> plain l -> exists m' v', printf m v l [] = Some (m', v') /\ says m t (puts l) m' v'.
Proof. apply print_says. Qed.

Lemma print_times_says n m v t l :
  tty m v t -> plain l -> exists m' v', print_times printf n m v l = Some (m', v') /\
    says m t (concat (replicate n (puts l))) m' v'.
Proof.
  intros Ht Hl. revert m v t Ht. induction n as [|n IH]; intros m v t Ht.
  - by exists m, v.
  - destruct (print_plain m v t l Ht Hl) as (m1 & v1 & E1 & H1).
    destruct (IH m1 v1 _ (proj1 H1)) as (m2 & v2 & E2 & H2).
    exists m2, v2. cbn [print_times]. rewrite E1. split; [exact E2|].
    exact (says_trans _ _ _ _ _ _ _ _ H1 H2).
Qed.

(** A row of texts and a newline. *)
Lemma row_says n m v t l :
  tty m v t -> plain l -> plain newline_str ->
  exists m1 v1 m2 v2, print_times printf n m v l = Some (m1, v1) /\
    printf m1 v1 newline_str [] = Some (m2, v2) /\
    says m t (concat (replicate n (puts l)) ++ puts newline_str) m2 v2.
Proof.
  intros Ht Hl Hn. destruct (print_times_says n m v t l Ht Hl) as (m1 & v1 & E1 & H1).
  destruct (print_plain m1 v1 _ _ (proj1 H1) Hn) as (m2 & v2 & E2 & H2).
  exists m1, v1, m2, v2. split_and!; [done|done|]. exact (says_trans _ _ _ _ _ _ _ _ H1 H2).
Qed.

Lemma thread1_turn_says m v t s :
  tty m v t -> literals_plain -> exists m' v',
    thread1_turn printf m v s = Some (m', v', upd_locals1 s (Locals LINE1 (j (locals1 s))), 1) /\
    says m t turn1_out m' v'.
Proof.
  intros Ht Hl. repeat apply Forall_cons in Hl as [? Hl].
  destruct (row_says 10 m v t (chars "<1>")) as (m1 & v1 & m2 & v2 & E1 & E2 & Hr); [done..|].
  exists m2, v2. unfold thread1_turn. rewrite E1. cbn [mbind option_bind]. by rewrite E2.
Qed.

Lemma thread2_turn_says m v t s :
  tty m v t -> literals_plain -> exists m' v',
    thread2_turn printf m v s = Some (m', v', upd_locals2 s (Locals LINE2 (j (locals2 s))), 2) /\
    says m t turn2_out m' v'.
Proof.
  intros Ht Hl. repeat apply Forall_cons in Hl as [? Hl].
  destruct (row_says 5 m v t (chars "<2>")) as (m1 & v1 & m2 & v2 & E1 & E2 & Hr); [done..|].
  exists m2, v2. unfold thread2_turn. rewrite E1. cbn [mbind option_bind]. by rewrite E2.
Qed.

Lemma thread1_says m v t s :
  tty m v t -> literals_plain -> states_ok s ->
  exists m' v', proto_cr_thread1 printf m v s = Some (m', v', (turn1 s).1, 1) /\
    says m t (turn1 s).2 m' v'.
Proof.
  intros Ht Hl [Hs _]. unfold proto_cr_thread1, turn1.
  destruct Hs as [->| ->]; cbn -[thread1_turn puts chars].
  - by apply thread1_turn_says.
  - case_Z.
    + repeat apply Forall_cons in Hl as [? Hl].
      destruct (print_plain m v t (chars "Done <1>!" ++ newline_str)) as (m1 & v1 & E1 & Hr); [done..|].
      exists m1, v1. by rewrite E1.
    + by apply (thread1_turn_says m v t (upd_locals1 s (Locals LINE1 (s32 (j (locals1 s) + 1))))).
Qed.

Lemma thread2_says m v t s :
  tty m v t -> literals_plain -> states_ok s ->
  exists m' v', proto_cr_thread2 printf m v s = Some (m', v', (turn2 s).1, 2) /\
    says m t (turn2 s).2 m' v'.
Proof.
  intros Ht Hl [_ Hs]. unfold proto_cr_thread2, turn2.
  destruct Hs as [->| ->]; cbn -[thread2_turn puts chars].
  - by apply thread2_turn_says.
  - case_Z.
    + repeat apply Forall_cons in Hl as [? Hl].
      destruct (print_plain m v t (chars "Done <2>!" ++ newline_str)) as (m1 & v1 & E1 & Hr); [done..|].
      exists m1, v1. by rewrite E1.
    + by apply (thread2_turn_says m v t (upd_locals2 s (Locals LINE2 (s32 (j (locals2 s) + 1))))).
Qed.
(** *** The queue *)

Definition entry (m : mem) (q task tid nx pv : Z) : Prop :=
  rq_task m q = task /\ rq_tid m q = tid /\ rq_next m q = nx /\ rq_prev m q = pv.

(** An entry that the console does not touch. *)
Definition quiet (q : Z) : Prop := forall a, in_block (q, RQ_SIZE) a -> ~ tty_area a.

Lemma entry_ext m m' q task tid nx pv :
  same_on (in_block (q, RQ_SIZE)) m m' -> entry m q task tid nx pv -> entry m' q task tid nx pv.
Proof.
  unfold entry, rq_task, rq_tid, rq_next, rq_prev. intros Hs.
  rewrite <- (same_on_load32 _ _ _ q Hs), <- (same_on_load32 _ _ _ (q + 4) Hs),
    <- (same_on_load32 _ _ _ (q + 8) Hs), <- (same_on_load32 _ _ _ (q + 12) Hs); [done|..];
    intros i Hi; unfold in_block, RQ_SIZE; simpl; lia.
Qed.

Lemma entry_says m t os m' v' q task tid nx pv :
  says m t os m' v' -> quiet q -> entry m q task tid nx pv -> entry m' q task tid nx pv.
Proof. intros [_ Hs] Hq. apply entry_ext. eapply same_on_weaken; [|exact Hs]. exact Hq. Qed.

(** The code and the turn of a thread. *)
Definition task_of (tid : Z) : Z := if tid =? 0 then thread1 else thread2.
Definition turn_of (tid : Z) (s : cr_state) : cr_state * list out :=
  if tid =? 0 then turn1 s else turn2 s.

Definition is_tid (tid : Z) : Prop := tid = 0 \/ tid = 1.

Lemma call_task_says m v t s tid :
  thread1 <> thread2 -> tty m v t -> literals_plain -> states_ok s -> is_tid tid ->
  exists m' v', call_task printf thread1 thread2 (task_of tid) m v s
      = Some (m', v', (turn_of tid s).1, tid + 1) /\ says m t (turn_of tid s).2 m' v'.
Proof.
  intros Hne Ht Hl Hs [->| ->]; unfold call_task, task_of, turn_of; cbn -[turn1 turn2].
  - rewrite Z.eqb_refl. by apply thread1_says.
  - rewrite eqb_ne, Z.eqb_refl by done. by apply thread2_says.
Qed.

Local Abbreviation loop := (schedule_loop kfree printf head thread1 thread2).

(** A turn after which the thread is not done. *)
Lemma loop_next n m v t s q tid nx pv threads :
  thread1 <> thread2 -> tty m v t -> literals_plain -> states_ok s -> is_tid tid ->
  entry m q (task_of tid) tid nx pv -> q <> 0 -> quiet q ->
  done_ (turn_of tid s).1 !! Z.to_nat tid = Some 0 ->
  exists m' v', loop (S n) m v s q threads = loop n m' v' (turn_of tid s).1 nx threads /\
    says m t (turn_of tid s).2 m' v'.
Proof.
  intros Hne Ht Hl Hs Hi Hq Hq0 Hqt Hd.
  destruct (call_task_says m v t s tid Hne Ht Hl Hs Hi) as (m' & v' & E & Hsay).
  pose proof (entry_says _ _ _ _ _ _ _ _ _ _ Hsay Hqt Hq) as (_ & H2 & H3 & _).
  exists m', v'. split; [|done]. cbn [schedule_loop]. rewrite (c_true_nonzero q) by done.
  destruct Hq as (-> & _). rewrite E. cbn [mbind option_bind negb]. rewrite H2, H3.
  by rewrite leb_le, Hd by (destruct Hi; lia).
Qed.

(** A turn after which the thread is done, up to the test of [threads]. *)
Lemma loop_done n m v t s q tid nx pv threads :
  thread1 <> thread2 -> tty m v t -> literals_plain -> states_ok s -> is_tid tid ->
  entry m q (task_of tid) tid nx pv -> q <> 0 -> quiet q ->
  done_ (turn_of tid s).1 !! Z.to_nat tid = Some 1 ->
  exists m' v', says m t (turn_of tid s).2 m' v' /\
    loop (S n) m v s q threads =
      let s := (turn_of tid s).1 in
      if threads =? 1 then Some (m', v', s)
      else
        let m := set_rq_next m' (rq_prev m' q) (rq_next m' q) in
        let current := rq_next m q in
        let m := set_rq_prev m current (rq_prev m q) in
        let m := if rq_next m current =? q then set_rq_next m current (rq_next m q) else m in
        if negb (q =? head) then
          m ← kfree m q; loop n m v' s current (threads - 1)
        else loop n m v' s current threads.
Proof.
  intros Hne Ht Hl Hs Hi Hq Hq0 Hqt Hd.
  destruct (call_task_says m v t s tid Hne Ht Hl Hs Hi) as (m' & v' & E & Hsay).
  pose proof (entry_says _ _ _ _ _ _ _ _ _ _ Hsay Hqt Hq) as (_ & H2 & H3 & _).
  exists m', v'. split; [done|]. cbn [schedule_loop]. rewrite (c_true_nonzero q) by done.
  destruct Hq as (-> & _). rewrite E. cbn [mbind option_bind negb]. rewrite H2.
  by rewrite leb_le, Hd by (destruct Hi; lia).
Qed.

(** Both entries, linked both ways round. *)
Definition ring2 (m : mem) (p : Z) : Prop :=
  entry m head thread1 0 p p /\ entry m p thread2 1 head head.

(** Where the entries are. *)
Record cr_layout (p : Z) : Prop := {
  crl_head : 0 < head /\ head + RQ_SIZE <= 4294967296;
  crl_p : 0 < p /\ p + RQ_SIZE <= 4294967296;
  crl_apart : disjoint_blocks (head, RQ_SIZE) (p, RQ_SIZE);
  crl_quiet : quiet head /\ quiet p
}.

Ltac unfold_rq :=
  unfold entry, rq_task, rq_tid, rq_next, rq_prev, set_rq_task, set_rq_tid, set_rq_next,
    set_rq_prev, RQ_SIZE in *.

(** Writes to the links of [p] alone. *)
Lemma set_links m p nx pv task tid nx0 pv0 :
  entry m p task tid nx0 pv0 -> 0 <= nx < 4294967296 -> 0 <= pv < 4294967296 ->
  let m' := set_rq_prev (set_rq_next m p nx) p pv in
  entry m' p task tid nx pv /\ same_off p RQ_SIZE m m'.
Proof.
  intros (H1 & H2 & _ & _) Hn Hp m'. split.
  - unfold m'. unfold_rq. mem_simpl. by rewrite !u32_small.
  - unfold m'. unfold_rq. repeat (apply store32_same_on; [|unfold off; intros; lia]). done.
Qed.

(** The writes that take the head out of the queue of two. *)
Lemma unlink_head m p :
  cr_layout p -> ring2 m p ->
  let m1 := set_rq_next m (rq_prev m head) (rq_next m head) in
  rq_next m1 head = p /\ rq_prev m1 head = p /\
  let m2 := set_rq_prev m1 p p in
  entry m2 p thread2 1 p p /\ same_off p RQ_SIZE m m2.
Proof.
  intros [Hh Hp Ha _] [(_ & _ & En & Ep) Hq] m1. unfold m1. rewrite Ep, En. unfold RQ_SIZE in Hh, Hp.
  destruct (set_links m p p p thread2 1 head head) as [H1 H2]; [done|lia|lia|].
  unfold disjoint_blocks in Ha. simpl in Ha. split_and!; [| |done|done]; unfold_rq; by mem_simpl.
Qed.

(** The writes that take the last entry out of a queue of one change nothing. *)
Lemma unlink_last m p :
  0 < p < 4294967296 -> entry m p thread2 1 p p ->
  let m1 := set_rq_next m (rq_prev m p) (rq_next m p) in
  rq_next m1 p = p /\ rq_prev m1 p = p /\
  let m2 := set_rq_prev m1 p p in rq_next m2 p = p /\
  let m3 := set_rq_next m2 p (rq_next m2 p) in
  entry m3 p thread2 1 p p /\ same_off p RQ_SIZE m m3.
Proof.
  intros Hp H m1. pose proof H as (H1 & H2 & H3 & H4). unfold m1. rewrite H3, H4.
  unfold_rq. mem_simpl. rewrite (u32_small p) by lia. split_and!; try (done || by rewrite u32_small by lia).
  repeat (apply store32_same_on; [|unfold off; intros; lia]). done.
Qed.

(** *** The run *)

Context (Hcode : thread1 <> thread2) (Hlits : literals_plain).

(** One turn of a thread that is not done, with its effect given. *)
Lemma turn_next n m v t s s' os q tid nx pv threads :
  tty m v t -> states_ok s -> is_tid tid -> entry m q (task_of tid) tid nx pv -> q <> 0 -> quiet q ->
  turn_of tid s = (s', os) -> done_ s' !! Z.to_nat tid = Some 0 ->
  exists m' v', loop (S n) m v s q threads = loop n m' v' s' nx threads /\ says m t os m' v'.
Proof.
  intros Ht Hs Hi Hq Hq0 Hqt E Hd. pose proof (loop_next n m v t s q tid nx pv threads) as H.
  rewrite E in H. by apply H.
Qed.

Local Abbreviation st a b d1 d2 := (CrState (Locals LINE1 a) (Locals LINE2 b) [d1; d2]).

(** Six turns of the two threads in alternation. *)
Lemma six_turns n m v t p :
  tty m v t -> cr_layout p -> ring2 m p ->
  exists m' v', loop (6 + n) m v cr_static head 2 = loop n m' v' (st 2 2 0 0) head 2 /\
    ring2 m' p /\
    says m t (concat [turn1_out; turn2_out; turn1_out; turn2_out; turn1_out; turn2_out]) m' v'.
Proof.
  intros Ht [Hh Hp _ [Hqh Hqp]] Hr.
  assert (forall k m v t s s1 s2 os1 os2, tty m v t -> ring2 m p -> states_ok s -> states_ok s1 ->
    turn_of 0 s = (s1, os1) -> turn_of 1 s1 = (s2, os2) ->
    done_ s1 !! 0%nat = Some 0 -> done_ s2 !! 1%nat = Some 0 ->
    exists m' v', loop (S (S k)) m v s head 2 = loop k m' v' s2 head 2 /\ ring2 m' p /\
      says m t (os1 ++ os2) m' v') as Htwo.
  { clear m v t Ht Hr. intros k m v t s s1 s2 os1 os2 Ht [Hr1 Hr2] Hs Hs1 E1 E2 D1 D2.
    destruct (turn_next (S k) m v t s s1 os1 head 0 p p 2) as (m1 & v1 & -> & Y1);
      [done|done|by left|done|lia|done|done|done|].
    destruct (turn_next k m1 v1 (run os1 t) s1 s2 os2 p 1 head head 2) as (m2 & v2 & -> & Y2);
      [apply Y1|done|by right|by eapply entry_says|lia|done|done|done|].
    pose proof (says_trans _ _ _ _ _ _ _ _ Y1 Y2) as Y. exists m2, v2. split_and!; [done| |done].
    split; by eapply entry_says. }
  destruct (Htwo (4 + n)%nat m v t cr_static (CrState (Locals LINE1 0) (Locals 0 0) [0; 0])
    (st 0 0 0 0) turn1_out turn2_out) as (m1 & v1 & E1 & R1 & Y1); [done|done|by vm_compute; auto..|].
  destruct (Htwo (2 + n)%nat m1 v1 _ (st 0 0 0 0) (st 1 0 0 0) (st 1 1 0 0) turn1_out turn2_out
    (proj1 Y1)) as (m2 & v2 & E2 & R2 & Y2); [done|by vm_compute; auto..|].
  destruct (Htwo n m2 v2 _ (st 1 1 0 0) (st 2 1 0 0) (st 2 2 0 0) turn1_out turn2_out
    (proj1 Y2)) as (m3 & v3 & E3 & R3 & Y3); [done|by vm_compute; auto..|].
  exists m3, v3. split_and!; [|done|].
  - etransitivity; [exact E1|]. etransitivity; [exact E2|exact E3].
  - pose proof (says_trans _ _ _ _ _ _ _ _ (says_trans _ _ _ _ _ _ _ _ Y1 Y2) Y3) as Y.
    cbn [concat]. rewrite app_nil_r, <- !app_assoc in *. exact Y.
Qed.
Context (Hapart : forall a, tty_area a -> ~ heap_area a).

Lemma says_heap m t os m' v' live : says m t os m' v' -> heap_inv m live -> heap_inv m' live.
Proof.
  intros [_ Hs] Hi. eapply heap_frame; [exact Hi|]. eapply same_on_weaken; [|exact Hs].
  intros a [Ha _] Ht. by apply (Hapart a).
Qed.

(** Writes to the entry [p]. *)
Lemma block_heap m m' p live :
  same_off p RQ_SIZE m m' -> heap_inv m ((p, RQ_SIZE) :: live) -> heap_inv m' ((p, RQ_SIZE) :: live).
Proof.
  intros Hs Hi. eapply heap_frame; [exact Hi|]. eapply same_on_weaken; [|exact Hs].
  intros a [_ Ha]. rewrite in_live_cons in Ha. unfold in_block, off in *. simpl in Ha. lia.
Qed.

Lemma block_tty m m' v t p : same_off p RQ_SIZE m m' -> quiet p -> tty m v t -> tty m' v t.
Proof.
  intros Hs Hq Ht. eapply tty_frame; [exact Ht|]. eapply same_on_weaken; [|exact Hs].
  intros a Ha. destruct (decide (off p RQ_SIZE a)) as [|Hn]; [done|]. exfalso. apply (Hq a); [|done].
  unfold in_block, off in *. simpl. lia.
Qed.

(** The turn in which the first thread ends: the head leaves the queue. *)
Lemma first_ends n m v t p live :
  tty m v t -> cr_layout p -> ring2 m p -> heap_inv m ((p, RQ_SIZE) :: live) ->
  exists m' v', loop (S n) m v (st 2 2 0 0) head 2 = loop n m' v' (st 3 2 1 0) p 2 /\
    entry m' p thread2 1 p p /\ heap_inv m' ((p, RQ_SIZE) :: live) /\ tty m' v' (run done1_out t).
Proof.
  intros Ht Hl Hr Hi. pose proof Hl as [Hh Hp Ha [Hqh Hqp]]. pose proof Hr as [Hr1 Hr2].
  destruct (loop_done n m v t (st 2 2 0 0) head 0 p p 2) as (m1 & v1 & Y & ->);
    [done|done|done|by vm_compute; auto|by left|done|lia|done|done|].
  assert (ring2 m1 p) as Hr' by (split; by eapply entry_says).
  destruct (unlink_head m1 p Hl Hr') as (E1 & E2 & Hq & Hs).
  cbv zeta. rewrite E1, E2. pose proof Hq as (_ & _ & En & _).
  rewrite En, Z.eqb_refl. unfold disjoint_blocks, RQ_SIZE in Ha. simpl in Ha.
  rewrite (eqb_ne p head) by lia. cbn [negb Z.eqb Pos.eqb].
  eexists _, v1. split_and!; [reflexivity|exact Hq| |].
  - eapply block_heap; [exact Hs|]. by eapply says_heap.
  - eapply block_tty; [exact Hs|done|apply Y].
Qed.

(** The second thread alone: two turns, the one in which it ends, and the one that the
    loop gives it after its entry has been freed. *)
Lemma second_ends n m v t p live :
  tty m v t -> cr_layout p -> entry m p thread2 1 p p -> heap_inv m ((p, RQ_SIZE) :: live) ->
  exists m' v', loop (4 + n) m v (st 3 2 1 0) p 2 = Some (m', v', st 3 6 1 1) /\
    heap_inv m' (filter (fun b => b.1 <> p) live) /\
    tty m' v' (run (concat [turn2_out; turn2_out; done2_out; turn2_out]) t).
Proof.
  intros Ht [Hh Hp Ha [Hqh Hqp]] Hq Hi. unfold RQ_SIZE in Hp.
  unfold disjoint_blocks, RQ_SIZE in Ha. simpl in Ha.
  destruct (turn_next (3 + n) m v t (st 3 2 1 0) (st 3 3 1 0) turn2_out p 1 p p 2)
    as (m1 & v1 & E1 & Y1); [done|by vm_compute; auto|by right|done|lia|done|done|done|].
  pose proof (entry_says _ _ _ _ _ _ _ _ _ _ Y1 Hqp Hq) as Hq1.
  destruct (turn_next (2 + n) m1 v1 (run turn2_out t) (st 3 3 1 0) (st 3 4 1 0) turn2_out p 1 p p 2)
    as (m2 & v2 & E2 & Y2); [apply Y1|by vm_compute; auto|by right|done|lia|done|done|done|].
  pose proof (entry_says _ _ _ _ _ _ _ _ _ _ Y2 Hqp Hq1) as Hq2.
  destruct (loop_done (1 + n) m2 v2 (run turn2_out (run turn2_out t)) (st 3 4 1 0) p 1 p p 2) as (m3 & v3 & Y3 & E3);
    [done|apply Y2|done|by vm_compute; auto|by right|done|lia|done|done|].
  pose proof (entry_says _ _ _ _ _ _ _ _ _ _ Y3 Hqp Hq2) as Hq3.
  destruct (unlink_last m3 p) as (U1 & U2 & U3 & Hq4 & Hs4); [lia|done|].
  set (m4 := set_rq_next _ p _) in Hq4, Hs4.
  assert (heap_inv m4 ((p, RQ_SIZE) :: live)) as Hi4.
  { eapply block_heap; [exact Hs4|]. eapply says_heap; [exact Y3|]. eapply says_heap; [exact Y2|].
    by eapply says_heap. }
  destruct (heap_free m4 _ p RQ_SIZE Hi4) as (m5 & E5 & Hi5 & Hs5 & Hx5); [by left|].
  assert (entry m5 p thread2 1 p p) as Hq5.
  { eapply entry_ext; [|exact Hq4]. eapply same_on_weaken; [|exact Hs5]. intros a Hx.
    apply in_live_cons. by left. }
  assert (tty m5 v3 (run done2_out (run turn2_out (run turn2_out t)))) as Ht5.
  { apply (tty_frame m4); [|eapply same_on_weaken; [|exact Hx5]; exact Hapart].
    eapply block_tty; [exact Hs4|done|apply Y3]. }
  destruct (loop_done n m5 v3 (run done2_out (run turn2_out (run turn2_out t))) (st 3 5 1 1) p 1 p p 1) as (m6 & v6 & Y6 & E6);
    [done|exact Ht5|done|by vm_compute; auto|by right|done|lia|done|done|].
  exists m6, v6. split_and!.
  - change (4 + n)%nat with (S (3 + n)). rewrite E1. change (3 + n)%nat with (S (2 + n)).
    rewrite E2. change (2 + n)%nat with (S (1 + n)). rewrite E3. cbv zeta.
    rewrite U1, U2. fold m4. rewrite U3, Z.eqb_refl. rewrite (eqb_ne p head) by lia.
    cbn [negb Z.eqb Pos.eqb]. rewrite E5. exact E6.
  - rewrite filter_cons_False in Hi5 by (simpl; tauto). by eapply says_heap.
  - destruct Y6 as [Y6 _]. cbn [concat]. rewrite app_nil_r, !run_app. exact Y6.
Qed.
(** *** Registration *)

Context (Hhead : 0 < head /\ head + RQ_SIZE <= 4294967296) (Hqhead : quiet head).
Context (Hfree : forall a, in_block (head, RQ_SIZE) a -> ~ heap_area a).
Context (Hptr : 0 <= thread1 < 4294967296 /\ 0 <= thread2 < 4294967296).

(** The writes around the call of [kmalloc]. *)
Definition head_fields (m : mem) : mem :=
  set_rq_prev (set_rq_next (set_rq_tid (set_rq_task m head thread1) head 0) head 0) head 0.

Definition link_fields (m : mem) (p : Z) : mem :=
  let m := set_rq_prev (set_rq_next m head p) p head in
  set_rq_prev (set_rq_next (set_rq_tid (set_rq_task m p thread2) p 1) p head) head p.

Lemma cr_register_eq m ma p :
  kmalloc (head_fields m) RQ_SIZE = Some (ma, p) ->
  proto_cr_register_routine kmalloc head thread1 thread2 m = Some (link_fields ma p).
Proof.
  intros E. unfold proto_cr_register_routine. change (Z.to_nat (MAX_THREADS - 1)) with 1%nat.
  cbn [register_loop lookup list_lookup mbind option_bind]. fold (head_fields m). by rewrite E.
Qed.

(** A block of the heap and the head do not overlap. *)
Lemma head_apart p :
  (forall a, in_block (p, RQ_SIZE) a -> heap_area a) -> disjoint_blocks (head, RQ_SIZE) (p, RQ_SIZE).
Proof.
  intros Hp. destruct (decide (disjoint_blocks (head, RQ_SIZE) (p, RQ_SIZE))) as [|Hn]; [done|].
  exfalso. unfold disjoint_blocks, RQ_SIZE in Hn. simpl in Hn.
  apply (Hfree (Z.max head p)); [|apply Hp]; unfold in_block, RQ_SIZE; simpl; lia.
Qed.

Lemma head_fields_frame m : same_off head RQ_SIZE m (head_fields m).
Proof.
  unfold head_fields. unfold_rq.
  repeat (apply store32_same_on; [|unfold off; intros; lia]). done.
Qed.

Lemma link_fields_frame m p a :
  off head RQ_SIZE a -> off p RQ_SIZE a -> load8 (link_fields m p) a = load8 m a.
Proof.
  intros H1 H2. unfold link_fields. unfold_rq. unfold off in *.
  rewrite !load8_store32_ne by (unfold off; lia). done.
Qed.

Lemma head_entry m ma p :
  same_on (fun a => ~ heap_area a) (head_fields m) ma ->
  disjoint_blocks (head, RQ_SIZE) (p, RQ_SIZE) -> 0 < p -> p + RQ_SIZE <= 4294967296 ->
  ring2 (link_fields ma p) p.
Proof.
  intros Hs Hd H0 H1. assert (same_on (in_block (head, RQ_SIZE)) (head_fields m) ma) as Hs'
    by (eapply same_on_weaken; [|exact Hs]; exact Hfree).
  assert (load32 ma head = thread1 /\ load32 ma (head + 4) = 0) as [E1 E2].
  { rewrite (same_on_load32 _ _ _ head Hs'), (same_on_load32 _ _ _ (head + 4) Hs')
      by (intros; unfold in_block, RQ_SIZE; simpl; lia).
    unfold head_fields. unfold_rq. mem_simpl. by rewrite u32_small by lia. }
  unfold disjoint_blocks, RQ_SIZE in Hd. simpl in Hd. unfold ring2, link_fields. unfold_rq.
  mem_simpl. by rewrite E1, E2, !u32_small by lia.
Qed.

Lemma registered m v t live k :
  tty m v t -> heap_inv m live -> heap_room m k -> 48 < k ->
  exists m1 p, proto_cr_register_routine kmalloc head thread1 thread2 m = Some m1 /\ cr_layout p /\ ring2 m1 p /\ heap_inv m1 ((p, RQ_SIZE) :: live) /\ tty m1 v t.
Proof.
  intros Ht Hi Hroom Hk.
  pose proof (head_fields_frame m) as Hsh.
  assert (same_on heap_area m (head_fields m)) as Hh.
  { eapply same_on_weaken; [|exact Hsh]. intros a Ha.
    destruct (decide (off head RQ_SIZE a)) as [|Hn]; [done|]. exfalso. apply (Hfree a); [|done].
    unfold in_block, off in *. simpl. lia. }
  assert (heap_inv (head_fields m) live) as Hi'.
  { eapply heap_frame; [exact Hi|]. eapply same_on_weaken; [|exact Hh]. by intros a [Ha _]. }
  destruct (heap_room_alloc (head_fields m) live k RQ_SIZE Hi') as (ma & p & E & _);
    [by eapply heap_room_frame; [exact Hi|exact Hroom|eapply same_on_weaken; [|exact Hh]; intros a [Ha _]]
    |done|unfold RQ_SIZE; lia|].
  destruct (heap_alloc _ live RQ_SIZE ma p Hi') as (Hia & H0 & H1 & _ & Hpa & _ & Hsa); [done|done|].
  pose proof (head_apart p Hpa) as Hd. exists (link_fields ma p), p.
  split_and!; [by apply cr_register_eq| | | |].
  - split; [done|done|done|]. split; [done|]. intros a Ha Ha'. by apply (Hapart a), Hpa.
  - by eapply head_entry.
  - eapply heap_frame; [exact Hia|]. intros a [Ha Ha']. apply link_fields_frame.
    + destruct (decide (off head RQ_SIZE a)) as [|Hn]; [done|]. exfalso. apply (Hfree a); [|done].
      unfold in_block, off in *. simpl. lia.
    + rewrite in_live_cons in Ha'. unfold in_block, off in *. simpl in *. lia.
  - apply (tty_frame m); [exact Ht|]. intros a Ha.
    assert (forall q, (forall b, in_block (q, RQ_SIZE) b -> ~ tty_area b) -> off q RQ_SIZE a) as Hoff.
    { intros q Hq. destruct (decide (off q RQ_SIZE a)) as [|Hn]; [done|]. exfalso. apply (Hq a); [|done].
      unfold in_block, off in *. simpl. lia. }
    rewrite link_fields_frame by (apply Hoff; [exact Hqhead || intros b Hb Hb'; by apply (Hapart b), Hpa]).
    rewrite Hsa by by apply Hapart. by apply Hsh, Hoff.
Qed.

(** ** Properties *)

(** C13: the cooperative threads.  With room for one queue entry
    [proto_cr_register_routine] returns, and the loop of [proto_cr_schedule] ends: the screen shows the alternating rows of both threads
    and their last words, and the queue entry is freed.  Removing the head does not
    count as a removal, so the loop goes on with the entry that it has just freed:
    the second thread prints a row after it has reported to be done, and its counter
    ends at 6 instead of 5. *)
Theorem proto_cr_schedule_ok fuel m v t live k :
  tty m v t -> heap_inv m live -> heap_room m k -> 48 < k -> (11 <= fuel)%nat ->
  exists m1 m2 v2,
    proto_cr_register_routine kmalloc head thread1 thread2 m = Some m1 /\
    proto_cr_schedule kfree printf head thread1 thread2 fuel m1 v cr_static =
      Some (m2, v2, CrState (Locals LINE1 3) (Locals LINE2 6) [1; 1]) /\
    tty m2 v2 (run proto_cr_output t) /\
    heap_inv m2 (filter (fun b => b.1 <> rq_next m1 head) live).
Proof.
  intros Ht Hi Hroom Hk Hf.
  destruct (registered m v t live k Ht Hi Hroom Hk) as (m1 & p & E & Hl & Hr & Hi1 & Ht1).
  exists m1.
  pose proof Hr as [(_ & _ & -> & _) _].
  destruct (six_turns (5 + (fuel - 11)) m1 v t p Ht1 Hl Hr) as (m2 & v2 & E2 & R2 & Y2).
  pose proof (says_heap _ _ _ _ _ _ Y2 Hi1) as Hi2.
  destruct (first_ends (4 + (fuel - 11)) m2 v2 _ p live (proj1 Y2) Hl R2 Hi2)
    as (m3 & v3 & E3 & Q3 & Hi3 & T3).
  destruct (second_ends (fuel - 11) m3 v3 _ p live T3 Hl Q3 Hi3) as (m4 & v4 & E4 & Hi4 & T4).
  exists m4, v4. split_and!; [done| |by rewrite <- !run_app in T4|done].
  unfold proto_cr_schedule. replace fuel with (6 + (5 + (fuel - 11)))%nat at 1 by lia.
  change MAX_THREADS with 2. rewrite E2. exact (eq_trans E3 E4).
Qed.
End Proofs.

(** ** A concrete machine *)

Definition cr_st : kmalloc_state := KState 0x900000 0x900000 0x900400 0x400.
Definition cr_fuel : nat := 0x100.
Definition cr_kmalloc (m : mem) (n : Z) : option (mem * Z) := kmalloc cr_fuel m cr_st n.
Definition cr_kfree (m : mem) (p : Z) : option mem := kfree cr_fuel m cr_st p.
Definition cr_store : store := [(0x400 - 16, true)].

#[export] Instance cr_heap : Heap cr_kmalloc cr_kfree := kmalloc_heap cr_fuel cr_st.

#[export] Instance cr_console : Console (ex_print proto_cr_literals) cls.
Proof. refine (ex_console proto_cr_literals _ _); [by vm_compute; lia|by repeat constructor]. Defined.

Lemma cr_area a : tty_area a -> ex_buf <= a < VIDEO + SCREEN_SIZE.
Proof. apply (ex_area_range proto_cr_literals); [by vm_compute; lia|by repeat constructor]. Qed.

Definition cr_mem : mem :=
  ex_texts proto_cr_literals (set_is_free (set_size mem_zero 0x900000 (0x400 - 16)) 0x900000 1).

Definition cr_video : video_state := VideoState 7 0 0 VIDEO.
Definition cr_head : Z := 0x3000.

Lemma cr_mem_heap : heap_inv cr_mem [].
Proof.
  split; [exists cr_store; split|by vm_compute|by vm_compute].
  - split; [done|done|by vm_compute|by vm_compute|by vm_compute|by repeat constructor|].
    apply chainb_chain. by vm_compute.
  - set_solver.
Qed.

Lemma cr_mem_tty : tty cr_mem cr_video (cr_mem, cr_video).
Proof. split_and!; [by vm_compute|done|done|]. apply ex_texts_in. by vm_compute. Qed.

Lemma cr_literals_plain : literals_plain.
Proof.
  apply Forall_forall. intros l Hl. split; [done|]. split; [by vm_compute|].
  revert l Hl. apply Forall_forall. repeat (apply Forall_cons; split; [by vm_compute|]). by apply Forall_nil.
Qed.

Lemma cr_mem_room : heap_room cr_mem 0x3f0.
Proof.
  exists cr_store, (0x400 - 16). split; [|split; [by left|done]].
  split; [done|done|by vm_compute|by vm_compute|by vm_compute|by repeat constructor|].
  apply chainb_chain. by vm_compute.
Qed.

Lemma proto_cr_schedule_ok_witness :
  exists m1 m2 v2,
    proto_cr_register_routine cr_kmalloc cr_head 0x6000 0x6100 cr_mem = Some m1 /\
    proto_cr_schedule cr_kfree (ex_print proto_cr_literals) cr_head 0x6000 0x6100 11 m1
      cr_video cr_static = Some (m2, v2, CrState (Locals LINE1 3) (Locals LINE2 6) [1; 1]) /\
    v2 = (run proto_cr_output (cr_mem, cr_video)).2.
Proof.
  destruct (proto_cr_schedule_ok (head := cr_head) (thread1 := 0x6000) (thread2 := 0x6100))
    with (fuel := 11%nat) (m := cr_mem) (v := cr_video) (t := (cr_mem, cr_video))
    (live := @nil (Z * Z)) (k := 0x3f0) as (m1 & m2 & v2 & E1 & E & Ht & _).
  - lia.
  - exact cr_literals_plain.
  - intros a Ha%cr_area. change SCREEN_SIZE with 4000 in Ha. unfold ex_buf, VIDEO in Ha. cbn.
    unfold kmalloc_area, cr_st. simpl. lia.
  - by vm_compute.
  - intros a Ha Ht%cr_area. unfold in_block, cr_head, RQ_SIZE, ex_buf in *. simpl in Ha. lia.
  - intros a Ha. unfold in_block, cr_head, RQ_SIZE in Ha. simpl in Ha. cbn. unfold kmalloc_area, cr_st.
    simpl. lia.
  - lia.
  - exact cr_mem_tty.
  - exact cr_mem_heap.
  - exact cr_mem_room.
  - lia.
  - lia.
  - exists m1, m2, v2. split_and!; [exact E1|exact E|]. symmetry. exact (tty_state _ _ _ Ht).
Defined.
