(* ===== verification/Interrupt.v ===== *)
(** * Interrupt: the interrupt controllers and the descriptor table

    src/interrupt.c and include/sys/interrupt.h: the initialisation and the masks
    of the two interrupt controllers, the gates of the descriptor table, and the
    handlers of the exceptions, which print and stop. *)

From Stdlib Require Import Strings.String.
From S2P Require Import Prelude Memory Klib Portio Kvideo.

Local Open Scope string_scope.
Local Open Scope list_scope.
Local Open Scope Z_scope.

(** ** The interrupt controllers *)

Definition PIC1_CTRL : Z := 0x20.
Definition PIC1_DATA : Z := 0x21.
Definition PIC1_OFFSET : Z := 0x20.
Definition PIC2_CTRL : Z := 0xA0.
Definition PIC2_DATA : Z := 0xA1.
Definition PIC2_OFFSET : Z := 0x28.
Definition ISR_COUNT : Z := 0x100.

Definition irq_mask (dev : device) (t : trace) (line : Z) : trace :=
  let '(port, line) := if line <? 8 then (PIC1_DATA, line) else (PIC2_DATA, u8 (line - 8)) in
  let '(t, v) := inb dev t port in
  let value := u8 (Z.lor v (Z.shiftl 1 line)) in
  outb t port value.

Definition irq_unmask (dev : device) (t : trace) (line : Z) : trace :=
  let '(port, line) := if line <? 8 then (PIC1_DATA, line) else (PIC2_DATA, u8 (line - 8)) in
  let '(t, v) := inb dev t port in
  let value := u8 (Z.land v (Z.lnot (Z.shiftl 1 line))) in
  outb t port value.

(** [for (int i = 1; i < 16; ++i) irq_mask(i)] *)
Fixpoint mask_loop (dev : device) (n : nat) (t : trace) (i : Z) : trace :=
  match n with
  | O => t
  | S k => mask_loop dev k (irq_mask dev t (u8 i)) (i + 1)
  end.

Definition init_pic (dev : device) (t : trace) : trace :=
  let t := outb t PIC1_CTRL 0x10 in
  let t := outb t PIC2_CTRL 0x10 in
  let t := outb t PIC1_DATA PIC1_OFFSET in
  let t := outb t PIC2_DATA PIC2_OFFSET in
  let t := outb t PIC1_DATA 0x4 in
  let t := outb t PIC2_DATA 0x2 in
  mask_loop dev 15 t 1.

(** ** The descriptor table *)

(** [struct IDTDesc], packed, 8 bytes. *)
Definition IDTDESC_SIZE : Z := 8.
Definition d_offset_lo (m : mem) (g : Z) : Z := load16 m g.
Definition d_selector (m : mem) (g : Z) : Z := load16 m (g + 2).
Definition d_zero (m : mem) (g : Z) : Z := load8 m (g + 4).
Definition d_flags (m : mem) (g : Z) : Z := load8 m (g + 5).
Definition d_offset_hi (m : mem) (g : Z) : Z := load16 m (g + 6).

(** [struct IDTR], packed, 6 bytes. *)
Definition set_idtr_limit (m : mem) (r v : Z) : mem := store16 m r v.
Definition set_idtr_base (m : mem) (r v : Z) : mem := store32 m (r + 2) v.

(** [movw]: the low half of a register is replaced. *)
Definition movw (r w : Z) : Z := 65536 * (u32 r / 65536) + u16 w.

(** The instructions of the macro [_set_gate], with [eax] and [edx] loaded. *)
Definition _set_gate (m : mem) (gate_addr type dpl addr : Z) : mem :=
  let eax := 0x00080000 in
  let edx := u32 addr in
  let eax := movw eax edx in
  let edx := movw edx (0x8000 + Z.shiftl dpl 13 + Z.shiftl type 8) in
  let m := store32 m gate_addr eax in
  store32 m (4 + gate_addr) edx.

(** The assembly handlers of asm/interrupt.S. *)
Inductive isr_name :=
  | isr_divide_error | isr_debug | isr_nmi | isr_int3 | isr_overflow | isr_bounds
  | isr_invalid_op | isr_device_unavailable | isr_double_fault
  | isr_coprocessor_segment_overrun | isr_invalid_tss | isr_segment_not_present
  | isr_stack_segment_fault | isr_general_protection_fault | isr_page_fault
  | isr_reserved | isr_x87_fpu_except | isr_timer | isr_kbd.

Section Idt.
(** [IDT] and [idtr]: the addresses of the static variables; [isr]: the addresses of
    the handlers. *)
Context (IDT idtr : Z) (isr : isr_name -> Z).

Definition gate (n : Z) : Z := IDT + IDTDESC_SIZE * n.

Definition set_intr_gate (m : mem) (n addr : Z) : mem := _set_gate m (gate n) 14 0 addr.
Definition set_trap_gate (m : mem) (n addr : Z) : mem := _set_gate m (gate n) 15 0 addr.
Definition set_system_gate (m : mem) (n addr : Z) : mem := _set_gate m (gate n) 15 3 addr.

(** [for (i = 17; i < 32; i++)] *)
Fixpoint reserved_loop (n : nat) (m : mem) (i : Z) : mem :=
  match n with
  | O => m
  | S k => reserved_loop k (set_trap_gate m i (isr isr_reserved)) (i + 1)
  end.

(** [lidt]: the limit and the base that the processor takes from [idtr]. *)
Definition load_idt (m : mem) : Z * Z := (load16 m idtr, load32 m (idtr + 2)).

Definition init_idt (m : mem) : mem * (Z * Z) :=
  let m := set_idtr_limit m idtr (IDTDESC_SIZE * ISR_COUNT - 1) in
  let m := set_idtr_base m idtr (gate 0) in
  let m := memset m IDT 0x0 (IDTDESC_SIZE * ISR_COUNT) in
  let m := set_trap_gate m 0 (isr isr_divide_error) in
  let m := set_trap_gate m 1 (isr isr_debug) in
  let m := set_trap_gate m 2 (isr isr_nmi) in
  let m := set_system_gate m 3 (isr isr_int3) in
  let m := set_system_gate m 4 (isr isr_overflow) in
  let m := set_system_gate m 5 (isr isr_bounds) in
  let m := set_trap_gate m 6 (isr isr_invalid_op) in
  let m := set_trap_gate m 7 (isr isr_device_unavailable) in
  let m := set_trap_gate m 8 (isr isr_double_fault) in
  let m := set_trap_gate m 9 (isr isr_coprocessor_segment_overrun) in
  let m := set_trap_gate m 10 (isr isr_invalid_tss) in
  let m := set_trap_gate m 11 (isr isr_segment_not_present) in
  let m := set_trap_gate m 12 (isr isr_stack_segment_fault) in
  let m := set_trap_gate m 13 (isr isr_general_protection_fault) in
  let m := set_trap_gate m 14 (isr isr_page_fault) in
  let m := set_trap_gate m 15 (isr isr_reserved) in
  let m := set_trap_gate m 16 (isr isr_x87_fpu_except) in
  let m := reserved_loop 15 m 17 in
  let m := set_intr_gate m 32 (isr isr_timer) in
  let m := set_intr_gate m 33 (isr isr_kbd) in
  (m, load_idt m).

End Idt.

(** ** The handlers of the exceptions *)

Section Die.
(** The parameters of [printf]; [lit]: the addresses of the literals; [frame]: the
    outgoing arguments. *)
Context (fuel : nat) (buf null_str : Z) (lit : list Z -> Z) (frame : Z).

Definition esp_word (m : mem) (esp i : Z) : Z := load32 m (esp + 4 * i).

(** Memory and screen when it clears the interrupt flag and loops for ever. *)
Definition die (m : mem) (v : video_state) (msg esp_ptr error_code : Z) :
  option (mem * video_state) :=
  let esp := esp_ptr in
  '(m, v) ← call_printf fuel buf null_str lit frame m v (FG_COLOR_DARK_RED ++ BG_COLOR_WHITE) [];
  '(m, v) ← call_printf fuel buf null_str lit frame m v (chars "%s: 0x%x" ++ [10])
              [msg; Z.land error_code 0xFFFF];
  call_printf fuel buf null_str lit frame m v
    (chars "EIP:    0x%x:0x%x" ++ [10] ++ chars "EFLAGS:    0x%x" ++ [10] ++
     chars "ESP:    0x%x:0x%x" ++ [10])
    [esp_word m esp 1; esp_word m esp 0; esp_word m esp 2; esp_word m esp 4; esp_word m esp 3].

Definition do_divide_error (m : mem) (v : video_state) (esp error_code : Z) :=
  die m v (lit (chars "Divide By Zero")) esp error_code.
Definition do_debug (m : mem) (v : video_state) (esp error_code : Z) :=
  die m v (lit (chars "Debug")) esp error_code.
Definition do_nmi (m : mem) (v : video_state) (esp error_code : Z) :=
  die m v (lit (chars "NMI")) esp error_code.
Definition do_int3 (m : mem) (v : video_state) (esp error_code : Z) :=
  die m v (lit (chars "Int 3 Break Point")) esp error_code.
Definition do_overflow (m : mem) (v : video_state) (esp error_code : Z) :=
  die m v (lit (chars "Overflow" ++ [10])) esp error_code.
Definition do_bounds (m : mem) (v : video_state) (esp error_code : Z) :=
  die m v (lit (chars "Bounds Range Exceeded")) esp error_code.
Definition do_invalid_op (m : mem) (v : video_state) (esp error_code : Z) :=
  die m v (lit (chars "Invalid Operand")) esp error_code.
Definition do_device_unavailable (m : mem) (v : video_state) (esp error_code : Z) :=
  die m v (lit (chars "Device Not Available" ++ [10])) esp error_code.
Definition do_double_fault (m : mem) (v : video_state) (esp error_code : Z) :=
  die m v (lit (chars "DOUBLE FAULT")) esp error_code.
Definition do_coprocessor_segment_overrun (m : mem) (v : video_state) (esp error_code : Z) :=
  die m v (lit (chars "Coprocessor Segment Overrun")) esp error_code.
Definition do_invalid_tss (m : mem) (v : video_state) (esp error_code : Z) :=
  die m v (lit (chars "Invalid TSS")) esp error_code.
Definition do_segment_not_present (m : mem) (v : video_state) (esp error_code : Z) :=
  die m v (lit (chars "segment not present")) esp error_code.
Definition do_stack_segment_fault (m : mem) (v : video_state) (esp error_code : Z) :=
  die m v (lit (chars "stack segment")) esp error_code.
Definition do_general_protection_fault (m : mem) (v : video_state) (esp error_code : Z) :=
  die m v (lit (chars "General Protection Fault")) esp error_code.
Definition do_page_fault (m : mem) (v : video_state) (esp error_code : Z) :=
  die m v (lit (chars "Page Fault")) esp error_code.
Definition do_reserved (m : mem) (v : video_state) (esp error_code : Z) :=
  die m v (lit (chars "Reserved")) esp error_code.
Definition do_x87_fpu_except (m : mem) (v : video_state) (esp error_code : Z) :=
  die m v (lit (chars "x87 FPU Exception")) esp error_code.
End Die.

(** ** Lemmas: gates *)

(** What the processor reads from a gate: handler, selector, type and attributes. *)
Record gate_desc := GateDesc { g_offset : Z; g_selector : Z; g_zero : Z; g_flags : Z }.

Definition decode (m : mem) (g : Z) : gate_desc :=
  GateDesc (d_offset_lo m g + 65536 * d_offset_hi m g) (d_selector m g) (d_zero m g) (d_flags m g).

(** Present, privilege level, type. *)
Definition gate_flags (type dpl : Z) : Z := 0x80 + 32 * dpl + type.

Lemma decode_set_gate m g type dpl addr :
  0 <= type < 16 -> 0 <= dpl < 4 -> 0 <= addr < 4294967296 ->
  decode (_set_gate m g type dpl addr) g = GateDesc addr 8 0 (gate_flags type dpl).
Proof.
  intros Ht Hd Ha. unfold decode, d_offset_lo, d_offset_hi, d_selector, d_zero, d_flags, _set_gate, gate_flags.
  rewrite !Z.shiftl_mul_pow2 by lia. rewrite (u32_small addr) by done.
  replace (4 + g) with (g + 4) by lia.
  set (w1 := movw 0x00080000 addr). set (w2 := movw addr _).
  assert (forall v, 0 <= v < 4294967296 ->
    load16 (store32 (store32 m g w1) (g + 4) v) g = u16 w1 /\
    load16 (store32 (store32 m g w1) (g + 4) v) (g + 2) = u16 (w1 / 65536) /\
    load8 (store32 (store32 m g w1) (g + 4) v) (g + 4) = u8 v /\
    load8 (store32 (store32 m g w1) (g + 4) v) (g + 5) = u8 (v / 256) /\
    load16 (store32 (store32 m g w1) (g + 4) v) (g + 6) = u16 (v / 65536)) as H.
  { intros v Hv. unfold store32. replace (g + 4 + 2) with (g + 6) by lia. mem_simpl.
    split_and!; try done; unfold store16; by mem_simpl. }
  destruct (H w2) as (-> & -> & -> & -> & ->); [unfold w2, movw, u32, u16; dlia|].
  unfold w1, w2, movw. rewrite (u32_small 0x00080000), (u32_small addr) by lia.
  change (2 ^ 13) with 8192. change (2 ^ 8) with 256. unfold u8, u16. f_equal; dlia.
Qed.

(** A gate is two words: the other gates keep theirs. *)
Lemma set_gate_same_off m g type dpl addr : same_off g 8 m (_set_gate m g type dpl addr).
Proof.
  intros a Ha. unfold off in Ha. unfold _set_gate. rewrite !load8_store32_ne by (unfold off; lia). done.
Qed.

Lemma decode_ext m m' g : (forall i, 0 <= i < 8 -> load8 m' (g + i) = load8 m (g + i)) -> decode m' g = decode m g.
Proof.
  intros H. unfold decode, d_offset_lo, d_offset_hi, d_selector, d_zero, d_flags.
  rewrite (load16_ext m m' g), (load16_ext m m' (g + 6)), (load16_ext m m' (g + 2)), !H;
    try done; try lia; intros i Hi; rewrite <- ?Z.add_assoc; apply H; lia.
Qed.

Section IdtLemmas.
Context (IDT idtr : Z) (isr : isr_name -> Z).
Context (Hisr : forall h, 0 <= isr h < 4294967296).

(** Setting a gate, seen through the decoded table. *)
Lemma decode_gate m n k type dpl addr :
  0 <= type < 16 -> 0 <= dpl < 4 -> 0 <= addr < 4294967296 ->
  decode (_set_gate m (gate IDT n) type dpl addr) (gate IDT k) =
    if decide (n = k) then GateDesc addr 8 0 (gate_flags type dpl) else decode m (gate IDT k).
Proof.
  intros Ht Hd Ha. case_decide as Hn; [subst; by apply decode_set_gate|].
  apply decode_ext. intros i Hi. apply set_gate_same_off. unfold gate, IDTDESC_SIZE, off. lia.
Qed.

(** Handlers, types and privilege levels, from vector [n] on. *)
Fixpoint set_gates (m : mem) (n : Z) (l : list (isr_name * Z * Z)) : mem :=
  match l with
  | [] => m
  | (h, type, dpl) :: l => set_gates (_set_gate m (gate IDT n) type dpl (isr h)) (n + 1) l
  end.

Definition gate_ok (e : isr_name * Z * Z) : Prop := 0 <= e.1.2 < 16 /\ 0 <= e.2 < 4.

Definition entry_desc (e : isr_name * Z * Z) : gate_desc :=
  GateDesc (isr e.1.1) 8 0 (gate_flags e.1.2 e.2).

Lemma set_gates_spec l m n k :
  Forall gate_ok l -> 0 <= n ->
  decode (set_gates m n l) (gate IDT k) =
    if decide (n <= k < n + Z.of_nat (length l))
    then default (GateDesc 0 0 0 0) (entry_desc <$> l !! Z.to_nat (k - n)) else decode m (gate IDT k).
Proof.
  revert m n. induction l as [|[[h type] dpl] l IH]; intros m n Hl Hn.
  - cbn [length set_gates]. by rewrite decide_False by lia.
  - apply Forall_cons in Hl as [[Ht Hd] Hl]. cbn [set_gates length]. rewrite IH by (done || lia).
    simpl in Ht, Hd. repeat case_decide; try lia.
    + replace (Z.to_nat (k - n)) with (S (Z.to_nat (k - (n + 1)))) by lia. done.
    + rewrite decode_gate by done. rewrite decide_True by lia.
      replace (Z.to_nat (k - n)) with 0%nat by lia. done.
    + rewrite decode_gate by done. by rewrite decide_False by lia.
Qed.

Lemma set_gates_same_off l m n :
  0 <= n -> same_off (gate IDT n) (8 * Z.of_nat (length l)) m (set_gates m n l).
Proof.
  revert m n. induction l as [|[[h type] dpl] l IH]; intros m n Hn a Ha; [done|].
  cbn [set_gates length] in *. unfold off, gate, IDTDESC_SIZE in *.
  rewrite IH by (unfold off, gate, IDTDESC_SIZE; lia). apply set_gate_same_off.
  unfold off, gate, IDTDESC_SIZE. lia.
Qed.

(** The table that [init_idt] writes. *)
Definition idt_table : list (isr_name * Z * Z) :=
  [(isr_divide_error, 15, 0); (isr_debug, 15, 0); (isr_nmi, 15, 0); (isr_int3, 15, 3);
   (isr_overflow, 15, 3); (isr_bounds, 15, 3); (isr_invalid_op, 15, 0);
   (isr_device_unavailable, 15, 0); (isr_double_fault, 15, 0);
   (isr_coprocessor_segment_overrun, 15, 0); (isr_invalid_tss, 15, 0);
   (isr_segment_not_present, 15, 0); (isr_stack_segment_fault, 15, 0);
   (isr_general_protection_fault, 15, 0); (isr_page_fault, 15, 0); (isr_reserved, 15, 0);
   (isr_x87_fpu_except, 15, 0)] ++ replicate 15 (isr_reserved, 15, 0) ++
  [(isr_timer, 14, 0); (isr_kbd, 14, 0)].

Definition cleared_idt (m : mem) : mem :=
  memset (set_idtr_base (set_idtr_limit m idtr (IDTDESC_SIZE * ISR_COUNT - 1)) idtr (gate IDT 0))
    IDT 0x0 (IDTDESC_SIZE * ISR_COUNT).

Lemma init_idt_gates m : (init_idt IDT idtr isr m).1 = set_gates (cleared_idt m) 0 idt_table.
Proof. reflexivity. Qed.

Lemma init_idt_load m : (init_idt IDT idtr isr m).2 = load_idt idtr (init_idt IDT idtr isr m).1.
Proof. reflexivity. Qed.

Lemma idt_table_ok : Forall gate_ok idt_table.
Proof. repeat constructor; simpl; lia. Qed.

Lemma decode_zero m g : (forall i, 0 <= i < 8 -> load8 m (g + i) = 0) -> decode m g = GateDesc 0 0 0 0.
Proof.
  intros H. rewrite (decode_ext mem_zero m g); [reflexivity|]. intros i Hi. by rewrite H.
Qed.
End IdtLemmas.

(** ** Lemmas: masks *)

(** What an 8259 interrupt controller documents: after the initialisation words (no
    fourth one is asked for) its data port is the mask register, first 0 and then
    what was written last. *)
Definition init_words : trace :=
  [Out PIC1_CTRL 0x10; Out PIC2_CTRL 0x10; Out PIC1_DATA PIC1_OFFSET; Out PIC2_DATA PIC2_OFFSET;
   Out PIC1_DATA 0x4; Out PIC2_DATA 0x2].

Definition is_data (p : Z) : Prop := p = PIC1_DATA \/ p = PIC2_DATA.

Record pic8259 (dev : device) (pre : trace) : Prop := Pic8259 {
  pic_start p : is_data p -> dev (pre ++ init_words) p = 0;
  pic_in t p v q : is_data q ->
    dev ((pre ++ init_words) ++ t ++ [In p v]) q = dev ((pre ++ init_words) ++ t) q;
  pic_out t p v q : is_data p -> is_data q ->
    dev ((pre ++ init_words) ++ t ++ [Out p v]) q =
      if decide (p = q) then v else dev ((pre ++ init_words) ++ t) q
}.

(** The sixteen mask bits of the two controllers. *)
Definition masks (dev : device) (t : trace) : Z :=
  u8 (dev t PIC1_DATA) + 256 * u8 (dev t PIC2_DATA).

Lemma testbit_pair a b n :
  0 <= a < 256 -> 0 <= n ->
  Z.testbit (a + 256 * b) n = if n <? 8 then Z.testbit a n else Z.testbit b (n - 8).
Proof.
  intros Ha Hn. destruct (Z.ltb_spec n 8).
  - rewrite <- (Z.mod_pow2_bits_low _ 8) by lia. f_equal. change (2 ^ 8) with 256. dlia.
  - replace n with (n - 8 + 8) at 1 by lia. rewrite <- Z.div_pow2_bits by lia. f_equal.
    change (2 ^ 8) with 256. dlia.
Qed.

Lemma u8_bits v n : 0 <= n -> Z.testbit (u8 v) n = (n <? 8) && Z.testbit v n.
Proof.
  intros Hn. unfold u8. change 256 with (2 ^ 8). destruct (Z.ltb_spec n 8).
  - by rewrite Z.mod_pow2_bits_low.
  - by rewrite Z.mod_pow2_bits_high by lia.
Qed.

Lemma shiftl_1_bits k n : 0 <= k -> 0 <= n -> Z.testbit (Z.shiftl 1 k) n = (n =? k).
Proof. intros Hk Hn. rewrite Z.shiftl_1_l, Z.pow2_bits_eqb by done. apply Z.eqb_sym. Qed.

Lemma setbit_bits w line n : 0 <= line -> 0 <= n ->
  Z.testbit (Z.setbit w line) n = if decide (n = line) then true else Z.testbit w n.
Proof.
  intros Hl Hn. case_decide as E; [subst; by apply Z.setbit_eq|by apply Z.setbit_neq].
Qed.

Lemma clearbit_bits w line n : 0 <= line -> 0 <= n ->
  Z.testbit (Z.clearbit w line) n = if decide (n = line) then false else Z.testbit w n.
Proof.
  intros Hl Hn. case_decide as E; [subst; by apply Z.clearbit_eq|by apply Z.clearbit_neq].
Qed.

Section Pic.
Context (dev : device) (pre : trace) (Hdev : pic8259 dev pre).

(** A run after the initialisation words. *)
Definition started (t : trace) : Prop := exists t', t = (pre ++ init_words) ++ t'.

Lemma data1 : is_data PIC1_DATA.
Proof. by left. Qed.

Lemma data2 : is_data PIC2_DATA.
Proof. by right. Qed.

(** Reading a mask register and writing it back. *)
Lemma rewrite_mask t p v q :
  started t -> is_data p -> is_data q -> 0 <= v < 256 ->
  let t' := outb (inb dev t p).1 p v in
  started t' /\ dev t' q = if decide (p = q) then v else dev t q.
Proof.
  intros [t0 ->] Hp Hq Hv. unfold inb, outb. cbn [fst].
  assert (u16 p = p) as -> by (destruct Hp as [->| ->]; reflexivity). rewrite (u8_small v) by done.
  pose proof (pic_in _ _ Hdev) as Hin. pose proof (pic_out _ _ Hdev) as Hout.
  unfold started. set (b := pre ++ init_words) in *. clearbody b. split.
  - eexists (t0 ++ [_] ++ [Out p v]). by rewrite !app_assoc.
  - rewrite <- (app_assoc b), <- (app_assoc b), Hout by done. by rewrite Hin.
Qed.

(** Where the mask bit of a line is. *)
Definition line_port (line : Z) : Z := if line <? 8 then PIC1_DATA else PIC2_DATA.

Lemma line_port_data line : is_data (line_port line).
Proof. unfold line_port. case_Z; [by left|by right]. Qed.

Lemma masks_bits t n :
  0 <= n < 16 -> Z.testbit (masks dev t) n = Z.testbit (u8 (dev t (line_port n))) (n mod 8).
Proof.
  intros Hn. unfold masks, line_port. rewrite testbit_pair by (apply u8_range || lia).
  case_Z; f_equal; dlia.
Qed.

Lemma masks_range t : 0 <= masks dev t < 65536.
Proof. unfold masks. pose proof (u8_range (dev t PIC1_DATA)). pose proof (u8_range (dev t PIC2_DATA)). lia. Qed.

Lemma masks_bits_high t n : 16 <= n -> Z.testbit (masks dev t) n = false.
Proof.
  intros Hn. rewrite <- (u16_small (masks dev t)) by apply masks_range. unfold u16.
  change 65536 with (2 ^ 16). by apply Z.mod_pow2_bits_high.
Qed.

(** Writing a byte that differs from the register in one bit. *)
Lemma mask_write t line v f :
  started t -> 0 <= line < 16 -> 0 <= v < 256 ->
  (forall n, 0 <= n < 8 -> Z.testbit v n =
     if decide (n = line mod 8) then f else Z.testbit (u8 (dev t (line_port line))) n) ->
  let t' := outb (inb dev t (line_port line)).1 (line_port line) v in
  started t' /\ forall n, 0 <= n -> Z.testbit (masks dev t') n =
    if decide (n = line) then f else Z.testbit (masks dev t) n.
Proof.
  intros Ht Hl Hv Hb t'.
  destruct (rewrite_mask t _ v PIC1_DATA Ht (line_port_data line) data1 Hv) as [H _].
  split; [done|]. intros n Hn. destruct (decide (n < 16)) as [Hn'|].
  - rewrite !masks_bits by lia.
    destruct (rewrite_mask t _ v _ Ht (line_port_data line) (line_port_data n) Hv) as [_ H1].
    fold t' in H1. rewrite H1. assert (0 <= n mod 8 < 8) as Hm by dlia.
    destruct (decide (line_port line = line_port n)) as [E|E].
    + rewrite u8_small by done. rewrite Hb, E by done.
      assert (n mod 8 = line mod 8 <-> n = line) as Hiff.
      { split; [|by intros ->]. intros Em. unfold line_port, PIC1_DATA, PIC2_DATA in E.
        destruct (Z.ltb_spec line 8), (Z.ltb_spec n 8); try done; dlia. }
      by repeat case_decide; try tauto.
    + rewrite decide_False by (by intros ->). done.
  - rewrite !masks_bits_high by lia. by rewrite decide_False by lia.
Qed.

(** The byte that is written, for the port as the code computes it. *)
Lemma irq_line t line (op : Z -> Z -> Z) :
  0 <= line < 16 ->
  (let '(port, l) := if line <? 8 then (PIC1_DATA, line) else (PIC2_DATA, u8 (line - 8)) in
   let '(t1, v) := inb dev t port in outb t1 port (op v l)) =
  outb (inb dev t (line_port line)).1 (line_port line) (op (u8 (dev t (line_port line))) (line mod 8)).
Proof.
  intros Hl. unfold line_port, inb. case_Z; cbn [fst].
  - rewrite (Z.mod_small line) by lia. done.
  - rewrite (u8_small (line - 8)) by lia. replace (line mod 8) with (line - 8) by dlia. done.
Qed.

Lemma irq_mask_bits t line :
  started t -> 0 <= line < 16 -> started (irq_mask dev t line) /\
    forall n, 0 <= n -> Z.testbit (masks dev (irq_mask dev t line)) n =
      if decide (n = line) then true else Z.testbit (masks dev t) n.
Proof.
  intros Ht Hl. unfold irq_mask.
  rewrite (irq_line t line (fun v l => u8 (Z.lor v (Z.shiftl 1 l)))) by done.
  refine (mask_write t line _ true Ht Hl (u8_range _) _). intros n Hn. assert (0 <= line mod 8) by dlia.
  rewrite u8_bits, Z.lor_spec, shiftl_1_bits, ltb_lt by lia.
  case_decide; case_Z; try lia; by rewrite ?orb_true_r, ?orb_false_r.
Qed.

Lemma irq_unmask_bits t line :
  started t -> 0 <= line < 16 -> started (irq_unmask dev t line) /\
    forall n, 0 <= n -> Z.testbit (masks dev (irq_unmask dev t line)) n =
      if decide (n = line) then false else Z.testbit (masks dev t) n.
Proof.
  intros Ht Hl. unfold irq_unmask.
  rewrite (irq_line t line (fun v l => u8 (Z.land v (Z.lnot (Z.shiftl 1 l))))) by done.
  refine (mask_write t line _ false Ht Hl (u8_range _) _). intros n Hn. assert (0 <= line mod 8) by dlia.
  rewrite u8_bits, Z.land_spec, Z.lnot_spec, shiftl_1_bits, ltb_lt by lia.
  case_decide; case_Z; try lia; by rewrite ?andb_false_r, ?andb_true_r.
Qed.

Lemma mask_loop_bits n t i :
  started t -> 0 <= i -> i + Z.of_nat n <= 16 -> started (mask_loop dev n t i) /\
    forall k, 0 <= k -> Z.testbit (masks dev (mask_loop dev n t i)) k =
      if decide (i <= k < i + Z.of_nat n) then true else Z.testbit (masks dev t) k.
Proof.
  revert t i. induction n as [|n IH]; intros t i Ht Hi Hn; cbn [mask_loop].
  - split; [done|]. intros k Hk. by rewrite decide_False by lia.
  - rewrite u8_small by lia. destruct (irq_mask_bits t i Ht ltac:(lia)) as [Ht1 Hb1].
    destruct (IH _ (i + 1) Ht1) as [Ht2 Hb2]; [lia|lia|]. split; [done|].
    intros k Hk. rewrite Hb2, Hb1 by done. by repeat case_decide; try lia.
Qed.

Lemma init_pic_started :
  started (init_pic dev pre) /\ masks dev (init_pic dev pre) = 0xFFFE.
Proof.
  unfold init_pic.
  set (t := outb _ PIC2_DATA 0x2).
  assert (t = pre ++ init_words) as Et by (unfold t, outb; by rewrite <- !app_assoc).
  assert (started t) as Ht by (exists []; by rewrite app_nil_r).
  destruct (mask_loop_bits 15 t 1 Ht) as [H1 H2]; [lia|lia|]. split; [done|].
  apply Z.bits_inj'. intros n Hn. rewrite H2 by done.
  assert (masks dev t = 0) as ->.
  { unfold masks. rewrite Et, !(pic_start _ _ Hdev); [done|apply data2|apply data1]. }
  rewrite Z.bits_0. case_decide.
  - assert (forallb (fun n => Z.testbit 0xFFFE n) (seqZ 1 15) = true) as Hall by (by vm_compute).
    rewrite List.forallb_forall in Hall. symmetry. apply Hall, list_elem_of_In, elem_of_seqZ. lia.
  - destruct (decide (n = 0)) as [->|]; [done|]. rewrite <- (u16_small 0xFFFE) by lia. unfold u16.
    change 65536 with (2 ^ 16). by rewrite Z.mod_pow2_bits_high by lia.
Qed.
End Pic.

(** The store of [init_idt], its gates and the registers it loads. *)
Section InitIdt.
Context (IDT idtr : Z) (isr : isr_name -> Z) (m : mem).
Context (Hisr : forall h, 0 <= isr h < 4294967296) (H0 : 0 <= IDT) (Hmax : IDT + 2048 <= 4294967296).
Context (Hdisj : idtr + 6 <= IDT \/ IDT + 2048 <= idtr).

Lemma init_idt_outside a :
  off IDT 2048 a -> load8 (init_idt IDT idtr isr m).1 a =
    load8 (set_idtr_base (set_idtr_limit m idtr 2047) idtr IDT) a.
Proof using H0 Hmax.
  intros Ha. rewrite init_idt_gates, set_gates_same_off;
    [|lia|unfold off, gate, IDTDESC_SIZE, idt_table in *; simpl; lia].
  unfold cleared_idt, gate, IDTDESC_SIZE, ISR_COUNT. rewrite Z.mul_0_r, Z.add_0_r.
  apply memset_same_off; [lia|done].
Qed.

Lemma init_idt_frame a :
  off IDT 2048 a -> off idtr 6 a -> load8 (init_idt IDT idtr isr m).1 a = load8 m a.
Proof using H0 Hmax.
  intros Ha Hi. rewrite init_idt_outside by done. unfold set_idtr_base, set_idtr_limit, off in *. by mem_simpl.
Qed.

Lemma init_idt_decode k :
  0 <= k < ISR_COUNT -> decode (init_idt IDT idtr isr m).1 (gate IDT k) =
    match idt_table !! Z.to_nat k with
    | Some e => entry_desc isr e
    | None => GateDesc 0 0 0 0
    end.
Proof using Hisr H0 Hmax.
  intros Hk. rewrite init_idt_gates, set_gates_spec by (apply idt_table_ok || done || lia).
  unfold ISR_COUNT in Hk. rewrite Z.sub_0_r. case_decide as Hd.
  - destruct (idt_table !! Z.to_nat k) eqn:E; [done|]. apply lookup_ge_None in E. lia.
  - rewrite lookup_ge_None_2 by lia. apply decode_zero. intros i Hi.
    unfold cleared_idt, gate, IDTDESC_SIZE, ISR_COUNT. rewrite memset_in by lia. done.
Qed.

Lemma init_idt_loads : (init_idt IDT idtr isr m).2 = (2047, IDT).
Proof using H0 Hmax Hdisj.
  rewrite init_idt_load. unfold load_idt. pose proof init_idt_outside as Hout.
  unfold set_idtr_base, set_idtr_limit in Hout. f_equal.
  - rewrite (load16_ext (store32 (store16 m idtr 2047) (idtr + 2) IDT)) by (intros; apply Hout; unfold off; lia).
    by mem_simpl.
  - rewrite (load32_ext (store32 (store16 m idtr 2047) (idtr + 2) IDT)) by (intros; apply Hout; unfold off; lia).
    mem_simpl. apply u32_small. lia.
Qed.
End InitIdt.

(** ** Properties *)

(** C25: the descriptor table.  [init_idt] clears the 256 gates and fills 34 of them; in
    the bytes the processor reads, gate [k] holds the address of the handler of vector
    [k], the selector 8, present, with a trap gate for the exceptions, privilege level
    3 for vectors 3 to 5 only, and an interrupt gate for timer and keyboard; the other
    gates are not present.  The loaded limit and base cover exactly the table, and only
    the table and the descriptor of six bytes are written. *)
Theorem init_idt_ok IDT idtr isr m :
  (forall h, 0 <= isr h < 4294967296) -> 0 <= IDT -> IDT + 2048 <= 4294967296 ->
  (idtr + 6 <= IDT \/ IDT + 2048 <= idtr) ->
  let '(m', (limit, base)) := init_idt IDT idtr isr m in
  (forall k, 0 <= k < ISR_COUNT -> decode m' (gate IDT k) =
     match idt_table !! Z.to_nat k with
     | Some e => entry_desc isr e
     | None => GateDesc 0 0 0 0
     end) /\
  limit = 2047 /\ base = IDT /\
  (forall a, off IDT 2048 a -> off idtr 6 a -> load8 m' a = load8 m a).
Proof.
  intros Hisr H0 Hmax Hdisj. pose proof (init_idt_loads IDT idtr isr m H0 Hmax Hdisj) as Hl.
  pose proof (init_idt_decode IDT idtr isr m Hisr H0 Hmax) as Hd.
  pose proof (init_idt_frame IDT idtr isr m H0 Hmax) as Hf.
  destruct (init_idt IDT idtr isr m) as [m' [limit base]]. by simplify_eq/=.
Qed.

(** A placement of the handlers. *)
Definition isr_example (h : isr_name) : Z := match h with isr_timer => 0x101234 | _ => 0x100000 end.

Lemma init_idt_ok_witness :
  let '(m', (limit, base)) := init_idt 0x5000 0x4000 isr_example mem_zero in
  decode m' (0x5000 + 8 * 32) = GateDesc 0x101234 8 0 0x8e /\ limit = 2047 /\ base = 0x5000.
Proof.
  pose proof (init_idt_ok 0x5000 0x4000 isr_example mem_zero) as H.
  destruct (init_idt 0x5000 0x4000 isr_example mem_zero) as [m' [limit base]].
  destruct H as (Hg & Hl & Hb & _); [intros h; destruct h; simpl; lia|lia|lia|lia|].
  split_and!; [|exact Hl|exact Hb]. exact (Hg 32 ltac:(unfold ISR_COUNT; lia)).
Defined.


(** A device: the last byte written to the port, the initialisation words apart. *)
Definition last_out (p : Z) (t : trace) : Z :=
  foldl (fun v e => match e with Out q w => if decide (q = p) then w else v | In _ _ => v end) 0 t.

Definition pic_example : device := fun t p => last_out p (drop 6 t).

Lemma pic_example_start t p : pic_example (([] ++ init_words) ++ t) p = last_out p t.
Proof. reflexivity. Qed.

Lemma pic_example_ok : pic8259 pic_example [].
Proof.
  split.
  - intros p _. reflexivity.
  - intros t p v q _. rewrite !pic_example_start. unfold last_out. by rewrite foldl_app.
  - intros t p v q _ _. rewrite !pic_example_start. unfold last_out. by rewrite foldl_app.
Qed.

