(* ===== verification/StatefulCr.v ===== *)
(** * StatefulCr: the preemptive threads of src/stateful_cr.c

    Three threads print numbered rows while they hold one lock, sleeping between
    the rows.  A thread is the list of its library calls, computed by the loops of
    its function; the calls of several threads interleave as a step relation with
    the lock, the sleepers and the timer.  The theorems: the rows of the threads
    never mix, and every reachable state can finish.  The last part registers the
    threads with the scheduler, against the interfaces [Heap] and [Console]. *)

From Stdlib Require Import Strings.String.
From S2P Require Import Prelude Memory Klib Portio Mutex Heap Context SchedQueue Sched SchedProps.
From S2P Require Import SchedInv SchedExample SchedOps SchedHeap Kvideo KvideoProps Console.

(** ** The threads *)

(** The calls of a thread that other threads can observe. *)
Inductive call :=
  | Printf (format words : list Z)
  | Lock
  | Unlock
  | Msleep (milliseconds : Z).

#[export] Instance call_eq_dec : EqDecision call.
Proof. solve_decision. Defined.

(** [for (i = 0; i < n; i++) printf(format, counter++);]: the calls and the counter. *)
Fixpoint print_counts (n : nat) (format : list Z) (counter : Z) : list call * Z :=
  match n with
  | O => ([], counter)
  | S k =>
      let '(calls, counter') := print_counts k format (s32 (counter + 1)) in
      (Printf format [counter] :: calls, counter')
  end.

(** [while (1)]: sleep, one row of [n] numbers, [if (++j == rows) break]. *)
Fixpoint rows_loop (fuel : nat) (milliseconds : Z) (n : nat) (format : list Z) (rows j counter : Z) :
  option (list call) :=
  match fuel with
  | O => None
  | S k =>
      let '(row, counter) := print_counts n format counter in
      let calls := Msleep milliseconds :: row ++ [Printf (line []) []] in
      let j := s32 (j + 1) in
      if j =? rows then Some calls
      else rest ← rows_loop k milliseconds n format rows j counter; Some (calls ++ rest)
  end.

Definition stateful_cr_thread1 (fuel : nat) (arg : Z) : option (list call * Z) :=
  rows ← rows_loop fuel 250 4 (chars " <1>:%d ") 3 0 0;
  Some ([Printf (line (chars "<1> Arg = 0x%x")) [arg]; Lock] ++ rows ++
        [Printf (line (chars "Done <1>!")) []; Unlock], 0xBEEF).

Definition stateful_cr_thread2 (fuel : nat) (arg : Z) : option (list call * Z) :=
  rows ← rows_loop fuel 500 5 (chars " <2>:%d ") 5 0 0;
  Some ([Printf (line (chars "<2> Arg = 0x%x")) [arg]; Lock] ++ rows ++
        [Printf (line (chars "Done <2>!")) []; Unlock], 0xDEAD).

Definition stateful_cr_thread3 (fuel : nat) (arg : Z) : option (list call * Z) :=
  rows ← rows_loop fuel 1500 4 (chars " <3>:%d ") 2 0 0;
  Some ([Printf (line (chars "<3> Arg = 0x%x")) [arg]; Lock] ++ rows ++
        [Printf (line (chars "Done <3>!")) []; Unlock], 0xD00D).

(** ** Interleaving *)

(** What a thread has left to do, and the ticks for which it still sleeps. *)
Record thread := Thread { todo : list call; asleep : Z }.

(** A line of output: who printed, the format, its words. *)
Definition event : Type := nat * (list Z * list Z).

Record system := System { lock : kthread_mutex_t; threads : list thread; output : list event }.

(** One call of one thread that is awake, or one tick of the timer.  The call of
    [kthread_mutex_lock] is one turn of its loop. *)
Inductive sys_step : system -> system -> Prop :=
  | sys_print w i format words calls :
      threads w !! i = Some (Thread (Printf format words :: calls) 0) ->
      sys_step w (System (lock w) (<[i := Thread calls 0]> (threads w))
                (output w ++ [(i, (format, words))]))
  | sys_lock w i calls r mutex :
      threads w !! i = Some (Thread (Lock :: calls) 0) ->
      __sync_bool_cmpxchg (lock w) 1 0 = (r, mutex) ->
      sys_step w (System mutex (<[i := Thread (if c_true r then calls else Lock :: calls) 0]> (threads w))
                (output w))
  | sys_unlock w i calls :
      threads w !! i = Some (Thread (Unlock :: calls) 0) ->
      sys_step w (System (kthread_mutex_unlock (lock w)) (<[i := Thread calls 0]> (threads w)) (output w))
  | sys_sleep w i ms calls :
      threads w !! i = Some (Thread (Msleep ms :: calls) 0) ->
      sys_step w (System (lock w) (<[i := Thread calls (msleep_ticks ms)]> (threads w)) (output w))
  | sys_tick w :
      sys_step w (System (lock w) ((fun t => Thread (todo t) (Z.max 0 (asleep t - 1))) <$> threads w) (output w)).

Inductive sys_reachable (w0 : system) : system -> Prop :=
  | sys_refl : sys_reachable w0 w0
  | sys_next w w' : sys_reachable w0 w -> sys_step w w' -> sys_reachable w0 w'.

Definition finished (w : system) : Prop := Forall (fun t => todo t = []) (threads w).

Lemma sys_trans w0 w w' : sys_reachable w0 w -> sys_reachable w w' -> sys_reachable w0 w'.
Proof. intros H. induction 1; [done|]. by eapply sys_next. Qed.

(** ** Threads with one critical section

    The general fact: threads that run some calls, take the lock, run their body
    and release it.  Their programs are a list of pairs of calls before the lock
    and calls inside. *)

(** The output of the calls of thread [i]. *)
Fixpoint printed (i : nat) (calls : list call) : list event :=
  match calls with
  | [] => []
  | Printf format words :: calls => (i, (format, words)) :: printed i calls
  | _ :: calls => printed i calls
  end.

Lemma printed_app i l1 l2 : printed i (l1 ++ l2) = printed i l1 ++ printed i l2.
Proof. induction l1 as [|[] l1 IH]; simpl; [done|by rewrite IH|done..]. Qed.

Definition no_lock (calls : list call) : Prop := Forall (fun c => c <> Lock /\ c <> Unlock) calls.

Definition whole (pb : list call * list call) : list call := pb.1 ++ Lock :: pb.2 ++ [Unlock].

Definition start (progs : list (list call * list call)) : system :=
  System unlocked ((fun pb => Thread (whole pb) 0) <$> progs) [].

Lemma list_snoc_app {A} (l1 l2 : list A) x : l1 ++ x :: l2 = (l1 ++ [x]) ++ l2.
Proof. by rewrite <- app_assoc. Qed.

Lemma list_filter_all {A} (P : A -> Prop) `{!forall x, Decision (P x)} l : Forall P l -> filter P l = l.
Proof.
  induction 1 as [|x l Hx _ IH]; [done|]. rewrite filter_cons_True by done. by rewrite IH.
Qed.

Lemma list_filter_none {A} (P : A -> Prop) `{!forall x, Decision (P x)} l :
  Forall (fun x => ~ P x) l -> filter P l = [].
Proof. induction 1 as [|x l Hx _ IH]; [done|]. by rewrite filter_cons_False. Qed.

Section Critical.
(** [inner]: the output of the bodies. *)
Context (inner : event -> Prop) {Hdec : forall e, Decision (inner e)}.
Context (progs : list (list call * list call)).

Record one_section (i : nat) (pb : list call * list call) : Prop := {
  os_before : no_lock pb.1;
  os_inside : no_lock pb.2;
  os_outer : Forall (fun e => ~ inner e) (printed i pb.1);
  os_inner : Forall inner (printed i pb.2)
}.

Context (Hprogs : forall i pb, progs !! i = Some pb -> one_section i pb).

(** The output of the body of thread [i]. *)
Definition rows_of (i : nat) : list event :=
  match progs !! i with Some pb => printed i pb.2 | None => [] end.

Definition waiting (pb : list call * list call) (l : list call) : Prop :=
  exists p q, pb.1 = p ++ q /\ l = q ++ Lock :: pb.2 ++ [Unlock].

Definition working (pb : list call * list call) (p l : list call) : Prop :=
  exists q, pb.2 = p ++ q /\ l = q ++ [Unlock].

(** The threads that are through, in order, and the one that holds the lock with the
    calls of its body that it has done. *)
Definition placed (order : list nat) (cur : option (nat * list call)) (i : nat)
  (pb : list call * list call) (l : list call) : Prop :=
  if decide (i ∈ order) then l = []
  else match cur with
       | Some (h, p) => if decide (i = h) then working pb p l else waiting pb l
       | None => waiting pb l
       end.

Definition in_section (cur : option (nat * list call)) : list event :=
  match cur with Some (h, p) => printed h p | None => [] end.

Record inv (w : system) (order : list nat) (cur : option (nat * list call)) : Prop := {
  iv_len : length (threads w) = length progs;
  iv_placed i t pb : threads w !! i = Some t -> progs !! i = Some pb -> placed order cur i pb (todo t);
  iv_lock : lock w = match cur with Some _ => locked | None => unlocked end;
  iv_cur h p : cur = Some (h, p) -> (h ∉ order) /\ (h < length progs)%nat;
  iv_nodup : NoDup order;
  iv_order i : i ∈ order -> (i < length progs)%nat;
  iv_out : filter inner (output w) = concat (rows_of <$> order) ++ in_section cur
}.

Lemma inv_start : inv (start progs) [] None.
Proof.
  split; try done.
  - apply length_fmap.
  - intros i t pb Ht Hi. simpl in Ht. rewrite list_lookup_fmap, Hi in Ht. simplify_eq/=.
    unfold placed. rewrite decide_False by set_solver. by exists [], pb.1.
  - constructor.
  - set_solver.
Qed.

Lemma inv_prog w order cur i t :
  inv w order cur -> threads w !! i = Some t -> exists pb, progs !! i = Some pb /\
    one_section i pb /\ placed order cur i pb (todo t).
Proof.
  intros Hinv Ht. pose proof (lookup_lt_Some _ _ _ Ht) as Hlt. rewrite (iv_len _ _ _ Hinv) in Hlt.
  apply lookup_lt_is_Some in Hlt as [pb Hpb]. exists pb. split_and!; [done|by apply Hprogs|].
  by eapply iv_placed.
Qed.

(** A thread other than [i] does not notice that [i] moves on. *)
Lemma inv_insert w order cur order' cur' i t l' mutex out :
  inv w order cur -> threads w !! i = Some t ->
  (forall pb, progs !! i = Some pb -> placed order' cur' i pb (todo l')) ->
  (forall k pb l, k <> i -> placed order cur k pb l -> placed order' cur' k pb l) ->
  mutex = match cur' with Some _ => locked | None => unlocked end ->
  (forall h p, cur' = Some (h, p) -> (h ∉ order') /\ (h < length progs)%nat) ->
  NoDup order' -> (forall k, k ∈ order' -> (k < length progs)%nat) ->
  filter inner out = concat (rows_of <$> order') ++ in_section cur' ->
  inv (System mutex (<[i := l']> (threads w)) out) order' cur'.
Proof.
  intros Hinv Ht Hi Hk Hm Hc Hn Ho Hout. split; try done; simpl.
  - rewrite length_insert. apply (iv_len _ _ _ Hinv).
  - intros k t' pb Hkt Hpb. destruct (decide (k = i)) as [->|Hne].
    + rewrite list_lookup_insert_eq in Hkt by by eapply lookup_lt_Some. simplify_eq. by apply Hi.
    + rewrite list_lookup_insert_ne in Hkt by done. apply Hk; [done|]. by eapply iv_placed.
Qed.
(** Where a thread with calls left is. *)
Lemma placed_cases order cur i pb c calls :
  placed order cur i pb (c :: calls) ->
  (i ∉ order) /\
  ((exists p, cur = Some (i, p) /\ working pb p (c :: calls)) \/
   ((forall p, cur <> Some (i, p)) /\ waiting pb (c :: calls))).
Proof.
  unfold placed. case_decide as Hi; [done|]. intros H. split; [done|].
  destruct cur as [[h p]|]; [|right; split; congruence || done].
  case_decide as Hh; [subst; left; eauto|right]. split; congruence || done.
Qed.

Lemma placed_working order i pb p l :
  (i ∉ order) -> working pb p l -> placed order (Some (i, p)) i pb l.
Proof. intros Hi H. unfold placed. by rewrite decide_False, decide_True by done. Qed.

Lemma placed_waiting order cur i pb l :
  (i ∉ order) -> (forall p, cur <> Some (i, p)) -> waiting pb l -> placed order cur i pb l.
Proof.
  intros Hi Hc H. unfold placed. rewrite decide_False by done. destruct cur as [[h p]|]; [|done].
  rewrite decide_False; [done|]. intros ->. by apply (Hc p).
Qed.

(** The others only look at who holds the lock. *)
Lemma placed_others order i p p' k pb l :
  k <> i -> placed order (Some (i, p)) k pb l -> placed order (Some (i, p')) k pb l.
Proof. unfold placed. intros Hk. case_decide; [done|]. by rewrite !decide_False. Qed.

(** A call that is not about the lock. *)
Lemma inv_pop w order cur i c calls n out :
  inv w order cur -> threads w !! i = Some (Thread (c :: calls) 0) -> c <> Lock -> c <> Unlock ->
  filter inner out = filter inner (output w) ++ filter inner (printed i [c]) ->
  exists cur', inv (System (lock w) (<[i := Thread calls n]> (threads w)) out) order cur'.
Proof.
  intros Hinv Ht Hl Hu Hout. pose proof Hinv as [Hlen Hpl Hlk Hcu Hnd Hor Ho].
  destruct (inv_prog _ _ _ _ _ Hinv Ht) as (pb & Hpb & [_ _ Hob Hib] & H).
  apply placed_cases in H as [Hi [(p & -> & [|c' q] & E1 & E2)|(Hnc & p & [|c' q] & E1 & E2)]];
    simplify_eq/=.
  - exists (Some (i, p ++ [c'])). eapply inv_insert; [done|done| | |done|..|done|done|].
    + intros pb' Hpb'. simplify_eq. apply placed_working; [done|]. exists q. by rewrite <- app_assoc.
    + intros k pb' l Hk. by apply placed_others.
    + intros h p' ?. simplify_eq. by apply (Hcu h p).
    + rewrite E1, (list_snoc_app p q c'), printed_app, Forall_app in Hib.
      destruct Hib as [Hib _]. rewrite printed_app, Forall_app in Hib. destruct Hib as [_ Hc].
      rewrite Hout, Ho. cbn [in_section]. rewrite printed_app, (app_assoc (concat _)). f_equal.
      by apply list_filter_all.
  - exists cur. eapply inv_insert; [done|done| |done|done|done|done|done|].
    + intros pb' Hpb'. simplify_eq. apply placed_waiting; [done|done|]. exists (p ++ [c']), q.
      by rewrite <- app_assoc.
    + rewrite E1, (list_snoc_app p q c'), printed_app, Forall_app in Hob.
      destruct Hob as [Hob _]. rewrite printed_app, Forall_app in Hob. destruct Hob as [_ Hc].
      rewrite Hout, Ho. rewrite (list_filter_none inner (printed i [c'])) by done. apply app_nil_r.
Qed.

Lemma inv_lock w order cur i calls r mutex :
  inv w order cur -> threads w !! i = Some (Thread (Lock :: calls) 0) ->
  __sync_bool_cmpxchg (lock w) 1 0 = (r, mutex) ->
  exists cur', inv (System mutex (<[i := Thread (if c_true r then calls else Lock :: calls) 0]> (threads w))
    (output w)) order cur'.
Proof.
  intros Hinv Ht Hx. pose proof Hinv as [Hlen Hpl Hlk Hcu Hnd Hor Ho].
  destruct (inv_prog _ _ _ _ _ Hinv Ht) as (pb & Hpb & [Hbf Hin _ _] & H).
  destruct cur as [[h p]|]; rewrite Hlk in Hx.
  - rewrite cmpxchg_locked in Hx. simplify_eq. exists (Some (h, p)). cbn [c_true Z.eqb negb].
    by rewrite list_insert_id by done; destruct w; simpl in *; subst.
  - rewrite cmpxchg_unlocked in Hx. simplify_eq. cbn [c_true Z.eqb negb]. exists (Some (i, [])).
    apply placed_cases in H as [Hi [(p & ? & _)|(_ & p & [|c' q] & E1 & E2)]]; simplify_eq/=.
    + eapply inv_insert; [done|done| | |done|..|done|done|].
      * intros pb' ?. simplify_eq. apply placed_working; [done|]. by exists pb.2.
      * intros k pb' l Hk. unfold placed. case_decide; [done|]. by rewrite decide_False.
      * intros h p' ?. simplify_eq. split; [done|]. by apply lookup_lt_Some in Hpb.
      * rewrite Ho. done.
    + exfalso. rewrite E1 in Hbf. apply Forall_app in Hbf as [_ [[Hc _] _]%Forall_cons]. done.
Qed.

Lemma inv_unlock w order cur i calls :
  inv w order cur -> threads w !! i = Some (Thread (Unlock :: calls) 0) ->
  inv (System (kthread_mutex_unlock (lock w)) (<[i := Thread calls 0]> (threads w)) (output w))
    (order ++ [i]) None.
Proof.
  intros Hinv Ht. pose proof Hinv as [Hlen Hpl Hlk Hcu Hnd Hor Ho].
  destruct (inv_prog _ _ _ _ _ Hinv Ht) as (pb & Hpb & [Hbf Hin _ _] & H).
  apply placed_cases in H as [Hi [(p & -> & [|c' q] & E1 & E2)|(Hnc & p & [|c' q] & E1 & E2)]];
    simplify_eq/=.
  - rewrite app_nil_r in E1. eapply inv_insert; [done|done| | |done|..].
    + intros pb' ?. unfold placed. by rewrite decide_True by set_solver.
    + intros k pb' l Hk. unfold placed. destruct (decide (k ∈ order)) as [Hko|Hko].
      * by rewrite decide_True by set_solver.
      * rewrite !decide_False by set_solver. done.
    + done.
    + apply NoDup_app. split_and!; [done|set_solver|apply NoDup_singleton].
    + intros k Hk. apply elem_of_app in Hk as [Hk|Hk]; [by apply Hor|].
      apply list_elem_of_singleton in Hk as ->. by apply lookup_lt_Some in Hpb.
    + rewrite Ho, fmap_app, concat_app. simpl. unfold rows_of at 3. rewrite Hpb, E1.
      by rewrite !app_nil_r.
  - exfalso. rewrite E1 in Hin. apply Forall_app in Hin as [_ [[_ Hc] _]%Forall_cons]. done.
  - exfalso. rewrite E1 in Hbf. apply Forall_app in Hbf as [_ [[_ Hc] _]%Forall_cons]. done.
Qed.

Lemma inv_step w w' order cur :
  inv w order cur -> sys_step w w' -> exists order' cur', inv w' order' cur'.
Proof.
  intros Hinv Hs. destruct Hs as [w i f ws calls Ht|w i calls r mutex Ht Hx|w i calls Ht|w i ms calls Ht|w].
  - exists order. eapply inv_pop; [done|done|done|done|]. apply filter_app.
  - exists order. by eapply inv_lock.
  - exists (order ++ [i]), None. by eapply inv_unlock.
  - exists order. eapply inv_pop; [done|done|done|done|]. by rewrite app_nil_r.
  - exists order, cur. destruct Hinv. split; try done; simpl.
    + by rewrite length_fmap.
    + intros i t pb Ht. apply list_lookup_fmap_Some_1 in Ht as (t' & -> & Ht). exact (iv_placed0 i t' pb Ht).
Qed.

Lemma inv_reachable w : sys_reachable (start progs) w -> exists order cur, inv w order cur.
Proof.
  induction 1 as [|w w' _ (order & cur & Hinv) Hs]; [exists [], None; exact inv_start|].
  by eapply inv_step.
Qed.

(** Every thread that has come to its end has left its section. *)
Lemma inv_finished w order cur :
  inv w order cur -> finished w -> cur = None /\ order ≡ₚ seq 0 (length progs).
Proof.
  intros Hinv Hf. unfold finished in Hf. rewrite Forall_lookup in Hf.
  assert (forall i, (i < length progs)%nat -> i ∈ order) as Hall.
  { intros i Hi. rewrite <- (iv_len _ _ _ Hinv) in Hi. apply lookup_lt_is_Some in Hi as [t Ht].
    destruct (inv_prog _ _ _ _ _ Hinv Ht) as (pb & _ & _ & H). rewrite (Hf _ _ Ht) in H.
    unfold placed in H. case_decide as Ho; [done|]. exfalso.
    destruct cur as [[h p]|]; [case_decide|]; destruct H as (? & H); [|destruct H as (? & H)..];
      destruct H as [_ H]; by apply symmetry, app_nil in H as [_ ?]. }
  split.
  - destruct cur as [[h p]|]; [|done]. destruct (iv_cur _ _ _ Hinv h p eq_refl) as [Hh Hlt].
    exfalso. by apply Hh, Hall.
  - apply NoDup_Permutation; [apply (iv_nodup _ _ _ Hinv)|apply NoDup_seq|].
    intros i. rewrite elem_of_seq. split; [|intros [_ Hi]; by apply Hall].
    intros Hi%(iv_order _ _ _ Hinv). lia.
Qed.
(** *** Progress *)

Definition awake_or_asleep (w : system) : Prop := Forall (fun t => 0 <= asleep t) (threads w).

Lemma msleep_ticks_nonneg ms : 0 <= msleep_ticks ms.
Proof. unfold msleep_ticks, PIT_INT_FRQ, u32. dlia. Qed.

Lemma asleep_step w w' : awake_or_asleep w -> sys_step w w' -> awake_or_asleep w'.
Proof.
  unfold awake_or_asleep. intros H Hs.
  destruct Hs; simpl; try (apply Forall_insert; [done|simpl; lia || apply msleep_ticks_nonneg]).
  apply Forall_fmap. eapply Forall_impl; [exact H|]. intros t Ht. simpl. lia.
Qed.

Lemma asleep_reachable w : sys_reachable (start progs) w -> awake_or_asleep w.
Proof.
  induction 1 as [|w w' _ IH Hs]; [|by eapply asleep_step].
  apply Forall_fmap, Forall_forall. intros pb _. simpl. lia.
Qed.

(** Calls and ticks that are left. *)
Definition weight (c : call) : nat :=
  match c with Msleep ms => S (Z.to_nat (msleep_ticks ms)) | _ => 1%nat end.

Definition work (t : thread) : nat := (sum_list (weight <$> todo t) + Z.to_nat (asleep t))%nat.

Definition total_work (w : system) : nat := sum_list (work <$> threads w).

Lemma sum_insert (f : thread -> nat) (l : list thread) i t t' :
  l !! i = Some t -> (f t' < f t)%nat -> (sum_list (f <$> <[i := t']> l) < sum_list (f <$> l))%nat.
Proof.
  intros Hi Hlt. rewrite <- (take_drop_middle l i t Hi) at 2.
  rewrite insert_take_drop by by eapply lookup_lt_Some.
  rewrite !fmap_app, !sum_list_with_app. simpl. lia.
Qed.

Definition tick (t : thread) : thread := Thread (todo t) (Z.max 0 (asleep t - 1)).

Lemma tick_work t : (work (tick t) <= work t)%nat /\ (0 < asleep t -> (work (tick t) < work t)%nat).
Proof. unfold work, tick. simpl. lia. Qed.

Lemma sum_tick (l : list thread) :
  Exists (fun t => 0 < asleep t) l -> (sum_list (work <$> (tick <$> l)) < sum_list (work <$> l))%nat.
Proof.
  assert (forall l, (sum_list (work <$> (tick <$> l)) <= sum_list (work <$> l))%nat) as Hle.
  { clear l. induction l as [|t l IH]; [done|]. pose proof (tick_work t).
    rewrite !fmap_cons. cbn [sum_list_with]. unfold id in *. lia. }
  intros He. induction He as [t l Ht|t l He IH]; rewrite !fmap_cons; cbn [sum_list_with];
    unfold id in *; destruct (tick_work t) as [H1 H2].
  - specialize (H2 Ht). specialize (Hle l). lia.
  - lia.
Qed.

Lemma pop_work c calls n :
  (Z.to_nat n < weight c)%nat -> (work (Thread calls n) < work (Thread (c :: calls) 0))%nat.
Proof. unfold work. cbn [todo asleep]. rewrite fmap_cons. cbn [sum_list_with]. unfold id. lia. Qed.

(** The next call of a thread that is awake. *)
Lemma head_step w i c calls :
  threads w !! i = Some (Thread (c :: calls) 0) -> (c = Lock -> lock w = unlocked) ->
  exists w', sys_step w w' /\ (total_work w' < total_work w)%nat.
Proof.
  intros Ht Hl. destruct c as [f ws| | |ms].
  - eexists. split; [by eapply sys_print|]. eapply sum_insert; [exact Ht|]. apply pop_work. simpl. lia.
  - eexists. split; [eapply (sys_lock w i calls 1 locked); [done|by rewrite Hl]|].
    eapply sum_insert; [exact Ht|]. apply pop_work. simpl. lia.
  - eexists. split; [by eapply sys_unlock|]. eapply sum_insert; [exact Ht|]. apply pop_work. simpl. lia.
  - eexists. split; [by eapply sys_sleep|]. eapply sum_insert; [exact Ht|]. apply pop_work. simpl. lia.
Qed.

Lemma progress_step w order cur :
  inv w order cur -> awake_or_asleep w -> ~ finished w ->
  exists w', sys_step w w' /\ (total_work w' < total_work w)%nat.
Proof.
  intros Hinv Ha Hf. destruct (decide (Exists (fun t => 0 < asleep t) (threads w))) as [He|He].
  { eexists. split; [apply sys_tick|]. by apply (sum_tick (threads w)). }
  assert (forall i t, threads w !! i = Some t -> t = Thread (todo t) 0) as Haw.
  { intros i [l n] Ht. unfold awake_or_asleep in Ha. rewrite Forall_lookup in Ha. specialize (Ha i _ Ht).
    rewrite Exists_exists in He. f_equal. simpl in *. destruct (decide (0 < n)) as [Hn|Hn]; [|lia].
    exfalso. apply He. exists (Thread l n). split; [by eapply list_elem_of_lookup_2|done]. }
  destruct cur as [[h p]|] eqn:Ecur.
  - destruct (iv_cur _ _ _ Hinv h p eq_refl) as [Hh Hlt].
    rewrite <- (iv_len _ _ _ Hinv) in Hlt. apply lookup_lt_is_Some in Hlt as [t Ht].
    destruct (inv_prog _ _ _ _ _ Hinv Ht) as (pb & Hpb & [_ Hin _ _] & H).
    unfold placed in H. rewrite decide_False, decide_True in H by done. destruct H as (q & E1 & E2).
    pose proof (Haw h t Ht) as Et. rewrite E2 in Et. destruct q as [|c q]; simpl in Et; rewrite Et in Ht.
    + by eapply head_step.
    + eapply head_step; [exact Ht|]. intros ->. rewrite E1 in Hin.
      apply Forall_app in Hin as [_ [[Hc _] _]%Forall_cons]. done.
  - apply not_Forall_Exists in Hf; [|apply _]. apply Exists_exists in Hf as (t & [i Ht]%list_elem_of_lookup & Hn).
    destruct (inv_prog _ _ _ _ _ Hinv Ht) as (pb & Hpb & _ & H).
    pose proof (Haw i t Ht) as Et. destruct (todo t) as [|c calls] eqn:Etd; [done|]. rewrite Et in Ht.
    eapply head_step; [exact Ht|]. intros _. apply (iv_lock _ _ _ Hinv).
Qed.

Lemma progress w : sys_reachable (start progs) w -> exists w', sys_reachable w w' /\ finished w'.
Proof.
  intros Hr. remember (total_work w) as n eqn:En. revert w Hr En.
  induction n as [n IH] using lt_wf_ind. intros w Hr ->.
  assert (Decision (finished w)) as [Hf|Hf] by (unfold finished; apply _).
  { exists w. split; [apply sys_refl|done]. }
  destruct (inv_reachable w Hr) as (order & cur & Hinv).
  destruct (progress_step w order cur Hinv (asleep_reachable w Hr) Hf) as (w1 & Hs & Hlt).
  destruct (IH _ Hlt w1) as (w2 & H2 & Hf2); [by eapply sys_next|done|].
  exists w2. split; [|done]. eapply sys_trans; [|exact H2]. eapply sys_next; [apply sys_refl|done].
Qed.
End Critical.

(** ** The three threads of the file *)

(** The arguments that [stateful_cr_register_routines] passes. *)
Definition stateful_args : Z * Z * Z := (0xDEAD, 0xBEEF, 0xF00F).

(** Every thread at its first call, the lock initialised. *)
Definition stateful_system (fuel : nat) : option system :=
  let '(a1, a2, a3) := stateful_args in
  t1 ← stateful_cr_thread1 fuel a1;
  t2 ← stateful_cr_thread2 fuel a2;
  t3 ← stateful_cr_thread3 fuel a3;
  Some (System (kthread_mutex_init (Mutex 0)) [Thread t1.1 0; Thread t2.1 0; Thread t3.1 0] []).

(** What a thread prints under the lock: [k] rows of [n] consecutive numbers and its
    last words. *)
Definition row_events (i : nat) (format : list Z) (n r : Z) : list event :=
  ((fun c => (i, (format, [c]))) <$> seqZ (r * n) n) ++ [(i, (line [], []))].

Definition thread_rows (i : nat) (format : list Z) (n k : Z) (last : list Z) : list event :=
  concat (row_events i format n <$> seqZ 0 k) ++ [(i, (line last, []))].

Definition stateful_rows (i : nat) : list event :=
  match i with
  | 0%nat => thread_rows 0 (chars " <1>:%d ") 4 3 (chars "Done <1>!")
  | 1%nat => thread_rows 1 (chars " <2>:%d ") 5 5 (chars "Done <2>!")
  | 2%nat => thread_rows 2 (chars " <3>:%d ") 4 2 (chars "Done <3>!")
  | _ => []
  end.

(** The lines before the lock is taken. *)
Definition greeting (e : event) : Prop :=
  e.2.1 ∈ [line (chars "<1> Arg = 0x%x"); line (chars "<2> Arg = 0x%x"); line (chars "<3> Arg = 0x%x")].

Definition under_lock (e : event) : Prop := ~ greeting e.

#[export] Instance under_lock_dec e : Decision (under_lock e).
Proof. unfold under_lock, greeting. apply _. Defined.

(** The calls before the lock and those inside, read off the functions. *)
Definition split_thread (t : option (list call * Z)) : list call * list call :=
  let calls := default [] (fst <$> t) in
  (take 1 calls, take (length calls - 3) (drop 2 calls)).

Definition stateful_progs : list (list call * list call) :=
  [split_thread (stateful_cr_thread1 5 0xDEAD); split_thread (stateful_cr_thread2 5 0xBEEF);
   split_thread (stateful_cr_thread3 5 0xF00F)].

Lemma rows_loop_mono fuel k ms n format rows j counter calls :
  rows_loop fuel ms n format rows j counter = Some calls -> (fuel <= k)%nat ->
  rows_loop k ms n format rows j counter = Some calls.
Proof.
  revert k j counter calls. induction fuel as [|fuel IH]; intros k j counter calls E Hk; [done|].
  destruct k as [|k]; [lia|]. cbn [rows_loop] in *. destruct (print_counts n format counter) as [row c].
  case_match; [done|]. destruct (rows_loop fuel _ _ _ _ _ _) as [rest|] eqn:Er; [|done].
  rewrite (IH k _ _ rest) by (done || lia). done.
Qed.

(** Five turns of the outer loop are enough. *)
Lemma stateful_start fuel : (5 <= fuel)%nat -> stateful_system fuel = Some (start stateful_progs).
Proof.
  intros Hf. unfold stateful_system, stateful_cr_thread1, stateful_cr_thread2, stateful_cr_thread3.
  cbn [stateful_args]. unfold stateful_args.
  erewrite (rows_loop_mono 5 fuel 250) by (done || by vm_compute). cbn [mbind option_bind].
  erewrite (rows_loop_mono 5 fuel 500) by (done || by vm_compute). cbn [mbind option_bind].
  erewrite (rows_loop_mono 5 fuel 1500) by (done || by vm_compute). cbn [mbind option_bind].
  by vm_compute.
Qed.

Lemma stateful_sections i pb : stateful_progs !! i = Some pb -> one_section under_lock i pb.
Proof.
  intros Hi. destruct i as [|[|[|]]]; simplify_eq/=;
    (split; unfold no_lock; apply (bool_decide_unpack _); by vm_compute).
Qed.

Lemma stateful_rows_of i : (i < 3)%nat -> rows_of stateful_progs i = stateful_rows i.
Proof. intros Hi. destruct i as [|[|[|]]]; [by vm_compute..|lia]. Qed.

Lemma rows_of_fmap (order : list nat) :
  (forall i, i ∈ order -> (i < 3)%nat) -> rows_of stateful_progs <$> order = stateful_rows <$> order.
Proof.
  intros H. apply list_fmap_ext. intros k i Hk. apply stateful_rows_of, H. by eapply list_elem_of_lookup_2.
Qed.

(** C11: the rows do not mix.  However the three threads, the timer and the sleeps
    interleave, what has been printed under the lock is a prefix of the complete rows
    of one thread after the other, each thread at most once; when all three have
    ended it is the complete rows of all three in some order: three rows of four
    numbers, five rows of five and two rows of four, counted from 0 by each thread. *)
Theorem rows_exclusive fuel w0 w :
  (5 <= fuel)%nat -> stateful_system fuel = Some w0 -> sys_reachable w0 w ->
  exists order, NoDup order /\ order ⊆ [0; 1; 2]%nat /\
    filter under_lock (output w) `prefix_of` concat (stateful_rows <$> order) /\
    (finished w -> order ≡ₚ [0; 1; 2]%nat /\
       filter under_lock (output w) = concat (stateful_rows <$> order)).
Proof.
  intros Hf E Hr. rewrite stateful_start in E by done. injection E as <-.
  destruct (inv_reachable under_lock stateful_progs stateful_sections w Hr) as (order & cur & Hinv).
  pose proof Hinv as [_ _ _ Hcu Hnd Hor Ho]. simpl in Hcu, Hor.
  assert (forall order', (forall i, i ∈ order' -> (i < 3)%nat) -> order' ⊆ [0; 1; 2]%nat) as Hsub.
  { intros order' H i Hi%H. assert (i = 0 \/ i = 1 \/ i = 2)%nat by lia. set_solver. }
  destruct cur as [[h p]|].
  - destruct (Hcu h p eq_refl) as [Hh Hlt].
    assert (forall i, i ∈ order ++ [h] -> (i < 3)%nat) as Hor'.
    { intros i [Hi%Hor| ->%list_elem_of_singleton]%elem_of_app; lia. }
    exists (order ++ [h]). split_and!.
    + apply NoDup_app. split_and!; [done|set_solver|apply NoDup_singleton].
    + by apply Hsub.
    + rewrite Ho, <- rows_of_fmap, fmap_app, concat_app by done. apply prefix_app.
      simpl. rewrite app_nil_r. destruct (lookup_lt_is_Some_2 stateful_progs h Hlt) as [pb Hpb].
      unfold rows_of. rewrite Hpb.
      destruct (lookup_lt_is_Some_2 (threads w) h) as [t Ht];
        [rewrite (iv_len _ _ _ _ _ Hinv); by eapply lookup_lt_Some|].
      destruct (inv_prog under_lock _ stateful_sections _ _ _ _ _ Hinv Ht) as (pb' & Hpb' & _ & H).
      simplify_eq. unfold placed in H. rewrite decide_False, decide_True in H by done.
      destruct H as (q & -> & _). rewrite printed_app. by apply prefix_app_r.
    + intros Hfin. by destruct (inv_finished under_lock _ stateful_sections _ _ _ Hinv Hfin).
  - rewrite app_nil_r, rows_of_fmap in Ho by done. exists order.
    split_and!; [done|by apply Hsub|by rewrite Ho|].
    intros Hfin. by destruct (inv_finished under_lock _ stateful_sections _ _ _ Hinv Hfin).
Qed.

(** C12: no deadlock.  From every state that the three threads can reach, some
    continuation brings all of them to their end. *)
Theorem threads_can_finish fuel w0 w :
  (5 <= fuel)%nat -> stateful_system fuel = Some w0 -> sys_reachable w0 w ->
  exists w', sys_reachable w w' /\ finished w'.
Proof.
  intros Hf E. rewrite stateful_start in E by done. injection E as <-.
  apply (progress under_lock), stateful_sections.
Qed.

(** ** Registration *)

Section Register.
Context (kmalloc : mem -> Z -> option (mem * Z)).
Context (printf : mem -> video_state -> list Z -> list Z -> option (mem * video_state)).
(** Addresses of the thread functions. *)
Context (thread1 thread2 thread3 : Z).

Definition stateful_cr_register_routines (m : mem) (v : video_state) (s : sched_state)
  (lock : kthread_mutex_t) : option (mem * video_state * sched_state * kthread_mutex_t) :=
  let lock := kthread_mutex_init lock in
  '(m, s, thread1_id) ← kthread_create kmalloc m s thread1 0xDEAD;
  '(m, v) ← (if thread1_id =? -1
             then printf m v (10 :: line (chars "    Could not create thread 1")) []
             else printf m v (10 :: line (chars "    Thread 1 created with tid = %d")) [thread1_id]);
  '(m, s, thread2_id) ← kthread_create kmalloc m s thread2 0xBEEF;
  '(m, v) ← (if thread2_id =? -1
             then printf m v (line (chars "    Could not create thread 2")) []
             else printf m v (line (chars "    Thread 2 created with tid = %d")) [thread2_id]);
  '(m, s, thread3_id) ← kthread_create kmalloc m s thread3 0xF00F;
  '(m, v) ← (if thread3_id =? -1
             then printf m v (line (chars "    Could not create thread 3")) []
             else printf m v (line (chars "    Thread 3 created with tid = %d")) [thread3_id]);
  Some (m, v, s, lock).
End Register.

(** What the registration of one thread prints. *)
Definition created (text : list Z) (tid : Z) : list out :=
  (Put <$> text) ++ field 0 false (itoa_text 100 tid) ++ [Put 10].

Definition created_texts : list (list Z) :=
  [10 :: chars "    Thread 1 created with tid = "; chars "    Thread 2 created with tid = ";
   chars "    Thread 3 created with tid = "].

Lemma snoc_in (l : list Z) x : x ∈ l ++ [x].
Proof. apply elem_of_app. right. by left. Qed.

Lemma all_tasks_run s run wait done_ x : x ∈ run -> x ∈ all_tasks s run wait done_.
Proof. unfold all_tasks. set_solver. Qed.

Section RegisterProofs.
Context {kmalloc : mem -> Z -> option (mem * Z)} {kfree : mem -> Z -> option mem}.
Context {printf : mem -> video_state -> list Z -> list Z -> option (mem * video_state)}.
Context {clear : mem -> video_state -> mem * video_state}.
Context `{!Heap kmalloc kfree} `{!Console printf clear}.
Context (Hapart : forall a, tty_area a -> ~ heap_area a).

Lemma print_heap m v t format ws os :
  tty m v t -> tty_text format ws os ->
  exists m' v', printf m v format ws = Some (m', v') /\ tty m' v' (KvideoProps.run os t) /\
    same_on heap_area m m'.
Proof.
  intros Ht Hx. destruct (tty_print m v t format ws os Ht Hx) as (m' & v' & E & Ht' & Hs).
  exists m', v'. split_and!; [done|done|]. eapply same_on_weaken; [|exact Hs].
  intros a Ha Ha'. by apply (Hapart a).
Qed.

(** One thread is created and its id is printed. *)
Lemma create_one m v t s run wait done_ live k callable arg format text :
  let n := __tid_counter s in
  kernel_ok m s run wait done_ live -> heap_room m k -> tty m v t ->
  __thread_count s <> 16 -> n < 2147483648 -> REGISTER_ROOM + 16 < k ->
  tty_text format [n] (created text n) ->
  exists m1 s1 ts live' m2 v2,
    kthread_create kmalloc m s callable arg = Some (m1, s1, n) /\ printf m1 v format [n] = Some (m2, v2) /\
    kernel_ok m2 s1 (run ++ [ts]) wait done_ live' /\ heap_room m2 (k - REGISTER_ROOM) /\
    tty m2 v2 (KvideoProps.run (created text n) t) /\
    __tid_counter s1 = n + 1 /\ __thread_count s1 = __thread_count s + 1 /\
    new_task m2 ts n callable arg /\ (forall x, x ∈ all_tasks s run wait done_ -> same_task m m2 x) /\
    (__current_task s <> 0 -> __current_task s1 = __current_task s).
Proof.
  intros n Hk Hroom Ht Hr Htid Hkk Hx.
  destruct (register_kernel m s run wait done_ live k callable arg Hk Hr Htid Hroom Hkk)
    as (m1 & ts & head & live' & E & Hk1 & Hr1 & Hn & Hs & Hold).
  assert (tty m1 v t) as Ht1 by (eapply tty_frame; [exact Ht|]; eapply same_on_weaken; [|exact Hs]; exact Hapart).
  destruct (print_heap m1 v t format _ _ Ht1 Hx) as (m2 & v2 & E2 & Ht2 & Hs2).
  assert (same_on (in_live live') m1 m2) as Hl2.
  { eapply same_on_weaken; [|exact Hs2]. intros a. apply heap_live with (m := m1), Hk1. }
  assert (forall x, x ∈ all_tasks (register_state s ts head) (run ++ [ts]) wait done_ -> same_task m1 m2 x) as Hst.
  { intros x Hin. eapply live_same_task; [|exact Hl2]. by apply (ko_tasks _ _ _ _ _ _ Hk1). }
  exists m1, (register_state s ts head), ts, live', m2, v2.
  split_and!; [done|done|by eapply kernel_ok_frame|by eapply heap_room_same; [apply Hk1|..]|done|done|done| | |].
  - eapply same_task_new; [|done]. apply Hst, all_tasks_run, snoc_in.
  - intros x Hin j Hj. rewrite Hst by (done || unfold all_tasks in *; simpl; set_solver). by apply Hold.
  - intros Hne. change (__current_task (register_state s ts head)) with
      (if __current_task s =? 0 then ts else __current_task s). by rewrite eqb_ne.
Qed.

(** The three threads are registered.  With room for three threads in the thread
    table and in the heap, [stateful_cr_register_routines] returns; it has appended three
    tasks to the run queue in the order of the file, with consecutive ids, their functions
    and arguments, left the lock free, kept the scheduler's and the heap's invariants,
    and printed the three ids. *)
Lemma register_routines_spec thread1 thread2 thread3 m v t s run wait done_ live k lk :
  let n := __tid_counter s in
  kernel_ok m s run wait done_ live -> heap_room m k -> tty m v t ->
  __thread_count s <= 13 -> n < 2147483645 -> 3 * REGISTER_ROOM + 16 < k ->
  Forall (fun text => forall tid, 0 <= tid < 2147483648 ->
    tty_text (line (text ++ chars "%d")) [tid] (created text tid)) created_texts ->
  exists m' v' s' t1 t2 t3 live',
    stateful_cr_register_routines kmalloc printf thread1 thread2 thread3 m v s lk =
      Some (m', v', s', unlocked) /\
    kernel_ok m' s' (run ++ [t1; t2; t3]) wait done_ live' /\
    heap_room m' (k - 3 * REGISTER_ROOM) /\ __tid_counter s' = n + 3 /\
    new_task m' t1 n thread1 0xDEAD /\ new_task m' t2 (n + 1) thread2 0xBEEF /\
    new_task m' t3 (n + 2) thread3 0xF00F /\
    tty m' v' (KvideoProps.run (concat (imap (fun i text => created text (n + Z.of_nat i)) created_texts)) t) /\
    (__current_task s <> 0 -> __current_task s' = __current_task s).
Proof.
  intros n Hk Hr Ht Hc Hn Hkk Hx. pose proof (ko_tid _ _ _ _ _ _ Hk) as H0. fold n in H0.
  apply Forall_cons in Hx as [Hx1 Hx]. apply Forall_cons in Hx as [Hx2 Hx].
  apply Forall_cons in Hx as [Hx3 _]. unfold REGISTER_ROOM, TASK_SIZE, THREAD_STACK_SIZE in Hkk.
  destruct (create_one m v t s run wait done_ live k thread1 0xDEAD
    (10 :: line (chars "    Thread 1 created with tid = %d")) (10 :: chars "    Thread 1 created with tid = "))
    as (m1 & s1 & t1 & l1 & n1 & v1 & E1 & P1 & K1 & R1 & T1 & C1 & D1 & N1 & _ & U1);
    [done|done|done|lia|lia|unfold REGISTER_ROOM, TASK_SIZE, THREAD_STACK_SIZE; lia|apply Hx1; lia|].
  destruct (create_one n1 v1 _ s1 _ _ _ l1 _ thread2 0xBEEF
    (line (chars "    Thread 2 created with tid = %d")) (chars "    Thread 2 created with tid = ") K1 R1 T1)
    as (m2 & s2 & t2 & l2 & n2 & v2 & E2 & P2 & K2 & R2 & T2 & C2 & D2 & N2 & O2 & U2);
    [lia|lia|unfold REGISTER_ROOM, TASK_SIZE, THREAD_STACK_SIZE; lia|apply Hx2; lia|].
  destruct (create_one n2 v2 _ s2 _ _ _ l2 _ thread3 0xF00F
    (line (chars "    Thread 3 created with tid = %d")) (chars "    Thread 3 created with tid = ") K2 R2 T2)
    as (m3 & s3 & t3 & l3 & n3 & v3 & E3 & P3 & K3 & R3 & T3 & C3 & D3 & N3 & O3 & U3);
    [lia|lia|unfold REGISTER_ROOM, TASK_SIZE, THREAD_STACK_SIZE; lia|apply Hx3; lia|].
  fold n in E1, P1, C1, N1, T1.
  exists n3, v3, s3, t1, t2, t3, l3. rewrite <- !app_assoc in K3. split_and!; try done.
  - unfold stateful_cr_register_routines. rewrite E1. cbn [mbind option_bind].
    rewrite eqb_ne, P1 by lia. cbn [mbind option_bind]. rewrite E2. cbn [mbind option_bind].
    rewrite eqb_ne, P2 by lia. cbn [mbind option_bind]. rewrite E3. cbn [mbind option_bind].
    by rewrite eqb_ne, P3 by lia.
  - by replace (k - 3 * REGISTER_ROOM) with (k - REGISTER_ROOM - REGISTER_ROOM - REGISTER_ROOM) by lia.
  - lia.
  - eapply same_task_new; [apply O3, all_tasks_run, elem_of_app; left; apply snoc_in|].
    eapply same_task_new; [apply O2, all_tasks_run, snoc_in|done].
  - rewrite C1 in N2. eapply same_task_new; [apply O3, all_tasks_run, snoc_in|done].
  - by replace (n + 2) with (__tid_counter s2) by lia.
  - rewrite <- !run_app, C2, C1 in T3. cbn [created_texts imap concat]. unfold compose.
    change (Z.of_nat 0) with 0. change (Z.of_nat 1) with 1. change (Z.of_nat 2) with 2.
    rewrite Z.add_0_r, app_nil_r. replace (n + 2) with (n + 1 + 1) by lia. exact T3.
  - intros Hne. pose proof (U1 Hne) as H1. pose proof (U2 ltac:(congruence)) as H2. rewrite U3; congruence.
Qed.
End RegisterProofs.

(** ** A concrete interleaving *)

(** One step: the next call of a thread, or a tick. *)
Definition sys_exec (w : system) (o : option nat) : option system :=
  match o with
  | None => Some (System (lock w) (tick <$> threads w) (output w))
  | Some i =>
      t ← threads w !! i;
      if asleep t =? 0 then
        match todo t with
        | [] => None
        | Printf f ws :: l =>
            Some (System (lock w) (<[i := Thread l 0]> (threads w)) (output w ++ [(i, (f, ws))]))
        | Lock :: l =>
            let '(r, mutex) := __sync_bool_cmpxchg (lock w) 1 0 in
            Some (System mutex (<[i := Thread (if c_true r then l else Lock :: l) 0]> (threads w)) (output w))
        | Unlock :: l =>
            Some (System (kthread_mutex_unlock (lock w)) (<[i := Thread l 0]> (threads w)) (output w))
        | Msleep ms :: l =>
            Some (System (lock w) (<[i := Thread l (msleep_ticks ms)]> (threads w)) (output w))
        end
      else None
  end.

Lemma sys_exec_step w o w' : sys_exec w o = Some w' -> sys_step w w'.
Proof.
  destruct o as [i|]; cbn [sys_exec]; [|intros [= <-]; apply sys_tick].
  destruct (threads w !! i) as [[l n]|] eqn:Ht; [|done]. cbn [mbind option_bind todo asleep].
  destruct (Z.eqb_spec n 0) as [->|]; [|done]. destruct l as [|[f ws| | |ms] l]; [done|..].
  - intros [= <-]. by apply sys_print.
  - destruct (__sync_bool_cmpxchg (lock w) 1 0) as [r mutex] eqn:Ex. intros [= <-]. by apply sys_lock.
  - intros [= <-]. by apply sys_unlock.
  - intros [= <-]. by apply sys_sleep.
Qed.

Fixpoint sys_run (w : system) (os : list (option nat)) : option system :=
  match os with
  | [] => Some w
  | o :: os => w ← sys_exec w o; sys_run w os
  end.

Lemma sys_run_reachable w os w' : sys_run w os = Some w' -> sys_reachable w w'.
Proof.
  revert w. induction os as [|o os IH]; intros w E; cbn [sys_run] in E.
  - injection E as <-. apply sys_refl.
  - destruct (sys_exec w o) as [w1|] eqn:E1; [|done]. eapply sys_trans; [|by apply IH].
    eapply sys_next; [apply sys_refl|by eapply sys_exec_step].
Qed.

(** Threads 1 and 0 greet, 0 takes the lock, 1 spins, 0 sleeps, and so on; the
    schedule is the list of the steps. *)
Definition stateful_schedule : list (option nat) :=
  [Some 1; Some 0; Some 0; Some 1; Some 2; Some 0]%nat ++ replicate 125 None ++ [Some 0; Some 0; Some 1]%nat.

Definition stateful_start_ex : system := start stateful_progs.

Definition stateful_mid : system := default stateful_start_ex (sys_run stateful_start_ex stateful_schedule).

Lemma rows_exclusive_witness :
  stateful_system 5 = Some stateful_start_ex /\ sys_reachable stateful_start_ex stateful_mid /\
  exists order, NoDup order /\ order ⊆ [0; 1; 2]%nat /\
    filter under_lock (output stateful_mid) `prefix_of` concat (stateful_rows <$> order) /\
    filter under_lock (output stateful_mid) =
      [(0%nat, (chars " <1>:%d ", [0])); (0%nat, (chars " <1>:%d ", [1]))].
Proof.
  assert (sys_reachable stateful_start_ex stateful_mid) as Hr
    by (apply (sys_run_reachable _ stateful_schedule); by vm_compute).
  split; [by apply stateful_start|]. split; [exact Hr|].
  destruct (rows_exclusive 5 stateful_start_ex stateful_mid) as (order & H1 & H2 & H3 & _);
    [lia|by apply stateful_start|exact Hr|].
  exists order. split_and!; [exact H1|exact H2|exact H3|by vm_compute].
Defined.

Lemma threads_can_finish_witness :
  exists w', sys_reachable stateful_mid w' /\ finished w'.
Proof.
  apply (threads_can_finish 5 stateful_start_ex stateful_mid); [lia|by apply stateful_start|].
  apply (sys_run_reachable _ stateful_schedule). by vm_compute.
Defined.
