(* ===== verification/Kernel.v ===== *)
(** * Kernel: the boot sequence of src/kernel.c

    [kmain] checks the multiboot information, sets up the interrupts, the heap and
    the scheduler, registers the thread [init] and spins with interrupts enabled.
    [init] registers the demonstration threads, sleeps, and prints a banner.  This
    file translates the code; KernelProps.v states what it does. *)

From Stdlib Require Import Strings.String.
From S2P Require Import Prelude Memory Portio Klib Mutex Kmalloc Context SchedQueue Sched Kvideo.
From S2P Require Import Interrupt StatefulCr.

(** ** Multiboot information *)

Definition MULTIBOOT_BOOTLOADER_MAGIC : Z := 0x2BADB002.

(** [((flags) & (1 << (bit)))] *)
Definition CHECK_FLAG (flags bit : Z) : Z := Z.land flags (Z.shiftl 1 bit).

(** [multiboot_info_t]; the union [u] is at 28. *)
Definition mbi_flags (m : mem) (mbi : Z) : Z := load32 m mbi.
Definition mbi_mem_lower (m : mem) (mbi : Z) : Z := load32 m (mbi + 4).
Definition mbi_mem_upper (m : mem) (mbi : Z) : Z := load32 m (mbi + 8).
Definition mbi_boot_device (m : mem) (mbi : Z) : Z := load32 m (mbi + 12).
Definition mbi_cmdline (m : mem) (mbi : Z) : Z := load32 m (mbi + 16).
Definition mbi_mods_count (m : mem) (mbi : Z) : Z := load32 m (mbi + 20).
Definition mbi_mods_addr (m : mem) (mbi : Z) : Z := load32 m (mbi + 24).
Definition mbi_aout_sym (mbi : Z) : Z := mbi + 28.
Definition mbi_elf_sec (mbi : Z) : Z := mbi + 28.

(** [multiboot_aout_symbol_table_t] and [multiboot_elf_section_header_table_t] *)
Definition aout_tabsize (m : mem) (p : Z) : Z := load32 m p.
Definition aout_strsize (m : mem) (p : Z) : Z := load32 m (p + 4).
Definition aout_addr (m : mem) (p : Z) : Z := load32 m (p + 8).
Definition elf_num (m : mem) (p : Z) : Z := load32 m p.
Definition elf_size (m : mem) (p : Z) : Z := load32 m (p + 4).
Definition elf_addr (m : mem) (p : Z) : Z := load32 m (p + 8).
Definition elf_shndx (m : mem) (p : Z) : Z := load32 m (p + 12).

(** [multiboot_module_t] *)
Definition MODULE_SIZE : Z := 16.
Definition mod_start (m : mem) (p : Z) : Z := load32 m p.
Definition mod_end (m : mem) (p : Z) : Z := load32 m (p + 4).
Definition mod_cmdline (m : mem) (p : Z) : Z := load32 m (p + 8).

(** The formats of the report. *)
Definition fmt_flags : list Z := line (chars "flags = 0x%x").
Definition fmt_mem : list Z := line (chars "Total System Memory: Lower = %uKB, Upper = %uKB").
Definition fmt_boot_device : list Z := line (chars "boot_device = 0x%x").
Definition fmt_cmdline : list Z := line (chars "cmdline = %s").
Definition fmt_mods : list Z := line (chars "mods_count = %d, mods_addr = 0x%x").
Definition fmt_mod : list Z := line (chars " mod_start = 0x%x, mod_end = 0x%x, cmdline = %s").
Definition fmt_both : list Z := line (chars "Both bits 4 and 5 are set.").
Definition fmt_aout : list Z :=
  line (chars "multiboot_aout_symbol_table: tabsize = 0x%0x, strsize = 0x%x, addr = 0x%x").
Definition fmt_elf : list Z :=
  line (chars "multiboot_elf_sec: num = %u, size = 0x%x, addr = 0x%x, shndx = 0x%x").
Definition fmt_mmap : list Z := line (chars "mmap_addr = 0x%x, mmap_length = 0x%x").
Definition fmt_entry : list Z :=
  line (chars " size = 0x%x, base = 0x%x%08x, length = 0x%x%08x, type = 0x%x").

Definition fmt_magic : list Z := line (chars "Invalid magic number: 0x%x").

(** The words of one entry of the memory map. *)
Definition entry_words (m : mem) (e : Z) : list Z :=
  [mmap_size m e; u32 (Z.shiftr (mmap_addr m e) 32); u32 (Z.land (mmap_addr m e) 0xffffffff);
   u32 (Z.shiftr (mmap_len m e) 32); u32 (Z.land (mmap_len m e) 0xffffffff); mmap_type m e].

Definition banner_char (c : Z) : Z :=
  if c =? 45 then 220 (* \334 *) else if c =? 35 then 219 (* \333 *)
  else if c =? 94 then 223 (* \337 *) else c.

(** The rows of the banner: ['-'], ['#'] and ['^'] stand for the block characters
    \334, \333 and \337. *)
Definition banner (row : string) : list Z := banner_char <$> chars row.

Definition banner_formats : list (list Z) :=
  [FG_COLOR_BLACK;
   BG_COLOR_WHITE ++ line (banner "                                                                               ");
   BG_COLOR_DARK_RED ++ line (banner "    ----###----   -#########^  ----###----   -#########^ -######-    -#######  ");
   BG_COLOR_LIGHT_RED ++ line (banner "  -##^^^###^^^##- ###    ### -##^^^###^^^##- ###    ### ###    ###  ###   ###  ");
   BG_COLOR_DARK_GREEN ++ line (banner "  ###   ###   ### ###    #^  ###   ###   ### ###    #^  ###    ###  ###    #^  ");
   BG_COLOR_LIGHT_GREEN ++ line (banner "  ###   ###   ###-###---     ###   ###   ###-###---     ###    ###  ###        ");
   BG_COLOR_YELLOW ++ line (banner "  ###   ###   ###^###^^^     ###   ###   ###^###^^^     ###    ### ##########  ");
   BG_COLOR_DARK_CYAN ++ line (banner "  ###   ###   ### ###    #-  ###   ###   ### ###    #-  ###    ###         ##  ");
   BG_COLOR_LIGHT_BLUE ++ line (banner "  ###   ###   ### ###    ### ###   ###   ### ###    ### ###    ###   -#    ##  ");
   BG_COLOR_DARK_BLUE ++ line (banner "   ^#   ###   #^  ##########  ^#   ###   #^  ##########  ^######^  -########^  ");
   BG_COLOR_WHITE ++ line (banner "                                                                               ");
   COLOR_RESET].

(** How [kmain] ends: in a [return], or in [noploop]. *)
Inductive kmain_end := Returned | Noploop.

(** The machine: memory, console, allocator, scheduler, port accesses, the loaded
    descriptor table and the interrupt flag. *)
Record machine := Machine {
  k_mem : mem;
  k_video : video_state;
  k_kmalloc : kmalloc_state;
  k_sched : sched_state;
  k_ports : trace;
  k_idtr : Z * Z;
  k_if : bool
}.

Section Kernel.
Context (printf : mem -> video_state -> list Z -> list Z -> option (mem * video_state)).
Context (cls : mem -> video_state -> mem * video_state).
(** [fuel] bounds the loops; [dev]: the devices; addresses of static variables and code. *)
Context (fuel : nat) (dev : device) (IDT idtr : Z) (isr : isr_name -> Z).
Context (do_idle init_addr thread1 thread2 thread3 : Z).

(** ** The report *)

(** [for (i = 0, mod = ...; i < mbi->mods_count; i++, mod++)] *)
Fixpoint mods_loop (n : nat) (m : mem) (v : video_state) (mbi i mod_ : Z) : option (mem * video_state) :=
  match n with
  | O => None
  | S k =>
      if u32 i <? mbi_mods_count m mbi then
        '(m, v) ← printf m v fmt_mod [mod_start m mod_; mod_end m mod_; mod_cmdline m mod_];
        mods_loop k m v mbi (s32 (i + 1)) (u32 (mod_ + MODULE_SIZE))
      else Some (m, v)
  end.

(** [for (mmap = ...; mmap < mbi->mmap_addr + mbi->mmap_length; mmap += mmap->size + 4)] *)
Fixpoint entries_loop (n : nat) (m : mem) (v : video_state) (mbi mmap : Z) : option (mem * video_state) :=
  match n with
  | O => None
  | S k =>
      if mmap <? u32 (mbi_mmap_addr m mbi + mbi_mmap_length m mbi) then
        '(m, v) ← printf m v fmt_entry (entry_words m mmap);
        entries_loop k m v mbi (u32 (mmap + mmap_size m mmap + 4))
      else Some (m, v)
  end.

Definition multiboot_flagscheck (m : mem) (v : video_state) (mbi : Z) : option (mem * video_state) :=
  '(m, v) ← printf m v fmt_flags [mbi_flags m mbi];
  '(m, v) ← (if c_true (CHECK_FLAG (mbi_flags m mbi) 0)
             then printf m v fmt_mem [mbi_mem_lower m mbi; mbi_mem_upper m mbi] else Some (m, v));
  '(m, v) ← (if c_true (CHECK_FLAG (mbi_flags m mbi) 1)
             then printf m v fmt_boot_device [mbi_boot_device m mbi] else Some (m, v));
  '(m, v) ← (if c_true (CHECK_FLAG (mbi_flags m mbi) 2)
             then printf m v fmt_cmdline [mbi_cmdline m mbi] else Some (m, v));
  '(m, v) ← (if c_true (CHECK_FLAG (mbi_flags m mbi) 3)
             then
               '(m, v) ← printf m v fmt_mods [mbi_mods_count m mbi; mbi_mods_addr m mbi];
               mods_loop fuel m v mbi 0 (mbi_mods_addr m mbi)
             else Some (m, v));
  if c_true (CHECK_FLAG (mbi_flags m mbi) 4) && c_true (CHECK_FLAG (mbi_flags m mbi) 5) then
    printf m v fmt_both []
  else
    '(m, v) ← (if c_true (CHECK_FLAG (mbi_flags m mbi) 4)
               then let p := mbi_aout_sym mbi in
                    printf m v fmt_aout [aout_tabsize m p; aout_strsize m p; aout_addr m p]
               else Some (m, v));
    '(m, v) ← (if c_true (CHECK_FLAG (mbi_flags m mbi) 5)
               then let p := mbi_elf_sec mbi in
                    printf m v fmt_elf [elf_num m p; elf_size m p; elf_addr m p; elf_shndx m p]
               else Some (m, v));
    if c_true (CHECK_FLAG (mbi_flags m mbi) 6) then
      '(m, v) ← printf m v fmt_mmap [mbi_mmap_addr m mbi; mbi_mmap_length m mbi];
      entries_loop fuel m v mbi (mbi_mmap_addr m mbi)
    else Some (m, v).

(** ** Boot *)

(** [kmain]'s initialisation of the processor's table, the timer and the interrupt
    controllers. *)
Definition kmain_devices (m : mem) (v : video_state) (ports : trace) :
  option (mem * video_state * trace * (Z * Z)) :=
  '(m, v) ← printf m v (chars "IDT setup ... ") [];
  let '(m, idt) := init_idt IDT idtr isr m in
  '(m, v) ← printf m v (line (chars "done.")) [];
  '(m, v) ← printf m v (chars "PIT init ... ") [];
  let ports := init_pit ports in
  '(m, v) ← printf m v (line (chars "done.")) [];
  '(m, v) ← printf m v (chars "PIC init ... ") [];
  let ports := init_pic dev ports in
  '(m, v) ← printf m v (line (chars "done.")) [];
  Some (m, v, ports, idt).

(** [kmain]'s initialisation of the heap and the scheduler, and its one thread. *)
Definition kmain_threads (m : mem) (v : video_state) (s : sched_state) (mbi : Z) :
  option (mem * video_state * kmalloc_state * sched_state) :=
  '(m, v) ← printf m v (chars "kernel malloc init ... ") [];
  '(m, ks) ← init_kmalloc fuel m mbi;
  '(m, v) ← printf m v (line (chars "done.")) [];
  '(m, v) ← printf m v (chars "sched init ... ") [];
  '(m, s) ← init_sched (fun m n => kmalloc fuel m ks n) do_idle m s;
  '(m, v) ← printf m v (line (chars "done.")) [];
  '(m, s, _) ← sched_register_thread (fun m n => kmalloc fuel m ks n) m s init_addr 0;
  Some (m, v, ks, s).

Definition kmain (k : machine) (magic addr : Z) : option (machine * kmain_end) :=
  let '(Machine m v ks s ports idt if_) := k in
  let '(m, v) := cls m v in
  if negb (magic =? MULTIBOOT_BOOTLOADER_MAGIC) then
    '(m, v) ← printf m v fmt_magic [magic];
    Some (Machine m v ks s ports idt if_, Returned)
  else
    let mbi := addr in
    '(m, v) ← multiboot_flagscheck m v mbi;
    let '(m, v) := cls m v in
    '(m, v) ← printf m v (COLOR_RESET ++ line (chars "Multiboot flags check done.")) [];
    '(m, v, ports, idt) ← kmain_devices m v ports;
    '(m, v, ks, s) ← kmain_threads m v s mbi;
    let if_ := true in
    Some (Machine m v ks s ports idt if_, Noploop).

(** ** The first thread *)

(** [print_banner]: one call of [printf] per format. *)
Fixpoint print_formats (m : mem) (v : video_state) (fs : list (list Z)) : option (mem * video_state) :=
  match fs with
  | [] => Some (m, v)
  | f :: fs => '(m, v) ← printf m v f []; print_formats m v fs
  end.

Definition print_banner (m : mem) (v : video_state) : option (mem * video_state) :=
  print_formats m v banner_formats.

(** [init] up to the wait loop of [msleep(9000)]. *)
Definition init_begin (m : mem) (v : video_state) (ks : kmalloc_state) (s : sched_state)
  (lock : kthread_mutex_t) : option (mem * video_state * sched_state * kthread_mutex_t) :=
  let '(m, v) := cls m v in
  '(m, v) ← printf m v (chars "registering stateful coroutines ... ") [];
  '(m, v, s, lock) ←
    stateful_cr_register_routines (fun m n => kmalloc fuel m ks n) printf thread1 thread2 thread3 m v s lock;
  '(m, v) ← printf m v (line (chars "done.")) [];
  '(m, v) ← printf m v (line (chars "starting preemptive scheduler ...")) [];
  '(m, s) ← msleep_begin fuel m s 9000;
  Some (m, v, s, lock).

(** [init] from its waking up to its return value. *)
Definition init_end (m : mem) (v : video_state) (s : sched_state) : option (mem * video_state * Z) :=
  let m := sleep_end m s in
  let '(m, v) := cls m v in
  '(m, v) ← printf m v (replicate 7 10) [];
  '(m, v) ← print_banner m v;
  Some (m, v, 0).
End Kernel.
