(* ===== verification/KernelProps.v ===== *)
(** * KernelProps: what the boot sequence does

    The report of the multiboot information is the list of its lines; [kmain] with
    a valid magic number reaches its last loop with the scheduler, the heap, the
    descriptor table and the devices set up, without one it says so and returns. *)

From Stdlib Require Import Strings.String.
From S2P Require Import Prelude Memory Portio Klib Mutex Kmalloc KmallocStore KmallocProps Heap Context.
From S2P Require Import SchedQueue Sched SchedProps SchedInv SchedExample SchedOps SchedHeap.
From S2P Require Import Kvideo KvideoProps Console Interrupt StatefulCr Kernel.

(** ** Sequences of printed lines *)

Section Lines.
Context {printf : mem -> video_state -> list Z -> list Z -> option (mem * video_state)}.
Context {clear : mem -> video_state -> mem * video_state} `{!Console printf clear}.

(** A format and its words print some text. *)
Definition printable (l : list Z * list Z) (os : list out) : Prop := tty_text l.1 l.2 os.

(** The computation prints the lines, whatever text they stand for. *)
Definition prints_lines (r : option (mem * video_state)) (m : mem) (t : mem * video_state)
  (ls : list (list Z * list Z)) : Prop :=
  forall oss, Forall2 printable ls oss ->
  exists m' v', r = Some (m', v') /\ says m t (concat oss) m' v'.

Lemma lines_nil m v t : tty m v t -> prints_lines (Some (m, v)) m t [].
Proof. intros Ht oss ->%Forall2_nil_inv_l. exists m, v. split; [done|by apply says_nothing]. Qed.

Lemma lines_one m v t f ws : tty m v t -> prints_lines (printf m v f ws) m t [(f, ws)].
Proof.
  intros Ht oss (os & ? & Hos & ->%Forall2_nil_inv_l & ->)%Forall2_cons_inv_l.
  destruct (print_says m v t f ws os Ht Hos) as (m' & v' & E & H). exists m', v'.
  split; [done|]. simpl. by rewrite app_nil_r.
Qed.

Lemma lines_bind r (f : mem * video_state -> option (mem * video_state)) m t ls1 ls2 :
  prints_lines r m t ls1 ->
  (forall m' v' os, says m t os m' v' -> prints_lines (f (m', v')) m' (run os t) ls2) ->
  prints_lines (r ≫= f) m t (ls1 ++ ls2).
Proof.
  intros H1 H2 oss (oss1 & oss2 & Ho1 & Ho2 & ->)%Forall2_app_inv_l.
  destruct (H1 oss1 Ho1) as (m1 & v1 & -> & Y1). destruct (H2 m1 v1 _ Y1 oss2 Ho2) as (m2 & v2 & E & Y2).
  exists m2, v2. split; [done|]. rewrite concat_app. by eapply says_trans.
Qed.

Lemma lines_if (b : bool) r m v t ls :
  tty m v t -> (b = true -> prints_lines r m t ls) ->
  prints_lines (if b then r else Some (m, v)) m t (if b then ls else []).
Proof. intros Ht H. destruct b; [by apply H|by apply lines_nil]. Qed.
End Lines.

(** ** The report *)

Section Report.
Context {printf : mem -> video_state -> list Z -> list Z -> option (mem * video_state)}.
Context {clear : mem -> video_state -> mem * video_state} `{!Console printf clear}.
(** The memory at the call; the address of the information; the entries of the map. *)
Context (m0 : mem) (mbi : Z) (es : list mmap_entry).

(** Where the entries of the map are. *)
Fixpoint entry_addrs (es : list mmap_entry) (a : Z) : list Z :=
  match es with [] => [] | e :: es => a :: entry_addrs es (a + e_size e + 4) end.

Definition flag (bit : Z) : bool := c_true (CHECK_FLAG (mbi_flags m0 mbi) bit).

Definition mod_line (m : mem) (p : Z) : list Z * list Z :=
  (fmt_mod, [mod_start m p; mod_end m p; mod_cmdline m p]).

Definition mod_lines : list (list Z * list Z) :=
  (fun i => mod_line m0 (mbi_mods_addr m0 mbi + MODULE_SIZE * i)) <$> seqZ 0 (mbi_mods_count m0 mbi).

Definition entry_lines : list (list Z * list Z) :=
  (fun e => (fmt_entry, entry_words m0 e)) <$> entry_addrs es (mbi_mmap_addr m0 mbi).

(** The report, line by line; nothing follows the complaint about bits 4 and 5. *)
Definition flag_lines : list (list Z * list Z) :=
  [(fmt_flags, [mbi_flags m0 mbi])] ++
  (if flag 0 then [(fmt_mem, [mbi_mem_lower m0 mbi; mbi_mem_upper m0 mbi])] else []) ++
  (if flag 1 then [(fmt_boot_device, [mbi_boot_device m0 mbi])] else []) ++
  (if flag 2 then [(fmt_cmdline, [mbi_cmdline m0 mbi])] else []) ++
  (if flag 3 then (fmt_mods, [mbi_mods_count m0 mbi; mbi_mods_addr m0 mbi]) :: mod_lines else []) ++
  (if flag 4 && flag 5 then [(fmt_both, [])]
   else
     (if flag 4
      then let p := mbi_aout_sym mbi in [(fmt_aout, [aout_tabsize m0 p; aout_strsize m0 p; aout_addr m0 p])]
      else []) ++
     (if flag 5
      then let p := mbi_elf_sec mbi in
           [(fmt_elf, [elf_num m0 p; elf_size m0 p; elf_addr m0 p; elf_shndx m0 p])]
      else []) ++
     (if flag 6 then (fmt_mmap, [mbi_mmap_addr m0 mbi; mbi_mmap_length m0 mbi]) :: entry_lines else [])).

(** The bytes that the report reads. *)
Definition info_area (a : Z) : Prop :=
  mbi <= a < mbi + 52 \/
  mbi_mods_addr m0 mbi <= a < mbi_mods_addr m0 mbi + MODULE_SIZE * mbi_mods_count m0 mbi \/
  (exists e, e ∈ entry_addrs es (mbi_mmap_addr m0 mbi) /\ e <= a < e + 24).

(** What a boot loader documents: the modules and the map end below 4 GB. *)
Record info_ok : Prop := {
  io_quiet a : info_area a -> ~ tty_area a;
  io_mods : mbi_mods_addr m0 mbi + MODULE_SIZE * mbi_mods_count m0 mbi < 4294967296;
  io_count : mbi_mods_count m0 mbi < 2147483648;
  io_map : mmap_at m0 (mbi_mmap_addr m0 mbi) (mbi_mmap_addr m0 mbi + mbi_mmap_length m0 mbi) es;
  io_entries : Forall entry_ok es;
  io_end : mbi_mmap_addr m0 mbi + mbi_mmap_length m0 mbi < 4294967296
}.

Definition agree (m : mem) : Prop := same_on info_area m0 m.

Lemma agree_says m t os m' v' : info_ok -> agree m -> says m t os m' v' -> agree m'.
Proof.
  intros Hi Ha [_ Hs] a Hin. rewrite Hs by by apply (io_quiet Hi). by apply Ha.
Qed.

Lemma agree_mbi m i : agree m -> 0 <= i <= 48 -> load32 m (mbi + i) = load32 m0 (mbi + i).
Proof. intros Ha Hi. apply (same_on_load32 _ _ _ _ Ha). intros j Hj. left. lia. Qed.

Lemma agree_mbi0 m : agree m -> load32 m mbi = load32 m0 mbi.
Proof. intros Ha. rewrite <- (Z.add_0_r mbi). by apply agree_mbi. Qed.

Lemma agree_mod m i j :
  agree m -> 0 <= i < mbi_mods_count m0 mbi -> 0 <= j <= 12 ->
  load32 m (mbi_mods_addr m0 mbi + MODULE_SIZE * i + j) = load32 m0 (mbi_mods_addr m0 mbi + MODULE_SIZE * i + j).
Proof.
  intros Ha Hi Hj. apply (same_on_load32 _ _ _ _ Ha). intros k Hk. right. left. unfold MODULE_SIZE. lia.
Qed.

Lemma agree_entry m e j :
  agree m -> e ∈ entry_addrs es (mbi_mmap_addr m0 mbi) -> 0 <= j <= 20 ->
  load32 m (e + j) = load32 m0 (e + j).
Proof.
  intros Ha He Hj. apply (same_on_load32 _ _ _ _ Ha). intros k Hk. right. right. exists e.
  split; [done|lia].
Qed.

Lemma agree_entry_words m e :
  agree m -> e ∈ entry_addrs es (mbi_mmap_addr m0 mbi) ->
  entry_words m e = entry_words m0 e /\ mmap_size m e = mmap_size m0 e.
Proof.
  intros Ha He. assert (load32 m e = load32 m0 e) as E0
    by (rewrite <- (Z.add_0_r e); by apply agree_entry).
  unfold entry_words, mmap_size, mmap_addr, mmap_len, mmap_type.
  by rewrite E0, !(agree_entry m e) by (done || lia).
Qed.
Lemma mods_loop_lines n m v t i :
  info_ok -> agree m -> tty m v t -> 0 <= i <= mbi_mods_count m0 mbi ->
  (Z.to_nat (mbi_mods_count m0 mbi - i) < n)%nat ->
  prints_lines (mods_loop printf n m v mbi i (mbi_mods_addr m0 mbi + MODULE_SIZE * i)) m t
    ((fun i => mod_line m0 (mbi_mods_addr m0 mbi + MODULE_SIZE * i)) <$> seqZ i (mbi_mods_count m0 mbi - i)).
Proof.
  intros Hok. pose proof (io_mods Hok) as Hm. pose proof (io_count Hok) as Hc. unfold MODULE_SIZE in Hm.
  revert m v t i. induction n as [|n IH]; intros m v t i Ha Ht Hi Hn; [lia|]. cbn [mods_loop].
  unfold mbi_mods_count at 1. rewrite agree_mbi by (done || lia). fold (mbi_mods_count m0 mbi).
  rewrite (u32_small i) by lia. case_Z.
  - rewrite (seqZ_cons i (mbi_mods_count m0 mbi - i)) by lia. rewrite fmap_cons.
    replace (Z.pred (mbi_mods_count m0 mbi - i)) with (mbi_mods_count m0 mbi - (i + 1)) by lia.
    apply (lines_bind _ _ m t [_]).
    + assert (load32 m (mbi_mods_addr m0 mbi + MODULE_SIZE * i) =
        load32 m0 (mbi_mods_addr m0 mbi + MODULE_SIZE * i)) as E0
        by (rewrite <- (Z.add_0_r (_ + _)); apply agree_mod; done || lia).
      unfold mod_line, mod_start, mod_end, mod_cmdline. rewrite E0, !(agree_mod m i) by (done || lia).
      by apply lines_one.
    + intros m' v' os Hs. rewrite s32_small by lia.
      assert (0 <= mbi_mods_addr m0 mbi) by (apply load32_range).
      rewrite u32_small by (unfold MODULE_SIZE; lia).
      replace (mbi_mods_addr m0 mbi + MODULE_SIZE * i + MODULE_SIZE)
        with (mbi_mods_addr m0 mbi + MODULE_SIZE * (i + 1)) by lia.
      apply IH; [by eapply agree_says|apply Hs|lia|lia].
  - rewrite seqZ_nil by lia. by apply lines_nil.
Qed.

Lemma entries_loop_lines n m v t l a :
  info_ok -> agree m -> tty m v t -> Forall entry_ok l -> 0 <= a ->
  mmap_at m0 a (mbi_mmap_addr m0 mbi + mbi_mmap_length m0 mbi) l ->
  entry_addrs l a ⊆ entry_addrs es (mbi_mmap_addr m0 mbi) -> (length l < n)%nat ->
  prints_lines (entries_loop printf n m v mbi a) m t
    ((fun e => (fmt_entry, entry_words m0 e)) <$> entry_addrs l a).
Proof.
  intros Hok. revert n m v t a. induction l as [|e l IH]; intros n m v t a Ha Ht Hl H0 Hmap Hsub Hn;
    (destruct n as [|n]; cbn [length] in Hn; [lia|]); cbn [entries_loop];
    unfold mbi_mmap_addr at 1, mbi_mmap_length at 1; rewrite !(agree_mbi m) by (done || lia);
    fold (mbi_mmap_addr m0 mbi) (mbi_mmap_length m0 mbi);
    pose proof (load32_range m0 (mbi + 48)) as R1; pose proof (load32_range m0 (mbi + 44)) as R2;
    pose proof (io_end Hok) as Hend; unfold mbi_mmap_addr, mbi_mmap_length in Hend;
    rewrite u32_small by (unfold mbi_mmap_addr, mbi_mmap_length; lia).
  - simpl in Hmap. rewrite <- Hmap, Z.ltb_irrefl. by apply lines_nil.
  - apply Forall_cons in Hl as [(_ & _ & He) Hl]. destruct Hmap as (E1 & _ & _ & _ & Hmap).
    pose proof (mmap_at_le _ _ _ _ Hl Hmap) as Hle. unfold mbi_mmap_addr, mbi_mmap_length in Hle.
    rewrite ltb_lt by (unfold mbi_mmap_addr, mbi_mmap_length; lia). cbn [entry_addrs]. rewrite fmap_cons.
    assert (a ∈ entry_addrs es (mbi_mmap_addr m0 mbi)) as Hin by (apply Hsub; by left).
    apply (lines_bind _ _ m t [_]).
    + destruct (agree_entry_words m a Ha Hin) as [-> _]. by apply lines_one.
    + intros m' v' os Hs. pose proof (agree_says m t os m' v' Hok Ha Hs) as Ha'.
      destruct (agree_entry_words m' a Ha' Hin) as [_ ->]. rewrite E1, u32_small by lia.
      apply IH; [done|apply Hs|done|lia|done| |lia]. intros x Hx. apply Hsub. by right.
Qed.

Lemma agree_flag m bit : agree m -> c_true (CHECK_FLAG (mbi_flags m mbi) bit) = flag bit.
Proof. intros Ha. unfold flag, mbi_flags. by rewrite agree_mbi0. Qed.

(** An optional part: its words are those of [m0]. *)
Lemma part_lines (b : bool) bit r m v t ls (f : mem * video_state -> option (mem * video_state)) ls2 :
  info_ok -> agree m -> tty m v t -> b = flag bit ->
  (agree m -> tty m v t -> prints_lines r m t ls) ->
  (forall m' v' os, agree m' -> tty m' v' (run os t) -> prints_lines (f (m', v')) m' (run os t) ls2) ->
  prints_lines ((if b then r else Some (m, v)) ≫= f) m t
    ((if flag bit then ls else []) ++ ls2).
Proof.
  intros Hok Ha Ht -> H1 H2. apply lines_bind.
  - apply lines_if; [done|]. intros _. by apply H1.
  - intros m' v' os Hs. apply H2; [by eapply agree_says|apply Hs].
Qed.

Ltac mbi_words m :=
  unfold mbi_mem_lower, mbi_mem_upper, mbi_boot_device, mbi_cmdline, mbi_mods_count, mbi_mods_addr,
    mbi_mmap_addr, mbi_mmap_length, mbi_aout_sym, mbi_elf_sec, aout_tabsize, aout_strsize, aout_addr,
    elf_num, elf_size, elf_addr, elf_shndx; rewrite <- ?Z.add_assoc;
  rewrite ?(agree_mbi m) by (done || lia); by apply lines_one.

(** The whole report. *)
Lemma flagscheck_lines fuel m v t :
  info_ok -> agree m -> tty m v t -> (Z.to_nat (mbi_mods_count m0 mbi) < fuel)%nat -> (length es < fuel)%nat ->
  prints_lines (multiboot_flagscheck printf fuel m v mbi) m t flag_lines.
Proof.
  intros Hok Ha Ht Hf1 Hf2. unfold multiboot_flagscheck, flag_lines.
  unfold mbi_flags at 1. rewrite agree_mbi0 by done. fold (mbi_flags m0 mbi).
  apply lines_bind; [by apply lines_one|]. intros m1 v1 os1 Y1.
  apply part_lines; [done|by eapply agree_says|apply Y1|apply agree_flag; by eapply agree_says|intros A1 T1; mbi_words m1|].
  clear m1 v1 Y1. intros m1 v1 os2 A1 T1.
  apply part_lines; [done..|by apply agree_flag|intros _ _; mbi_words m1|]. clear m1 v1 A1 T1. intros m1 v1 os3 A1 T1.
  apply part_lines; [done..|by apply agree_flag|intros _ _; mbi_words m1|]. clear m1 v1 A1 T1. intros m1 v1 os4 A1 T1.
  apply part_lines; [done..|by apply agree_flag| |].
  { intros _ _. apply (lines_bind _ _ m1 _ [_]); [mbi_words m1|]. intros m2 v2 os5 Y2.
    pose proof (agree_says _ _ _ _ _ Hok A1 Y2) as A2. unfold mbi_mods_addr at 1.
    rewrite agree_mbi by (done || lia). fold (mbi_mods_addr m0 mbi).
    replace (mbi_mods_addr m0 mbi) with (mbi_mods_addr m0 mbi + MODULE_SIZE * 0) at 1 by lia.
    unfold mod_lines. rewrite <- (Z.sub_0_r (mbi_mods_count m0 mbi)).
    assert (0 <= mbi_mods_count m0 mbi) by (apply load32_range).
    apply mods_loop_lines; [done|done|apply Y2|lia|rewrite Z.sub_0_r; lia]. }
  clear m1 v1 A1 T1. intros m1 v1 os6 A1 T1. rewrite !(agree_flag m1) by done. destruct (flag 4 && flag 5); [by apply lines_one|].
  apply part_lines; [done..|intros _ _; mbi_words m1|]. clear m1 v1 A1 T1. intros m1 v1 os7 A1 T1.
  apply part_lines; [done..|by apply agree_flag|intros _ _; mbi_words m1|]. clear m1 v1 A1 T1. intros m1 v1 os8 A1 T1.
  rewrite (agree_flag m1) by done.
  apply lines_if; [done|]. intros _. apply (lines_bind _ _ m1 _ [_]); [mbi_words m1|]. intros m2 v2 os9 Y2.
  pose proof (agree_says _ _ _ _ _ Hok A1 Y2) as A2. unfold mbi_mmap_addr at 1.
  rewrite agree_mbi by (done || lia). fold (mbi_mmap_addr m0 mbi).
  apply entries_loop_lines; [done|done|apply Y2|apply (io_entries Hok)|apply load32_range|apply (io_map Hok)|done|done].
Qed.
End Report.


(** ** Boot *)

(** The entries of the map are the same in two memories that agree on them. *)
Lemma mmap_at_agree m m' es a stop :
  (forall e j, e ∈ entry_addrs es a -> 0 <= j <= 20 -> load32 m' (e + j) = load32 m (e + j)) ->
  mmap_at m a stop es -> mmap_at m' a stop es.
Proof.
  revert a. induction es as [|e es IH]; intros a Hs H; [done|]. destruct H as (E1 & E2 & E3 & E4 & H).
  assert (load32 m' a = load32 m a) as E0 by (rewrite <- (Z.add_0_r a); apply Hs; [by left|lia]).
  unfold mmap_size, mmap_addr, mmap_len, mmap_type in *. cbn [mmap_at].
  unfold mmap_size, mmap_addr, mmap_len, mmap_type. rewrite E0, !(Hs a) by (by left || lia).
  split_and!; [done..|]. apply IH; [|done]. intros x j Hx. apply Hs. by right.
Qed.

(** The messages of [kmain], in order. *)
Definition device_formats : list (list Z) :=
  [chars "IDT setup ... "; line (chars "done."); chars "PIT init ... "; line (chars "done.");
   chars "PIC init ... "; line (chars "done.")].
Definition thread_formats : list (list Z) :=
  [chars "kernel malloc init ... "; line (chars "done."); chars "sched init ... "; line (chars "done.")].
Definition boot_formats : list (list Z) :=
  (COLOR_RESET ++ line (chars "Multiboot flags check done.")) :: device_formats ++ thread_formats.

Definition idt_area (IDT idtr a : Z) : Prop := IDT <= a < IDT + 2048 \/ idtr <= a < idtr + 6.

Lemma idt_area_off IDT idtr a : ~ idt_area IDT idtr a <-> off IDT 2048 a /\ off idtr 6 a.
Proof. unfold idt_area, off. lia. Qed.

(** Two blocks and two threads fit. *)
Definition BOOT_ROOM : Z := INIT_ROOM + REGISTER_ROOM + 16.

(** The messages of [init], but for those of the registration. *)
Definition init_formats : list (list Z) :=
  [chars "registering stateful coroutines ... "; line (chars "done.");
   line (chars "starting preemptive scheduler ...")].

Section Boot.
Context {printf : mem -> video_state -> list Z -> list Z -> option (mem * video_state)}.
Context {clear : mem -> video_state -> mem * video_state} `{!Console printf clear}.
Context (fuel : nat) (dev : device) (IDT idtr : Z) (isr : isr_name -> Z) (do_idle init_addr : Z).
(** The memory at entry, the multiboot information, the entries of the map and the
    region that they make the heap. *)
Context (m0 : mem) (mbi : Z) (es : list mmap_entry) (addr size : Z).
Local Abbreviation st := (boot_heap addr size).

(** What the linker and the boot loader promise: the descriptor table, the console,
    the heap and the information are apart; the null word that a search through a
    null block reads is zero; the fuel covers modules, entries and blocks. *)
Record boot_ok : Prop := {
  bo_info : info_ok m0 mbi es;
  bo_modules : (Z.to_nat (mbi_mods_count m0 mbi) < fuel)%nat;
  bo_entries : (length es < fuel)%nat;
  bo_isr h : 0 <= isr h < 4294967296;
  bo_idt : 0 <= IDT /\ IDT + 2048 <= 4294967296;
  bo_idtr : idtr + 6 <= IDT \/ IDT + 2048 <= idtr;
  bo_idt_apart a : idt_area IDT idtr a -> ~ tty_area a /\ ~ info_area m0 mbi es a /\ ~ kmalloc_area st a;
  bo_heap_apart a : kmalloc_area st a -> ~ tty_area a;
  bo_pick : foldl pick (0, 0) es = (addr, size);
  bo_addr : 0 <= addr;
  bo_room : STORE_OFFSET + 16 + BOOT_ROOM < size;
  bo_end : addr + size <= 4294967296;
  bo_null : load32 m0 4 = 0;
  bo_fuel : enough_fuel fuel st
}.
Context (Hb : boot_ok).

(** Nothing but the console and the descriptor table has been written. *)
Definition calm : mem -> mem -> Prop := same_on (fun a => ~ tty_area a /\ ~ idt_area IDT idtr a).

Lemma calm_quiet m m' : same_on (fun a => ~ tty_area a) m m' -> calm m m'.
Proof. apply same_on_weaken. by intros a [H _]. Qed.

Lemma calm_says m t os m' v' : says m t os m' v' -> calm m m'.
Proof. intros [_ H]. by apply calm_quiet. Qed.

Lemma calm_init_idt m : calm m (init_idt IDT idtr isr m).1.
Proof using Hb.
  intros a [_ [H1 H2]%idt_area_off]. destruct (bo_idt Hb). by apply init_idt_frame.
Qed.

Lemma tty_init_idt m v t : tty m v t -> tty (init_idt IDT idtr isr m).1 v t.
Proof using Hb.
  intros Ht. eapply tty_frame; [exact Ht|]. intros a Ha. destruct (bo_idt Hb).
  assert (~ idt_area IDT idtr a) as [H1 H2]%idt_area_off by (by intros [Hn _]%(bo_idt_apart Hb)).
  by apply init_idt_frame.
Qed.

(** [init_kmalloc] on a memory that differs from [m0] by such writes. *)
Lemma boot_init_kmalloc m :
  calm m0 m -> exists m', init_kmalloc fuel m mbi = Some (m', st) /\
    kmalloc_live fuel st m' [] /\ kmalloc_room st m' (size - STORE_OFFSET - 16) /\
    same_on (fun a => ~ kmalloc_area st a) m m'.
Proof using Hb.
  intros Hc. assert (agree m0 mbi es m) as Ha.
  { intros a Ha. apply Hc. split; [by apply (io_quiet _ _ _ (bo_info Hb))|].
    intros (_ & Hn & _)%(bo_idt_apart Hb). done. }
  pose proof (bo_room Hb) as Hr. unfold BOOT_ROOM, INIT_ROOM, REGISTER_ROOM, THREAD_STACK_SIZE, TASK_SIZE in Hr.
  assert (mbi_mmap_addr m mbi = mbi_mmap_addr m0 mbi /\ mbi_mmap_length m mbi = mbi_mmap_length m0 mbi) as [Ea El]
    by (unfold mbi_mmap_addr, mbi_mmap_length; by rewrite !(agree_mbi m0 mbi es m) by (done || lia)).
  destruct (init_kmalloc_store fuel m mbi es addr size) as (m' & E & Hst & Hs).
  - rewrite Ea, El. eapply mmap_at_agree; [|apply (io_map _ _ _ (bo_info Hb))].
    intros e j He Hj. by apply (agree_entry m0 mbi es).
  - apply (io_entries _ _ _ (bo_info Hb)).
  - rewrite Ea, El. apply (io_end _ _ _ (bo_info Hb)).
  - apply (bo_entries Hb).
  - apply (bo_pick Hb).
  - lia.
  - apply (bo_addr Hb).
  - apply (bo_end Hb).
  - assert (same_on (fun a => ~ kmalloc_area st a) m m') as Hout.
    { eapply same_on_weaken; [|exact Hs]. unfold kmalloc_area, off, boot_heap. simpl. intros a. lia. }
    exists m'. split_and!; [done| | |done].
    + split; [eexists; split; [exact Hst|by intros b ?%not_elem_of_nil]|apply (bo_fuel Hb)|].
      rewrite <- (bo_null Hb). apply (same_on_load32 (fun a => 4 <= a < 8)); [|lia].
      intros a Ha'. rewrite Hs by (unfold off, STORE_OFFSET; pose proof (bo_addr Hb); lia).
      assert (kmalloc_area st a) as Hk by (by left). apply Hc.
      split; [by apply (bo_heap_apart Hb)|]. by intros (_ & _ & ?)%(bo_idt_apart Hb).
    + eexists _, _. split; [exact Hst|]. split; [by left|lia].
Qed.

(** What the messages print. *)
Context (text : list Z -> list out) (Htext : forall f, f ∈ boot_formats -> tty_text f [] (text f)).

(** A property that printing keeps. *)
Definition quiet (K : mem -> Prop) : Prop :=
  forall m m', K m -> same_on (fun a => ~ tty_area a) m m' -> K m'.

Lemma boot_print (K : mem -> Prop) m v t f :
  quiet K -> K m -> tty m v t -> f ∈ boot_formats ->
  exists m' v', printf m v f [] = Some (m', v') /\ K m' /\ tty m' v' (run (text f) t).
Proof using Htext.
  intros HK Hm Ht Hf. destruct (print_says m v t f [] (text f) Ht (Htext f Hf)) as (m' & v' & E & T & S).
  exists m', v'. split_and!; [done| |done]. by eapply HK.
Qed.

(** The heap's bytes are not the console's. *)
Lemma quiet_heap m m' : same_on (fun a => ~ tty_area a) m m' -> same_on (kmalloc_area st) m m'.
Proof using Hb. apply same_on_weaken. apply (bo_heap_apart Hb). Qed.

Lemma tty_heap m m' v t : tty m v t -> same_on (fun a => ~ kmalloc_area st a) m m' -> tty m' v t.
Proof using Hb.
  intros Ht Hs. eapply tty_frame; [exact Ht|]. eapply same_on_weaken; [|exact Hs].
  intros a Ha Hk. by apply (bo_heap_apart Hb a).
Qed.

(** The table stays as it is: the console and the heap are elsewhere. *)
Lemma idt_quiet m m' : same_on (fun a => ~ tty_area a) m m' -> same_on (idt_area IDT idtr) m m'.
Proof using Hb. apply same_on_weaken. intros a Ha. apply (bo_idt_apart Hb a Ha). Qed.

Lemma idt_heap m m' : same_on (fun a => ~ kmalloc_area st a) m m' -> same_on (idt_area IDT idtr) m m'.
Proof using Hb. apply same_on_weaken. intros a Ha. apply (bo_idt_apart Hb a Ha). Qed.

Definition idt_set (m : mem) : Prop :=
  forall k, 0 <= k < ISR_COUNT -> decode m (gate IDT k) =
    match idt_table !! Z.to_nat k with Some e => entry_desc isr e | None => GateDesc 0 0 0 0 end.

Lemma idt_set_frame m m' : idt_set m -> same_on (idt_area IDT idtr) m m' -> idt_set m'.
Proof.
  intros H Hs k Hk. rewrite <- (H k Hk). apply decode_ext. intros i Hi. apply Hs. left.
  unfold gate, IDTDESC_SIZE, ISR_COUNT in *. lia.
Qed.

(** The first part: report, messages, descriptor table. *)
Lemma boot_report v oss :
  tty_ready m0 -> Forall2 printable (flag_lines m0 mbi es) oss ->
  exists m' v', let t := clear m0 (run (concat oss) (clear m0 v)).2 in
    multiboot_flagscheck printf fuel (clear m0 v).1 (clear m0 v).2 mbi = Some (m', v') /\
    tty (clear m' v').1 (clear m' v').2 t /\ calm m0 (clear m' v').1.
Proof using Hb.
  intros Hr Ho. destruct (tty_clear m0 v m0 Hr) as [T1 S1].
  assert (agree m0 mbi es (clear m0 v).1) as Ha.
  { eapply same_on_weaken; [|exact S1]. apply (io_quiet _ _ _ (bo_info Hb)). }
  destruct (flagscheck_lines m0 mbi es fuel _ _ _ (bo_info Hb) Ha T1 (bo_modules Hb) (bo_entries Hb) oss Ho)
    as (m2 & v2 & E & T2 & S2).
  destruct (tty_clear m2 v2 m0 (tty_ready_of _ _ _ T2)) as [T3 S3].
  exists m2, v2. cbv zeta. split_and!; [done| |].
  - by rewrite (tty_state _ _ _ T2).
  - apply calm_quiet. transitivity (clear m0 v).1; [done|]. by transitivity m2.
Qed.

(** The scheduler on the heap that [init_kmalloc] made. *)
Definition boot_kernel_ok (m : mem) (s : sched_state) (run : list Z) (live : live_t) : Prop :=
  kernel_ok (kmalloc := fun m n => kmalloc fuel m st n) (kfree := fun m p => kfree fuel m st p)
    m s run [] [] live.

Lemma quiet_calm : quiet (calm m0).
Proof. intros m m' H Hs. transitivity m; [done|by apply calm_quiet]. Qed.

Lemma quiet_idt : quiet idt_set.
Proof using Hb. intros m m' H Hs. eapply idt_set_frame; [exact H|by apply idt_quiet]. Qed.

Lemma quiet_and (K L : mem -> Prop) : quiet K -> quiet L -> quiet (fun m => K m /\ L m).
Proof. intros HK HL m m' [H1 H2] Hs. split; eauto. Qed.

Lemma heap_same m m' live k :
  same_on (kmalloc_area st) m m' -> kmalloc_live fuel st m live /\ kmalloc_room st m k ->
  kmalloc_live fuel st m' live /\ kmalloc_room st m' k.
Proof.
  intros Hs [H1 H2]. assert (same_on (fun a => kmalloc_area st a /\ ~ in_live live a) m m') as Hs'
    by (eapply same_on_weaken; [|exact Hs]; by intros a [Ha _]).
  split; [by eapply kmalloc_live_frame|by eapply kmalloc_room_frame].
Qed.

Lemma quiet_live live k : quiet (fun m => kmalloc_live fuel st m live /\ kmalloc_room st m k).
Proof using Hb. intros m m' H Hs%quiet_heap. by eapply heap_same. Qed.

Lemma quiet_kernel s run live k :
  quiet (fun m => boot_kernel_ok m s run live /\ kmalloc_room st m k).
Proof using Hb.
  intros m m' [H1 H2] Hs%quiet_heap. split; [by apply (kernel_ok_frame m)|].
  by eapply heap_same; [|split; [apply (ko_heap _ _ _ _ _ _ H1)|]].
Qed.

(** Print the next message. *)
Local Ltac boot_say HQ HK T :=
  lazymatch goal with
  | |- context [printf ?m ?v ?f []] =>
      let m' := fresh "m" in let v' := fresh "v" in let E := fresh "E" in
      let K' := fresh "K" in let T' := fresh "T" in
      destruct (boot_print _ m v _ f HQ HK T) as (m' & v' & E & K' & T');
        [by repeat (left || right)|];
      rewrite E; clear E HK T; rename K' into HK; rename T' into T; cbn [mbind option_bind]
  end.

Lemma boot_devices m v t ports :
  calm m0 m -> tty m v t ->
  exists m' v', kmain_devices printf dev IDT idtr isr m v ports =
      Some (m', v', init_pic dev (init_pit ports), (2047, IDT)) /\
    tty m' v' (run (device_formats ≫= text) t) /\ calm m0 m' /\ idt_set m'.
Proof using Hb Htext.
  intros C T. unfold kmain_devices. pose proof quiet_calm as Q. boot_say Q C T.
  set (ma := (init_idt IDT idtr isr m1).1).
  assert (init_idt IDT idtr isr m1 = (ma, (2047, IDT))) as ->.
  { unfold ma. rewrite <- (init_idt_loads IDT idtr isr m1) by apply Hb. apply surjective_pairing. }
  apply tty_init_idt in T. fold ma in T.
  assert (calm m0 ma /\ idt_set ma) as K.
  { split; [by transitivity m1; [|apply calm_init_idt]|]. intros k. by apply init_idt_decode; apply Hb. }
  clear Q. pose proof (quiet_and _ _ quiet_calm quiet_idt) as Q.
  boot_say Q K T. boot_say Q K T. boot_say Q K T. boot_say Q K T. boot_say Q K T.
  destruct K as [K1 K2]. do 2 eexists. split_and!; [done| |done|done].
  unfold device_formats. cbn [mbind list_bind]. by rewrite !run_app.
Qed.

Lemma boot_threads m v t s :
  calm m0 m -> idt_set m -> tty m v t -> no_threads s -> __tid_counter s < 2147483648 ->
  exists m' v' s' ts live, kmain_threads printf fuel do_idle init_addr m v s mbi = Some (m', v', st, s') /\
    tty m' v' (run (thread_formats ≫= text) t) /\ idt_set m' /\ boot_kernel_ok m' s' [ts] live /\
    __current_task s' = ts /\ new_task m' ts (__tid_counter s) init_addr 0 /\
    kmalloc_room st m' (size - STORE_OFFSET - 16 - INIT_ROOM - REGISTER_ROOM) /\
    __tid_counter s' = __tid_counter s + 1.
Proof using Hb Htext.
  intros C D T Hs Htid. unfold kmain_threads. pose proof (quiet_and _ _ quiet_calm quiet_idt) as Q.
  assert (calm m0 m /\ idt_set m) as K by done. clear C D. boot_say Q K T. clear Q. destruct K as [C D].
  destruct (boot_init_kmalloc _ C) as (mb & E & L & R & S).
  rewrite E. cbn [mbind option_bind]. clear E C. apply (tty_heap _ mb) in T; [|done].
  apply (idt_set_frame _ mb) in D; [|by apply idt_heap].
  set (k := size - STORE_OFFSET - 16) in *.
  pose proof (quiet_and _ _ quiet_idt (quiet_live [] k)) as Q.
  assert (idt_set mb /\ kmalloc_live fuel st mb [] /\ kmalloc_room st mb k) as K by done.
  clear D L R S. boot_say Q K T. boot_say Q K T. clear Q. destruct K as (D & L & R).
  assert (INIT_ROOM + 16 < k /\ REGISTER_ROOM + 16 < k - INIT_ROOM) as [Hk1 Hk2].
  { pose proof (bo_room Hb) as Hroom. unfold BOOT_ROOM in Hroom. assert (0 < REGISTER_ROOM) by by vm_compute. lia. }
  destruct (init_sched_kernel (Heap0 := kmalloc_heap fuel st) _ s _ do_idle L R Hk1 Hs)
    as (mc & ti & live & E & Ok & R' & _ & _ & S).
  cbv beta in E. rewrite E. cbn [mbind option_bind]. clear E. apply (tty_heap _ mc) in T; [|done].
  apply (idt_set_frame _ mc) in D; [|by apply idt_heap].
  set (s1 := upd_lock (upd_idle s ti) unlocked) in *.
  pose proof (quiet_and _ _ quiet_idt (quiet_kernel s1 [] live (k - INIT_ROOM))) as Q.
  assert (idt_set mc /\ boot_kernel_ok mc s1 [] live /\ kmalloc_room st mc (k - INIT_ROOM)) as K by done.
  clear D Ok R' S L R. boot_say Q K T. clear Q. destruct K as (D & Ok & R).
  assert (__thread_count s1 = 0 /\ __current_task s1 = 0) as [Ec Et]
    by (split; [apply (ns_count _ Hs)|apply (ns_current _ Hs)]).
  destruct (register_kernel (Heap0 := kmalloc_heap fuel st) _ s1 [] [] [] live (k - INIT_ROOM) init_addr 0 Ok)
    as (md & ts & head & live' & E & Ok' & R' & Hnew & S & _); [by rewrite Ec|done|exact R|exact Hk2|].
  cbv beta in E. rewrite E. cbn [mbind option_bind]. clear E.
  do 5 eexists. split_and!; [done| | |exact Ok'| |exact Hnew|exact R'|done].
  - apply (tty_heap _ md) in T; [|done]. unfold thread_formats. cbn [mbind list_bind]. by rewrite !run_app.
  - eapply idt_set_frame; [exact D|by apply idt_heap].
  - change (__current_task _) with (if __current_task s1 =? 0 then ts else __current_task s1). by rewrite Et.
Qed.

(** Everything that holds at the last loop. *)
Lemma kmain_spec v ks s ports idt if_ oss :
  tty_ready m0 -> Forall2 printable (flag_lines m0 mbi es) oss -> no_threads s ->
  __tid_counter s < 2147483648 ->
  exists m' v' s' ts live,
    kmain printf clear fuel dev IDT idtr isr do_idle init_addr (Machine m0 v ks s ports idt if_)
      MULTIBOOT_BOOTLOADER_MAGIC mbi =
      Some (Machine m' v' st s' (init_pic dev (init_pit ports)) (2047, IDT) true, Noploop) /\
    tty m' v' (run (boot_formats ≫= text) (clear m0 (run (concat oss) (clear m0 v)).2)) /\
    idt_set m' /\ boot_kernel_ok m' s' [ts] live /\
    __current_task s' = ts /\ new_task m' ts (__tid_counter s) init_addr 0 /\
    kmalloc_room st m' (size - STORE_OFFSET - 16 - INIT_ROOM - REGISTER_ROOM) /\
    __tid_counter s' = __tid_counter s + 1.
Proof using Hb Htext.
  intros Hr Ho Hs Htid. destruct (boot_report v oss Hr Ho) as (m2 & v2 & E & T & C). cbv zeta in T.
  set (t0 := clear m0 (run (concat oss) (clear m0 v)).2) in *. unfold kmain.
  destruct (clear m0 v) as [m1 v1]. cbn [fst snd] in E.
  rewrite Z.eqb_refl. cbn [negb]. rewrite E. cbn [mbind option_bind]. clear E.
  destruct (clear m2 v2) as [m3 v3]. cbn [fst snd] in T, C. pose proof quiet_calm as Q. boot_say Q C T.
  destruct (boot_devices _ _ _ ports C T) as (md & vd & E & T1 & C1 & D1).
  rewrite E. cbn [mbind option_bind]. clear E.
  destruct (boot_threads md vd _ s C1 D1 T1 Hs Htid) as (mf & vf & s' & ts & live & E & T2 & D2 & K & Et & N & R & R2).
  rewrite E. cbn [mbind option_bind]. clear E. exists mf, vf, s', ts, live.
  split_and!; [done| |done..]. unfold boot_formats. by rewrite bind_cons, bind_app, !run_app.
Qed.

End Boot.

Section Checks.
Context {printf : mem -> video_state -> list Z -> list Z -> option (mem * video_state)}.
Context {clear : mem -> video_state -> mem * video_state} `{!Console printf clear}.

(** Without the right magic number it says so and returns. *)
Lemma kmain_rejects fuel dev IDT idtr isr do_idle init_addr k magic addr os :
  magic <> MULTIBOOT_BOOTLOADER_MAGIC -> tty_ready (k_mem k) -> tty_text fmt_magic [magic] os ->
  exists m' v', kmain printf clear fuel dev IDT idtr isr do_idle init_addr k magic addr =
      Some (Machine m' v' (k_kmalloc k) (k_sched k) (k_ports k) (k_idtr k) (k_if k), Returned) /\
    tty m' v' (run os (clear (k_mem k) (k_video k))) /\ same_on (fun a => ~ tty_area a) (k_mem k) m'.
Proof.
  intros Hm Hr Ht. destruct k as [m v ks s ports idt if_]. cbn [k_mem k_video] in *.
  destruct (tty_clear m v m Hr) as [T S]. unfold kmain.
  destruct (print_says _ _ _ fmt_magic [magic] os T Ht) as (m' & v' & E & T' & S').
  destruct (clear m v) as [m1 v1]. cbn [fst snd] in *. rewrite (eqb_ne magic) by done. cbn [negb].
  rewrite E. exists m', v'. split_and!; [done..|by transitivity m1].
Qed.

(** C14: the report.  For well-formed multiboot information [multiboot_flagscheck] returns
    and prints the list of lines that the flags call for, each with the words read
    before the call: the fields, one line per module, and, unless bits 4 and 5 are both
    set, the symbol table or section header and one line per entry of the memory map;
    it writes nothing but the console's bytes. *)
Theorem multiboot_flagscheck_ok fuel m v t mbi es oss :
  info_ok m mbi es -> tty m v t -> (Z.to_nat (mbi_mods_count m mbi) < fuel)%nat ->
  (length es < fuel)%nat -> Forall2 printable (flag_lines m mbi es) oss ->
  exists m' v', multiboot_flagscheck printf fuel m v mbi = Some (m', v') /\
    tty m' v' (run (concat oss) t) /\ same_on (fun a => ~ tty_area a) m m'.
Proof. intros Hok Ht H1 H2 Ho. by apply (flagscheck_lines m mbi es). Qed.
End Checks.

(** ** A machine that boots *)

(** The literals of [init] too, for the threads that follow. *)
Definition init_literals : list (list Z) :=
  [10 :: line (chars "    Thread 1 created with tid = %d"); line (chars "    Thread 2 created with tid = %d");
   line (chars "    Thread 3 created with tid = %d")] ++ init_formats.

Definition ex_boot_lits : list (list Z) :=
  [fmt_flags; fmt_mem; fmt_boot_device; fmt_mods; fmt_mmap; fmt_entry] ++
    remove_dups boot_formats ++ init_literals.

(** Memory sizes, boot device, an empty list of modules and the map of [boot_mem]. *)
Definition ex_boot_mem : mem :=
  ex_texts ex_boot_lits (store32 (store32 boot_mem (0x2000 + 12) 0x820000) 0x1000 0x4b).

Definition ex_boot_entries : list mmap_entry := [MmapEntry 20 0x100000 0x820000 1].
Definition ex_boot_lines : list (list Z * list Z) := flag_lines ex_boot_mem 0x1000 ex_boot_entries.
Definition ex_boot_text (f : list Z) : list out := ex_output (f, []).

Lemma ex_boot_lits_ok : Forall (fun l => (length l < 256)%nat) ex_boot_lits.
Proof. apply (bool_decide_unpack _). by vm_compute. Qed.

#[local] Instance ex_boot_console : Console (ex_print ex_boot_lits) cls :=
  ex_console ex_boot_lits ltac:(by apply (bool_decide_unpack _); vm_compute) ex_boot_lits_ok.

Lemma ex_boot_ready : tty_ready ex_boot_mem.
Proof. apply ex_texts_in. by vm_compute. Qed.

Lemma ex_boot_lines_ok : Forall2 printable ex_boot_lines (ex_output <$> ex_boot_lines).
Proof. apply (ex_prints_all ex_boot_lits). by vm_compute. Qed.

Lemma ex_boot_area a : tty_area a -> 0x4000 <= a < 0xc0000.
Proof.
  intros Ha%(ex_area_range ex_boot_lits); [|by apply (bool_decide_unpack _); vm_compute|apply ex_boot_lits_ok].
  revert Ha. change SCREEN_SIZE with 4000. unfold ex_buf, VIDEO. lia.
Qed.

Lemma ex_boot_info_area a : info_area ex_boot_mem 0x1000 ex_boot_entries a -> 0x1000 <= a < 0x3000.
Proof.
  assert (mbi_mods_count ex_boot_mem 0x1000 = 0 /\
    entry_addrs ex_boot_entries (mbi_mmap_addr ex_boot_mem 0x1000) = [0x2000]) as [E1 E2] by by vm_compute.
  unfold info_area, MODULE_SIZE. rewrite E1, E2.
  intros [H|[H|(e & ->%list_elem_of_singleton & H)]]; lia.
Qed.

Lemma ex_boot_info : info_ok ex_boot_mem 0x1000 ex_boot_entries.
Proof.
  split.
  - intros a Ha%ex_boot_info_area Hn%ex_boot_area. lia.
  - by vm_compute.
  - by vm_compute.
  - vm_compute. by split_and!.
  - by repeat constructor.
  - by vm_compute.
Qed.

(** A cursor at the top of the screen. *)
Definition ex_boot_video : video_state := VideoState 7 0 0 VIDEO.

Example ex_boot_report : ex_boot_lines =
  [(fmt_flags, [0x4b]); (fmt_mem, [0; 0]); (fmt_boot_device, [0]); (fmt_mods, [0; 0]);
   (fmt_mmap, [0x2000; 24]); (fmt_entry, [20; 0; 0x100000; 0; 0x820000; 1])].
Proof. by vm_compute. Qed.

Lemma multiboot_flagscheck_ok_witness :
  exists m' v', multiboot_flagscheck (ex_print ex_boot_lits) 2 ex_boot_mem ex_boot_video 0x1000 = Some (m', v') /\
    tty m' v' (run (concat (ex_output <$> ex_boot_lines)) (ex_boot_mem, ex_boot_video)) /\
    same_on (fun a => ~ tty_area a) ex_boot_mem m'.
Proof.
  apply (multiboot_flagscheck_ok 2 ex_boot_mem ex_boot_video _ 0x1000 ex_boot_entries).
  - exact ex_boot_info.
  - split_and!; [by vm_compute|done|done|exact ex_boot_ready].
  - by apply (bool_decide_unpack _); vm_compute.
  - simpl. lia.
  - exact ex_boot_lines_ok.
Defined.

Lemma ex_boot_texts f : f ∈ boot_formats -> tty_text f [] (ex_boot_text f).
Proof.
  intros Hf. apply (ex_prints_ok ex_boot_lits (f, [])).
  assert (forallb (fun f => ex_prints ex_boot_lits (f, [])) boot_formats = true) as H by by vm_compute.
  rewrite forallb_forall in H. apply H. by apply list_elem_of_In.
Qed.

Definition ex_boot_fuel : nat := Z.to_nat 8200.

(** The table at 0xC0000, its descriptor at 0xC1000. *)
Lemma ex_boot_ok : boot_ok ex_boot_fuel 0xc0000 0xc1000 isr_example ex_boot_mem 0x1000 ex_boot_entries 0x100000 0x820000.
Proof.
  assert (forall a, kmalloc_area (boot_heap 0x100000 0x820000) a -> 4 <= a < 8 \/ 0x900000 <= a) as Hk
    by (intros a; unfold kmalloc_area, boot_heap, STORE_OFFSET; simpl; lia).
  split.
  - apply ex_boot_info.
  - by apply (bool_decide_unpack _); vm_compute.
  - unfold ex_boot_fuel, ex_boot_entries. cbn [length]. lia.
  - intros h. destruct h; simpl; lia.
  - lia.
  - lia.
  - intros a Ha. unfold idt_area in Ha.
    split_and!; [intros H%ex_boot_area|intros H%ex_boot_info_area|intros H%Hk]; lia.
  - intros a Ha%Hk H%ex_boot_area. lia.
  - by vm_compute.
  - lia.
  - by vm_compute.
  - lia.
  - by vm_compute.
  - unfold enough_fuel, boot_heap, STORE_OFFSET, ex_boot_fuel. cbn [__mem_store_size]. lia.
Qed.

