(* ===== verification/KernelInit.v ===== *)
(** * KernelInit: the first thread

    What [init] of src/kernel.c does on the kernel that [kmain] leaves: it creates the
    demonstration threads, moves itself to the wait queue, and prints its banner when
    it wakes up. *)

From Stdlib Require Import Strings.String.
From S2P Require Import Prelude Memory Portio Klib Mutex Kmalloc KmallocStore KmallocProps Heap Context.
From S2P Require Import SchedQueue Sched SchedProps SchedInv SchedExample SchedOps SchedHeap.
From S2P Require Import Kvideo KvideoProps Console Interrupt StatefulCr Kernel KernelProps.

(** ** Before the sleep *)

Lemma tail_in (l1 l2 l3 : list Z) x : x ∈ l3 -> x ∈ l1 ++ l2 ++ l3.
Proof. intros H. apply elem_of_app. right. apply elem_of_app. by right. Qed.

Section Init.
Context {printf : mem -> video_state -> list Z -> list Z -> option (mem * video_state)}.
Context {clear : mem -> video_state -> mem * video_state} `{!Console printf clear}.
Context (fuel : nat) (ks : kmalloc_state) (Hapart : forall a, tty_area a -> ~ kmalloc_area ks a).
Context (thread1 thread2 thread3 : Z).
(** What the messages print. *)
Context (text : list Z -> list out) (Htext : forall f, f ∈ init_formats -> tty_text f [] (text f)).
Context (Hcreated : Forall (fun text => forall tid, 0 <= tid < 2147483648 ->
  tty_text (line (text ++ chars "%d")) [tid] (created text tid)) created_texts).

(** The scheduler on this heap. *)
Definition on_heap (m : mem) (s : sched_state) (run wait done_ : list Z) (live : live_t) (k : Z) : Prop :=
  kernel_ok (kmalloc := fun m n => kmalloc fuel m ks n) (kfree := fun m p => kfree fuel m ks p)
    m s run wait done_ live /\ kmalloc_room ks m k.

Lemma on_heap_says m t os m' v' s run wait done_ live k :
  on_heap m s run wait done_ live k -> says m t os m' v' -> on_heap m' s run wait done_ live k.
Proof using Hapart.
  intros [H1 H2] [_ Hs]. assert (same_on (kmalloc_area ks) m m') as Hs'.
  { eapply same_on_weaken; [|exact Hs]. intros a Ha Ht. by apply (Hapart a). }
  split; [by apply (kernel_ok_frame m)|].
  apply (heap_room_same (Heap0 := kmalloc_heap fuel ks) m m' live); [apply (ko_heap _ _ _ _ _ _ H1)|done|done].
Qed.

(** All that [init] prints before it sleeps. *)
Definition init_output (n : Z) : list out :=
  text (chars "registering stateful coroutines ... ") ++
  concat (imap (fun i text => created text (n + Z.of_nat i)) created_texts) ++
  text (line (chars "done.")) ++ text (line (chars "starting preemptive scheduler ...")).

Lemma init_print m v t f :
  tty m v t -> f ∈ init_formats ->
  exists m' v', printf m v f [] = Some (m', v') /\ says m t (text f) m' v'.
Proof using Htext. intros T Hf. apply print_says; [done|by apply Htext]. Qed.

(** Printing and sleeping leave the new tasks as they are. *)
Lemma new_says m t os m' v' s run wait done_ live k ts n callable arg :
  on_heap m s run wait done_ live k -> ts ∈ run -> says m t os m' v' ->
  new_task m ts n callable arg -> new_task m' ts n callable arg.
Proof using Hapart.
  intros [H1 _] Hin [_ Hs]. apply same_task_new, (live_same_task _ _ live).
  - apply (ko_tasks _ _ _ _ _ _ H1). by apply all_tasks_run.
  - eapply same_on_weaken; [|exact Hs]. intros a Ha Ht.
    assert (kmalloc_area ks a) as Hin' by by apply (kmalloc_live_area fuel ks m live); [apply H1|].
    by apply (Hapart a).
Qed.

(** The end of [init_begin]: two messages, and the sleep. *)
Lemma init_sleep m v t s l1 x l2 wait done_ live k :
  on_heap m s (l1 ++ x :: l2) wait done_ live k -> __current_task s = x -> tty m v t -> (0 < fuel)%nat ->
  exists m1 v1 m2 v2 m' s',
    printf m v (line (chars "done.")) [] = Some (m1, v1) /\
    printf m1 v1 (line (chars "starting preemptive scheduler ...")) [] = Some (m2, v2) /\
    msleep_begin fuel m2 s 9000 = Some (m', s') /\
    on_heap m' s' (l1 ++ l2) (wait ++ [x]) done_ live k /\
    __current_task s' = x /\ t_status m' x = BLOCKED /\ t_sleep_time m' x = 4500 /\
    (forall ts n callable arg, ts ∈ l1 ++ l2 ->
       new_task m ts n callable arg -> new_task m' ts n callable arg) /\
    tty m' v2 (run (text (line (chars "starting preemptive scheduler ...")))
      (run (text (line (chars "done."))) t)).
Proof using Hapart Htext.
  clear Hcreated. intros K Hx T Hf.
  destruct (init_print m v t (line (chars "done.")) T) as (m1 & v1 & E1 & Y1); [by repeat (left || right)|].
  destruct (init_print m1 v1 _ (line (chars "starting preemptive scheduler ...")) (proj1 Y1))
    as (m2 & v2 & E2 & Y2); [by repeat (left || right)|].
  pose proof (says_trans _ _ _ _ _ _ _ _ Y1 Y2) as Y.
  pose proof (on_heap_says _ _ _ _ _ _ _ _ _ _ _ K Y) as [Kk Kr].
  destruct (sleep_kernel (Heap0 := kmalloc_heap fuel ks) fuel m2 s l1 x l2 wait done_ live (msleep_ticks 9000) Kk Hx Hf)
    as (m' & s' & E3 & Kk' & Hx' & Hb & Ht & Hsame & Hs & Hr).
  exists m1, v1, m2, v2, m', s'. split_and!; [done..| |done|done|done| |].
  - split; [done|by apply Hr].
  - intros ts n callable arg Hin Hn. assert (ts ∈ l1 ++ x :: l2) as Hin' by set_solver.
    eapply same_task_new; [apply Hsame; [by apply all_tasks_run|]|].
    + intros ->. pose proof (so_nodup _ _ _ _ _ (ko_sched _ _ _ _ _ _ Kk)) as Hnd. unfold all_tasks in Hnd.
      apply NoDup_cons in Hnd as [_ (Hnd & _)%NoDup_app]. apply NoDup_app in Hnd as (_ & Hd & Hnd).
      apply NoDup_cons in Hnd as [Hnd _]. apply elem_of_app in Hin as [Hin|Hin]; [|done].
      apply (Hd x Hin). by left.
    + by eapply new_says.
  - rewrite <- run_app. eapply tty_frame; [apply Y|]. eapply same_on_weaken; [|exact Hs]. exact Hapart.
Qed.

(** [init] up to its sleep. *)
Lemma init_begin_spec m v s l1 x l2 wait done_ live k lk :
  let n := __tid_counter s in
  on_heap m s (l1 ++ x :: l2) wait done_ live k -> __current_task s = x -> tty_ready m ->
  __thread_count s <= 13 -> n < 2147483645 -> 3 * REGISTER_ROOM + 16 < k -> (0 < fuel)%nat ->
  exists m' v' s' t1 t2 t3 live',
    init_begin printf clear fuel thread1 thread2 thread3 m v ks s lk = Some (m', v', s', unlocked) /\
    on_heap m' s' (l1 ++ l2 ++ [t1; t2; t3]) (wait ++ [x]) done_ live' (k - 3 * REGISTER_ROOM) /\
    __current_task s' = x /\ t_status m' x = BLOCKED /\ t_sleep_time m' x = 4500 /\
    new_task m' t1 n thread1 0xDEAD /\ new_task m' t2 (n + 1) thread2 0xBEEF /\
    new_task m' t3 (n + 2) thread3 0xF00F /\
    tty m' v' (run (init_output n) (clear m v)).
Proof using Hapart Htext Hcreated.
  intros n Hk Hx Hr Hc Hn Hkk Hf. destruct (tty_clear m v m Hr) as [T0 S0]. unfold init_begin.
  pose proof (on_heap_says m _ [] _ _ s _ _ _ _ _ Hk (conj T0 S0)) as K0.
  destruct (clear m v) as [m0 v0]. cbn [fst snd] in T0, S0, K0.
  destruct (init_print m0 v0 _ (chars "registering stateful coroutines ... ") T0) as (m1 & v1 & E1 & Y1);
    [by repeat (left || right)|].
  pose proof (on_heap_says _ _ _ _ _ _ _ _ _ _ _ K0 Y1) as [Kk Kr]. destruct Y1 as [T1 _].
  destruct (register_routines_spec (kmalloc := fun m n => kmalloc fuel m ks n) (Heap0 := kmalloc_heap fuel ks)
      Hapart thread1 thread2 thread3 m1 v1 _ s (l1 ++ x :: l2) wait done_ live k lk Kk Kr T1 Hc Hn Hkk Hcreated)
    as (m2 & v2 & s2 & t1 & t2 & t3 & live' & E2 & K2 & R2 & C2 & N1 & N2 & N3 & T2 & U2).
  rewrite <- (app_assoc l1) in K2. cbn [app] in K2.
  assert (0 < x) as Hx0.
  { apply (tasks_range _ (so_tasks _ _ _ _ _ (ko_sched _ _ _ _ _ _ Kk))), all_tasks_run. apply elem_of_app. right. by left. }
  assert (__current_task s2 = x) as Hx2 by (rewrite U2; lia).
  destruct (init_sleep m2 v2 _ s2 l1 x (l2 ++ [t1; t2; t3]) wait done_ live' _ (conj K2 R2) Hx2 T2 Hf)
    as (m3 & v3 & m4 & v4 & m' & s' & E3 & E4 & E5 & K' & Hc' & Hb & Ht & Hnew & T').
  exists m', v4, s', t1, t2, t3, live'. rewrite E1. cbn [mbind option_bind]. rewrite E2.
  cbn [mbind option_bind]. rewrite E3. cbn [mbind option_bind]. rewrite E4. cbn [mbind option_bind].
  rewrite E5. unfold init_output. rewrite !run_app.
  split_and!; [done..|by apply Hnew; [apply tail_in; rewrite !elem_of_cons; auto|]|by apply Hnew; [apply tail_in; rewrite !elem_of_cons; auto|]|by apply Hnew; [apply tail_in; rewrite !elem_of_cons; auto|]|done].
Qed.

(** C9: the first thread.  [init] clears the screen, creates the three demonstration
    threads, prints their ids and its messages, and goes to sleep for 9 seconds: the
    three are at the tail of the run queue, new, with consecutive ids and their
    functions and arguments; [init] is the last of the wait queue, blocked for 4500
    ticks; and the scheduler's and the heap's invariants hold. *)
Theorem init_begin_ok m v s l1 x l2 wait done_ live k lk :
  let n := __tid_counter s in
  on_heap m s (l1 ++ x :: l2) wait done_ live k -> __current_task s = x -> tty_ready m ->
  __thread_count s <= 13 -> n < 2147483645 -> 3 * REGISTER_ROOM + 16 < k -> (0 < fuel)%nat ->
  exists m' v' s' t1 t2 t3 live',
    init_begin printf clear fuel thread1 thread2 thread3 m v ks s lk = Some (m', v', s', unlocked) /\
    on_heap m' s' (l1 ++ l2 ++ [t1; t2; t3]) (wait ++ [x]) done_ live' (k - 3 * REGISTER_ROOM) /\
    __current_task s' = x /\ t_status m' x = BLOCKED /\ t_sleep_time m' x = 4500 /\
    new_task m' t1 n thread1 0xDEAD /\ new_task m' t2 (n + 1) thread2 0xBEEF /\
    new_task m' t3 (n + 2) thread3 0xF00F /\
    tty m' v' (run (init_output n) (clear m v)).
Proof using Hapart Htext Hcreated. apply init_begin_spec. Qed.
End Init.

(** ** After the sleep *)

Section Wake.
Context {printf : mem -> video_state -> list Z -> list Z -> option (mem * video_state)}.
Context {clear : mem -> video_state -> mem * video_state} `{!Console printf clear}.

Lemma print_formats_lines m v t fs :
  tty m v t -> prints_lines (print_formats printf m v fs) m t ((fun f => (f, [])) <$> fs).
Proof.
  revert m v t. induction fs as [|f fs IH]; intros m v t T; [by apply lines_nil|].
  cbn [print_formats]. rewrite fmap_cons. apply (lines_bind _ _ m t [_]); [by apply lines_one|].
  intros m' v' os [T' _]. by apply IH.
Qed.

(** When [init] wakes up it clears its clock and the screen, moves down seven lines,
    prints the banner and returns NULL. *)
Lemma init_end_lines m v s oss :
  let x := __current_task s in
  let m1 := sleep_end m s in
  tty_ready m -> (forall a, tty_area a -> off (x + 24) 8 a) ->
  Forall2 printable ((replicate 7 10, []) :: ((fun f => (f, [])) <$> banner_formats)) oss ->
  exists m' v', init_end printf clear m v s = Some (m', v', 0) /\
    tty m' v' (run (concat oss) (clear m1 v)) /\ same_on (fun a => ~ tty_area a) m1 m' /\
    t_utime m1 x = 0 /\ t_sleep_time m1 x = 0.
Proof.
  intros x m1 Hr Hx Ho. unfold init_end. fold m1.
  assert (tty_ready m1) as Hr1.
  { eapply tty_ready_frame; [exact Hr|]. unfold m1, sleep_end. unfold_task.
    repeat (apply store32_same_on; [|intros a Ha; specialize (Hx a Ha); unfold off in *; fold x; lia]). done. }
  destruct (tty_clear m1 v m1 Hr1) as [T S]. destruct (clear m1 v) as [m2 v2]. cbn [fst snd] in T, S.
  assert (prints_lines ('(m, v) ← printf m2 v2 (replicate 7 10) []; print_banner printf m v) m2 (m2, v2)
    ((replicate 7 10, []) :: ((fun f => (f, [])) <$> banner_formats))) as Hl.
  { apply (lines_bind _ _ m2 _ [_]); [by apply lines_one|]. intros m' v' os [T' _].
    by apply print_formats_lines. }
  destruct (Hl oss Ho) as (m' & v' & E & T' & S').
  destruct (printf m2 v2 (replicate 7 10) []) as [[m3 v3]|]; [|done]. cbn [mbind option_bind] in E |- *.
  rewrite E. cbn [mbind option_bind]. exists m', v'. split_and!; [done|done|by transitivity m2|..];
    unfold m1, sleep_end, t_utime, t_sleep_time; unfold_task; by mem_simpl.
Qed.
End Wake.

(** ** A concrete registration *)

#[local] Instance ex_init_console : Console (ex_print init_literals) cls.
Proof. refine (ex_console init_literals _ _); [by vm_compute; lia|by repeat constructor]. Defined.

Definition ex_init_mem : mem := ex_texts init_literals ex_started.1.1.
Definition ex_init_text (f : list Z) : list out := ex_output (f, []).

Lemma ex_init_apart a : tty_area a -> ~ heap_area a.
Proof.
  intros Ha%(ex_area_range init_literals); [|by vm_compute; lia|by repeat constructor].
  change SCREEN_SIZE with 4000 in Ha. unfold ex_buf, VIDEO in Ha. cbn. unfold kmalloc_area, ex_st. simpl. lia.
Qed.

Lemma ex_init_same : same_on heap_area ex_started.1.1 ex_init_mem.
Proof.
  eapply same_on_weaken; [|apply ex_texts_frame; [by vm_compute; lia|by repeat constructor]].
  intros a. cbn. unfold kmalloc_area, off, ex_st, ex_text. simpl. lia.
Qed.

Lemma ex_init_on_heap : on_heap ex_fuel ex_st ex_init_mem ex_started.1.2 ex_run [] [] ex_live 0x18000.
Proof.
  split; [apply (kernel_ok_frame ex_started.1.1)|
    by eapply (heap_room_same (Heap0 := ex_heap)); [exact ex_started_heap|exact ex_init_same|exact ex_started_room]].
  - split; [exact ex_started_ok|exact ex_started_heap|exact ex_started_live| |by vm_compute|].
    + intros t Ht Hn. rewrite ex_started_tasks in Ht. revert t Ht Hn.
      each_task; intros Hn; [|exfalso; vm_compute in Hn; discriminate|..]; clear Hn; eval_esp;
        [exists (0x900090, 0x100)|exists (0x9022b0, 0x2000)|exists (0x904340, 0x2000)];
        (split; [by apply (bool_decide_unpack _)|simpl; lia]).
    + intros H0. exfalso. vm_compute in H0. discriminate.
  - exact ex_init_same.
Qed.

Lemma created_text_prints lits text tid :
  line (text ++ chars "%d") ∈ lits -> Forall literal_char text -> (length text < 200)%nat ->
  0 <= tid < 2147483648 ->
  prints 300 ex_str lits (line (text ++ chars "%d")) [tid] (created text tid).
Proof.
  intros Hin Hl Hn Ht. split; [done|]. split; [by vm_compute|]. unfold line. rewrite <- app_assoc.
  replace 300%nat with (length text + (4 + (296 - length text)))%nat by lia.
  apply render_text; [done|]. change (chars "%d" ++ [10]) with [37; 100; 10].
  cbn [fmap list_fmap]. rewrite render_d, s32_u32, s32_small by lia. done.
Qed.

Lemma ex_init_texts f : f ∈ init_formats -> tty_text f [] (ex_init_text f).
Proof.
  intros Hf. apply (ex_prints_ok init_literals (f, [])).
  assert (forallb (fun f => ex_prints init_literals (f, [])) init_formats = true) as H by by vm_compute.
  rewrite forallb_forall in H. apply H. by apply list_elem_of_In.
Qed.

(** The example's first task is the first thread. *)
Lemma init_begin_ok_witness :
  exists m' v' s' t1 t2 t3 live',
    init_begin (ex_print init_literals) cls ex_fuel 0x7100 0x7200 0x7300 ex_init_mem ex_boot_video ex_st
      ex_started.1.2 unlocked = Some (m', v', s', unlocked) /\
    on_heap ex_fuel ex_st m' s' [ex_B; ex_C; t1; t2; t3] [ex_A] [] live' (0x18000 - 3 * REGISTER_ROOM) /\
    t_sleep_time m' ex_A = 4500 /\ new_task m' t1 3 0x7100 0xDEAD /\ new_task m' t3 5 0x7300 0xF00F.
Proof.
  destruct (init_begin_ok ex_fuel ex_st ex_init_apart 0x7100 0x7200 0x7300 ex_init_text ex_init_texts)
    with (m := ex_init_mem) (v := ex_boot_video) (s := ex_started.1.2) (l1 := @nil Z) (x := ex_A)
    (l2 := [ex_B; ex_C]) (wait := @nil Z) (done_ := @nil Z) (live := ex_live) (k := 0x18000) (lk := unlocked)
    as (m' & v' & s' & t1 & t2 & t3 & live' & E & K & _ & _ & Ht & N1 & _ & N3 & _).
  - repeat (apply Forall_cons; split; [intros tid Htid; apply created_text_prints;
      [by apply (bool_decide_unpack _); vm_compute|by apply (bool_decide_unpack _); vm_compute|by vm_compute; lia|done]|]).
    by apply Forall_nil.
  - exact ex_init_on_heap.
  - by vm_compute.
  - apply ex_texts_in. by vm_compute.
  - by vm_compute.
  - by vm_compute.
  - by vm_compute.
  - apply Nat.ltb_lt. by vm_compute.
  - exists m', v', s', t1, t2, t3, live'. assert (__tid_counter ex_started.1.2 = 3) as Et by (by vm_compute).
    rewrite Et in N1, N3. split_and!; [exact E|exact K|exact Ht|exact N1|exact N3].
Defined.
