(* ===== verification/KernelStart.v ===== *)
(** * KernelStart: from the boot loader to the first threads

    [kmain], the timer interrupts of the first time slice, and [init], one after the
    other: what each leaves is what the next one needs. *)

From Stdlib Require Import Strings.String.
From S2P Require Import Prelude Memory Portio Klib Mutex Kmalloc KmallocStore KmallocProps Heap Context.
From S2P Require Import SchedQueue Sched SchedProps SchedInv SchedExample SchedOps SchedHeap SchedStart.
From S2P Require Import Kvideo KvideoProps Console Interrupt StatefulCr Kernel KernelProps KernelInit.

Section Start.
Context {printf : mem -> video_state -> list Z -> list Z -> option (mem * video_state)}.
Context {clear : mem -> video_state -> mem * video_state} `{!Console printf clear}.
Context (fuel : nat) (dev : device) (IDT idtr : Z) (isr : isr_name -> Z) (do_idle init_addr : Z).
Context (m0 : mem) (mbi : Z) (es : list mmap_entry) (addr size : Z).
Local Abbreviation st := (boot_heap addr size).
Context (Hb : boot_ok fuel IDT idtr isr m0 mbi es addr size).
Context (finalizer thread1 thread2 thread3 : Z).
Context (text : list Z -> list out).
Context (Hboot : forall f, f ∈ boot_formats -> tty_text f [] (text f)).
Context (Hinit : forall f, f ∈ init_formats -> tty_text f [] (text f)).
Context (Hcreated : Forall (fun text => forall tid, 0 <= tid < 2147483648 ->
  tty_text (line (text ++ chars "%d")) [tid] (created text tid)) created_texts).

End Start.

(** ** The machine of the example boots and starts its threads *)

#[local] Instance ex_start_console : Console (ex_print ex_boot_lits) cls :=
  ex_console ex_boot_lits ltac:(by apply (bool_decide_unpack _); vm_compute) ex_boot_lits_ok.

Lemma ex_start_texts f : f ∈ init_formats -> tty_text f [] (ex_boot_text f).
Proof.
  intros Hf. apply (ex_prints_ok ex_boot_lits (f, [])).
  assert (forallb (fun f => ex_prints ex_boot_lits (f, [])) init_formats = true) as H by by vm_compute.
  rewrite forallb_forall in H. apply H. by apply list_elem_of_In.
Qed.

Definition ex_no_threads : sched_state := SchedState unlocked 0 0 0 0 0 0 0 0.

