(* ===== verification/TestRd.v ===== *)
(** * TestRd: the test of the file system, src/test_rd.c

    [run_tests] calls the file system, prints what fails and returns early.  It is
    written in a monad over the memory, the screen, the file system's and the
    scheduler's static variables, in which a [return] ends the function. *)

From Stdlib Require Import Strings.String.
From S2P Require Import Prelude Memory Portio Klib Mutex Context SchedQueue Sched Ramdisk Kvideo.

Record world := World {
  w_mem : mem;
  w_video : video_state;
  w_rd : rd_state;
  w_sched : sched_state
}.

(** [inl r]: the function has returned [r]. *)
Definition test (A : Type) : Type := world -> option (world * (Z + A)).

#[export] Instance test_ret : MRet test := fun A x w => Some (w, inr x).
#[export] Instance test_bind : MBind test := fun A B f t w =>
  match t w with
  | Some (w, inr x) => f x w
  | Some (w, inl r) => Some (w, inl r)
  | None => None
  end.

Definition returns {A} (r : Z) : test A := fun w => Some (w, inl r).

Definition modify (f : mem -> mem) : test () := fun w =>
  Some (World (f (w_mem w)) (w_video w) (w_rd w) (w_sched w), inr ()).

(** A call of the file system, by the current task. *)
Definition rd_call (op : Z -> mem -> rd_state -> option (mem * rd_state * Z)) : test Z := fun w =>
  '(m, s, r) ← op (__current_task (w_sched w)) (w_mem w) (w_rd w);
  Some (World m (w_video w) s (w_sched w), inr r).

Definition TEST_SUCCESS : Z := 1.
Definition TEST_FAILURE : Z := 0.
Definition MAX_FILES : Z := 16.
Definition BLK_SZ : Z := 256.
Definition DIRECT : Z := 8.
Definition PTR_SZ : Z := 4.
Definition PTRS_PB : Z := BLK_SZ / PTR_SZ.
Definition DATA1_SIZE : Z := DIRECT * BLK_SZ.
Definition DATA2_SIZE : Z := PTRS_PB * BLK_SZ.
Definition DATA3_SIZE : Z := PTRS_PB * PTRS_PB * BLK_SZ.
Definition ADDR_SIZE : Z := PTRS_PB * PTRS_PB * BLK_SZ + 1.

Definition fmt_create : list Z := line (chars "rd_create: File creation error! status: %d (%s)").
Definition fmt_unlink : list Z := line (chars "unlink: File deletion error! status: %d").

Section RunTests.
Context (printf : mem -> video_state -> list Z -> list Z -> option (mem * video_state)).
Context (kmalloc : mem -> Z -> option (mem * Z)) (kfree : mem -> Z -> option mem).
(** [sbuf], [null_str]: the local buffer of [sprintf] and its literal; [lit]: the
    addresses of the literals; [frame]: the outgoing arguments; the static buffers; the
    addresses of the two thread functions. *)
Context (fuel : nat) (delim_str sbuf null_str : Z) (lit : list Z -> Z) (frame : Z).
Context (pathname data1 data2 data3 addr : Z) (rd_test_thread0 rd_test_thread1 : Z).

Definition print (format ws : list Z) : test () := fun w =>
  '(m, v) ← printf (w_mem w) (w_video w) format ws;
  Some (World m v (w_rd w) (w_sched w), inr ()).

(** [sprintf(pathname, format, ...)] *)
Definition sprintf_path (format ws : list Z) : test () := fun w =>
  m ← sprintf sbuf null_str fuel (push_words (w_mem w) frame ws) pathname (lit format) frame;
  Some (World m (w_video w) (w_rd w) (w_sched w), inr ()).

(** [if (retval < 0) { printf(format, retval); return TEST_FAILURE; }] *)
Definition check (retval : Z) (format : list Z) : test () :=
  if retval <? 0 then _ ← print format [retval]; returns TEST_FAILURE else mret ().

Definition create (path : Z) : test Z := rd_call (fun _ m s => rd_create fuel delim_str m s path).
Definition mkdir (path : Z) : test Z := rd_call (fun _ m s => rd_mkdir fuel delim_str m s path).
Definition unlink (path : Z) : test Z := rd_call (fun cur m s => rd_unlink fuel delim_str cur m s path).
Definition open (path : Z) : test Z := rd_call (fun cur m s => rd_open fuel delim_str cur kmalloc m s path).
Definition close (fd : Z) : test Z := rd_call (fun cur m s => rd_close cur kfree m s fd).
Definition read (fd buf n : Z) : test Z := rd_call (fun cur m s => rd_read cur m s fd buf n).
Definition write (fd buf n : Z) : test Z := rd_call (fun cur m s => rd_write fuel cur m s fd buf n).
Definition lseek (fd offset whence : Z) : test Z := rd_call (fun cur m s => Some (rd_lseek cur m s fd offset whence)).
Definition readdir (fd buf : Z) : test Z := rd_call (fun cur m s => Some (rd_readdir cur m s fd buf)).

(** ** The tests *)

(** [for (i = 0; i < MAX_FILES + 1; i++)] *)
Fixpoint create_files (n : nat) (i c : Z) : test () :=
  match n with
  | O => mret ()
  | S k =>
      _ ← sprintf_path (chars "/file") [];
      _ ← modify (fun m => store8 m (pathname + 5) c);
      retval ← create pathname;
      _ ← (if retval <? 0 then
             _ ← print fmt_create [retval; pathname];
             if negb (i =? MAX_FILES) then returns TEST_FAILURE else mret ()
           else mret ());
      _ ← modify (fun m => memset m pathname 0 80);
      create_files k (i + 1) (s8 (c + 1))
  end.

(** [for (i = 0; i < MAX_FILES; i++)] *)
Fixpoint delete_files (n : nat) (c : Z) : test () :=
  match n with
  | O => mret ()
  | S k =>
      _ ← sprintf_path (chars "/file") [];
      _ ← modify (fun m => store8 m (pathname + 5) c);
      retval ← unlink pathname;
      _ ← check retval fmt_unlink;
      _ ← modify (fun m => memset m pathname 0 80);
      delete_files k (s8 (c + 1))
  end.

Definition test1 : test () :=
  _ ← create_files (Z.to_nat (MAX_FILES + 1)) 0 48;
  delete_files (Z.to_nat MAX_FILES) 48.

(** The result is the descriptor [fd]. *)
Definition test2 : test Z :=
  retval ← create (lit (chars "/bigfile"));
  _ ← check retval (line (chars "creat: File creation error! status: %d"));
  retval ← open (lit (chars "/bigfile"));
  _ ← check retval (line (chars "open: File open error! status: %d"));
  let fd := retval in
  retval ← write fd data1 DATA1_SIZE;
  _ ← check retval (line (chars "write: File write STAGE1 error! status: %d"));
  retval ← write fd data2 DATA2_SIZE;
  _ ← check retval (line (chars "write: File write STAGE2 error! status: %d"));
  retval ← write fd data3 DATA3_SIZE;
  _ ← check retval (line (chars "write: File write STAGE3 error! status: %d"));
  _ ← print (line (chars "test2 ok")) [];
  mret fd.

Definition test3 (fd : Z) : test () :=
  retval ← lseek fd 0 SEEK_SET;
  _ ← check retval (line (chars "lseek: File seek error! status: %d"));
  retval ← read fd addr DATA1_SIZE;
  _ ← check retval (line (chars "read: File read STAGE1 error! status: %d"));
  _ ← print (line (chars "Data at addr: %s")) [addr];
  retval ← read fd addr DATA2_SIZE;
  _ ← check retval (line (chars "read: File read STAGE2 error! status: %d"));
  _ ← print (line (chars "Data at addr: %s")) [addr];
  retval ← read fd addr DATA3_SIZE;
  _ ← check retval (line (chars "read: File read STAGE3 error! status: %d"));
  _ ← print (line (chars "Data at addr: %s")) [addr];
  retval ← close fd;
  _ ← check retval (line (chars "close: File close error! status: %d"));
  retval ← unlink (lit (chars "/bigfile"));
  check retval (line (chars "unlink: /bigfile file deletion error! status: %d")).

(** [while ((retval = rd_readdir(fd, addr)))] *)
Fixpoint list_entries (n : nat) (fd : Z) : test () :=
  match n with
  | O => fun _ => None
  | S k =>
      retval ← readdir fd addr;
      if c_true retval then
        _ ← check retval (line (chars "readdir: Directory read error! status: %d"));
        let index_node_number := addr + 14 in
        _ ← print (line (chars "Contents at addr: [%s,%x]")) [addr; index_node_number];
        list_entries k fd
      else mret ()
  end.

Definition test4 : test () :=
  retval ← mkdir (lit (chars "/dir1"));
  _ ← check retval (line (chars "mkdir: Directory 1 creation error! status: %d"));
  retval ← mkdir (lit (chars "/dir1/dir2"));
  _ ← check retval (line (chars "mkdir: Directory 2 creation error! status: %d"));
  retval ← mkdir (lit (chars "/dir1/dir3"));
  _ ← check retval (line (chars "mkdir: Directory 3 creation error! status: %d"));
  retval ← open (lit (chars "/dir1"));
  _ ← check retval (line (chars "open: Directory open error! status: %d"));
  let fd := retval in
  _ ← modify (fun m => memset m addr 0 ADDR_SIZE);
  list_entries fuel fd.

Definition create_thread (callable : Z) : test Z := fun w =>
  '(m, sc, tid) ← kthread_create kmalloc (w_mem w) (w_sched w) callable 0;
  Some (World m (w_video w) (w_rd w) sc, inr tid).

Definition test5 : test () :=
  thread0_id ← create_thread rd_test_thread0;
  _ ← (if thread0_id =? -1 then print (line (chars "    Could not create thread 0")) []
       else print (line (chars "    Thread 0 created with tid = %d")) [thread0_id]);
  thread1_id ← create_thread rd_test_thread1;
  if thread1_id =? -1 then print (10 :: line (chars "    Could not create thread 1")) []
  else print (10 :: line (chars "    Thread 1 created with tid = %d")) [thread1_id].

(** The value that the function returns. *)
Definition result (t : test Z) (w : world) : option (world * Z) :=
  '(w, r) ← t w;
  Some (w, match r with inl r => r | inr r => r end).

Definition run_tests : world -> option (world * Z) := result (
  _ ← modify (fun m => memset m data1 49 DATA1_SIZE);
  _ ← modify (fun m => memset m data2 50 DATA2_SIZE);
  _ ← modify (fun m => memset m data3 51 DATA3_SIZE);
  _ ← test1;
  fd ← test2;
  _ ← test3 fd;
  _ ← test4;
  _ ← test5;
  mret TEST_SUCCESS).

(** ** The threads *)

(** [for (i = 0; i < 300; i++)] *)
Fixpoint thread_files (format err : list Z) (n : nat) (i : Z) : test () :=
  match n with
  | O => mret ()
  | S k =>
      _ ← sprintf_path format [i];
      retval ← create pathname;
      _ ← check retval err;
      _ ← modify (fun m => memset m pathname 0 80);
      thread_files format err k (i + 1)
  end.

Definition test_thread0 : world -> option (world * Z) := result (
  _ ← thread_files (chars "/file_t0_%d")
        (line (chars "(thread0) create: File creation error! status: %d")) (Z.to_nat 300) 0;
  mret 0).

Definition test_thread1 : world -> option (world * Z) := result (
  _ ← thread_files (chars "/file_t1_%d")
        (line (chars "(thread1) create: File creation error! status: %d")) (Z.to_nat 300) 0;
  mret 0).
End RunTests.
