(* ===== verification/TestRdProps.v ===== *)
(** * TestRdProps: what the test of the file system reports

    On a new file system [run_tests] creates its sixteen files and is refused the
    seventeenth, but its second deletion fails: the entry that the first deletion has
    emptied hides the other files.  The test returns TEST_FAILURE. *)

From Stdlib Require Import Strings.String.
From S2P Require Import Prelude Memory Portio Klib Mutex Context SchedQueue Sched SchedExample Ramdisk RamdiskBlocks.
From S2P Require Import RamdiskPath RamdiskUnlink Kvideo KvideoProps Console TestRd.

(** The names of the files: "file" and a character. *)
Definition file_name (k : Z) : list Z := [102; 105; 108; 101; 48 + k].

(** ** The state of the disk *)

(** The root directory holds the first [n] files, in inodes 1 to [n]; its other entries
    and the inodes up to 16 are zero. *)
Record files_made (s : rd_state) (n : Z) (m : mem) : Prop := {
  fm_root : i_dirblock_ptr m (__inode_array s) = __root_blk s;
  fm_dir : i_type m (__inode_array s) = INODE_DIR;
  fm_name k : 0 <= k < n -> cstr m (dirent (__root_blk s) k) (file_name k);
  fm_num k : 0 <= k < n -> d_inode_num m (dirent (__root_blk s) k) = k + 1;
  fm_type k : 0 <= k < n -> i_type m (__inode_array s + INODE_SIZE * (k + 1)) = INODE_REG;
  fm_size k : 0 <= k < n -> i_size m (__inode_array s + INODE_SIZE * (k + 1)) = 0;
  fm_free k i : n <= k < 16 -> 0 <= i < 16 -> load8 m (dirent (__root_blk s) k + i) = 0;
  fm_inode k i : n <= k < 16 -> 0 <= i < 64 -> load8 m (__inode_array s + INODE_SIZE * (k + 1) + i) = 0
}.

(** A disk that has just been initialised. *)
Lemma new_disk_files m base :
  0 <= base -> base + UFS_DISK_SIZE <= 4294967296 -> files_made (rd_at base) 0 (init_rdisk m base).1.
Proof.
  unfold UFS_DISK_SIZE. intros Hb Hb'. pose proof (fun a => init_rdisk_bytes m base a Hb) as H. cbv zeta in H.
  set (m' := (init_rdisk m base).1) in *. clearbody m'.
  split; try lia; unfold dirent, DIRENT_SIZE, INODE_SIZE; simpl.
  - unfold i_dirblock_ptr. rewrite <- (u32_small (base + 0x64000)), <- Z.add_assoc by lia. by apply (H base).
  - by apply (H base).
  - intros k i Hk Hi. apply H; unfold off; lia.
  - intros k i Hk Hi. apply H; unfold off; lia.
Qed.

(** The bytes of inodes, bitmap and root directory. *)
Definition disk_area (s : rd_state) (a : Z) : Prop := __inode_array s <= a < __root_blk s + 256.

Lemma files_made_frame s n m m' :
  __inode_array s + 0x20000 <= __root_blk s -> 0 <= n <= 16 ->
  files_made s n m -> same_on (disk_area s) m m' -> files_made s n m'.
Proof.
  intros Ha Hn [F1 F2 F3 F4 F5 F6 F7 F8] Hs. unfold disk_area, dirent, INODE_SIZE, DIRENT_SIZE in *.
  split; unfold dirent, INODE_SIZE, DIRENT_SIZE.
  - rewrite <- F1. apply (same_on_load32 _ _ _ _ Hs). lia.
  - rewrite <- F2. apply (same_on_load32 _ _ _ _ Hs). lia.
  - intros k Hk. eapply cstr_ext; [|by apply F3]. intros i Hi. cbn [length file_name] in Hi. apply Hs. lia.
  - intros k Hk. rewrite <- (F4 k Hk). apply load16_ext. intros i Hi. apply Hs. lia.
  - intros k Hk. rewrite <- (F5 k Hk). apply (same_on_load32 _ _ _ _ Hs). lia.
  - intros k Hk. rewrite <- (F6 k Hk). apply (same_on_load32 _ _ _ _ Hs). lia.
  - intros k i Hk Hi. rewrite Hs by lia. by apply F7.
  - intros k i Hk Hi. rewrite Hs by lia. by apply F8.
Qed.

(** One more file. *)
Lemma files_made_next s n m m' :
  __inode_array s + 0x20000 <= __root_blk s -> 0 <= n < 16 -> files_made s n m ->
  let d := dirent (__root_blk s) n in
  let inode := __inode_array s + INODE_SIZE * (n + 1) in
  cstr m' d (file_name n) -> d_inode_num m' d = n + 1 -> i_type m' inode = INODE_REG -> i_size m' inode = 0 ->
  (forall a, off inode 8 a -> off d 16 a -> load8 m' a = load8 m a) -> files_made s (n + 1) m'.
Proof.
  intros Ha Hn [F1 F2 F3 F4 F5 F6 F7 F8] d inode G1 G2 G3 G4 Hs.
  unfold d, inode, dirent, INODE_SIZE, DIRENT_SIZE in *. split; unfold dirent, INODE_SIZE, DIRENT_SIZE.
  - rewrite <- F1. apply load32_ext. intros i Hi. apply Hs; unfold off; lia.
  - rewrite <- F2. apply load32_ext. intros i Hi. apply Hs; unfold off; lia.
  - intros k Hk. destruct (decide (k = n)) as [->|]; [done|]. eapply cstr_ext; [|apply F3; lia].
    intros i Hi. cbn [length file_name] in Hi. apply Hs; unfold off; lia.
  - intros k Hk. destruct (decide (k = n)) as [->|]; [done|]. rewrite <- (F4 k) by lia.
    apply load16_ext. intros i Hi. apply Hs; unfold off; lia.
  - intros k Hk. destruct (decide (k = n)) as [->|]; [done|]. rewrite <- (F5 k) by lia.
    apply load32_ext. intros i Hi. apply Hs; unfold off; lia.
  - intros k Hk. destruct (decide (k = n)) as [->|]; [done|]. rewrite <- (F6 k) by lia.
    apply load32_ext. intros i Hi. apply Hs; unfold off; lia.
  - intros k i Hk Hi. rewrite Hs by (unfold off; lia). apply F7; lia.
  - intros k i Hk Hi. rewrite Hs by (unfold off; lia). apply F8; lia.
Qed.

(** Two different names: neither is a prefix of the other. *)
Lemma names_apart k n : k <> n -> ~ file_name k `prefix_of` file_name n.
Proof. intros Hne [l E]. unfold file_name in E. cbn in E. simplify_eq. lia. Qed.

Lemma name_no_delim k : 0 <= k -> DELIM ∉ file_name k.
Proof. intros Hk. unfold file_name, DELIM, UFS_DIR_DELIM_CHAR. set_unfold. lia. Qed.

Lemma files_before s n m fuel :
  files_made s n m -> 0 <= n <= 16 -> (16 <= fuel)%nat ->
  forall j k, 0 <= k < n -> k <> j ->
  exists x, cstr m (dirent (__root_blk s) k) x /\ (length x < 14)%nat /\ (length x < fuel)%nat /\ ~ x `prefix_of` file_name j.
Proof.
  intros F Hn Hf j k Hk Hne. exists (file_name k). cbn [length file_name].
  split_and!; [by apply F|lia|lia|by apply names_apart].
Qed.

(** ** The calls *)

Section Calls.
Context (fuel : nat) (delim_str cur : Z) (s : rd_state) (path : Z).
Context (Hlk : fs_unlocked s) (HL : path_layout s path 5 delim_str) (HB : bitmap_inside s) (Hf : (16 <= fuel)%nat).

Lemma create_next m n :
  0 <= n < 16 -> files_made s n m -> cstr m delim_str [DELIM] -> cstr m path (DELIM :: file_name n) ->
  exists m', rd_create fuel delim_str m s path = Some (m', s, 0) /\ files_made s (n + 1) m' /\
    same_on (fun a => ~ disk_area s a) m m'.
Proof using Hlk HL HB Hf.
  intros Hn F Hd Hc. pose proof (pl_array _ _ _ _ HL) as Ha. unfold bitmap_inside in HB.
  destruct (rd_create_spec fuel delim_str m s path (file_name n) n (n + 1))
    as (m' & E & G1 & G2 & G3 & G4 & _ & _ & Hs); try done.
  - apply name_no_delim. lia.
  - cbn [length file_name]. lia.
  - by apply F.
  - intros i Hi. apply F; lia.
  - intros k Hk. apply (files_before s n m fuel F); lia.
  - unfold UFS_NUM_MAX_INODES. lia.
  - apply load32_zero. intros i Hi. apply F; lia.
  - intros k Hk. destruct (decide (k = 0)) as [->|].
    + rewrite Z.mul_0_r, Z.add_0_r, (fm_dir _ _ _ F). done.
    + replace k with (k - 1 + 1) by lia. rewrite (fm_type _ _ _ F) by lia. done.
  - exists m'. split_and!; [done|by apply (files_made_next s n m); try lia|].
    intros a Hna. unfold disk_area, dirent, INODE_SIZE, DIRENT_SIZE in *. apply Hs; unfold off; lia.
Qed.

Lemma free_dirent_none n m dir_blk i :
  (forall k, i <= k < i + Z.of_nat n -> load8 m (dirent dir_blk k) <> 0) -> free_dirent n m dir_blk i = None.
Proof.
  revert i. induction n as [|n IH]; intros i Hk; [done|]. cbn [free_dirent].
  rewrite eqb_ne by (apply Hk; lia). apply IH. intros k Hi. apply Hk. lia.
Qed.

Lemma parent_root m n :
  0 <= n -> cstr m delim_str [DELIM] -> cstr m path (DELIM :: file_name n) ->
  exists m', get_parent_dir_inode fuel delim_str m s path (__root_blk s) = Some (m', __inode_array s) /\
    forall a, load8 m' a = load8 m a.
Proof using HL Hf.
  intros Hn Hd Hc. pose proof (name_no_delim n Hn). destruct HL.
  apply (get_parent_root fuel delim_str m s path (file_name n)); try done; [|cbn [length file_name]; lia..|apply HL].
  lia.
Qed.

(** With sixteen files the next one is refused. *)
Lemma create_full m :
  files_made s 16 m -> cstr m delim_str [DELIM] -> cstr m path (DELIM :: file_name 16) ->
  exists m', rd_create fuel delim_str m s path = Some (m', s, EBOUNDS) /\ forall a, load8 m' a = load8 m a.
Proof using HL Hf.
  intros F Hd Hc. destruct (parent_root m 16) as (m' & E & Hm); try done. exists m'. split; [|done].
  pose proof (pl_array _ _ _ _ HL). unfold rd_create.
  rewrite c_true_nonzero by (destruct HL; lia). cbn [negb]. rewrite E. cbn [mbind option_bind].
  rewrite c_true_nonzero by lia. cbn [negb].
  assert (i_dirblock_ptr m' (__inode_array s) = __root_blk s) as ->.
  { rewrite <- (fm_root _ _ _ F). by apply load32_ext. }
  rewrite free_dirent_none; [done|]. intros k Hk. unfold UFS_MAX_FILE_IN_DIR in Hk. rewrite Hm.
  destruct (fm_name _ _ _ F k) as (_ & -> & _); [lia|done].
Qed.

(** The first file is deleted. *)
Lemma unlink_first m :
  files_made s 16 m -> cstr m delim_str [DELIM] -> cstr m path (DELIM :: file_name 0) ->
  (forall i, 0 <= i < NUM_MAX_FD -> t_fd m cur i = 0) ->
  exists m', rd_unlink fuel delim_str cur m s path = Some (m', s, 0) /\
    (forall i, 0 <= i < 16 -> load8 m' (__root_blk s + i) = 0) /\
    (forall i, 0 <= i < 64 -> load8 m' (__inode_array s + 64 + i) = 0) /\
    same_on (fun a => off (__root_blk s) 16 a /\ off (__inode_array s + 64) 64 a) m m'.
Proof using Hlk HL HB Hf.
  intros F Hd Hc Hfd. pose proof (fm_size _ _ _ F 0 ltac:(lia)) as Hs0. change (0 + 1) with 1 in Hs0.
  assert (root_file fuel m s (file_name 0) 0 1) as HF.
  { split.
    - apply F.
    - apply F.
    - unfold UFS_MAX_FILE_IN_DIR. lia.
    - intros k Hk. lia.
    - apply (fm_name _ _ _ F 0). lia.
    - apply (fm_num _ _ _ F 0). lia.
    - lia.
    - apply (fm_type _ _ _ F 0). lia.
    - by rewrite Hs0.
    - by rewrite Hs0. }
  destruct (parent_root m 0) as (m1 & E1 & Hm1); try done.
  pose proof (unlink_eq fuel delim_str cur m s path (file_name 0) 0 1 Hlk HL HB Hd Hc ltac:(done)
    (name_no_delim 0 ltac:(lia)) ltac:(cbn [length file_name]; lia) HF m1 E1 Hm1) as E.
  rewrite is_open_false in E by (intros k Hk; apply Hfd; unfold NUM_MAX_FD in *; lia).
  exists (unlinked m s 0 1 m1). split; [exact E|].
  assert (direct_blocks m (__inode_array s + INODE_SIZE * 1) = []) as Ed.
  { unfold direct_blocks. by rewrite Hs0. }
  unfold unlinked. rewrite Ed. cbn [freed foldl].
  replace (__inode_array s + INODE_SIZE * 1) with (__inode_array s + 64) by (unfold INODE_SIZE; lia).
  replace (dirent (__root_blk s) 0) with (__root_blk s) by (unfold dirent; lia).
  destruct HB. destruct (cleared_spec m1 (__root_blk s) (__inode_array s + 64)) as (H1 & H2 & H3); [lia|].
  split_and!; [done|done|]. intros a [Ha1 Ha2]. by rewrite H3, Hm1.
Qed.

(** Then the second one is not found. *)
Lemma unlink_second m :
  (forall i, 0 <= i < 16 -> load8 m (__root_blk s + i) = 0) ->
  i_type m (__inode_array s) = INODE_DIR -> cstr m delim_str [DELIM] -> cstr m path (DELIM :: file_name 1) ->
  exists m', rd_unlink fuel delim_str cur m s path = Some (m', s, EBADPATH) /\ forall a, load8 m' a = load8 m a.
Proof using HL Hf.
  intros Hz Ht Hd Hc. destruct (parent_root m 1) as (m' & E & Hm); [done..|].
  exists m'. split; [|done]. unfold rd_unlink. destruct HL as [Hp _ _ _ _].
  rewrite c_true_nonzero by lia. cbn [negb].
  rewrite (lookup_hidden fuel delim_str m s path (file_name 1) 0); try done.
  - cbn [mbind option_bind]. rewrite E. done.
  - apply name_no_delim. lia.
  - lia.
  - cbn [length file_name]. lia.
  - intros k Hk. lia.
  - replace (dirent (__root_blk s) 0) with (__root_blk s + 0) by (unfold dirent; lia). apply Hz. lia.
  - unfold d_inode_num, load16, dirent, DIRENT_SIZE.
    replace (__root_blk s + 16 * 0 + 14) with (__root_blk s + 14) by lia. rewrite <- Z.add_assoc, !Hz by lia. done.
Qed.
End Calls.

(** A number and a string in parentheses. *)
Lemma render_d_s str n w p l :
  str p = Some l ->
  render str (9 + n) [37; 100; 32; 40; 37; 115; 41; 10] [w; p] =
    Some (field 0 false (itoa_text 100 (s32 w)) ++ [Put 32; Put 40] ++ field 0 false l ++ [Put 41; Put 10]).
Proof.
  intros E. assert (conversion str 115 0 false p = Some (field 0 false l)) as Ec by (cbn; by rewrite E).
  transitivity (r ← (r ← (r ← (o ← conversion str 115 0 false p; r ← Some [Put 41; Put 10]; Some (o ++ r));
    Some (Put 40 :: r)); Some (Put 32 :: r)); Some (field 0 false (itoa_text 100 (s32 w)) ++ r)); [reflexivity|].
  by rewrite Ec.
Qed.

(** ** The run *)

Section Run.
Context (fuel : nat) (delim_str sbuf buf null_str : Z) (lit : list Z -> Z) (frame : Z) (lits : list (list Z)).
Context (kmalloc : mem -> Z -> option (mem * Z)) (kfree : mem -> Z -> option mem).
Context (pathname data1 data2 data3 addr thread0 thread1 : Z) (s : rd_state) (sc : sched_state).
Local Abbreviation cur := (__current_task sc).
Local Abbreviation printf := (call_printf fuel buf null_str lit frame).

(** The string arguments of the messages: the last path. *)
Definition last_path (w : Z) : option (list Z) := if w =? pathname then Some (DELIM :: file_name 16) else None.
Definition no_string (w : Z) : option (list Z) := None.

Local Abbreviation con := (console_area buf null_str no_string lit frame lits).
Local Abbreviation shown := (shows null_str no_string lit lits).

Definition path_area (a : Z) : Prop := pathname <= a < pathname + 80.
Definition data_bytes (a : Z) : Prop :=
  data1 <= a < data1 + DATA1_SIZE \/ data2 <= a < data2 + DATA2_SIZE \/ data3 <= a < data3 + DATA3_SIZE.
(** What the test reads and does not write: the delimiter and the descriptors. *)
Definition kept_area (a : Z) : Prop :=
  delim_str <= a < delim_str + 2 \/ cur + 40 <= a < cur + 40 + 4 * NUM_MAX_FD.

(** Where the linker and the kernel have put things. *)
Record test_layout : Prop := {
  tl_fuel : (100 <= fuel)%nat;
  tl_console : console_layout fuel buf null_str last_path lit frame lits;
  tl_lits l : l ∈ [chars "/file"; fmt_create; fmt_unlink] -> l ∈ lits;
  tl_path : path_layout s pathname 5 delim_str;
  tl_bitmap : bitmap_inside s;
  tl_path_area a : path_area a -> ~ disk_area s a /\ ~ kept_area a /\ ~ con a;
  tl_data a : data_bytes a -> ~ disk_area s a /\ ~ kept_area a /\ ~ con a /\ ~ path_area a;
  tl_con a : con a -> ~ disk_area s a /\ ~ kept_area a;
  tl_kept a : kept_area a -> ~ disk_area s a
}.
Context (TL : test_layout) (Hlk : fs_unlocked s).

(** Between two calls. *)
Record testing (n : Z) (m : mem) (v : video_state) (t : mem * video_state) : Prop := {
  te_files : files_made s n m;
  te_path j : 0 <= j < 80 -> load8 m (pathname + j) = 0;
  te_delim : cstr m delim_str [DELIM];
  te_fds i : 0 <= i < NUM_MAX_FD -> t_fd m cur i = 0;
  te_shown : shown m v t
}.

Lemma kept_same m m' :
  same_on kept_area m m' -> cstr m delim_str [DELIM] -> (forall i, 0 <= i < NUM_MAX_FD -> t_fd m cur i = 0) ->
  cstr m' delim_str [DELIM] /\ (forall i, 0 <= i < NUM_MAX_FD -> t_fd m' cur i = 0).
Proof.
  intros Hs Hd Hf. split.
  - eapply cstr_ext; [|exact Hd]. intros i Hi. cbn [length] in Hi. apply Hs. left. lia.
  - intros i Hi. rewrite <- (Hf i Hi). apply (same_on_load32 _ _ _ _ Hs). intros j Hj. right.
    unfold NUM_MAX_FD in *. lia.
Qed.

(** Two areas without a common byte. *)
Lemma areas_disjoint p n q k :
  0 < n -> 0 < k -> (forall a, p <= a < p + n -> ~ q <= a < q + k) -> p + n <= q \/ q + k <= p.
Proof. intros Hn Hk H. specialize (H (Z.max p q)). lia. Qed.

(** The path of the next file. *)
Lemma prepare m v t n :
  0 <= n <= 16 -> shown m v t -> (forall j, 0 <= j < 80 -> load8 m (pathname + j) = 0) ->
  exists m', (forall A (k : test A),
      (_ ← sprintf_path fuel sbuf null_str lit frame pathname (chars "/file") [];
       _ ← modify (fun m => store8 m (pathname + 5) (48 + n)); k) (World m v s sc) = k (World m' v s sc)) /\
    cstr m' pathname (DELIM :: file_name n) /\ same_on (fun a => ~ path_area a) m m'.
Proof using TL.
  intros Hn (_ & _ & _ & Hx & _) Hz.
  assert (chars "/file" ∈ lits) as Hin by (apply (tl_lits TL); by left).
  destruct (sprintf_loop_literal sbuf null_str m (lit (chars "/file")) (chars "/file") fuel pathname frame)
    as (m1 & E & Hl & Hs).
  - by apply Hx.
  - by repeat constructor.
  - pose proof (tl_fuel TL). change (length (chars "/file")) with 5%nat. lia.
  - change (length (chars "/file")) with 5%nat.
    destruct (areas_disjoint pathname 80 (lit (chars "/file")) 6) as [H|H]; [lia|lia| |lia|lia].
    intros a Ha Hb. destruct (tl_path_area TL a Ha) as (_ & _ & Hc). apply Hc. right. left.
    exists (chars "/file"). split; [done|]. unfold text_bytes. change (length (chars "/file")) with 5%nat. lia.
  - change (length (chars "/file")) with 5%nat in *.
    exists (store8 m1 (pathname + 5) (48 + n)). split; [|split].
    + intros A k. unfold mbind, test_bind, sprintf_path, modify, sprintf. cbn [push_words w_mem w_video w_rd w_sched].
      rewrite E. done.
    + cbn in Hl. injection Hl as B0 B1 B2 B3 B4. cbn. unfold DELIM, UFS_DIR_DELIM_CHAR.
      split_and!; try lia; try (by rewrite load8_store8_ne by lia).
      * rewrite load8_store8_eq by lia. apply u8_small. lia.
      * rewrite load8_store8_ne, Hs by (unfold off; lia). rewrite <- (Hz 6) by lia. f_equal. lia.
    + intros a Ha. unfold path_area in Ha. rewrite load8_store8_ne by lia. apply Hs. unfold off. lia.
Qed.

(** Printing a message. *)
Lemma print_no_string m v t f ws os :
  shown m v t -> prints fuel no_string lits f ws os ->
  exists m' v', printf m v f ws = Some (m', v') /\ shown m' v' (run os t) /\ same_on (fun a => ~ con a) m m'.
Proof using TL.
  intros Hs Hp. apply shows_print; [|done|done]. destruct (tl_console TL) as [C1 C2 C3 C4 C5 C6].
  split; try done. intros a [Ha|(w & x & H & _)]; [apply C4; by left|done].
Qed.

(** The message that shows the path. *)
Lemma print_path m v t f ws os :
  shown m v t -> cstr m pathname (DELIM :: file_name 16) -> prints fuel last_path lits f ws os ->
  exists m' v', printf m v f ws = Some (m', v') /\ shown m' v' (run os t) /\
    same_on (fun a => ~ con a /\ ~ path_area a) m m'.
Proof using TL.
  intros (Hv & Ht & Hs & Hx & _) Hc Hp.
  assert (forall w l, last_path w = Some l -> w = pathname /\ l = DELIM :: file_name 16) as Hlast
    by (unfold last_path; intros w l; case_Z; [by intros; simplify_eq|done]).
  assert (string_at null_str pathname = pathname) as Es.
  { unfold string_at. rewrite eqb_ne; [done|]. pose proof (pl_path _ _ _ _ (tl_path TL)). lia. }
  destruct (shows_print fuel buf null_str last_path lit frame lits m v t f ws os) as (m' & v' & E & S & H); try done.
  - apply TL.
  - split; [exact Hv|split; [exact Ht|split; [exact Hs|split; [exact Hx|]]]]. intros w l [-> ->]%Hlast. by rewrite Es.
  - destruct S as (S1 & S2 & S3 & S4 & _). exists m', v'. split; [exact E|]. split; [split; [exact S1|split; [exact S2|split; [exact S3|split; [exact S4|done]]]]|].
    eapply same_on_weaken; [|exact H]. intros a [Ha Hpa] [Hb|[Hb|(w & l & [-> ->]%Hlast & Hb)]].
    + apply Ha. by left.
    + apply Ha. right. by left.
    + apply Hpa. unfold text_bytes in Hb. rewrite Es in Hb. cbn [length file_name] in Hb. unfold path_area. lia.
Qed.

(** What a call that writes elsewhere leaves. *)
Lemma carried P m m' :
  same_on P m m' -> (forall a, kept_area a -> P a) ->
  cstr m delim_str [DELIM] -> (forall i, 0 <= i < NUM_MAX_FD -> t_fd m cur i = 0) ->
  cstr m' delim_str [DELIM] /\ (forall i, 0 <= i < NUM_MAX_FD -> t_fd m' cur i = 0).
Proof. intros Hs HP. apply kept_same. eapply same_on_weaken; [exact HP|exact Hs]. Qed.

Lemma files_carried P n m m' :
  same_on P m m' -> (forall a, disk_area s a -> P a) -> 0 <= n <= 16 -> files_made s n m -> files_made s n m'.
Proof using TL.
  intros Hs HP Hn F. apply (files_made_frame s n m); [apply (tl_path TL)|done|done|].
  eapply same_on_weaken; [exact HP|exact Hs].
Qed.

Lemma shown_carried P m m' v t : same_on P m m' -> (forall a, con a -> P a) -> shown m v t -> shown m' v t.
Proof. intros Hs HP H. eapply shows_frame; [exact H|]. eapply same_on_weaken; [exact HP|exact Hs]. Qed.

Lemma path_apart a : path_area a -> ~ disk_area s a /\ ~ kept_area a /\ ~ con a.
Proof using TL. apply TL. Qed.

(** The path is cleared. *)
Lemma testing_clear m v t n :
  0 <= n <= 16 -> files_made s n m -> cstr m delim_str [DELIM] ->
  (forall i, 0 <= i < NUM_MAX_FD -> t_fd m cur i = 0) -> shown m v t -> testing n (memset m pathname 0 80) v t.
Proof using TL.
  intros Hn F Hd Hfd Hsh.
  assert (same_on (fun a => ~ path_area a) m (memset m pathname 0 80)) as Hs.
  { eapply same_on_weaken; [|by apply memset_same_off]. unfold path_area, off. intros a Ha. lia. }
  destruct (carried _ _ _ Hs) as [K1 K2]; [|done|done|]; [by intros a Ha (_ & Hn' & _)%path_apart|].
  split; [| |done|done|].
  - eapply files_carried; [exact Hs| |done|done]. by intros a Ha (Hn' & _)%path_apart.
  - intros j Hj. rewrite load8_memset by lia. rewrite decide_True by lia. done.
  - eapply shown_carried; [exact Hs| |done]. by intros a Ha (_ & _ & Hn')%path_apart.
Qed.

(** *** The messages *)

Definition create_message : list out :=
  Put <$> line (chars "rd_create: File creation error! status: -4 (/file@)").
Definition unlink_message : list out := Put <$> line (chars "unlink: File deletion error! status: -5").

Lemma create_prints : prints fuel last_path lits fmt_create [EBOUNDS; pathname] create_message.
Proof using TL.
  pose proof (tl_fuel TL) as Hf. split; [apply (tl_lits TL); by right; left|]. split; [done|].
  pose proof (pl_path _ _ _ _ (tl_path TL)) as Hp.
  change (u32 <$> [EBOUNDS; pathname]) with [4294967292; u32 pathname]. rewrite (u32_small pathname) by lia.
  set (text := chars "rd_create: File creation error! status: ").
  assert (fmt_create = text ++ [37; 100; 32; 40; 37; 115; 41; 10]) as -> by by vm_compute.
  assert (length text = 40%nat) as El by by vm_compute.
  replace fuel with (length text + (9 + (fuel - 49)))%nat by lia.
  rewrite (render_text _ _ _ _ _ (Put <$> chars "-4 (/file@)" ++ [10])); [by vm_compute| |].
  - apply (bool_decide_unpack _). by vm_compute.
  - rewrite (render_d_s _ _ _ _ (DELIM :: file_name 16)); [by vm_compute|]. unfold last_path. by rewrite Z.eqb_refl.
Qed.

Lemma unlink_prints : prints fuel no_string lits fmt_unlink [EBADPATH] unlink_message.
Proof using TL.
  pose proof (tl_fuel TL) as Hf. split; [apply (tl_lits TL); by right; right; left|]. split; [done|].
  change (u32 <$> [EBADPATH]) with [4294967291].
  set (text := chars "unlink: File deletion error! status: ").
  assert (fmt_unlink = text ++ [37; 100; 10]) as -> by by vm_compute.
  assert (length text = 37%nat) as El by by vm_compute.
  replace fuel with (length text + (4 + (fuel - 41)))%nat by lia.
  rewrite (render_text _ _ _ _ _ (Put <$> chars "-5" ++ [10])); [by vm_compute| |].
  - apply (bool_decide_unpack _). by vm_compute.
  - rewrite render_d. by vm_compute.
Qed.

(** *** The loops *)

Local Abbreviation make := (create_files printf fuel delim_str sbuf null_str lit frame pathname).
Local Abbreviation delete := (delete_files printf fuel delim_str sbuf null_str lit frame pathname).

Lemma path_only m m1 :
  same_on (fun a => ~ path_area a) m m1 -> forall n v t, 0 <= n <= 16 -> testing n m v t ->
  files_made s n m1 /\ cstr m1 delim_str [DELIM] /\ (forall i, 0 <= i < NUM_MAX_FD -> t_fd m1 cur i = 0) /\ shown m1 v t.
Proof using TL.
  intros Hs n v t Hn [F Hz Hd Hfd Hsh].
  destruct (carried _ _ _ Hs) as [K1 K2]; [|done|done|]; [by intros a Ha (_ & Hn' & _)%path_apart|].
  split_and!; [|done|done|].
  - eapply files_carried; [exact Hs| |done|done]. by intros a Ha (Hn' & _)%path_apart.
  - eapply shown_carried; [exact Hs| |done]. by intros a Ha (_ & _ & Hn')%path_apart.
Qed.

(** The seventeenth file. *)
Lemma make_last m v t :
  testing 16 m v t ->
  exists m' v', make 1 16 64 (World m v s sc) = Some (World m' v' s sc, inr ()) /\ testing 16 m' v' (run create_message t).
Proof using TL Hlk.
  intros T. destruct (prepare m v t 16) as (m1 & E1 & Hc & Hs1); [lia|apply T|apply T|].
  destruct (path_only m m1 Hs1 16 v t ltac:(lia) T) as (F & Hd & Hfd & Hsh).
  destruct (create_full fuel delim_str s pathname (tl_path TL) ltac:(pose proof (tl_fuel TL); lia) m1 F Hd Hc)
    as (m2 & E2 & Hm2).
  assert (forall P, same_on P m1 m2) as Hs2 by (intros P a _; apply Hm2).
  destruct (print_path m2 v t fmt_create [EBOUNDS; pathname] create_message) as (m3 & v3 & E3 & Hsh3 & Hs3).
  { apply (shown_carried (fun _ => True) m1 m2); [apply Hs2|done|done]. }
  { eapply cstr_ext; [|exact Hc]. intros; apply Hm2. }
  { apply create_prints. }
  exists (memset m3 pathname 0 80), v3. split.
  - change (make 1 16 64) with (make 1 16 (48 + 16)). cbn [create_files]. etransitivity; [apply E1|].
    unfold mbind, test_bind, create, rd_call. cbn [w_mem w_video w_rd w_sched]. rewrite E2.
    cbn [mbind option_bind]. change (EBOUNDS <? 0) with true. cbv iota. unfold print. cbn [w_mem w_video w_rd w_sched].
    rewrite E3. reflexivity.
  - assert (same_on (fun a => ~ con a /\ ~ path_area a) m1 m3) as H13 by (transitivity m2; [apply Hs2|done]).
    destruct (carried _ _ _ H13) as [K1 K2]; [|done|done|].
    { intros a Ha. split; [by intros [_ Hn']%(tl_con TL)|by intros (_ & Hn' & _)%path_apart]. }
    apply testing_clear; [lia| |done|done|done]. eapply files_carried; [exact H13| |lia|done].
    intros a Ha. split; [by intros [Hn' _]%(tl_con TL)|by intros (Hn' & _)%path_apart].
Qed.

(** The sixteen files, and the refusal. *)
Lemma make_all j n m v t :
  testing n m v t -> 0 <= n -> n + Z.of_nat j = 16 ->
  exists m' v', make (S j) n (48 + n) (World m v s sc) = Some (World m' v' s sc, inr ()) /\
    testing 16 m' v' (run create_message t).
Proof using TL Hlk.
  clear kmalloc kfree. revert n m. induction j as [|j IH]; intros n m T Hn Hj.
  { replace n with 16 in * by lia. by apply make_last. }
  destruct (prepare m v t n) as (m1 & E1 & Hc & Hs1); [lia|apply T|apply T|].
  destruct (path_only m m1 Hs1 n v t ltac:(lia) T) as (F & Hd & Hfd & Hsh).
  destruct (create_next fuel delim_str s pathname Hlk (tl_path TL) (tl_bitmap TL) ltac:(pose proof (tl_fuel TL); lia)
    m1 n ltac:(lia) F Hd Hc) as (m2 & E2 & F2 & Hs2).
  destruct (carried _ _ _ Hs2) as [K1 K2]; [by apply (tl_kept TL)|done|done|].
  assert (testing (n + 1) (memset m2 pathname 0 80) v t) as T2.
  { apply testing_clear; [lia|done|done|done|]. eapply shown_carried; [exact Hs2| |done]. by intros a [Hn' _]%(tl_con TL). }
  destruct (IH (n + 1) _ T2) as (m' & v' & E & T'); [lia|lia|]. exists m', v'. split; [|done].
  cbn [create_files]. etransitivity; [apply E1|].
  unfold mbind at 1, test_bind at 1, create at 1, rd_call at 1. cbn [w_mem w_video w_rd w_sched]. rewrite E2.
  cbn [mbind option_bind]. change (0 <? 0) with false. cbv iota.
  assert (s8 (48 + n + 1) = 48 + (n + 1)) as -> by (unfold s8; dlia). rewrite <- E. reflexivity.
Qed.

(** One deletion: the call, the test of its result, the clearing of the path. *)
Lemma delete_step k n m v m1 m2 r :
  0 <= n <= 16 ->
  (forall A (c : test A), (_ ← sprintf_path fuel sbuf null_str lit frame pathname (chars "/file") [];
      _ ← modify (fun m => store8 m (pathname + 5) (48 + n)); c) (World m v s sc) = c (World m1 v s sc)) ->
  rd_unlink fuel delim_str cur m1 s pathname = Some (m2, s, r) ->
  delete (S k) (48 + n) (World m v s sc) =
    if r <? 0 then
      '(m3, v3) ← printf m2 v fmt_unlink [r]; Some (World m3 v3 s sc, inl TEST_FAILURE)
    else delete k (48 + (n + 1)) (World (memset m2 pathname 0 80) v s sc).
Proof.
  clear kmalloc kfree. intros Hn E1 E2. cbn [delete_files]. etransitivity; [apply E1|].
  unfold mbind at 1, test_bind at 1, unlink at 1, rd_call at 1. cbn [w_mem w_video w_rd w_sched]. rewrite E2.
  cbn [mbind option_bind]. assert (s8 (48 + n + 1) = 48 + (n + 1)) as -> by (unfold s8; dlia).
  unfold mbind at 1, test_bind at 1, check. destruct (r <? 0); [|reflexivity].
  unfold mbind at 1, test_bind at 1, print. cbn [w_mem w_video w_rd w_sched].
  destruct (printf m2 v fmt_unlink [r]) as [[m3 v3]|]; reflexivity.
Qed.

(** The second deletion ends the test. *)
Lemma delete_fails m v t :
  testing 16 m v t ->
  exists m' v', delete 16 48 (World m v s sc) = Some (World m' v' s sc, inl TEST_FAILURE) /\
    shown m' v' (run unlink_message t) /\ (forall i, 0 <= i < 16 -> load8 m' (__root_blk s + i) = 0) /\
    (forall k, 1 <= k < 16 -> cstr m' (dirent (__root_blk s) k) (file_name k)).
Proof using TL Hlk.
  clear kmalloc kfree. intros T. assert (16 <= fuel)%nat as Hf by (pose proof (tl_fuel TL); lia).
  pose proof (pl_array _ _ _ _ (tl_path TL)) as Ha. destruct (tl_bitmap TL) as [B1 B2].
  destruct (prepare m v t 0) as (m1 & E1 & Hc1 & Hs1); [lia|apply T|apply T|].
  destruct (path_only m m1 Hs1 16 v t ltac:(lia) T) as (F1 & Hd1 & Hfd1 & Hsh1).
  destruct (unlink_first fuel delim_str cur s pathname Hlk (tl_path TL) (tl_bitmap TL) Hf m1 F1 Hd1 Hc1 Hfd1)
    as (m2 & E2 & Hz2 & _ & Hs2).
  assert (same_on (fun a => ~ disk_area s a) m1 m2) as Hs2'.
  { eapply same_on_weaken; [|exact Hs2]. unfold disk_area, off. intros a Hna. lia. }
  destruct (carried _ _ _ Hs2') as [Hd2 Hfd2]; [by apply (tl_kept TL)|done|done|].
  set (m3 := memset m2 pathname 0 80).
  assert (same_on (fun a => ~ path_area a) m2 m3) as Hs3.
  { eapply same_on_weaken; [|by apply memset_same_off]. unfold path_area, off. intros a Hna. lia. }
  assert (shown m3 v t) as Hsh3.
  { eapply shown_carried; [exact Hs3|by intros a Hca (_ & _ & Hn')%path_apart|].
    eapply shown_carried; [exact Hs2'|by intros a [Hn' _]%(tl_con TL)|done]. }
  destruct (carried _ _ _ Hs3) as [Hd3 Hfd3]; [by intros a Hka (_ & Hn' & _)%path_apart|done|done|].
  destruct (prepare m3 v t 1) as (m4 & E4 & Hc4 & Hs4); [lia|done| |].
  { intros j Hj. unfold m3. rewrite load8_memset by lia. rewrite decide_True by lia. done. }
  assert (same_on (disk_area s) m2 m4) as Hs24.
  { transitivity m3; (eapply same_on_weaken; [|eassumption]); by intros a Hda (Hn' & _)%path_apart. }
  destruct (carried _ _ _ Hs4) as [Hd4 _]; [by intros a Hka (_ & Hn' & _)%path_apart|done|done|].
  assert (forall i, 0 <= i < 16 -> load8 m4 (__root_blk s + i) = 0) as Hz4.
  { intros i Hi. rewrite Hs24 by (unfold disk_area; lia). by apply Hz2. }
  assert (i_type m4 (__inode_array s) = INODE_DIR) as Ht4.
  { rewrite <- (fm_dir _ _ _ F1). apply load32_ext. intros i Hi.
    rewrite Hs24 by (unfold disk_area; lia). apply Hs2. unfold off. lia. }
  destruct (unlink_second fuel delim_str cur s pathname (tl_path TL) Hf m4 Hz4 Ht4 Hd4 Hc4) as (m5 & E5 & Hm5).
  assert (forall P, same_on P m4 m5) as Hs5 by (intros P b _; apply Hm5).
  destruct (print_no_string m5 v t fmt_unlink [EBADPATH] unlink_message) as (m6 & v6 & E6 & Hsh6 & Hs6).
  { apply (shown_carried (fun _ => True) m4 m5); [apply Hs5|done|].
    eapply shown_carried; [exact Hs4|by intros a Hca (_ & _ & Hn')%path_apart|done]. }
  { apply unlink_prints. }
  assert (same_on (disk_area s) m2 m6) as Hs26.
  { transitivity m4; [done|]. transitivity m5; [apply Hs5|]. eapply same_on_weaken; [|exact Hs6].
    by intros a Hda [Hn' _]%(tl_con TL). }
  exists m6, v6. split_and!; [|done| |].
  - pose proof (delete_step 15 0 m v m1 m2 0 ltac:(lia) E1 E2) as D1. cbn [Z.ltb] in D1.
    pose proof (delete_step 14 1 m3 v m4 m5 EBADPATH ltac:(lia) E4 E5) as D2. change (EBADPATH <? 0) with true in D2.
    rewrite E6 in D2. change (0 <? 0) with false in D1. cbv iota in D1. fold m3 in D1.
    etransitivity; [exact D1|]. etransitivity; [exact D2|]. reflexivity.
  - intros i Hi. rewrite Hs26 by (unfold disk_area; lia). by apply Hz2.
  - intros k Hk. eapply cstr_ext; [|apply (fm_name _ _ _ F1); lia]. intros i Hi. cbn [length file_name] in Hi.
    unfold dirent, DIRENT_SIZE. rewrite Hs26 by (unfold disk_area; lia). apply Hs2. unfold off. lia.
Qed.

(** C20: the repository's test of the file system fails.  On a new file system
    [run_tests] creates sixteen files, prints that the seventeenth is refused, deletes
    the first file, does not find the second one, says so and returns TEST_FAILURE;
    fifteen files are left in the directory behind the entry that hides them. *)
Theorem run_tests_fails m v t :
  files_made s 0 m -> (forall j, 0 <= j < 80 -> load8 m (pathname + j) = 0) ->
  cstr m delim_str [DELIM] -> (forall i, 0 <= i < NUM_MAX_FD -> t_fd m cur i = 0) -> shown m v t ->
  exists m' v', run_tests printf kmalloc kfree fuel delim_str sbuf null_str lit frame pathname data1 data2 data3 addr
      thread0 thread1 (World m v s sc) = Some (World m' v' s sc, TEST_FAILURE) /\
    shown m' v' (run (create_message ++ unlink_message) t) /\
    (forall i, 0 <= i < 16 -> load8 m' (__root_blk s + i) = 0) /\
    (forall k, 1 <= k < 16 -> cstr m' (dirent (__root_blk s) k) (file_name k)).
Proof using TL Hlk.
  intros F Hz Hd Hfd Hsh.
  set (m1 := memset (memset (memset m data1 49 DATA1_SIZE) data2 50 DATA2_SIZE) data3 51 DATA3_SIZE).
  assert (same_on (fun a => ~ data_bytes a) m m1) as Hs.
  { intros a Ha. unfold data_bytes in Ha. unfold m1. rewrite !load8_memset by (vm_compute; by split).
    by rewrite !decide_False by lia. }
  destruct (carried _ _ _ Hs) as [Hd1 Hfd1]; [by intros a Ha (_ & Hn & _)%(tl_data TL)|done|done|].
  assert (testing 0 m1 v t) as T.
  { split; [| |done|done|].
    - eapply files_carried; [exact Hs| |lia|done]. by intros a Ha (Hn & _)%(tl_data TL).
    - intros j Hj. rewrite <- (Hz j Hj). apply Hs. intros (_ & _ & _ & Hn)%(tl_data TL). apply Hn. unfold path_area. lia.
    - eapply shown_carried; [exact Hs| |done]. by intros a Ha (_ & _ & Hn & _)%(tl_data TL). }
  destruct (make_all 16 0 m1 v t T) as (m2 & v2 & E2 & T2); [lia|lia|].
  destruct (delete_fails m2 v2 _ T2) as (m3 & v3 & E3 & Hsh3 & Hz3 & Hn3).
  exists m3, v3. rewrite run_app. split_and!; [|done..].
  assert (test1 printf fuel delim_str sbuf null_str lit frame pathname (World m1 v s sc)
    = Some (World m3 v3 s sc, inl TEST_FAILURE)) as E1.
  { unfold test1. unfold mbind, test_bind. change (Z.to_nat (MAX_FILES + 1)) with 17%nat.
    change 48 with (48 + 0) at 1. rewrite E2. exact E3. }
  unfold run_tests, result, mbind, test_bind, modify. cbn [w_mem w_video w_rd w_sched]. fold m1. by rewrite E1.
Qed.
End Run.

(** ** A run on the disk at 0x100000 *)

Definition ex_test_lits : list (list Z) := [chars "/file"; fmt_create; fmt_unlink].
Definition ex_test_mem : mem := store_bytes (ex_texts ex_test_lits fresh_disk) 0x3000 [47; 0].
Definition ex_test_video : video_state := VideoState 7 0 0 VIDEO.
Definition ex_test_sched : sched_state := SchedState unlocked 1 1 0 0 0xd0000 0 0 0.

Lemma ex_test_lits_ok : (length ex_test_lits <= 256)%nat /\ Forall (fun l => (length l < 256)%nat) ex_test_lits.
Proof. split; [simpl; lia|]. apply (bool_decide_unpack _). by vm_compute. Qed.

Lemma ex_test_con a :
  console_area ex_buf 0 no_string (ex_lit ex_test_lits) ex_frame ex_test_lits a -> 0x4000 <= a < 0xb8fa0.
Proof.
  destruct ex_test_lits_ok as [H1 H2]. intros Ha. apply (ex_area_range ex_test_lits) in Ha; [|done|done].
  revert Ha. change SCREEN_SIZE with 4000. unfold ex_buf, VIDEO. lia.
Qed.

Lemma ex_test_console :
  console_layout 300 ex_buf 0 (last_path 0xc0000) (ex_lit ex_test_lits) ex_frame ex_test_lits.
Proof.
  destruct ex_test_lits_ok as [H1 H2]. destruct (ex_layout ex_test_lits H1 H2) as [C1 C2 C3 C4 C5 _].
  assert (forall w l, last_path 0xc0000 w = Some l -> w = 0xc0000 /\ length l = 6%nat) as Hl
    by (unfold last_path; intros w l; case_Z; [by intros; simplify_eq|done]).
  split; [done|done|done| |done|].
  - intros a [Ha|(w & l & [-> El]%Hl & Ha)]; [apply C4; by left|].
    unfold text_bytes, string_at in Ha. rewrite El in Ha. change (0xc0000 =? 0) with false in Ha. cbv iota in Ha.
    unfold scratch, on_screen, ex_buf, ex_frame, FRAME_WORDS, VIDEO. change SCREEN_SIZE with 4000. lia.
  - intros w l [-> El]%Hl. rewrite El. unfold off_screen, string_at, VIDEO. change SCREEN_SIZE with 4000.
    change (0xc0000 =? 0) with false. cbv iota. lia.
Qed.

Lemma ex_test_layout :
  test_layout 300 0x3000 ex_buf 0 (ex_lit ex_test_lits) ex_frame ex_test_lits 0xc0000 0xc1000 0xc2000 0x400000
    (rd_at 0x100000) ex_test_sched.
Proof.
  assert (forall a, disk_area (rd_at 0x100000) a -> 0x104000 <= a < 0x164100) as Hdisk
    by (unfold disk_area; simpl; intros a; lia).
  assert (forall a, kept_area 0x3000 ex_test_sched a -> 0x3000 <= a < 0x3002 \/ 0xd0028 <= a < 0xd0068) as Hkept
    by (unfold kept_area, NUM_MAX_FD; simpl; intros a; lia).
  assert (forall a, data_bytes 0xc1000 0xc2000 0x400000 a -> 0xc1000 <= a < 0xc6000 \/ 0x400000 <= a < 0x500000) as Hdata.
  { unfold data_bytes. change DATA1_SIZE with 0x800. change DATA2_SIZE with 0x4000. change DATA3_SIZE with 0x100000.
    intros a. lia. }
  split.
  - lia.
  - exact ex_test_console.
  - done.
  - split; unfold off; simpl; lia.
  - split; simpl; lia.
  - unfold path_area. intros a Ha. split_and!; [intros H%Hdisk|intros H%Hkept|intros H%ex_test_con]; lia.
  - intros a Ha%Hdata. unfold path_area. split_and!; [intros H%Hdisk|intros H%Hkept|intros H%ex_test_con|]; lia.
  - intros a Ha%ex_test_con. split; [intros H%Hdisk|intros H%Hkept]; lia.
  - intros a Ha%Hkept H%Hdisk. lia.
Qed.

Lemma ex_test_files : files_made (rd_at 0x100000) 0 ex_test_mem.
Proof.
  pose proof (zeros_ok ex_test_mem 0x164000 256 ltac:(by vm_compute)) as H1.
  pose proof (zeros_ok ex_test_mem 0x104040 1024 ltac:(by vm_compute)) as H2.
  split; [by vm_compute|by vm_compute|intros; lia|intros; lia|intros; lia|intros; lia|..]; intros k i Hk Hi.
  - rewrite <- (H1 (16 * k + i)) by lia. f_equal. unfold dirent, DIRENT_SIZE. simpl. lia.
  - rewrite <- (H2 (64 * k + i)) by lia. f_equal. unfold INODE_SIZE. simpl. lia.
Qed.

Lemma run_tests_fails_witness :
  exists m' v', run_tests (call_printf 300 ex_buf 0 (ex_lit ex_test_lits) ex_frame) ex_kmalloc ex_kfree
      300 0x3000 0x5100 0 (ex_lit ex_test_lits) ex_frame 0xc0000 0xc1000 0xc2000 0x400000 0x600000 0x6300 0x6400
      (World ex_test_mem ex_test_video (rd_at 0x100000) ex_test_sched) =
    Some (World m' v' (rd_at 0x100000) ex_test_sched, TEST_FAILURE) /\
    (forall k, 1 <= k < 16 -> cstr m' (dirent 0x164000 k) (file_name k)).
Proof.
  destruct (run_tests_fails 300 0x3000 0x5100 ex_buf 0 (ex_lit ex_test_lits) ex_frame ex_test_lits
    ex_kmalloc ex_kfree 0xc0000 0xc1000 0xc2000 0x400000 0x600000 0x6300 0x6400 (rd_at 0x100000)
    ex_test_sched ex_test_layout eq_refl ex_test_mem ex_test_video (ex_test_mem, ex_test_video))
    as (m' & v' & E & _ & _ & Hn).
  - exact ex_test_files.
  - apply zeros_ok. by vm_compute.
  - by vm_compute.
  - assert (forallb (fun i => t_fd ex_test_mem 0xd0000 i =? 0) (seqZ 0 NUM_MAX_FD) = true) as H by (by vm_compute).
    intros i Hi. rewrite List.forallb_forall in H. apply Z.eqb_eq, H, list_elem_of_In, elem_of_seqZ. lia.
  - split; [by vm_compute|]. split; [done|]. split; [done|]. apply ex_texts_in. by vm_compute.
  - exists m', v'. split; [exact E|exact Hn].
Defined.
