(* ===== verification/Keyboard.v ===== *)
(** * Keyboard: what the Linux keyboard modules of src/primer share

    kbd_bw_driver.c (KbdBw.v) polls the keyboard controller, kbd_irq_driver.c (KbdIrq.v)
    reads it in an interrupt handler.  The controller is the device of Portio.v; the
    kernel's functions are parameters, or events of a log when their effect stays
    outside the modules. *)

From Stdlib Require Import Strings.String.
From S2P Require Import Prelude Memory Portio Kvideo.

(** [static char scancode[128]] of [kbd_readkey] *)
Definition scancode : list Z :=
  [0; 27] ++ chars "1234567890-=" ++ [127; 9] ++ chars "qwertyuiop[]" ++ [10; 0] ++
  chars "asdfghjkl;'`" ++ [0; 92] ++ chars "zxcvbnm,./" ++ [0] ++ chars "*" ++ [0] ++ chars " " ++
  replicate 13 0 ++ chars "789-456+1230." ++ replicate 44 0.

(** [scancode[(int)c]]; [None]: outside the array *)
Definition scancode_at (c : Z) : option Z := if c <? 0 then None else scancode !! Z.to_nat c.

(** Calls of the kernel whose effect the modules do not read. *)
Inductive kcall :=
  | Printk (format : list Z) (args : list Z)
  | Disable_irq (line : Z)
  | Enable_irq (line : Z)
  | Wake_up_interruptible
  | Init_waitqueue_head
  | Free_irq (line cookie : Z)
  | Remove_proc_entry (name : list Z).

#[export] Instance kcall_eq_dec : EqDecision kcall.
Proof. solve_decision. Defined.

(** The static variables of a module: [ioctl] of the file operations, the entry in
    /proc and its operations, and [charbuf] of the second module. *)
Record kbd_module := KbdModule {
  ops_ioctl : Z;
  proc_entry : Z;
  proc_fops : Z;
  charbuf : Z
}.

(** ** Answers of the controller *)

(** The reads [rs], one after the other, get these answers. *)
Fixpoint answered (dev : device) (t : trace) (rs : list (Z * Z)) : Prop :=
  match rs with
  | [] => True
  | (p, v) :: rs => u8 (dev t p) = v /\ answered dev (t ++ [In p v]) rs
  end.

Definition reads (rs : list (Z * Z)) : trace := (fun r => In r.1 r.2) <$> rs.

Lemma answered_app dev t rs1 rs2 :
  answered dev t (rs1 ++ rs2) <-> answered dev t rs1 /\ answered dev (t ++ reads rs1) rs2.
Proof.
  revert t. induction rs1 as [|[p v] rs1 IH]; intros t; [simpl; rewrite app_nil_r; tauto|].
  cbn [app answered reads fmap list_fmap]. rewrite IH. rewrite <- app_assoc. tauto.
Qed.

Lemma inb_answer dev t p v : 0 <= p < 65536 -> u8 (dev t p) = v -> inb dev t p = (t ++ [In p v], v).
Proof. intros Hp E. unfold inb. rewrite u16_small by lia. by rewrite E. Qed.

(** Bit 7 tells a release code, bit 0 of the status a full buffer. *)
Definition released (b : Z) : bool := 128 <=? b.
Definition full (st : Z) : bool := Z.odd st.

Lemma release_bit b : 0 <= b < 256 -> c_true (Z.land (s8 b) 0x80) = released b.
Proof.
  intros Hb. assert (forallb (fun b => Bool.eqb (c_true (Z.land (s8 b) 0x80)) (released b)) (seqZ 0 256) = true)
    as H by by vm_compute.
  rewrite forallb_forall in H. apply eqb_prop, H, list_elem_of_In, elem_of_seqZ. lia.
Qed.

Lemma full_bit st : c_true (Z.land st 0x1) = full st.
Proof.
  unfold c_true, full. change 0x1 with (Z.ones 1). rewrite Z.land_ones by lia.
  rewrite Zmod_odd. by destruct (Z.odd st).
Qed.

Lemma scancode_in c : 0 <= c < 128 -> is_Some (scancode_at c).
Proof.
  intros Hc. unfold scancode_at. rewrite ltb_ge by lia. apply lookup_lt_is_Some.
  change (length scancode) with 128%nat. lia.
Qed.

(** ** Concrete controllers *)

(** The answers of the list, by the number of accesses so far; then an empty buffer. *)
Definition ex_controller (rs : list (Z * Z)) : device := fun t _ => snd (nth (length t) rs (0, 0)).

Definition ex_IOR (type nr size : Z) : Z := 0x80000000 + 0x10000 * size + 0x100 * type + nr.
