(* ===== verification/KbdBw.v ===== *)
(** * KbdBw: the polling keyboard module, src/primer/kbd_busywait/kbd_bw_driver.c

    [kbd_readkey], the ioctl servicer and the functions of the module's life, on the
    trace of port accesses, the user's memory and the log of kernel calls. *)

From Stdlib Require Import Strings.String.
From S2P Require Import Prelude Memory Portio Kvideo Keyboard.

Section Bw.
(** The controller and the bound of the loop. *)
Context (dev : device) (fuel : nat).
(** linux/ioctl.h ([size] of the type last) and linux/errno.h *)
Context (_IOW _IOR : Z -> Z -> Z -> Z) (EINVAL : Z).
(** What [copy_from_user] leaves in a [struct kbd_action]; [copy_to_user]. *)
Context (copy_from_user : mem -> Z -> Z * Z) (copy_to_user : mem -> Z -> list Z -> mem).
(** The result of [create_proc_entry]; the addresses of [kbd_bw_servicer] and of
    [kbd_bw_dev_proc_operations]. *)
Context (created servicer operations : Z).

Definition KBD_IOCTL_TEST : Z := _IOW 0 0 8.
Definition KBD_IOCTL_READKEY : Z := _IOR 0 1 1.

(** [while( !(inb( 0x64 ) & 0x1) || ( ( c = inb( 0x60 ) ) & 0x80 ) );] *)
Fixpoint readkey_loop (n : nat) (t : trace) : option (trace * Z) :=
  match n with
  | O => None
  | S n =>
      let '(t, st) := inb dev t 0x64 in
      if negb (c_true (Z.land st 0x1)) then readkey_loop n t
      else
        let '(t, b) := inb dev t 0x60 in
        let c := s8 b in
        if c_true (Z.land c 0x80) then readkey_loop n t else Some (t, c)
  end.

Definition kbd_readkey (t : trace) : option (trace * Z) :=
  '(t, c) ← readkey_loop fuel t;
  k ← scancode_at c;
  Some (t, k).

(** The result: port accesses, user memory, kernel calls, return value. *)
Definition kbd_bw_servicer (t : trace) (m : mem) (log : list kcall) (cmd arg : Z) :
  option (trace * mem * list kcall * Z) :=
  let log := log ++ [Disable_irq 1] in
  if cmd =? KBD_IOCTL_TEST then
    let '(key, status) := copy_from_user m arg in
    let log := log ++ [Printk (line (chars "<1> ioctl call to KBD_IOCTL_TEST (%c,%d)!")) [key; status]] in
    let log := log ++ [Printk (line (chars "<1> kbd_test_ioctl_servicer called with IOCTL_TEST.")) []] in
    Some (t, m, log ++ [Enable_irq 1], 0)
  else if cmd =? KBD_IOCTL_READKEY then
    '(t, c) ← kbd_readkey t;
    let m := copy_to_user m arg [c] in
    let log := log ++ [Printk (line (chars
      "<1> KBD Module : kbd_test_ioctl_servicer called with KBD_IOCTL_READKEY.")) []] in
    let log := log ++ [Printk (line (chars "<1> Copied (%x) to userspace")) [c]] in
    Some (t, m, log ++ [Enable_irq 1], 0)
  else Some (t, m, log, - EINVAL).

Definition kbd_bw_init (k : kbd_module) (log : list kcall) : kbd_module * list kcall * Z :=
  let log := log ++ [Printk (line (chars "<1> Loading busywait based KBD.")) []] in
  let k := KbdModule servicer created (proc_fops k) (charbuf k) in
  if negb (c_true (proc_entry k)) then
    (k, log ++ [Printk (line (chars "<1> Error creating /proc entry.")) []], 1)
  else (KbdModule (ops_ioctl k) (proc_entry k) operations (charbuf k), log, 0).

Definition kbd_bw_exit (log : list kcall) : list kcall :=
  log ++ [Printk (line (chars "<1> Dumping kbd_bw Module")) []; Remove_proc_entry (chars "kbd_bw")].
End Bw.

(** ** What a read does *)

(** What a poll of the controller finds: nothing, or the code of a released key. *)
Inductive poll := Empty (st : Z) | Released (st b : Z).

Definition poll_ok (p : poll) : Prop :=
  match p with
  | Empty st => full st = false
  | Released st b => full st = true /\ 128 <= b < 256
  end.

Definition poll_reads (p : poll) : list (Z * Z) :=
  match p with Empty st => [(0x64, st)] | Released st b => [(0x64, st); (0x60, b)] end.

(** The polls, then a full buffer with the code of a pressed key. *)
Definition press_reads (ps : list poll) (st c : Z) : list (Z * Z) :=
  concat (poll_reads <$> ps) ++ [(0x64, st); (0x60, c)].

Lemma bw_readkey_loop dev n t ps st c :
  answered dev t (press_reads ps st c) -> Forall poll_ok ps -> full st = true -> 0 <= c < 128 ->
  (length ps < n)%nat -> readkey_loop dev n t = Some (t ++ reads (press_reads ps st c), c).
Proof.
  intros Ha Hp Hst Hc. revert t n Ha. induction Hp as [|p ps Hp Hps IH]; intros t n Ha Hn;
    (destruct n as [|n]; cbn [length] in Hn; [lia|]); cbn [readkey_loop].
  - destruct Ha as (E1 & E2 & _). rewrite (inb_answer _ _ _ st), full_bit, Hst by done. cbn [negb].
    rewrite (inb_answer _ _ _ c), release_bit by (done || lia). unfold released. rewrite leb_gt by lia.
    rewrite <- app_assoc. repeat f_equal. unfold s8. dlia.
  - unfold press_reads in *. cbn [fmap list_fmap concat] in *. rewrite <- app_assoc in *.
    fold (press_reads ps st c) in *. unfold reads. rewrite fmap_app. fold (reads (press_reads ps st c)).
    apply answered_app in Ha as [Ha Ha2].
    destruct p as [st1|st1 b]; cbn [poll_reads answered poll_ok] in Ha, Hp.
    + destruct Ha as [E1 _]. rewrite (inb_answer _ _ _ st1), full_bit, Hp by done. cbn [negb].
      rewrite app_assoc. by apply IH; [|lia].
    + destruct Ha as (E1 & E2 & _), Hp as [Hf Hb]. rewrite (inb_answer _ _ _ st1), full_bit, Hf by done. cbn [negb].
      rewrite (inb_answer _ _ _ b), release_bit by (done || lia). unfold released. rewrite leb_le by lia.
      rewrite <- (app_assoc t [_] [_]), (app_assoc t (_ <$> _)). apply (IH (t ++ [In 0x64 st1; In 0x60 b])); [done|lia].
Qed.

(** ** Properties *)

(** How often the line is disabled after these calls. *)
Definition irq_depth (line : Z) (log : list kcall) : Z :=
  Z.of_nat (length (filter (fun k => k = Disable_irq line) log)) -
  Z.of_nat (length (filter (fun k => k = Enable_irq line) log)).

Lemma irq_depth_app line log1 log2 : irq_depth line (log1 ++ log2) = irq_depth line log1 + irq_depth line log2.
Proof. unfold irq_depth. rewrite !filter_app, !length_app. lia. Qed.

(** A read: the controller's answers as listed, the character to the user, the line as
    it was. *)
Lemma bw_read dev fuel _IOW _IOR EINVAL from to t m log arg ps st c :
  answered dev t (press_reads ps st c) -> Forall poll_ok ps -> full st = true -> 0 <= c < 128 ->
  (length ps < fuel)%nat -> _IOR 0 1 1 <> _IOW 0 0 8 ->
  exists k log', scancode !! Z.to_nat c = Some k /\
    kbd_bw_servicer dev fuel _IOW _IOR EINVAL from to t m log (_IOR 0 1 1) arg =
      Some (t ++ reads (press_reads ps st c), to m arg [k], log', 0) /\
    irq_depth 1 log' = irq_depth 1 log.
Proof.
  intros Ha Hp Hst Hc Hf Hne. destruct (scancode_in c Hc) as [k Ek].
  assert (scancode !! Z.to_nat c = Some k) as Ek' by (unfold scancode_at in Ek; by rewrite ltb_ge in Ek by lia).
  exists k. unfold kbd_bw_servicer, KBD_IOCTL_TEST, KBD_IOCTL_READKEY, kbd_readkey.
  rewrite eqb_ne, Z.eqb_refl, (bw_readkey_loop dev fuel t ps st c) by done. cbn [mbind option_bind].
  rewrite Ek. cbn [mbind option_bind]. eexists. split_and!; [done|done|].
  rewrite !irq_depth_app. unfold irq_depth. simpl. lia.
Qed.

(** C37: the polling keyboard module.  A read ends at the first code of a pressed key,
    whatever empty polls and released keys come before it, has read the controller as
    listed, looks the code up inside the table, hands the character to the user and
    leaves the keyboard's interrupt line as it was; a command that the module does not
    know is refused, but the line stays disabled. *)
Theorem kbd_bw_servicer_ok dev fuel _IOW _IOR EINVAL from to t m log arg ps st c cmd :
  let servicer := kbd_bw_servicer dev fuel _IOW _IOR EINVAL from to t m log in
  answered dev t (press_reads ps st c) -> Forall poll_ok ps -> full st = true -> 0 <= c < 128 ->
  (length ps < fuel)%nat -> _IOR 0 1 1 <> _IOW 0 0 8 -> cmd <> _IOW 0 0 8 -> cmd <> _IOR 0 1 1 ->
  (exists k log', scancode !! Z.to_nat c = Some k /\
    servicer (_IOR 0 1 1) arg = Some (t ++ reads (press_reads ps st c), to m arg [k], log', 0) /\
    irq_depth 1 log' = irq_depth 1 log) /\
  (exists log', servicer cmd arg = Some (t, m, log', - EINVAL) /\ irq_depth 1 log' = irq_depth 1 log + 1).
Proof.
  intros servicer Ha Hp Hst Hc Hf Hne H1 H2. split; [by apply bw_read|].
  unfold servicer, kbd_bw_servicer, KBD_IOCTL_TEST, KBD_IOCTL_READKEY. rewrite !eqb_ne by done.
  eexists. split; [done|]. rewrite irq_depth_app. unfold irq_depth. simpl. lia.
Qed.

(** ** A concrete controller *)

Definition ex_IOW (type nr size : Z) : Z := 0x40000000 + 0x10000 * size + 0x100 * type + nr.

(** An empty poll, a released key, then the key A. *)
Definition ex_polls : list poll := [Empty 0x1c; Released 0x1d 0x9e].

Lemma kbd_bw_servicer_ok_witness :
  (exists k log', scancode !! Z.to_nat 0x1e = Some k /\
    kbd_bw_servicer (ex_controller (press_reads ex_polls 0x1d 0x1e)) 3 ex_IOW ex_IOR 22
      (fun _ _ => (0, 0)) (fun m d l => store_bytes m d l) [] mem_zero [] (ex_IOR 0 1 1) 0x8000 =
      Some (reads (press_reads ex_polls 0x1d 0x1e), store_bytes mem_zero 0x8000 [k], log', 0) /\
    irq_depth 1 log' = 0) /\
  (exists log', kbd_bw_servicer (ex_controller (press_reads ex_polls 0x1d 0x1e)) 3 ex_IOW ex_IOR 22
      (fun _ _ => (0, 0)) (fun m d l => store_bytes m d l) [] mem_zero [] 7 0x8000 =
      Some ([], mem_zero, log', - (22)) /\ irq_depth 1 log' = 0 + 1).
Proof.
  apply (kbd_bw_servicer_ok (ex_controller (press_reads ex_polls 0x1d 0x1e)) 3 ex_IOW ex_IOR 22
    (fun _ _ => (0, 0)) (fun m d l => store_bytes m d l) [] mem_zero [] 0x8000 ex_polls 0x1d 0x1e 7).
  - vm_compute. by split_and!.
  - repeat constructor; vm_compute; done.
  - done.
  - lia.
  - simpl. lia.
  - done.
  - done.
  - done.
Defined.
