(* ===== verification/KbdProg.v ===== *)
(** * KbdProg: the programs that use the keyboard modules

    src/primer/kbd_busywait/kbd_bw_getchar.c and kbd_bw_test.c, src/primer/kbd_irq/
    kbd_irq_getchar.c and kbd_irq_test.c: [getchar] by ioctl, and the two test programs.
    What a module promises them is the class [Keys]; the polling module of KbdBw.v
    is an instance. *)

From Stdlib Require Import Strings.String.
From S2P Require Import Prelude Memory Portio Kvideo Keyboard KbdBw.

Section Programs.
(** The state of the operating system and its calls on an open file; [open] takes the
    path and the flags. *)
Context {K : Type} (open : K -> list Z -> Z -> K * Z) (close : K -> Z -> K).
Context (ioctl : mem -> K -> Z -> Z -> Z -> option (mem * K * Z)).
Context (_IOW _IOR : Z -> Z -> Z -> Z) (O_RDONLY : Z).
(** The C library's allocator; the addresses of the local variables [c] of [getchar],
    [action] of [test_kbd_driver] and [ioctl_test] of [main]. *)
Context (malloc : mem -> Z -> mem * Z) (realloc : mem -> Z -> Z -> mem * Z).
Context (c action ioctl_test : Z).

(** [open], [ioctl], [close]; the programs look at no result. *)
Definition dev_ioctl (m : mem) (k : K) (path : list Z) (cmd arg : Z) : option (mem * K) :=
  let '(k, fd) := open k path O_RDONLY in
  '(m, k, _) ← ioctl m k fd cmd arg;
  Some (m, close k fd).

Definition getchar (path : list Z) (m : mem) (k : K) : option (mem * K * Z) :=
  '(m, k) ← dev_ioctl m k path (KBD_IOCTL_READKEY _IOR) c;
  Some (m, k, s8 (load8 m c)).

Definition kbd_busywait_getchar : mem -> K -> option (mem * K * Z) := getchar (chars "/proc/kbd_bw").
Definition kbd_irq_getchar : mem -> K -> option (mem * K * Z) := getchar (chars "/proc/kbd_irq").

(** [struct kbd_action]: [key] at 0, [status] at 4. *)
Definition test_kbd_driver (m : mem) (k : K) (out1 out2 : Z) : option (mem * K) :=
  let m := store8 m action out1 in
  let m := store32 m (action + 4) out2 in
  dev_ioctl m k (chars "/proc/kbd_bw") (KBD_IOCTL_TEST _IOW) action.

(** [while ((c = kbd_busywait_getchar()) != '\n')]; the last component is [str], or
    [None] when [realloc] has failed and the program exits. *)
Fixpoint line_loop (n : nat) (m : mem) (k : K) (str str_size i : Z) : option (mem * K * option Z) :=
  match n with
  | O => None
  | S n =>
      '(m, k, ch) ← kbd_busywait_getchar m k;
      if ch =? 10 then Some (m, k, Some str)
      else
        let m := store8 m (str + i) ch in
        let i := i + 1 in
        if str_size <=? i then
          let str_size := s32 (str_size * 2) in
          let '(m, str) := realloc m str (u32 str_size) in
          if negb (c_true str) then Some (m, k, None) else line_loop n m k str str_size i
        else line_loop n m k str str_size i
  end.

(** The calls of [printf], format and arguments, and the status of the process. *)
Definition output : Type := list (list Z * list Z).

Definition kbd_bw_test (fuel : nat) (m : mem) (k : K) : option (mem * K * output * Z) :=
  let m := store32 m (ioctl_test + 4) 10 in
  let m := store8 m ioctl_test 97 in
  '(m, k) ← dev_ioctl m k (chars "/proc/kbd_bw") (KBD_IOCTL_TEST _IOW) ioctl_test;
  let str_size := 4 in
  let '(m, str) := malloc m str_size in
  '(m, k, r) ← line_loop fuel m k str str_size 0;
  match r with
  | None => Some (m, k, [(line (chars "realloc error"), [])], 1)
  | Some str => Some (m, k, [(chars "%s", [str])], 0)
  end.

Fixpoint echo_loop (n : nat) (m : mem) (k : K) (out : output) : option (mem * K * output) :=
  match n with
  | O => None
  | S n =>
      '(m, k, ch) ← kbd_irq_getchar m k;
      if ch =? 10 then Some (m, k, out)
      else echo_loop n m k (out ++ [(line (chars "Got %c "), [ch])])
  end.

Definition kbd_irq_test (fuel : nat) (m : mem) (k : K) : option (mem * K * output * Z) :=
  '(m, k, out) ← echo_loop fuel m k [];
  Some (m, k, out, 0).
End Programs.

(** ** What the programs rely on *)

(** The keys to come, in the state [k] of the system, as characters: each read takes
    one of them, the test command none. *)
Class Keys {K : Type} (open : K -> list Z -> Z -> K * Z) (close : K -> Z -> K)
  (ioctl : mem -> K -> Z -> Z -> Z -> option (mem * K * Z)) (_IOW _IOR : Z -> Z -> Z -> Z) (O_RDONLY : Z)
  (path : list Z) (keys : K -> list Z -> Prop) := {
  keys_range k ch cs : keys k (ch :: cs) -> 0 <= ch < 128;
  keys_read m k arg ch cs : keys k (ch :: cs) -> exists m' k',
    dev_ioctl open close ioctl O_RDONLY m k path (KBD_IOCTL_READKEY _IOR) arg = Some (m', k') /\
    load8 m' arg = ch /\ same_off arg 1 m m' /\ keys k' cs;
  keys_test m k arg cs : keys k cs -> exists k',
    dev_ioctl open close ioctl O_RDONLY m k path (KBD_IOCTL_TEST _IOW) arg = Some (m, k') /\ keys k' cs
}.

(** The allocator: [fresh] before the first block, [block m p n] when the program has
    the [n] bytes at [p]; up to [room] bytes it does not fail.  [locals] are the bytes
    of the program's variables. *)
Class Blocks (malloc : mem -> Z -> mem * Z) (realloc : mem -> Z -> Z -> mem * Z)
  (locals : Z -> Prop) (room : Z) (fresh : mem -> Prop) (block : mem -> Z -> Z -> Prop) := {
  fresh_keep m m' : fresh m -> same_on (fun x => ~ locals x) m m' -> fresh m';
  block_keep m m' p n :
    block m p n -> same_on (fun x => ~ p <= x < p + n /\ ~ locals x) m m' -> block m' p n;
  block_locals m p n x : block m p n -> p <= x < p + n -> ~ locals x;
  malloc_block m n : fresh m -> 0 < n <= room -> exists m' p, malloc m n = (m', p) /\ block m' p n;
  realloc_block m p n n' : block m p n -> n <= n' <= room -> exists m' p',
    realloc m p n' = (m', p') /\ p' <> 0 /\ block m' p' n' /\
    forall i, 0 <= i < n -> load8 m' (p' + i) = load8 m (p + i)
}.

Definition stored (m : mem) (p : Z) (l : list Z) : Prop :=
  forall j, (j < length l)%nat -> load8 m (p + Z.of_nat j) = l !!! j.

Lemma stored_snoc m p l x : stored m p l -> load8 m (p + Z.of_nat (length l)) = x -> stored m p (l ++ [x]).
Proof.
  intros H E j Hj. rewrite length_app in Hj. simpl in Hj.
  destruct (decide (j < length l)%nat).
  - rewrite lookup_total_app_l by done. by apply H.
  - rewrite lookup_total_app_r by lia. replace j with (length l) by lia. by rewrite Nat.sub_diag.
Qed.

Lemma stored_text m p l t :
  stored m p l -> 0 ∉ l -> cstr m (p + Z.of_nat (length l)) t -> cstr m p (l ++ t).
Proof.
  revert p. induction l as [|x l IH]; intros p H Hn Ht; cbn [app length] in *.
  - by replace (p + Z.of_nat 0) with p in Ht by lia.
  - apply not_elem_of_cons in Hn as [Hx Hn]. cbn [cstr]. split_and!; [done| |].
    + pose proof (H 0%nat ltac:(simpl; lia)) as E. by rewrite Z.add_0_r in E.
    + apply IH; [|done|by replace (p + 1 + Z.of_nat (length l)) with (p + Z.of_nat (S (length l))) by lia].
      intros j Hj. pose proof (H (S j) ltac:(simpl; lia)) as E.
      by replace (p + 1 + Z.of_nat j) with (p + Z.of_nat (S j)) by lia.
Qed.

(** ** The programs *)

Section Programs_ok.
Context {K : Type} (open : K -> list Z -> Z -> K * Z) (close : K -> Z -> K).
Context (ioctl : mem -> K -> Z -> Z -> Z -> option (mem * K * Z)).
Context (_IOW _IOR : Z -> Z -> Z -> Z) (O_RDONLY : Z) (keys : K -> list Z -> Prop).

Definition is_key (ch : Z) : Prop := ch <> 10.

Lemma getchar_key c path m k ch cs :
  Keys open close ioctl _IOW _IOR O_RDONLY path keys -> keys k (ch :: cs) ->
  exists m' k', getchar open close ioctl _IOR O_RDONLY c path m k = Some (m', k', ch) /\
    same_off c 1 m m' /\ keys k' cs.
Proof.
  intros HK Hk. pose proof (keys_range _ _ _ Hk) as Hr.
  destruct (keys_read m k c ch cs Hk) as (m' & k' & E & Hc & Hm & Hk'). exists m', k'.
  unfold getchar. rewrite E. cbn [mbind option_bind]. split_and!; [|done|done].
  rewrite Hc. repeat f_equal. unfold s8. dlia.
Qed.

(** The interrupt driven program prints every key up to the newline. *)
Lemma kbd_irq_test_ok c fuel m k cs rest :
  Keys open close ioctl _IOW _IOR O_RDONLY (chars "/proc/kbd_irq") keys ->
  keys k (cs ++ 10 :: rest) -> Forall is_key cs -> (length cs < fuel)%nat ->
  exists m' k', kbd_irq_test open close ioctl _IOR O_RDONLY c fuel m k =
      Some (m', k', (fun ch => (line (chars "Got %c "), [ch])) <$> cs, 0) /\
    same_off c 1 m m' /\ keys k' rest.
Proof.
  intros HK Hk Hcs Hf. unfold kbd_irq_test.
  enough (forall out, exists m' k', echo_loop open close ioctl _IOR O_RDONLY c fuel m k out =
      Some (m', k', out ++ ((fun ch => (line (chars "Got %c "), [ch])) <$> cs)) /\
    same_off c 1 m m' /\ keys k' rest) as H.
  { destruct (H []) as (m' & k' & E & Hm & Hr). exists m', k'. by rewrite E. }
  revert fuel m k Hk Hf. induction Hcs as [|ch cs Hch _ IH]; intros fuel m k Hk Hf out;
    (destruct fuel as [|n]; cbn [length] in Hf; [lia|]); cbn [echo_loop];
    destruct (getchar_key c _ m k _ _ HK Hk) as (m1 & k1 & E & Hm & Hk1);
    unfold kbd_irq_getchar; rewrite E; cbn [mbind option_bind].
  - exists m1, k1. by rewrite app_nil_r.
  - rewrite eqb_ne by done. destruct (IH n m1 k1 Hk1 ltac:(lia) (out ++ [(line (chars "Got %c "), [ch])]))
      as (m2 & k2 & E2 & Hm2 & Hk2).
    exists m2, k2. unfold kbd_irq_getchar in E2. rewrite E2, <- app_assoc. split_and!; [done| |done].
    by etrans.
Qed.

Context (malloc : mem -> Z -> mem * Z) (realloc : mem -> Z -> Z -> mem * Z).
Context (c ioctl_test room : Z) (fresh : mem -> Prop) (block : mem -> Z -> Z -> Prop).
Definition locals (x : Z) : Prop := ~ off c 1 x \/ ~ off ioctl_test 8 x.
Context (HK : Keys open close ioctl _IOW _IOR O_RDONLY (chars "/proc/kbd_bw") keys).
Context (HB : Blocks malloc realloc locals room fresh block).

(** The block holds the text so far. *)
Record typed (m : mem) (str size : Z) (l : list Z) : Prop := {
  ty_block : block m str size;
  ty_stored : stored m str l;
  ty_room : Z.of_nat (length l) < size <= 2 * Z.of_nat (length l) + 4
}.

Lemma typed_read m m' str size l : typed m str size l -> same_off c 1 m m' -> typed m' str size l.
Proof.
  intros [Hb Hs Hr] Hm. split; [| |done].
  - eapply block_keep; [exact Hb|]. eapply same_on_weaken; [|exact Hm].
    intros a [_ Ha]. unfold locals, off in *. lia.
  - intros j Hj. rewrite <- Hs by done. apply Hm.
    pose proof (block_locals _ _ _ (str + Z.of_nat j) Hb ltac:(lia)) as Ha. unfold locals, off in *. lia.
Qed.

(** The text grows by a character; [str_size] doubles when it is used up. *)
Lemma typed_grow m str size l ch :
  typed m str size l -> 0 <= ch < 128 -> 2 * Z.of_nat (length l) + 4 <= room -> room < 2147483648 ->
  let m1 := store8 m (str + Z.of_nat (length l)) ch in
  if size <=? Z.of_nat (length l) + 1 then
    exists m2 str2, realloc m1 str (u32 (s32 (size * 2))) = (m2, str2) /\ str2 <> 0 /\
      typed m2 str2 (s32 (size * 2)) (l ++ [ch])
  else typed m1 str size (l ++ [ch]).
Proof.
  intros [Hb Hs Hr] Hch Hroom Hmax m1.
  assert (block m1 str size) as Hb1.
  { eapply block_keep; [exact Hb|]. intros a [Ha _]. apply load8_store8_ne. lia. }
  assert (stored m1 str (l ++ [ch])) as Hs1.
  { apply stored_snoc; [|unfold m1; rewrite load8_store8_eq by done; unfold u8; dlia].
    intros j Hj. rewrite <- Hs by done. apply load8_store8_ne. lia. }
  case_Z; [|split; [done|done|rewrite length_app; simpl; lia]].
  replace (s32 (size * 2)) with (size * 2) by (unfold s32; dlia).
  replace (u32 (size * 2)) with (size * 2) by (unfold u32; dlia).
  destruct (realloc_block m1 str size (size * 2) Hb1) as (m2 & str2 & E & Hne & Hb2 & Hc); [lia|].
  exists m2, str2. split_and!; [done..|]. split; [done| |rewrite length_app; simpl; lia].
  intros j Hj. rewrite <- Hs1 by done. apply Hc. rewrite length_app in Hj. simpl in Hj. lia.
Qed.

Lemma line_loop_ok n m k str size l cs rest :
  keys k (cs ++ 10 :: rest) -> Forall is_key cs -> (length cs < n)%nat -> typed m str size l ->
  2 * Z.of_nat (length l + length cs) + 4 <= room -> room < 2147483648 ->
  exists m' k' str' size', line_loop open close ioctl _IOR O_RDONLY realloc c n m k str size (Z.of_nat (length l)) =
      Some (m', k', Some str') /\
    typed m' str' size' (l ++ cs) /\ keys k' rest.
Proof.
  intros Hk Hcs. revert n m k str size l Hk.
  induction Hcs as [|ch cs Hch _ IH]; intros n m k str size l Hk Hn T Hroom Hmax;
    (destruct n as [|n]; cbn [length] in Hn; [lia|]); cbn [line_loop];
    destruct (getchar_key c _ m k _ _ HK Hk) as (m1 & k1 & E & Hm & Hk1);
    pose proof (typed_read _ _ _ _ _ T Hm) as T1;
    unfold kbd_busywait_getchar; rewrite E; cbn [mbind option_bind].
  - exists m1, k1, str, size. by rewrite app_nil_r.
  - rewrite eqb_ne by done. cbn [length] in Hroom.
    pose proof (typed_grow _ _ _ _ ch T1 (keys_range _ _ _ Hk) ltac:(lia) Hmax) as T2.
    assert (Z.of_nat (length (l ++ [ch])) = Z.of_nat (length l) + 1) as El by (rewrite length_app; simpl; lia).
    destruct (size <=? Z.of_nat (length l) + 1).
    + destruct T2 as (m2 & str2 & E2 & Hne & T2). rewrite E2, c_true_nonzero by done. cbn [negb].
      destruct (IH n m2 k1 str2 (s32 (size * 2)) (l ++ [ch])) as (m3 & k3 & str3 & size3 & E3 & T3 & Hk3);
        try done; [lia|rewrite length_app; simpl; lia|].
      rewrite El in E3. rewrite <- app_assoc in T3. by exists m3, k3, str3, size3.
    + destruct (IH n (store8 m1 (str + Z.of_nat (length l)) ch) k1 str size (l ++ [ch]))
        as (m3 & k3 & str3 & size3 & E3 & T3 & Hk3); try done; [lia|rewrite length_app; simpl; lia|].
      rewrite El in E3. rewrite <- app_assoc in T3. by exists m3, k3, str3, size3.
Qed.

(** C39: the test program of the polling module.  With the keys of a line to come, it
    ends with status 0 whatever the length of the line; every character is in the
    block, in order, at an index inside it; exactly the line and its newline have been
    taken.  Nothing ends the text: [printf] prints it followed by whatever bytes the
    block holds behind it. *)
Theorem kbd_bw_test_ok fuel m k cs rest :
  fresh m -> keys k (cs ++ 10 :: rest) -> Forall is_key cs -> (length cs < fuel)%nat ->
  2 * Z.of_nat (length cs) + 4 <= room -> room < 2147483648 ->
  exists m' k' str size, kbd_bw_test open close ioctl _IOW _IOR O_RDONLY malloc realloc c ioctl_test fuel m k =
      Some (m', k', [(chars "%s", [str])], 0) /\
    keys k' rest /\ block m' str size /\ Z.of_nat (length cs) < size /\ stored m' str cs /\
    forall t, 0 ∉ cs -> cstr m' (str + Z.of_nat (length cs)) t -> cstr m' str (cs ++ t).
Proof using HB HK.
  intros Hf Hk Hcs Hn Hroom Hmax. unfold kbd_bw_test.
  set (m1 := store8 (store32 m (ioctl_test + 4) 10) ioctl_test 97).
  assert (fresh m1) as Hf1.
  { eapply fresh_keep; [exact Hf|]. intros a Ha. unfold m1. unfold locals, off in Ha.
    rewrite load8_store8_ne, load8_store32_ne by (unfold off; lia). done. }
  destruct (keys_test m1 k ioctl_test _ Hk) as (k1 & E1 & Hk1). rewrite E1. cbn [mbind option_bind].
  destruct (malloc_block m1 4 Hf1) as (m2 & str & E2 & Hb); [lia|]. rewrite E2.
  assert (typed m2 str 4 []) as T by (split; [done|intros j Hj; simpl in Hj; lia|simpl; lia]).
  destruct (line_loop_ok fuel m2 k1 str 4 [] cs rest Hk1 Hcs Hn T) as (m3 & k3 & str3 & size & E3 & [Hb3 Hs3 Hr3] & Hk3);
    [simpl; lia|done|].
  change (Z.of_nat (length (@nil Z))) with 0 in E3. rewrite E3. cbn [mbind option_bind].
  exists m3, k3, str3, size. cbn [app] in *. split_and!; try done; [lia|].
  intros t Hz Ht. by apply stored_text.
Qed.
End Programs_ok.

(** ** The polling module behind the calls *)

Section Bw_keys.
Context (dev : device) (fuel : nat) (_IOW _IOR : Z -> Z -> Z -> Z) (EINVAL fd O_RDONLY : Z).
Context (from : mem -> Z -> Z * Z) (to : mem -> Z -> list Z -> mem).
Context (Hcmd : _IOR 0 1 1 <> _IOW 0 0 8).
Context (Hto : forall m a b, 0 <= b < 128 -> load8 (to m a [b]) a = b /\ same_off a 1 m (to m a [b])).

(** The system: the trace of port accesses and the log of kernel calls; [ioctl] on the
    entry in /proc calls the servicer. *)
Definition bw_state : Type := trace * list kcall.
Definition bw_open (k : bw_state) (path : list Z) (flags : Z) : bw_state * Z := (k, fd).
Definition bw_close (k : bw_state) (fd : Z) : bw_state := k.
Definition bw_ioctl (m : mem) (k : bw_state) (fd cmd arg : Z) : option (mem * bw_state * Z) :=
  '(t, m, log, r) ← kbd_bw_servicer dev fuel _IOW _IOR EINVAL from to k.1 m k.2 cmd arg;
  Some (m, (t, log), r).

(** A key press: the polls before it, the status and the code. *)
Definition press : Type := list poll * Z * Z.
Definition press_ok (p : press) (ch : Z) : Prop :=
  let '(ps, st, code) := p in
  Forall poll_ok ps /\ (length ps < fuel)%nat /\ full st = true /\ 0 <= code < 128 /\
  scancode !! Z.to_nat code = Some ch.

Definition presses_reads (l : list press) : list (Z * Z) :=
  concat ((fun '(ps, st, code) => press_reads ps st code) <$> l).

(** The controller is about to answer with these presses. *)
Definition bw_keys (k : bw_state) (cs : list Z) : Prop :=
  exists l, answered dev k.1 (presses_reads l) /\ Forall2 press_ok l cs.

Lemma scancode_range i ch : scancode !! i = Some ch -> 0 <= ch < 128.
Proof.
  assert (forallb (fun b => (0 <=? b) && (b <? 128)) scancode = true) as H by by vm_compute.
  rewrite forallb_forall in H. intros E%list_elem_of_lookup_2%list_elem_of_In%H. lia.
Qed.

#[export] Instance bw_keys_ok :
  Keys bw_open bw_close bw_ioctl _IOW _IOR O_RDONLY (chars "/proc/kbd_bw") bw_keys.
Proof.
  split.
  - intros k ch cs (l & _ & H). inversion H as [|[[ps st] code] ? ? ? (_ & _ & _ & _ & E)]; subst.
    by eapply scancode_range.
  - intros m [t log] arg ch cs (l & Ha & H).
    inversion H as [|[[ps st] code] ? l' ? (Hps & Hn & Hst & Hc & E) H']; subst.
    unfold presses_reads in Ha. cbn [fmap list_fmap concat fst] in Ha.
    apply answered_app in Ha as [Ha1 Ha2].
    destruct (bw_read dev fuel _IOW _IOR EINVAL from to t m log arg ps st code)
      as (ch' & log' & E' & Er & _); try done.
    assert (ch' = ch) as -> by congruence.
    destruct (Hto m arg ch (scancode_range _ _ E)) as [Hl Hm].
    exists (to m arg [ch]), (t ++ reads (press_reads ps st code), log').
    split_and!; [|done|done|by exists l'].
    unfold dev_ioctl, bw_open, bw_ioctl, KBD_IOCTL_READKEY. cbn [fst snd]. by rewrite Er.
  - intros m [t log] arg cs Hk.
    unfold dev_ioctl, bw_open, bw_ioctl, kbd_bw_servicer, KBD_IOCTL_TEST. cbn [fst snd].
    rewrite Z.eqb_refl. destruct (from m arg). cbn [mbind option_bind].
    eexists. split; [reflexivity|exact Hk].
Qed.
End Bw_keys.

(** ** A line typed at a concrete controller *)

(** An allocator with one block at 0x10000, which grows in place. *)
Definition ex_malloc (m : mem) (n : Z) : mem * Z := (m, 0x10000).
Definition ex_realloc (m : mem) (p n : Z) : mem * Z := (m, p).
Definition ex_block (m : mem) (p n : Z) : Prop := p = 0x10000 /\ n <= 0x10000.

#[export] Instance ex_blocks :
  Blocks ex_malloc ex_realloc (locals 0x8000 0x8008) 0x10000 (fun _ => True) ex_block.
Proof.
  split; unfold ex_block, ex_malloc, ex_realloc.
  - done.
  - done.
  - intros m p n x [-> Hn] Hx. unfold locals, off. lia.
  - intros m n _ Hn. exists m, 0x10000. by split_and!; [| |lia].
  - intros m p n n' [-> Hn] Hn'. exists m, 0x10000. split_and!; try done; lia.
Qed.

(** The keys H, E, L, L, O and Enter, an empty poll before each. *)
Definition ex_presses : list press := (fun code => ([Empty 0x1c], 0x1d, code)) <$> [0x23; 0x12; 0x26; 0x26; 0x18; 0x1c].
Definition ex_line : list Z := chars "hello".

Lemma kbd_bw_test_ok_witness :
  let dev := ex_controller (presses_reads ex_presses) in
  exists m' k' str size, kbd_bw_test (bw_open 3) bw_close
      (bw_ioctl dev 2 ex_IOW ex_IOR 22 (fun _ _ => (0, 0)) (fun m d l => store_bytes m d l))
      ex_IOW ex_IOR 0 ex_malloc ex_realloc 0x8000 0x8008 6 mem_zero ([], []) =
      Some (m', k', [(chars "%s", [str])], 0) /\
    bw_keys dev 2 k' [] /\ ex_block m' str size /\ 5 < size /\ stored m' str ex_line /\
    forall t, 0 ∉ ex_line -> cstr m' (str + 5) t -> cstr m' str (ex_line ++ t).
Proof.
  intros dev.
  assert (Keys (bw_open 3) bw_close (bw_ioctl dev 2 ex_IOW ex_IOR 22 (fun _ _ => (0, 0)) (fun m d l => store_bytes m d l))
    ex_IOW ex_IOR 0 (chars "/proc/kbd_bw") (bw_keys dev 2)) as HK.
  { apply bw_keys_ok; [done|]. intros m a b Hb. cbn [store_bytes].
    split; [rewrite load8_store8_eq by done; unfold u8; dlia|apply store8_same_off]. }
  apply (kbd_bw_test_ok _ _ _ _ _ _ _ _ _ _ _ 0x10000 _ _ HK ex_blocks 6 mem_zero ([], []) ex_line []).
  - done.
  - exists ex_presses. split; [vm_compute; by split_and!|].
    repeat constructor; vm_compute; done.
  - repeat constructor; vm_compute; done.
  - vm_compute. lia.
  - vm_compute. done.
  - done.
Defined.
