(* ===== verification/KbdIrq.v ===== *)
(** * KbdIrq: the interrupt-driven keyboard module, src/primer/kbd_irq/kbd_irq_driver.c

    The interrupt handler, the ioctl servicer that waits for it and the functions of
    the module's life, on the same state as KbdBw.v and the module's variables. *)

From Stdlib Require Import Strings.String.
From S2P Require Import Prelude Memory Portio Kvideo Keyboard.

Section Irq.
Context (dev : device) (fuel : nat) (_IOR : Z -> Z -> Z -> Z) (EINVAL : Z).
Context (copy_to_user : mem -> Z -> list Z -> mem).
(** Whether a signal is pending after these accesses. *)
Context (signal : trace -> bool).
(** The results of [create_proc_entry] and [request_irq]; addresses. *)
Context (created requested servicer operations handler : Z).

Definition KBD_IOCTL_READKEY : Z := _IOR 0 1 1.

(** [wait_event_interruptible(wait_q, inb(0x64) & 0x1)]: the condition is tested at
    the call and each time the reader is woken up. *)
Fixpoint wait_event (n : nat) (t : trace) : option trace :=
  match n with
  | O => None
  | S n =>
      let '(t, st) := inb dev t 0x64 in
      if c_true (Z.land st 0x1) then Some t
      else if signal t then Some t else wait_event n t
  end.

Definition kbd_irq_servicer (k : kbd_module) (t : trace) (m : mem) (log : list kcall) (cmd arg : Z) :
  option (trace * mem * list kcall * Z) :=
  if cmd =? KBD_IOCTL_READKEY then
    let log := log ++ [Printk (line (chars "KBD_IOCTL_READKEY called")) []] in
    t ← wait_event fuel t;
    let c := charbuf k in
    let m := copy_to_user m arg [c] in
    Some (t, m, log ++ [Printk (line (chars "<1> Copied (%x) to userspace")) [c]], 0)
  else Some (t, m, log, - EINVAL).

(** [while (( c = inb( 0x60 ) ) & 0x80 );] *)
Fixpoint readkey_loop (n : nat) (t : trace) : option (trace * Z) :=
  match n with
  | O => None
  | S n =>
      let '(t, b) := inb dev t 0x60 in
      let c := s8 b in
      if c_true (Z.land c 0x80) then readkey_loop n t else Some (t, c)
  end.

Definition kbd_readkey (t : trace) : option (trace * Z) :=
  '(t, c) ← readkey_loop fuel t;
  k ← scancode_at c;
  Some (t, k).

Definition irq_handler (k : kbd_module) (t : trace) (log : list kcall) :
  option (kbd_module * trace * list kcall) :=
  '(t, c) ← kbd_readkey t;
  Some (KbdModule (ops_ioctl k) (proc_entry k) (proc_fops k) c, t, log ++ [Wake_up_interruptible]).

Definition kbd_irq_init (k : kbd_module) (log : list kcall) : kbd_module * list kcall * Z :=
  let log := log ++ [Printk (line (chars "<1> Loading interrupt based KBD.")) []] in
  let k := KbdModule servicer created (proc_fops k) (charbuf k) in
  if negb (c_true (proc_entry k)) then
    (k, log ++ [Printk (line (chars "<1> Error creating /proc entry.")) []], 1)
  else
    let k := KbdModule (ops_ioctl k) (proc_entry k) operations (charbuf k) in
    let log := log ++ [Init_waitqueue_head] in
    (k, log ++ [Printk (line (chars "<1> Registered handler with %x cookie. %d.")) [handler; requested]], requested).

Definition kbd_irq_exit (log : list kcall) : list kcall :=
  log ++ [Printk (line (chars "<1> Dumping kbd_irq Module")) []; Remove_proc_entry (chars "kbd_irq");
          Free_irq 1 handler].
End Irq.

(** ** Handler and reader *)

(** The codes that the handler reads: those of released keys, then a pressed one. *)
Definition handler_reads (bs : list Z) (c : Z) : list (Z * Z) := (fun b => (0x60, b)) <$> (bs ++ [c]).

Lemma irq_readkey_loop dev n t bs c :
  answered dev t (handler_reads bs c) -> Forall (fun b => 128 <= b < 256) bs -> 0 <= c < 128 ->
  (length bs < n)%nat -> readkey_loop dev n t = Some (t ++ reads (handler_reads bs c), c).
Proof.
  intros Ha Hb Hc. revert t n Ha. induction Hb as [|b bs Hb Hbs IH]; intros t n Ha Hn;
    (destruct n as [|n]; cbn [length] in Hn; [lia|]); cbn [readkey_loop]; destruct Ha as [E Ha].
  - rewrite (inb_answer _ _ _ c), release_bit by (done || lia). unfold released. rewrite leb_gt by lia.
    repeat f_equal. unfold s8. dlia.
  - rewrite (inb_answer _ _ _ b), release_bit by (done || lia). unfold released. rewrite leb_le by lia.
    rewrite IH by (done || lia). unfold handler_reads. cbn [app fmap list_fmap reads]. by rewrite <- app_assoc.
Qed.

(** No byte arrives after [t]: the status stays empty however often it is read. *)
Definition drained (dev : device) (t : trace) : Prop :=
  forall vs, full (u8 (dev (t ++ reads ((fun v => (0x64, v)) <$> vs)) 0x64)) = false.

Lemma drained_read dev t v : drained dev t -> drained dev (t ++ [In 0x64 v]).
Proof. intros H vs. rewrite <- app_assoc. apply (H (v :: vs)). Qed.

Lemma drained_inb dev t : drained dev t ->
  exists v, inb dev t 0x64 = (t ++ [In 0x64 v], v) /\ c_true (Z.land v 0x1) = false.
Proof.
  intros H. exists (u8 (dev t 0x64)). split; [by apply inb_answer|]. rewrite full_bit.
  specialize (H []). by rewrite app_nil_r in H.
Qed.

Lemma wait_event_drained dev signal n t :
  drained dev t -> (forall t, signal t = false) -> wait_event dev signal n t = None.
Proof.
  intros H Hs. revert t H. induction n as [|n IH]; intros t H; [done|]. cbn [wait_event].
  destruct (drained_inb dev t H) as (v & -> & ->). rewrite Hs. by apply IH, drained_read.
Qed.

(** A data port that keeps giving the code of a released key. *)
Lemma readkey_loop_spins dev n t b :
  128 <= b < 256 -> (forall t, u8 (dev t 0x60) = b) -> readkey_loop dev n t = None.
Proof.
  intros Hb H. revert t. induction n as [|n IH]; intros t; [done|]. cbn [readkey_loop].
  rewrite (inb_answer _ _ _ b), release_bit by (done || lia). unfold released. by rewrite leb_le by lia.
Qed.

(** ** Properties *)


